(* ===== verification/_CoqProject ===== *)
-Q . S2P
Prelude.v
Rocks.v
Options.v
Stats.v
Tickers.v
Util.v
BlockQueue.v
ThreadPool.v
BlobFormat.v
Env.v
BaseDb.v
BlobFileBuilder.v
BlobFileReader.v
BlobFileIterator.v
MergeIterator.v
VersionEdit.v
BlobStorage.v
StorageInv.v
StorageQueries.v
EditCollector.v
BlobFileSet.v
ApplyInv.v
ManifestReplay.v
BlobGC.v
Scheduler.v
BlobFileSizeCollector.v
RangeMerge.v
DbEvents.v
CompactionSizes.v
DbEventsInv.v
CompactionInv.v
FileManager.v
StoredFiles.v
Directory.v
ForegroundBuilder.v
TableBuilder.v
GCJob.v
GCJobInv.v
GCFinish.v
TableBuilderInv.v
TitanDb.v
OpenDb.v
PurgeInv.v
DbIter.v
TitanDbInv.v
FinishedFiles.v
OutputFiles.v
FlushGet.v
ForegroundInv.v
GCGet.v
Recovery.v
OpenDbInv.v
SnapshotReads.v
ReadCalls.v
