(* ===== verification/Prelude.v ===== *)
(** * DiffKV (a fork of Titan): a verification development

    ** The program

    DiffKV is a key-value store on top of RocksDB. The base database keeps the
    keys; a large value is written to a blob file, and the base database then
    keeps a blob index (file number, offset, size) in its place. The program's
    own parts, all under src/src, and how they interact:

    - records, indexes, file metadata and the state machine of a blob file
      (blob_format), the builder, reader, prefetcher, cache and iterators of blob
      files (blob_file_builder, blob_file_reader, blob_file_cache,
      blob_file_iterator);
    - the storage of a column family: its live and obsolete files, their key
      ranges, scores and level sizes (blob_storage); the set of the storages with
      the manifest that makes their changes durable (blob_file_set,
      edit_collector, version_edit);
    - the writers: the table builder separates values during flush and compaction
      and merges blob files (table_builder, table_factory), the foreground
      builders separate them before the write (table_builder); both get files from
      the file manager (db_impl, blob_file_manager.h) and hand them back, which
      ends in [LogAndApply] of the set;
    - the listeners: after a flush or a compaction the table properties
      (blob_file_size_collector) tell how many bytes of each blob file are dead
      (db_impl);
    - garbage collection: scheduling (db_impl_gc, db_impl.h), picking
      (blob_gc_picker, blob_gc), the job (blob_gc_job);
    - the calls of users: opening and closing, options, reads, writes, iterators,
      deletion of files in ranges, purging of obsolete files (db, db_impl,
      db_impl_files, db_iter.h); a blocking queue and a thread pool (util.h,
      threadpool.h).

    ** Files

    Shared: [Prelude] (bytes, machine integers, doubles, [Status], the type
    [result] of calls that succeed, fail or are undefined, containers, automation),
    [Rocks] (RocksDB's codings, comparators and compressors as classes with laws,
    with instances), [Env] (files and caches likewise), [BaseDb] (the base
    database likewise).

    Components, each with the source it translates:
    [Options] (include/titan/options.h, options.cc), [Stats] and [Tickers]
    (titan_stats),
    [Util] (util.cc), [BlobFormat] (blob_format), [BlobFileBuilder],
    [BlobFileReader] (also blob_file_cache), [BlobFileIterator], [MergeIterator]
    (both blob_file_iterator), [VersionEdit], [BlobStorage] with its invariant
    [StorageInv] and its queries [StorageQueries], [EditCollector], [BlobFileSet]
    with [ApplyInv] and [ManifestReplay], [BlobGC] (blob_gc, blob_gc_picker),
    [Scheduler] (db_impl_gc, db_impl.h), [BlobFileSizeCollector], [RangeMerge]
    ([MarkFileIfNeedMerge] of db_impl), [DbEvents] with [CompactionSizes],
    [DbEventsInv] and [CompactionInv] ([OnFlushCompleted] and
    [OnCompactionCompleted] of db_impl), [FileManager] (of db_impl),
    [ForegroundBuilder] and [TableBuilder] with [TableBuilderInv] (table_builder,
    table_factory), [GCJob] with [GCJobInv] and [GCFinish] (blob_gc_job,
    [BackgroundGC]), [TitanDb] (db_impl, db_impl_files) with [PurgeInv], [DbIter]
    (db_iter.h) and [TitanDbInv], [BlockQueue] (util.h and the threads of
    [ForegroundBuilder]), [ThreadPool] (threadpool.h), [OpenDb] (db.cc, db_impl,
    table_factory.h).

    Components together: [StoredFiles] and [Directory] state what the writers and
    the recovery need of the file system, as classes; [FinishedFiles] and
    [OutputFiles] follow files from the builder that writes them to the storage
    that serves them; on these rest [FlushGet] (table builder, file manager,
    manifest, read), [ForegroundInv] (queue, foreground builder, read), [GCGet]
    (collection job, manifest, read), [Recovery] (manifest on disk, crash, opening
    of the blob file set), [OpenDbInv] (the whole object), [SnapshotReads] (reads
    under a snapshot while files are added, deleted and purged) and [ReadCalls]
    ([Get], [MultiGet] and the iterators of db_impl with the snapshots they own).

    Definitions keep the source's names where they are free, with a
    prefix otherwise ([bs_AddBlobFile] is [BlobStorage::AddBlobFile]).

    ** How the code is modelled

    - A class is a record, a method a function that returns the new state; code
      that can fail returns a [Status] beside the state or a [result]. [Fault] is
      undefined behaviour or an abort: a null, dangling or past-the-end
      dereference, an index out of range, a division by zero. Assertions are those
      of a release build: they do nothing, and where a property depends on one
      there is a boolean of its own ([FileStateTransit_assert], [flush_asserts]).
    - [BlobFileMeta] objects are shared between storage, edits, collections and
      builders: they live in a heap and the structures hold locations.
    - [uint64_t], [uint32_t] and [int64_t] are [Z] with the wrap-around written
      out; doubles are IEEE 754 binary64 of [SpecFloat].
    - The order in which an [unordered_map] is iterated is a parameter
      ([UnorderedIter]), and so is the priority queue of the merging iterator.
    - Concurrency: the threads of the scheduler ([Scheduler.step]), of a blocking
      queue and its consumers ([queue_step]), of a foreground builder and its
      callers ([servers_step]), of the thread pool ([pool_step]) and of the readers
      beside the background work ([world_step], [call_step]) are step relations at
      the granularity of the mutex, with the invariants proved for all reachable
      states and all interleavings. A [Put] that is held back for the size of the
      database changes the scheduler's fields without the mutex: there every access
      to one of them is a step ([put_access]); [put_turn] is one turn of its loop as
      a function. The other parts change the shared
      state only under the mutex, and are functions on it; a caller of a foreground
      builder, which waits for its answer, is a function too, and [BlockQueue]
      shows that the requests of many callers are handled as if one after the
      other.
    - The steps beside readers ([world_step]) are writes, snapshots, reads, the
      making, adding and discarding of files, flushes, compactions, the changes of
      state and the deletions of collections, creating and dropping column
      families, purges, and [DestroyColumnFamilyHandle] and [DeleteFilesInRanges]
      of the column families a parameter allows: the theorems on snapshots allow
      them for every column family but the one read.
    - A crash keeps the file system and drops everything else. The base database is
      opened, read and closed through its interface; a table it writes is a run
      of the table builder.
    - Code outside the repository (RocksDB: codings, compressors, comparators,
      environment, caches, log files, table builders, iterators, the base
      database) is a parameter, a class whose laws state documented behaviour. Each
      class has an instance in memory, on which the applications of the theorems
      are computed.

    ** What the theorems show

    - Formats: records, indexes, metadata, edits and table properties decode to what
      was encoded ([blob_record_roundtrip], [blob_index_roundtrip],
      [blob_file_meta_roundtrip], [version_edit_roundtrip],
      [collected_sizes_read_back]), decoding an edit ends on any input and is
      undefined exactly for an added file that does not decode
      ([version_edit_decode_total]), and what the unchecked checksum of a record
      means ([record_checksum_ignored]).
    - Blob files: what a builder wrote is read back through reader and caches
      ([blob_file_read_back]), its key range is right ([builder_key_range]),
      iterators visit every record in order, a merging iterator all of them in key
      order ([iterator_visits_all_records], [iterate_for_prev_finds_record],
      [merge_iterator_sorted]); the prefetch window ([prefetcher_window]).
    - Metadata: the life of a file ([file_deleted_at_most_once]), the storage's
      bookkeeping ([storage_bookkeeping], [obsolete_files_collected],
      [files_in_range_selected], [gc_scores_correct]), [LogAndApply] as a refinement
      of a map update ([log_and_apply_refines]), the manifest on disk always
      accounts for the live files ([disk_follows_edits]) and opening after a crash
      brings exactly them back ([reopen_keeps_live_files]); purging deletes exactly
      the files whose sequence number is before the oldest snapshot
      ([purge_deletes_only_expired]).
    - Events: the discardable sizes after a flush and a compaction, and when a
      debug build fails an assertion ([flush_accounts_discardable], [compaction_sizes_exact],
      [compaction_deletes_dead_files], [compaction_keeps_other_cf_files]) and the
      sweep of the range merge against its definition
      ([mark_need_merge_correct]).
    - Writers: no value given to a table builder is lost
      ([table_builder_separates]), a flush can be read back ([flush_then_get]), and
      so can what many threads put through a foreground builder
      ([foreground_puts_readable], [requests_handled_in_order]); failures that are
      not survived or not reported ([failed_blob_file_faults],
      [finish_forgets_failure]).
    - Threads: the blocking queue is first in first out and loses no wake-up
      ([block_queue_fifo]), every request to a foreground builder is answered unless
      the process ends ([requests_all_answered]), a thread pool runs every task if its flag starts as false
      ([thread_pool_runs_all], [uninitialised_pool_drops_task]).
    - Garbage collection: exclusive and well-chosen inputs ([gc_inputs_exclusive],
      [pick_gc_correct], [pick_never_faults]), counters, requests and wake-ups of the
      scheduler when no [Put] can be held back ([scheduler_counters],
      [no_request_lost], [no_lost_wakeup], [failed_drop_blocks_gc]), and the
      request lost when one can ([unlocked_put_loses_request]); a job that installs
      its outputs keeps the value of every key ([gc_keeps_values]), so that reads
      return the same afterwards ([gc_then_get]), and changes things in the safe
      order ([gc_finish_order]), except after one failure
      ([gc_failed_output_loses_inputs]). With [sep_before_flush] and without
      [level_merge] a job does not install its outputs, and these theorems do not
      hold ([gc_skipped_value_lost]).
    - Reads: [Get] and iterators return the values the indexes stand for
      ([reads_return_values], [reads_see_latest]); a snapshot keeps the values it
      shows while collections, compactions and purges run
      ([snapshot_keeps_values]), so does an iterator while it lives
      ([iterator_keeps_values]), and the read calls hold exactly the snapshots they
      own ([read_calls_own_snapshots]); a purge that has begun before a snapshot
      does not see it ([purge_may_miss_snapshot]), and deleting ranges or destroying
      a handle does not ask for one ([ranges_and_destroy_ignore_snapshots]); what [Scan] does with its
      caller's vectors ([scan_trusts_values]).
    - Statistics: the tickers count on their own ([tickers_count]), and resetting
      them writes out of bounds ([reset_out_of_bounds]).
    - The whole object: values in live files survive a crash and a restart
      ([reopen_then_get]), those in files being written do not
      ([unfinished_files_lost]), the object can be deleted only while it is open
      ([delete_needs_open]), and the run mode that is set is the one that is used
      ([set_options_run_mode]).

    The theorems that end in a read after a reopen, a flush, a collection, a call of
    a foreground builder or under a snapshot are for column families without a blob
    cache, which is the default ([blob_cache] of the options; [index_held],
    [batch_target] and [kept] say so). [blob_file_read_back] and
    [reads_return_values] cover the blob cache.

    ** Fuel

    Loops without a structural argument take fuel that is shown to be enough, so
    that no theorem holds only because fuel ran out (running out is [Fault] or a
    visible result): decoding an edit or a property takes the length of its input,
    iterating over a file the number of its records, a merging iterator and the
    loop of a job the bytes of their input files ([gc_fuel], at least one byte per
    record), [MaybeScheduleGC] the number of unscheduled requests.

    ** Not modelled

    The places where the components tick, measure and take the time ([Tickers]
    models what they call, and nothing else depends on it), clocks, the log, and
    the counters [GetProperty] prints. The timers of [StartBackgroundTasks], which call
    [PurgeObsoleteFiles] and [DumpStats]; a purge can begin at any step of
    [world_step] instead. What the file system keeps of a blob file set that could
    not be opened, since the object is then destroyed. The test hook
    [TEST_StartGC]. The class [BaseDbListener], which forwards the events. The body
    of [DoSample] behind its first return and [BulkRead], which nothing reaches. Tests, the drivers under src/tools, the
    benchmark client under src/bench_tools with its vendored library, and the
    headers of PebblesDB, which are not part of the store. *)

From stdpp Require Export base tactics numbers list sorting gmap strings pretty.
From Stdlib Require Export ZArith Lia SpecFloat.

Declare Scope titan_scope.
Delimit Scope titan_scope with titan.
Global Open Scope Z_scope.
Global Open Scope titan_scope.

(** ** Bytes and keys

    [Slice] and [std::string] are byte sequences. *)

Abbreviation byte := Byte.byte.
Abbreviation bytes := (list Byte.byte).

Definition byte_to_Z (b : byte) : Z := Z.of_N (Byte.to_N b).

(** The byte stored by [static_cast<char>(z)]. *)
Definition byte_of_Z (z : Z) : byte :=
  match Byte.of_N (Z.to_N (z mod 256)) with
  | Some b => b
  | None => Byte.x00
  end.

#[export] Instance byte_eq_dec : EqDecision byte := Byte.byte_eq_dec.

(** [memcmp]-style comparison of byte strings: [std::string::compare], the
    [<], [>] and [==] of [std::string]. *)
Fixpoint bytes_compare (a b : bytes) : comparison :=
  match a, b with
  | [], [] => Eq
  | [], _ :: _ => Lt
  | _ :: _, [] => Gt
  | x :: a', y :: b' =>
      match byte_to_Z x ?= byte_to_Z y with
      | Eq => bytes_compare a' b'
      | c => c
      end
  end.

Definition bytes_ltb (a b : bytes) : bool :=
  match bytes_compare a b with Lt => true | _ => false end.

Lemma byte_to_Z_range b : 0 <= byte_to_Z b < 256.
Proof. destruct b; vm_compute; split; congruence. Qed.

Lemma byte_to_Z_of_Z z : 0 <= z < 256 -> byte_to_Z (byte_of_Z z) = z.
Proof.
  intros H. unfold byte_to_Z, byte_of_Z. rewrite Z.mod_small by lia.
  destruct (Byte.of_N (Z.to_N z)) as [b|] eqn:E.
  - apply Byte.to_of_N in E. rewrite E. lia.
  - apply Byte.of_N_None_iff in E. lia.
Qed.

Lemma byte_to_Z_inj a b : byte_to_Z a = byte_to_Z b -> a = b.
Proof.
  unfold byte_to_Z. intros H%N2Z.inj.
  pose proof (Byte.of_to_N a) as Ha. pose proof (Byte.of_to_N b) as Hb. congruence.
Qed.

#[export] Program Instance byte_countable : Countable byte :=
  inj_countable Byte.to_N Byte.of_N _.
Next Obligation. intros b. apply Byte.of_to_N. Qed.

Lemma bytes_compare_refl a : bytes_compare a a = Eq.
Proof. induction a as [|x a IH]; [done|]. simpl. by rewrite Z.compare_refl. Qed.

Lemma bytes_compare_eq a b : bytes_compare a b = Eq -> a = b.
Proof.
  revert b; induction a as [|x a IH]; intros [|y b]; simpl; try done.
  destruct (Z.compare_spec (byte_to_Z x) (byte_to_Z y)) as [E|?|?]; try done.
  intros ?%IH. f_equal; [by apply byte_to_Z_inj|done].
Qed.

Lemma bytes_compare_antisym a b : bytes_compare b a = CompOpp (bytes_compare a b).
Proof.
  revert b; induction a as [|x a IH]; intros [|y b]; simpl; try done.
  rewrite (Z.compare_antisym (byte_to_Z x) (byte_to_Z y)).
  destruct (byte_to_Z x ?= byte_to_Z y); simpl; auto.
Qed.

Lemma bytes_compare_trans_lt a b c :
  bytes_compare a b = Lt -> bytes_compare b c = Lt -> bytes_compare a c = Lt.
Proof.
  revert b c; induction a as [|x a IH]; intros [|y b] [|z c]; simpl; try done.
  destruct (Z.compare_spec (byte_to_Z x) (byte_to_Z y)) as [E1|E1|E1]; try done;
  destruct (Z.compare_spec (byte_to_Z y) (byte_to_Z z)) as [E2|E2|E2]; try done;
  destruct (Z.compare_spec (byte_to_Z x) (byte_to_Z z)); try lia; try done.
  apply IH.
Qed.

(** ** Machine integers

    [uint64_t], [uint32_t] and [int64_t] values are kept as [Z] in their range;
    arithmetic wraps. *)

Definition two32 : Z := 4294967296.
Definition two63 : Z := 9223372036854775808.
Definition two64 : Z := 18446744073709551616.

Definition wrap32 (z : Z) : Z := z mod two32.
Definition wrap64 (z : Z) : Z := z mod two64.
(** Conversion to [int64_t] (two's complement). *)
Definition wrap_i64 (z : Z) : Z := (z + two63) mod two64 - two63.
(** Conversion to a 32-bit [int]. *)
Definition wrap_i32 (z : Z) : Z := (z + 2147483648) mod two32 - 2147483648.

Definition is_u64 (z : Z) : Prop := 0 <= z < two64.
Definition is_u32 (z : Z) : Prop := 0 <= z < two32.

Notation "x +u64 y" := (wrap64 (x + y)) (at level 50, left associativity) : titan_scope.
Notation "x -u64 y" := (wrap64 (x - y)) (at level 50, left associativity) : titan_scope.

Lemma wrap64_range z : is_u64 (wrap64 z).
Proof. unfold is_u64, wrap64, two64. apply Z.mod_pos_bound. lia. Qed.

Lemma wrap64_small z : is_u64 z -> wrap64 z = z.
Proof. apply Z.mod_small. Qed.

Lemma wrap64_add_l a b : wrap64 (wrap64 a + b) = wrap64 (a + b).
Proof. unfold wrap64. apply Zplus_mod_idemp_l. Qed.

Lemma wrap64_sub_l a b : wrap64 (wrap64 a - b) = wrap64 (a - b).
Proof. unfold wrap64. apply Zminus_mod_idemp_l. Qed.

Lemma wrap64_add_r a b : wrap64 (a + wrap64 b) = wrap64 (a + b).
Proof. unfold wrap64. apply Zplus_mod_idemp_r. Qed.

Lemma wrap64_sub_r a b : wrap64 (a - wrap64 b) = wrap64 (a - b).
Proof. unfold wrap64. apply Zminus_mod_idemp_r. Qed.

Lemma wrap_i64_small z : - two63 <= z < two63 -> wrap_i64 z = z.
Proof. intros H. unfold wrap_i64, two63, two64 in *. rewrite Z.mod_small; lia. Qed.

Lemma wrap_i64_add_l a b : wrap_i64 (wrap_i64 a + b) = wrap_i64 (a + b).
Proof.
  unfold wrap_i64. f_equal.
  replace ((a + two63) mod two64 - two63 + b + two63) with ((a + two63) mod two64 + b) by lia.
  rewrite Zplus_mod_idemp_l. f_equal. lia.
Qed.

Create HintDb titan.
Create Rewrite HintDb wrap.
#[export] Hint Rewrite wrap64_add_l wrap64_add_r wrap64_sub_l wrap64_sub_r : wrap.
#[export] Hint Resolve wrap64_range : titan.

(** ** Status and fallible computations *)

(** The error codes of [rocksdb::Status] the code produces or tests for, each
    with its message. *)
Inductive Status : Type :=
| OK
| NotFound (msg : string)
| Corruption (msg : string)
| InvalidArgument (msg : string)
| IOError (msg : string)
| Incomplete (msg : string)
| ShutdownInProgress
| Aborted (msg : string)
| Busy (msg : string).

Definition status_ok (s : Status) : bool :=
  match s with OK => true | _ => false end.

Definition IsNotFound (s : Status) : bool :=
  match s with NotFound _ => true | _ => false end.

Definition IsCorruption (s : Status) : bool :=
  match s with Corruption _ => true | _ => false end.

Definition IsBusy (s : Status) : bool :=
  match s with Busy _ => true | _ => false end.

#[export] Instance Status_eq_dec : EqDecision Status.
Proof. solve_decision. Defined.

Lemma status_ok_true s : status_ok s = true <-> s = OK.
Proof. by destruct s. Qed.

(** A computation ends with a value, with an error status, or outside the
    behaviour C++ defines ([Fault]: a read past a buffer, a null dereference). *)
Inductive result (A : Type) : Type :=
| Ok (a : A)
| Err (s : Status)
| Fault.
Arguments Ok {A} a.
Arguments Err {A} s.
Arguments Fault {A}.

Definition result_bind {A B} (r : result A) (f : A -> result B) : result B :=
  match r with
  | Ok a => f a
  | Err s => Err s
  | Fault => Fault
  end.

Notation "'let*' x ':=' e 'in' k" := (result_bind e (fun x => k))
  (at level 10, x pattern, e at level 200, k at level 200,
   format "'[v' 'let*'  x  ':='  e  'in' '//' k ']'") : titan_scope.

(** A [Get...] routine that fails with the given status. *)
Definition or_err {A} (o : option A) (s : Status) : result A :=
  match o with Some a => Ok a | None => Err s end.

(** Replaces the status of a failed call by one of the caller's. *)
Definition map_err {A} (r : result A) (f : Status -> Status) : result A :=
  match r with Err s => Err (f s) | _ => r end.

Lemma result_bind_Ok {A B} (r : result A) (f : A -> result B) b :
  result_bind r f = Ok b <-> exists a, r = Ok a /\ f a = Ok b.
Proof. destruct r; simpl; naive_solver. Qed.

Lemma or_err_Ok {A} (o : option A) s a : or_err o s = Ok a <-> o = Some a.
Proof. destruct o; simpl; naive_solver. Qed.

(** Inverts every successful [let*] and [or_err] of the context. *)
Ltac result_inv :=
  repeat match goal with
  | H : result_bind _ _ = Ok _ |- _ =>
      apply result_bind_Ok in H; let a := fresh "a" in let E := fresh "E" in
      destruct H as (a & E & H)
  | H : or_err _ _ = Ok _ |- _ => apply or_err_Ok in H
  | H : Ok _ = Ok _ |- _ => injection H as H; subst
  | H : Err _ = Ok _ |- _ => discriminate H
  | H : Fault = Ok _ |- _ => discriminate H
  end.

(** [Slice::remove_prefix]: [n] must not exceed the slice. *)
Definition remove_prefix (n : Z) (s : bytes) : result bytes :=
  if (0 <=? n) && (n <=? Z.of_nat (length s)) then Ok (drop (Z.to_nat n) s) else Fault.

Lemma remove_prefix_app a b n :
  n = Z.of_nat (length a) -> remove_prefix n (a ++ b) = Ok b.
Proof.
  intros ->. unfold remove_prefix. rewrite length_app.
  rewrite (proj2 (Z.leb_le 0 _)) by lia. rewrite (proj2 (Z.leb_le _ _)) by lia.
  simpl. rewrite Nat2Z.id, drop_app_length. done.
Qed.

(** ** Doubles

    IEEE-754 binary64 with round-to-nearest-even, from the executable
    [SpecFloat] of the Standard Library. *)

Abbreviation double := spec_float.

Definition double_of_Z (z : Z) : double := binary_normalize 53 1024 z 0 false.
Definition double_div (x y : double) : double := SFdiv 53 1024 x y.
Definition double_add (x y : double) : double := SFadd 53 1024 x y.
Definition double_sub (x y : double) : double := SFsub 53 1024 x y.
Definition double_mul (x y : double) : double := SFmul 53 1024 x y.
Definition double_ltb (x y : double) : bool := SFltb x y.
Definition double_leb (x y : double) : bool := SFleb x y.
Definition double_eqb (x y : double) : bool := SFeqb x y.

(** The conversion to an integer type, of a value in its range. *)
Definition double_trunc (x : double) : Z :=
  match x with
  | S754_finite s m e =>
      let v := if 0 <=? e then Z.shiftl (Zpos m) e else Z.shiftr (Zpos m) (- e) in
      if s then - v else v
  | _ => 0
  end.

Lemma SFcompare_swap x y c : SFcompare x y = Some c -> SFcompare y x = Some (CompOpp c).
Proof.
  destruct x as [sx|sx| |sx mx ex], y as [sy|sy| |sy my ey];
    try destruct sx; try destruct sy; simpl; try (intros [= <-]; done); try done.
  - intros [= <-]. rewrite (Z.compare_antisym ex ey).
    destruct (ex ?= ey); simpl; try done.
    rewrite (Pos.compare_cont_antisym mx my Eq). by destruct (Pos.compare_cont Eq mx my).
  - intros [= <-]. rewrite (Z.compare_antisym ex ey).
    destruct (ex ?= ey); simpl; try done.
    rewrite (Pos.compare_cont_antisym mx my Eq). by destruct (Pos.compare_cont Eq mx my).
Qed.

Lemma double_ltb_asym x y : double_ltb x y = true -> double_ltb y x = false.
Proof.
  unfold double_ltb, SFltb. destruct (SFcompare x y) as [c|] eqn:E; [|done].
  rewrite (SFcompare_swap _ _ _ E). by destruct c.
Qed.

(** ** Containers *)

(** The iteration order of a [std::unordered_map] is unspecified: it is a
    parameter of every definition that iterates over one, and a theorem holds
    for every order. *)
Class UnorderedIter := {
  unordered_iter : forall {V : Type}, gmap Z V -> list (Z * V);
  unordered_iter_perm : forall (V : Type) (m : gmap Z V),
    unordered_iter m ≡ₚ map_to_list m
}.

(** One such order. *)
Definition map_to_list_iter : UnorderedIter :=
  {| unordered_iter := fun V (m : gmap Z V) => map_to_list m;
     unordered_iter_perm := fun V m => reflexivity (map_to_list m) |}.

Section unordered.
Context `{UnorderedIter} {V : Type}.
Implicit Types m : gmap Z V.

Lemma elem_of_unordered_iter m k v :
  (k, v) ∈ unordered_iter m <-> m !! k = Some v.
Proof. rewrite unordered_iter_perm. apply elem_of_map_to_list. Qed.

Lemma NoDup_unordered_iter m : NoDup (unordered_iter m).*1.
Proof. rewrite unordered_iter_perm. apply NoDup_fst_map_to_list. Qed.

Lemma unordered_iter_to_map m : list_to_map (unordered_iter m) = m.
Proof.
  apply map_eq. intros k. apply option_eq. intros v.
  rewrite <- (elem_of_list_to_map (M := gmap Z)) by apply NoDup_unordered_iter.
  apply elem_of_unordered_iter.
Qed.
End unordered.

(** [std::sort] with a strict comparison [lt]: the result is ordered by [lt];
    elements that compare equal come in an order the standard leaves open. *)
Fixpoint sort_insert {A} (lt : A -> A -> bool) (x : A) (l : list A) : list A :=
  match l with
  | [] => [x]
  | y :: l' => if lt y x then y :: sort_insert lt x l' else x :: l
  end.

Definition std_sort {A} (lt : A -> A -> bool) (l : list A) : list A := foldr (sort_insert lt) [] l.

Lemma sort_insert_perm {A} (lt : A -> A -> bool) x l : sort_insert lt x l ≡ₚ x :: l.
Proof.
  induction l as [|y l IH]; simpl; [done|]. destruct (lt y x); [|done].
  rewrite IH. apply Permutation_swap.
Qed.

Lemma std_sort_perm {A} (lt : A -> A -> bool) l : std_sort lt l ≡ₚ l.
Proof. induction l as [|x l IH]; simpl; [done|]. rewrite sort_insert_perm. by constructor. Qed.

Lemma sort_insert_sorted {A} (lt : A -> A -> bool) x l :
  (forall y, y ∈ l -> lt y x = true -> lt x y = false) ->
  Sorted (fun x y => lt y x = false) l ->
  Sorted (fun x y => lt y x = false) (sort_insert lt x l).
Proof.
  intros Hasym Hs. induction Hs as [|y k Hk IH Hd]; simpl; [by repeat constructor|].
  destruct (lt y x) eqn:E; [|by repeat constructor].
  constructor; [apply IH; intros z Hz; apply Hasym; by right|].
  assert (Hyx : lt x y = false) by (apply Hasym; [left|done]).
  destruct k as [|z k]; simpl; [by constructor|]. destruct (lt z x); constructor; [|done].
  by inversion Hd.
Qed.

(** The comparison needs to be asymmetric on the elements sorted only. *)
Lemma std_sort_sorted_in {A} (lt : A -> A -> bool) l :
  NoDup l ->
  (forall x y, x ∈ l -> y ∈ l -> x <> y -> lt x y = true -> lt y x = false) ->
  Sorted (fun x y => lt y x = false) (std_sort lt l).
Proof.
  induction l as [|x l IH]; intros Hnd Hasym; simpl; [constructor|].
  apply NoDup_cons in Hnd as [Hx Hnd]. apply sort_insert_sorted.
  - intros y Hy%(elem_of_Permutation_proper y _ _ (std_sort_perm lt l)).
    apply Hasym; [by right|left|by intros ->].
  - apply IH; [done|]. intros a b Ha Hb. apply Hasym; by right.
Qed.

Lemma std_sort_sorted {A} (lt : A -> A -> bool) l :
  (forall x y, lt x y = true -> lt y x = false) ->
  Sorted (fun x y => lt y x = false) (std_sort lt l).
Proof.
  intros Hasym. induction l as [|x l IH]; simpl; [constructor|].
  apply sort_insert_sorted; [|done]. intros y _. apply Hasym.
Qed.

(** Sortedness of adjacent elements is enough where the order is transitive. *)
Lemma Sorted_StronglySorted_in {A} (R : A -> A -> Prop) l :
  NoDup l ->
  (forall x y z, x ∈ l -> y ∈ l -> z ∈ l -> x <> y -> y <> z -> x <> z -> R x y -> R y z -> R x z) ->
  Sorted R l -> StronglySorted R l.
Proof.
  intros Hnd Htr Hs. induction Hs as [|x l Hs IH Hd]; [constructor|].
  apply NoDup_cons in Hnd as [Hx Hnd].
  assert (Hss : StronglySorted R l).
  { apply IH; [done|]. intros a b c Ha Hb Hc. apply Htr; by right. }
  constructor; [done|]. destruct l as [|y l]; [constructor|]. inversion Hd; subst.
  inversion Hss as [|? ? _ Hall]; subst. constructor; [done|].
  apply NoDup_cons in Hnd as [Hy Hnd]. rewrite not_elem_of_cons in Hx. destruct Hx as [Hxy Hx].
  apply Forall_forall. intros z Hz. rewrite Forall_forall in Hall.
  apply (Htr x y z); [left|right; left|right; by right|done|by intros ->|by intros ->|done|by apply Hall].
Qed.

(** [std::map] and [std::set] iterate in increasing key order. *)
Definition ordered_iter {V : Type} (m : gmap Z V) : list (Z * V) :=
  std_sort (fun a b => a.1 <? b.1) (map_to_list m).

Lemma ordered_iter_perm {V} (m : gmap Z V) : ordered_iter m ≡ₚ map_to_list m.
Proof. apply std_sort_perm. Qed.

(** A [std::set] iterates in increasing order. *)
Definition ordered_elements (s : gset Z) : list Z := std_sort Z.ltb (elements s).

Lemma elem_of_ordered_elements x s : x ∈ ordered_elements s <-> x ∈ s.
Proof. unfold ordered_elements. by rewrite std_sort_perm, elem_of_elements. Qed.

(** [std::priority_queue] with [comp a b] when [a] has lower priority than [b]:
    [top] and [pop] take an element no other has priority over; which one, among
    equals, is left open. *)
Class PriorityQueue := {
  pq_pop : forall {A : Type}, (A -> A -> bool) -> list A -> option (A * list A);
  pq_pop_nil : forall (A : Type) (comp : A -> A -> bool), pq_pop comp [] = None;
  pq_pop_perm : forall (A : Type) (comp : A -> A -> bool) (q : list A),
    q <> [] -> exists x q', pq_pop comp q = Some (x, q') /\ q ≡ₚ x :: q';
  pq_pop_top : forall (A : Type) (comp : A -> A -> bool) (q : list A) x q',
    (forall a b c, comp a b = false -> comp b c = false -> comp a c = false) ->
    (forall a b, comp a b = true -> comp b a = false) ->
    pq_pop comp q = Some (x, q') -> Forall (fun y => comp x y = false) q'
}.

(** One such queue: it keeps the elements in insertion order. *)
Fixpoint list_pop {A} (comp : A -> A -> bool) (q : list A) : option (A * list A) :=
  match q with
  | [] => None
  | x :: q =>
      match list_pop comp q with
      | None => Some (x, [])
      | Some (y, q') => if comp x y then Some (y, x :: q') else Some (x, q)
      end
  end.

Lemma list_pop_perm {A} (comp : A -> A -> bool) q :
  q <> [] -> exists x q', list_pop comp q = Some (x, q') /\ q ≡ₚ x :: q'.
Proof.
  induction q as [|x q IH]; [done|]. intros _. simpl.
  destruct q as [|z q]; [by exists x, []|].
  destruct IH as (y & q' & -> & Hp); [done|]. destruct (comp x y).
  - exists y, (x :: q'). split; [done|]. rewrite Hp. by rewrite Permutation_swap.
  - by exists x, (z :: q).
Qed.

Lemma list_pop_top {A} (comp : A -> A -> bool) q x q' :
  (forall a b c, comp a b = false -> comp b c = false -> comp a c = false) ->
  (forall a b, comp a b = true -> comp b a = false) ->
  list_pop comp q = Some (x, q') -> Forall (fun y => comp x y = false) q'.
Proof.
  intros Htrans Hasym. revert x q'; induction q as [|x0 q IH]; intros x q' Hpop; [done|].
  simpl in Hpop. destruct q as [|z q]; [simpl in Hpop; simplify_eq; constructor|].
  destruct (list_pop_perm comp (z :: q)) as (y & q1 & Hy & Hp); [done|]. rewrite Hy in Hpop.
  pose proof (IH _ _ Hy) as Hall. destruct (comp x0 y) eqn:Hc; simplify_eq.
  - constructor; [by apply Hasym|done].
  - rewrite Hp. constructor; [done|]. eapply Forall_impl; [exact Hall|].
    intros b Hb. exact (Htrans _ _ _ Hc Hb).
Qed.

Definition list_pq : PriorityQueue := {|
  pq_pop := fun A => list_pop;
  pq_pop_nil := fun A comp => eq_refl;
  pq_pop_perm := fun A => list_pop_perm;
  pq_pop_top := fun A => list_pop_top
|}.

Lemma elem_of_concat {A} (ls : list (list A)) x :
  x ∈ concat ls <-> exists l, x ∈ l /\ l ∈ ls.
Proof.
  induction ls as [|l ls IH]; simpl; [set_solver|]. rewrite elem_of_app, IH. set_solver.
Qed.

Lemma concat_nil_Forall {A} (ls : list (list A)) : Forall (fun l => l = []) ls -> concat ls = [].
Proof. by induction 1 as [|l ls -> _ IH]. Qed.

Lemma concat_insert_perm {A} (ls : list (list A)) i x l :
  ls !! i = Some (x :: l) -> concat ls ≡ₚ x :: concat (<[i := l]> ls).
Proof.
  revert i; induction ls as [|l0 ls IH]; intros [|i] Hi; simpl in *; try done.
  - by simplify_eq.
  - rewrite (IH _ Hi). by rewrite Permutation_middle.
Qed.

(** [v[i]] for a vector used as an array of counters, and its update; an index
    out of range is undefined in C++ and has no effect here. *)
Definition array_get (l : list Z) (i : Z) : Z := default 0 (l !! Z.to_nat i).
Definition array_update (f : Z -> Z) (l : list Z) (i : Z) : list Z := alter f (Z.to_nat i) l.

Lemma foldl_invariant {A B} (P : B -> Prop) (f : B -> A -> B) l b :
  P b -> (forall b a, a ∈ l -> P b -> P (f b a)) -> P (foldl f b l).
Proof.
  revert b; induction l as [|a l IH]; intros b Hb Hf; simpl; [done|].
  apply IH; [apply Hf; [left|done]|]. intros b' a' Ha'. apply Hf. by right.
Qed.

(** The sum of [f] over a map. *)
Definition msum {V : Type} (f : Z -> V -> Z) (m : gmap Z V) : Z :=
  map_fold (fun k v s => f k v + s) 0 m.

Section msum.
Context {V : Type}.
Implicit Types (m : gmap Z V) (f g : Z -> V -> Z).

Lemma msum_empty f : msum f ∅ = 0.
Proof. apply map_fold_empty. Qed.

Lemma msum_insert f m k v : m !! k = None -> msum f (<[k := v]> m) = f k v + msum f m.
Proof.
  intros Hk. unfold msum. rewrite map_fold_insert_L; [done| |done]. intros; lia.
Qed.

Lemma msum_delete f m k v : m !! k = Some v -> msum f m = f k v + msum f (delete k m).
Proof.
  intros Hk. rewrite <- (insert_delete_id m k v Hk) at 1.
  apply msum_insert, lookup_delete_eq.
Qed.

Lemma msum_ext f g m :
  (forall k v, m !! k = Some v -> f k v = g k v) -> msum f m = msum g m.
Proof.
  induction m as [|k v m Hk IH] using map_ind; intros Hfg; [by rewrite !msum_empty|].
  rewrite !msum_insert by done. rewrite (Hfg k v) by apply lookup_insert_eq. f_equal.
  apply IH. intros k' v' Hk'. apply Hfg. rewrite lookup_insert_ne; [done|]. congruence.
Qed.

(** Changing the weight of one key only. *)
Lemma msum_change f g m k v :
  m !! k = Some v -> (forall k' v', k' <> k -> m !! k' = Some v' -> f k' v' = g k' v') ->
  msum g m = msum f m - f k v + g k v.
Proof.
  intros Hk Hne. rewrite (msum_delete f m k v Hk), (msum_delete g m k v Hk).
  rewrite (msum_ext f g (delete k m)); [lia|].
  intros k' v' [Hk' Hv']%lookup_delete_Some. by apply Hne.
Qed.
End msum.

Lemma array_get_update f l i j :
  0 <= i -> 0 <= j -> i < Z.of_nat (length l) ->
  array_get (array_update f l i) j = if decide (i = j) then f (array_get l j) else array_get l j.
Proof.
  intros Hi Hj Hlen. unfold array_get, array_update. case_decide as Hij.
  - subst. rewrite list_lookup_alter_eq. destruct (l !! Z.to_nat j) eqn:E; [done|].
    apply lookup_ge_None in E. lia.
  - rewrite list_lookup_alter_ne; [done|]. lia.
Qed.

Lemma array_update_length f l i : length (array_update f l i) = length l.
Proof. apply length_alter. Qed.
