(* ===== verification/Rocks.v ===== *)
(** * The RocksDB interfaces Titan is written against

    RocksDB is a submodule whose sources are not part of this repository. What
    Titan calls of it is a parameter of the model: a class of operations, and a
    class of the documented laws the theorems rely on. Each class has one
    concrete instance, used to evaluate the definitions on examples. *)

From S2P Require Import Prelude.

(** ** util/coding.h and util/crc32c.h

    [Put...] returns the bytes it appends; [Get...] returns the value parsed
    from the front of the slice and the rest, or nothing when it fails. *)
Class Coding := {
  PutVarint32 : Z -> bytes;
  GetVarint32 : bytes -> option (Z * bytes);
  PutVarint64 : Z -> bytes;
  GetVarint64 : bytes -> option (Z * bytes);
  EncodeFixed32 : Z -> bytes;
  GetFixed32 : bytes -> option (Z * bytes);
  PutFixed64 : Z -> bytes;
  GetFixed64 : bytes -> option (Z * bytes);
  PutLengthPrefixedSlice : bytes -> bytes;
  GetLengthPrefixedSlice : bytes -> option (bytes * bytes);
  crc32c_Value : bytes -> Z;
  crc32c_Extend : Z -> bytes -> Z;
  (** [BlockHandle] of table/format.h: an offset and a size. *)
  BlockHandle_EncodeTo : Z * Z -> bytes;
  BlockHandle_DecodeFrom : bytes -> option ((Z * Z) * bytes)
}.

(** [BlockHandle::kMaxEncodedLength]: two varints of at most ten bytes. *)
Definition kBlockHandleMaxEncodedLength : Z := 20.

Class CodingOk (C : Coding) : Prop := {
  varint32_roundtrip : forall v rest,
    is_u32 v -> GetVarint32 (PutVarint32 v ++ rest) = Some (v, rest);
  varint64_roundtrip : forall v rest,
    is_u64 v -> GetVarint64 (PutVarint64 v ++ rest) = Some (v, rest);
  fixed32_roundtrip : forall v rest,
    is_u32 v -> GetFixed32 (EncodeFixed32 v ++ rest) = Some (v, rest);
  fixed64_roundtrip : forall v rest,
    is_u64 v -> GetFixed64 (PutFixed64 v ++ rest) = Some (v, rest);
  slice_roundtrip : forall s rest,
    Z.of_nat (length s) < two32 ->
    GetLengthPrefixedSlice (PutLengthPrefixedSlice s ++ rest) = Some (s, rest);
  block_handle_roundtrip : forall o n rest,
    is_u64 o -> is_u64 n ->
    BlockHandle_DecodeFrom (BlockHandle_EncodeTo (o, n) ++ rest) = Some ((o, n), rest);
  fixed32_length : forall v, length (EncodeFixed32 v) = 4%nat;
  fixed64_length : forall v, length (PutFixed64 v) = 8%nat;
  (** A varint takes one byte at least. *)
  varint32_nonempty : forall v, PutVarint32 v <> [];
  block_handle_length : forall h,
    (length (BlockHandle_EncodeTo h) <= Z.to_nat kBlockHandleMaxEncodedLength)%nat;
  (** A successful [Get] advances the slice. *)
  get_varint32_shorter : forall s v r, GetVarint32 s = Some (v, r) -> (length r < length s)%nat;
  get_varint64_shorter : forall s v r, GetVarint64 s = Some (v, r) -> (length r < length s)%nat;
  get_slice_shorter : forall s v r,
    GetLengthPrefixedSlice s = Some (v, r) -> (length r < length s)%nat;
  crc32c_range : forall s, is_u32 (crc32c_Value s);
  crc32c_extend_range : forall c s, is_u32 (crc32c_Extend c s)
}.

Create Rewrite HintDb coding.
#[export] Hint Rewrite @varint32_roundtrip @varint64_roundtrip @fixed32_roundtrip
  @fixed64_roundtrip @slice_roundtrip @block_handle_roundtrip
  using first [typeclasses eauto | assumption | (unfold is_u32, is_u64, two32, two64 in *; lia)] : coding.

(** ** rocksdb/comparator.h *)

(** [Comparator::Compare]: negative, zero or positive. *)
Abbreviation Comparator := (bytes -> bytes -> Z).

(** [Compare] is a total order. *)
Class ComparatorOk (cmp : Comparator) : Prop := {
  compare_refl : forall a, cmp a a = 0;
  compare_swap : forall a b, cmp a b < 0 <-> cmp b a > 0;
  compare_trans : forall a b c, cmp a b <= 0 -> cmp b c <= 0 -> cmp a c <= 0
}.

(** ** util/compression.h

    One compressor and decompressor per method; a compressor fails when the
    method is not built in, a decompressor when the input is malformed. *)
Class Compressors := {
  Snappy_Compress : bytes -> option bytes;
  Zlib_Compress : Z -> bytes -> option bytes;
  BZip2_Compress : Z -> bytes -> option bytes;
  LZ4_Compress : Z -> bytes -> option bytes;
  LZ4HC_Compress : Z -> bytes -> option bytes;
  XPRESS_Compress : bytes -> option bytes;
  ZSTD_Compress : bytes -> option bytes;
  Snappy_GetUncompressedLength : bytes -> option Z;
  Snappy_Uncompress : bytes -> option bytes;
  Zlib_Uncompress : bytes -> Z -> option bytes;
  BZip2_Uncompress : bytes -> Z -> option bytes;
  LZ4_Uncompress : bytes -> Z -> option bytes;
  XPRESS_Uncompress : bytes -> option bytes;
  ZSTD_Uncompress : bytes -> option bytes
}.

Class CompressorsOk (C : Compressors) : Prop := {
  snappy_roundtrip : forall i o, Snappy_Compress i = Some o ->
    Snappy_GetUncompressedLength o = Some (Z.of_nat (length i)) /\ Snappy_Uncompress o = Some i;
  zlib_roundtrip : forall f i o, Zlib_Compress f i = Some o -> Zlib_Uncompress o f = Some i;
  bzip2_roundtrip : forall f i o, BZip2_Compress f i = Some o -> BZip2_Uncompress o f = Some i;
  lz4_roundtrip : forall f i o, LZ4_Compress f i = Some o -> LZ4_Uncompress o f = Some i;
  lz4hc_roundtrip : forall f i o, LZ4HC_Compress f i = Some o -> LZ4_Uncompress o f = Some i;
  xpress_roundtrip : forall i o, XPRESS_Compress i = Some o -> XPRESS_Uncompress o = Some i;
  zstd_roundtrip : forall i o, ZSTD_Compress i = Some o -> ZSTD_Uncompress o = Some i
}.

(** ** Concrete instances

    LEB128 varints, little-endian fixed-width integers, bitwise CRC-32C, the
    bytewise comparator and a run-length compressor. *)

Fixpoint leb128_put (fuel : nat) (v : Z) : bytes :=
  match fuel with
  | O => [byte_of_Z v]
  | S fuel' =>
      if v <? 128 then [byte_of_Z v]
      else byte_of_Z (v mod 128 + 128) :: leb128_put fuel' (v / 128)
  end.

Fixpoint leb128_get (fuel : nat) (s : bytes) : option (Z * bytes) :=
  match fuel, s with
  | S fuel', b :: s' =>
      if byte_to_Z b <? 128 then Some (byte_to_Z b, s')
      else match leb128_get fuel' s' with
           | Some (v, r) => Some (byte_to_Z b - 128 + 128 * v, r)
           | None => None
           end
  | _, _ => None
  end.

Lemma leb128_roundtrip fuel v rest :
  0 <= v < 128 ^ (Z.of_nat fuel + 1) ->
  leb128_get (S fuel) (leb128_put fuel v ++ rest) = Some (v, rest).
Proof.
  revert v; induction fuel as [|fuel IH]; intros v Hv; cbn [leb128_put].
  - change (Z.of_nat 0 + 1) with 1 in Hv. rewrite Z.pow_1_r in Hv.
    simpl. rewrite byte_to_Z_of_Z by lia. by rewrite (proj2 (Z.ltb_lt _ _)) by lia.
  - destruct (Z.ltb_spec v 128) as [Hlt|Hge].
    + simpl. rewrite byte_to_Z_of_Z by lia. by rewrite (proj2 (Z.ltb_lt _ _)) by lia.
    + pose proof (Z.mod_pos_bound v 128 ltac:(lia)) as Hm.
      pose proof (Z.div_mod v 128 ltac:(lia)) as Hdm.
      cbn [app leb128_get]. rewrite byte_to_Z_of_Z by lia.
      rewrite (proj2 (Z.ltb_ge _ _)) by lia.
      change (match leb128_get (S fuel) (leb128_put fuel (v / 128) ++ rest) with
              | Some (w, r) => Some (v mod 128 + 128 - 128 + 128 * w, r)
              | None => None end = Some (v, rest)).
      rewrite IH; [do 2 f_equal; lia|].
      replace (Z.of_nat (S fuel) + 1) with (Z.succ (Z.of_nat fuel + 1)) in Hv by lia.
      rewrite Z.pow_succ_r in Hv by lia.
      split; [apply Z.div_pos; lia|apply Z.div_lt_upper_bound; lia].
Qed.

Lemma leb128_put_length fuel v : (length (leb128_put fuel v) <= S fuel)%nat.
Proof.
  revert v; induction fuel as [|fuel IH]; intros v; simpl; [lia|].
  destruct (v <? 128); simpl; [lia|]. specialize (IH (v / 128)). lia.
Qed.

Fixpoint le_put (n : nat) (v : Z) : bytes :=
  match n with
  | O => []
  | S n' => byte_of_Z (v mod 256) :: le_put n' (v / 256)
  end.

Fixpoint le_get (n : nat) (s : bytes) : option (Z * bytes) :=
  match n, s with
  | O, _ => Some (0, s)
  | S n', b :: s' =>
      match le_get n' s' with
      | Some (v, r) => Some (byte_to_Z b + 256 * v, r)
      | None => None
      end
  | _, [] => None
  end.

Lemma le_put_length n v : length (le_put n v) = n.
Proof. revert v; induction n as [|n IH]; intros v; simpl; [done|by rewrite IH]. Qed.

Lemma le_roundtrip n v rest :
  0 <= v < 256 ^ Z.of_nat n -> le_get n (le_put n v ++ rest) = Some (v, rest).
Proof.
  revert v; induction n as [|n IH]; intros v Hv; simpl.
  - change (256 ^ Z.of_nat 0) with 1 in Hv. by replace v with 0 by lia.
  - pose proof (Z.mod_pos_bound v 256 ltac:(lia)) as Hm.
    pose proof (Z.div_mod v 256 ltac:(lia)) as Hdm.
    rewrite byte_to_Z_of_Z by lia. rewrite IH; [do 2 f_equal; lia|].
    rewrite Nat2Z.inj_succ, Z.pow_succ_r in Hv by lia.
    split; [apply Z.div_pos; lia|apply Z.div_lt_upper_bound; lia].
Qed.

Fixpoint crc_bits (n : nat) (c : Z) : Z :=
  match n with
  | O => c
  | S n' =>
      crc_bits n' (if Z.odd c then Z.lxor (Z.shiftr c 1) 2197175160 else Z.shiftr c 1)
  end.

Definition crc32c_extend (init : Z) (s : bytes) : Z :=
  wrap32 (Z.lxor 4294967295
    (foldl (fun c b => crc_bits 8 (Z.lxor c (byte_to_Z b))) (Z.lxor init 4294967295) s)).

(** The value is truncated to its type. *)
Definition leb128_get_mod (w : Z) (fuel : nat) (s : bytes) : option (Z * bytes) :=
  match leb128_get fuel s with
  | Some (v, r) => Some (v mod w, r)
  | None => None
  end.

Definition leb128_get_slice (s : bytes) : option (bytes * bytes) :=
  match leb128_get_mod two32 5 s with
  | Some (n, r) =>
      if n <=? Z.of_nat (length r)
      then Some (take (Z.to_nat n) r, drop (Z.to_nat n) r) else None
  | None => None
  end.

Definition leb128_get_pair (s : bytes) : option ((Z * Z) * bytes) :=
  match leb128_get_mod two64 10 s with
  | Some (o, r) =>
      match leb128_get_mod two64 10 r with
      | Some (n, r') => Some ((o, n), r')
      | None => None
      end
  | None => None
  end.

Definition leb128_coding : Coding := {|
  PutVarint32 := leb128_put 4;
  GetVarint32 := leb128_get_mod two32 5;
  PutVarint64 := leb128_put 9;
  GetVarint64 := leb128_get_mod two64 10;
  EncodeFixed32 := le_put 4;
  GetFixed32 := le_get 4;
  PutFixed64 := le_put 8;
  GetFixed64 := le_get 8;
  PutLengthPrefixedSlice := fun s => leb128_put 4 (Z.of_nat (length s)) ++ s;
  GetLengthPrefixedSlice := leb128_get_slice;
  crc32c_Value := crc32c_extend 0;
  crc32c_Extend := crc32c_extend;
  BlockHandle_EncodeTo := fun h => leb128_put 9 h.1 ++ leb128_put 9 h.2;
  BlockHandle_DecodeFrom := leb128_get_pair
|}.

Lemma leb128_get_shorter fuel s v r :
  leb128_get fuel s = Some (v, r) -> (length r < length s)%nat.
Proof.
  revert s v r; induction fuel as [|fuel IH]; intros [|b s] v r; simpl; try done.
  destruct (byte_to_Z b <? 128); [intros [= _ <-]; lia|].
  destruct (leb128_get fuel s) as [[v' r']|] eqn:E; [|done].
  intros [= _ <-]. apply IH in E. lia.
Qed.

Lemma leb128_get_mod_shorter w fuel s v r :
  leb128_get_mod w fuel s = Some (v, r) -> (length r < length s)%nat.
Proof.
  unfold leb128_get_mod. destruct (leb128_get fuel s) as [[v' r']|] eqn:E; [|done].
  intros [= _ <-]. by apply leb128_get_shorter in E.
Qed.

Lemma leb128_mod_roundtrip w fuel v rest :
  0 <= v < w -> w <= 128 ^ (Z.of_nat fuel + 1) ->
  leb128_get_mod w (S fuel) (leb128_put fuel v ++ rest) = Some (v, rest).
Proof. intros Hv Hw. unfold leb128_get_mod. rewrite leb128_roundtrip by lia. by rewrite Z.mod_small. Qed.

Lemma leb128_get_slice_shorter s v r :
  leb128_get_slice s = Some (v, r) -> (length r < length s)%nat.
Proof.
  unfold leb128_get_slice. destruct (leb128_get_mod two32 5 s) as [[n r']|] eqn:E; [|done].
  apply leb128_get_mod_shorter in E. case_match; [|done].
  intros [= _ <-]. rewrite length_drop. lia.
Qed.

Lemma leb128_put_nonempty fuel v : leb128_put fuel v <> [].
Proof. destruct fuel; simpl; [done|]. by destruct (v <? 128). Qed.

Lemma leb128_slice_roundtrip s rest :
  Z.of_nat (length s) < two32 ->
  leb128_get_slice ((leb128_put 4 (Z.of_nat (length s)) ++ s) ++ rest) = Some (s, rest).
Proof.
  intros Hs. unfold leb128_get_slice. rewrite <- app_assoc, (leb128_mod_roundtrip two32 4) by (lia || done).
  rewrite length_app. rewrite (proj2 (Z.leb_le _ _)) by lia.
  by rewrite Nat2Z.id, take_app_length, drop_app_length.
Qed.

#[export] Instance leb128_coding_ok : CodingOk leb128_coding.
Proof.
  assert (H70 : 128 ^ (Z.of_nat 9 + 1) = 1180591620717411303424) by reflexivity.
  assert (H35 : 128 ^ (Z.of_nat 4 + 1) = 34359738368) by reflexivity.
  assert (H64 : 256 ^ Z.of_nat 8 = two64) by reflexivity.
  assert (H32 : 256 ^ Z.of_nat 4 = two32) by reflexivity.
  assert (E32 : two32 = 4294967296) by reflexivity.
  assert (E64 : two64 = 18446744073709551616) by reflexivity.
  split; cbn [PutVarint32 GetVarint32 PutVarint64 GetVarint64 EncodeFixed32 GetFixed32
    PutFixed64 GetFixed64 PutLengthPrefixedSlice GetLengthPrefixedSlice crc32c_Value
    crc32c_Extend BlockHandle_EncodeTo BlockHandle_DecodeFrom leb128_coding fst snd]; intros;
    unfold is_u32, is_u64 in *.
  1,2: apply leb128_mod_roundtrip; rewrite ?H70, ?H35; lia.
  1,2: apply le_roundtrip; rewrite ?H64, ?H32; lia.
  - by apply leb128_slice_roundtrip.
  - unfold leb128_get_pair.
    rewrite <- app_assoc, !(leb128_mod_roundtrip two64 9) by (rewrite ?H70; lia). done.
  - apply le_put_length.
  - apply le_put_length.
  - apply leb128_put_nonempty.
  - rewrite length_app. pose proof (leb128_put_length 9 h.1).
    pose proof (leb128_put_length 9 h.2). change (Z.to_nat kBlockHandleMaxEncodedLength) with 20%nat. lia.
  - by eapply leb128_get_mod_shorter.
  - by eapply leb128_get_mod_shorter.
  - by eapply leb128_get_slice_shorter.
  - apply Z.mod_pos_bound. done.
  - apply Z.mod_pos_bound. done.
Qed.

Definition bytewise_compare (a b : bytes) : Z :=
  match bytes_compare a b with Lt => -1 | Eq => 0 | Gt => 1 end.

#[export] Instance bytewise_compare_ok : ComparatorOk bytewise_compare.
Proof.
  unfold bytewise_compare. split.
  - intros a. by rewrite bytes_compare_refl.
  - intros a b. rewrite (bytes_compare_antisym a b). destruct (bytes_compare a b); simpl; lia.
  - intros a b c H1 H2. destruct (bytes_compare a b) eqn:E1; [| |lia].
    + apply bytes_compare_eq in E1 as ->. done.
    + destruct (bytes_compare b c) eqn:E2; [| |lia].
      * apply bytes_compare_eq in E2 as ->. by rewrite E1.
      * by rewrite (bytes_compare_trans_lt _ _ _ E1 E2).
Qed.

Arguments leb128_put : simpl never.
Arguments leb128_get : simpl never.

(** Compresses a constant string to its byte and its length. *)
Definition rle_compress (i : bytes) : option bytes :=
  match i with
  | b :: _ =>
      if decide (i = replicate (length i) b /\ Z.of_nat (length i) < two64)
      then Some (b :: leb128_put 9 (Z.of_nat (length i))) else None
  | [] => None
  end.

Definition rle_length (o : bytes) : option Z := fst <$> leb128_get 10 (drop 1 o).

Definition rle_uncompress (o : bytes) : option bytes :=
  match o with
  | b :: r => (fun n => replicate (Z.to_nat n) b) <$> rle_length o
  | [] => None
  end.

Definition rle_compressors : Compressors := {|
  Snappy_Compress := rle_compress;
  Zlib_Compress := fun _ => rle_compress;
  BZip2_Compress := fun _ => rle_compress;
  LZ4_Compress := fun _ => rle_compress;
  LZ4HC_Compress := fun _ => rle_compress;
  XPRESS_Compress := rle_compress;
  ZSTD_Compress := rle_compress;
  Snappy_GetUncompressedLength := rle_length;
  Snappy_Uncompress := rle_uncompress;
  Zlib_Uncompress := fun o _ => rle_uncompress o;
  BZip2_Uncompress := fun o _ => rle_uncompress o;
  LZ4_Uncompress := fun o _ => rle_uncompress o;
  XPRESS_Uncompress := rle_uncompress;
  ZSTD_Uncompress := rle_uncompress
|}.

Lemma rle_roundtrip i o :
  rle_compress i = Some o ->
  rle_length o = Some (Z.of_nat (length i)) /\ rle_uncompress o = Some i.
Proof.
  unfold rle_compress. destruct i as [|b i]; [done|].
  remember (b :: i) as l eqn:El. case_decide as Hd; [|done]. destruct Hd as [Hrep Hlen].
  intros [= <-]. unfold rle_uncompress.
  assert (Hl : rle_length (b :: leb128_put 9 (Z.of_nat (length l))) = Some (Z.of_nat (length l))).
  { unfold two64 in Hlen.
    pose proof (leb128_roundtrip 9 (Z.of_nat (length l)) []) as E. rewrite app_nil_r in E.
    change (fst <$> leb128_get 10 (leb128_put 9 (Z.of_nat (length l))) = Some (Z.of_nat (length l))).
    rewrite E; [done|]. change (128 ^ (Z.of_nat 9 + 1)) with 1180591620717411303424. lia. }
  rewrite Hl. split; [done|]. simpl fmap. by rewrite Nat2Z.id, <- Hrep.
Qed.

#[export] Instance rle_compressors_ok : CompressorsOk rle_compressors.
Proof. split; intros; try by apply rle_roundtrip. Qed.
