(* ===== verification/Options.v ===== *)
(** * Options

    include/titan/options.h and src/options.cc: the option structs, their
    defaults, and the conversions between them. Of the RocksDB options they
    extend, the fields Titan reads are kept. *)

From S2P Require Import Prelude Rocks.

Module CompressionType.
(** rocksdb/options.h: the byte stored in a record header. *)
Definition kNoCompression : Z := 0.
Definition kSnappyCompression : Z := 1.
Definition kZlibCompression : Z := 2.
Definition kBZip2Compression : Z := 3.
Definition kLZ4Compression : Z := 4.
Definition kLZ4HCCompression : Z := 5.
Definition kXpressCompression : Z := 6.
Definition kZSTD : Z := 7.
Definition kZSTDNotFinalCompression : Z := 64.
End CompressionType.
Export CompressionType.

(** The fields of [rocksdb::DBOptions] Titan reads. *)
Record DBOptions := MkDBOptions { max_open_files : Z; advise_random_on_open : bool }.

(** The fields of [rocksdb::ColumnFamilyOptions] Titan reads. *)
Record ColumnFamilyOptions := MkColumnFamilyOptions { comparator : Comparator; num_levels : Z }.

Record TitanDBOptions := MkTitanDBOptions {
  db_base : DBOptions;
  dirname : string;
  disable_background_gc : bool;
  max_background_gc : Z;
  purge_obsolete_files_period_sec : Z;
  titan_stats_dump_period_sec : Z;
  sep_before_flush : bool;
  num_foreground_builders : Z;
  block_write_size : Z
}.

(** [TitanDBOptions(const DBOptions&)] with the default member initializers. *)
Definition TitanDBOptions_of (options : DBOptions) : TitanDBOptions := {|
  db_base := options;
  dirname := "";
  disable_background_gc := false;
  max_background_gc := 1;
  purge_obsolete_files_period_sec := 10;
  titan_stats_dump_period_sec := 600;
  sep_before_flush := false;
  num_foreground_builders := 1;
  block_write_size := 0
|}.

Inductive TitanBlobRunMode := kNormal | kReadOnly | kFallback.

#[export] Instance TitanBlobRunMode_eq_dec : EqDecision TitanBlobRunMode.
Proof. solve_decision. Defined.

Record TitanCFOptions := MkTitanCFOptions {
  cf_base : ColumnFamilyOptions;
  min_blob_size : Z;
  mid_blob_size : Z;
  blob_file_compression : Z;
  blob_file_target_size : Z;
  blob_cache : bool; (** whether the pointer is non-null *)
  max_gc_batch_size : Z;
  min_gc_batch_size : Z;
  blob_file_discardable_ratio : double;
  high_level_blob_discardable_ratio : double;
  sample_file_size_ratio : double;
  merge_small_file_threshold : Z;
  blob_run_mode : TitanBlobRunMode;
  lazy_merge : bool;
  level_merge : bool;
  range_merge : bool;
  max_sorted_runs : Z
}.

(** The doubles 0.1, 0.5 and 0.7. *)
Definition d01 : double := double_div (double_of_Z 1) (double_of_Z 10).
Definition d05 : double := double_div (double_of_Z 1) (double_of_Z 2).
Definition d07 : double := double_div (double_of_Z 7) (double_of_Z 10).

(** [TitanCFOptions(const ColumnFamilyOptions&)] with the default member
    initializers. *)
Definition TitanCFOptions_of (options : ColumnFamilyOptions) : TitanCFOptions := {|
  cf_base := options;
  min_blob_size := 128;
  mid_blob_size := 4096;
  blob_file_compression := kNoCompression;
  blob_file_target_size := Z.shiftl 256 20;
  blob_cache := false;
  max_gc_batch_size := Z.shiftl 1 30;
  min_gc_batch_size := Z.shiftl 512 20;
  blob_file_discardable_ratio := d05;
  high_level_blob_discardable_ratio := d07;
  sample_file_size_ratio := d01;
  merge_small_file_threshold := Z.shiftl 1 20;
  blob_run_mode := kNormal;
  lazy_merge := true;
  level_merge := false;
  range_merge := false;
  max_sorted_runs := 10
|}.

Record ImmutableTitanCFOptions := MkImmutableTitanCFOptions {
  im_min_blob_size : Z;
  im_mid_blob_size : Z;
  im_blob_file_compression : Z;
  im_blob_file_target_size : Z;
  im_blob_cache : bool;
  im_max_gc_batch_size : Z;
  im_min_gc_batch_size : Z;
  im_blob_file_discardable_ratio : double;
  im_sample_file_size_ratio : double;
  im_merge_small_file_threshold : Z;
  im_lazy_merge : bool;
  im_level_merge : bool
}.

Record MutableTitanCFOptions := MkMutableTitanCFOptions { mu_blob_run_mode : TitanBlobRunMode }.

Definition ImmutableTitanCFOptions_of (opts : TitanCFOptions) : ImmutableTitanCFOptions := {|
  im_min_blob_size := min_blob_size opts;
  im_mid_blob_size := mid_blob_size opts;
  im_blob_file_compression := blob_file_compression opts;
  im_blob_file_target_size := blob_file_target_size opts;
  im_blob_cache := blob_cache opts;
  im_max_gc_batch_size := max_gc_batch_size opts;
  im_min_gc_batch_size := min_gc_batch_size opts;
  im_blob_file_discardable_ratio := blob_file_discardable_ratio opts;
  im_sample_file_size_ratio := sample_file_size_ratio opts;
  im_merge_small_file_threshold := merge_small_file_threshold opts;
  im_lazy_merge := lazy_merge opts;
  im_level_merge := level_merge opts
|}.

Definition MutableTitanCFOptions_of (opts : TitanCFOptions) : MutableTitanCFOptions :=
  {| mu_blob_run_mode := blob_run_mode opts |}.

(** [TitanCFOptions(cf_opts, immutable_opts, mutable_opts)]: the members the
    initializer list does not name keep their defaults. *)
Definition TitanCFOptions_assemble (cf_opts : ColumnFamilyOptions)
    (immutable_opts : ImmutableTitanCFOptions) (mutable_opts : MutableTitanCFOptions)
    : TitanCFOptions := {|
  cf_base := cf_opts;
  min_blob_size := im_min_blob_size immutable_opts;
  mid_blob_size := mid_blob_size (TitanCFOptions_of cf_opts);
  blob_file_compression := im_blob_file_compression immutable_opts;
  blob_file_target_size := im_blob_file_target_size immutable_opts;
  blob_cache := im_blob_cache immutable_opts;
  max_gc_batch_size := im_max_gc_batch_size immutable_opts;
  min_gc_batch_size := im_min_gc_batch_size immutable_opts;
  blob_file_discardable_ratio := im_blob_file_discardable_ratio immutable_opts;
  high_level_blob_discardable_ratio :=
    high_level_blob_discardable_ratio (TitanCFOptions_of cf_opts);
  sample_file_size_ratio := im_sample_file_size_ratio immutable_opts;
  merge_small_file_threshold := im_merge_small_file_threshold immutable_opts;
  blob_run_mode := mu_blob_run_mode mutable_opts;
  lazy_merge := lazy_merge (TitanCFOptions_of cf_opts);
  level_merge := level_merge (TitanCFOptions_of cf_opts);
  range_merge := range_merge (TitanCFOptions_of cf_opts);
  max_sorted_runs := max_sorted_runs (TitanCFOptions_of cf_opts)
|}.

Definition blob_run_mode_to_string (m : TitanBlobRunMode) : string :=
  match m with
  | kNormal => "kNormal"
  | kReadOnly => "kReadOnly"
  | kFallback => "kFallback"
  end.

Definition blob_run_mode_string_map : gmap string TitanBlobRunMode :=
  list_to_map [("kNormal", kNormal); ("kReadOnly", kReadOnly); ("kFallback", kFallback)].

(** The name of a run mode reads back as the mode. *)
Lemma blob_run_mode_string_roundtrip m :
  blob_run_mode_string_map !! blob_run_mode_to_string m = Some m.
Proof. by destruct m. Qed.
