(* ===== verification/Stats.v ===== *)
(** * Statistics (src/titan_stats.h, src/titan_stats.cc)

    The per-column-family counters are atomic [uint64_t]: additions and
    subtractions wrap. *)

From S2P Require Import Prelude.

(** [TitanInternalStats::StatsType]. *)
Inductive StatsType :=
| LIVE_BLOB_SIZE
| NUM_LIVE_BLOB_FILE
| NUM_OBSOLETE_BLOB_FILE
| LIVE_BLOB_FILE_SIZE
| OBSOLETE_BLOB_FILE_SIZE
| NUM_DISCARDABLE_RATIO_LE0
| NUM_DISCARDABLE_RATIO_LE20
| NUM_DISCARDABLE_RATIO_LE50
| NUM_DISCARDABLE_RATIO_LE80
| NUM_DISCARDABLE_RATIO_LE100.

#[export] Instance StatsType_eq_dec : EqDecision StatsType.
Proof. solve_decision. Defined.

Inductive InternalOpStatsType :=
| COUNT
| BYTES_READ
| BYTES_WRITTEN
| IO_BYTES_READ
| IO_BYTES_WRITTEN
| INPUT_FILE_NUM
| OUTPUT_FILE_NUM
| GC_SAMPLING_MICROS
| GC_READ_LSM_MICROS
| GC_UPDATE_LSM_MICROS.

Inductive InternalOpType := FLUSH | COMPACTION | GC.

#[export] Instance InternalOpStatsType_eq_dec : EqDecision InternalOpStatsType.
Proof. solve_decision. Defined.
#[export] Instance InternalOpType_eq_dec : EqDecision InternalOpType.
Proof. solve_decision. Defined.

(** An array indexed by an enumeration. *)
Definition counters (T : Type) := T -> Z.

Definition counter_set {T} `{EqDecision T} (t : T) (v : Z) (c : counters T) : counters T :=
  fun t' => if decide (t' = t) then v else c t'.

Record TitanInternalStats := MkTitanInternalStats {
  stats_ : counters StatsType;
  internal_op_stats_ : InternalOpType -> counters InternalOpStatsType
}.

(** [TitanInternalStats::Clear], also the constructor. *)
Definition TitanInternalStats_Clear : TitanInternalStats :=
  {| stats_ := fun _ => 0; internal_op_stats_ := fun _ _ => 0 |}.

Definition TitanInternalStats_ResetStats (type : StatsType) (s : TitanInternalStats) :=
  {| stats_ := counter_set type 0 (stats_ s); internal_op_stats_ := internal_op_stats_ s |}.

Definition TitanInternalStats_AddStats (type : StatsType) (value : Z) (s : TitanInternalStats) :=
  {| stats_ := counter_set type (stats_ s type +u64 value) (stats_ s);
     internal_op_stats_ := internal_op_stats_ s |}.

Definition TitanInternalStats_SubStats (type : StatsType) (value : Z) (s : TitanInternalStats) :=
  {| stats_ := counter_set type (stats_ s type -u64 value) (stats_ s);
     internal_op_stats_ := internal_op_stats_ s |}.

Definition titandb_prefix : string := "rocksdb.titandb.".

Definition property_name (t : StatsType) : string :=
  titandb_prefix +:+
  match t with
  | LIVE_BLOB_SIZE => "live-blob-size"
  | NUM_LIVE_BLOB_FILE => "num-live-blob-file"
  | NUM_OBSOLETE_BLOB_FILE => "num-obsolete-blob-file"
  | LIVE_BLOB_FILE_SIZE => "live-blob-file-size"
  | OBSOLETE_BLOB_FILE_SIZE => "obsolete-blob-file-size"
  | NUM_DISCARDABLE_RATIO_LE0 => "num-discardable-ratio-le0-file"
  | NUM_DISCARDABLE_RATIO_LE20 => "num-discardable-ratio-le20-file"
  | NUM_DISCARDABLE_RATIO_LE50 => "num-discardable-ratio-le50-file"
  | NUM_DISCARDABLE_RATIO_LE80 => "num-discardable-ratio-le80-file"
  | NUM_DISCARDABLE_RATIO_LE100 => "num-discardable-ratio-le100-file"
  end.

Definition all_stats_types : list StatsType :=
  [LIVE_BLOB_SIZE; NUM_LIVE_BLOB_FILE; NUM_OBSOLETE_BLOB_FILE; LIVE_BLOB_FILE_SIZE;
   OBSOLETE_BLOB_FILE_SIZE; NUM_DISCARDABLE_RATIO_LE0; NUM_DISCARDABLE_RATIO_LE20;
   NUM_DISCARDABLE_RATIO_LE50; NUM_DISCARDABLE_RATIO_LE80; NUM_DISCARDABLE_RATIO_LE100].

Definition stats_type_string_map : gmap string StatsType :=
  list_to_map ((fun t => (property_name t, t)) <$> all_stats_types).

Definition TitanInternalStats_GetIntProperty (property : string) (s : TitanInternalStats)
    : option Z :=
  stats_ s <$> (stats_type_string_map !! property).

Definition TitanInternalStats_GetStringProperty (property : string) (s : TitanInternalStats)
    : option string :=
  pretty <$> TitanInternalStats_GetIntProperty property s.

(** [TitanStats], of which the internal statistics by column family id. *)
Abbreviation TitanStats := (gmap Z TitanInternalStats).

(** [TitanStats::Initialize] on the ids of the opened column families. *)
Definition TitanStats_Initialize (cf_ids : list Z) (st : TitanStats) : TitanStats :=
  foldl (fun st id => <[id := TitanInternalStats_Clear]> st) st cf_ids.

(** [ResetStats], [AddStats] and [SubStats]: no effect without a statistics
    object or for a column family it does not know. *)
Definition ResetStats (stats : option TitanStats) (cf_id : Z) (type : StatsType)
    : option TitanStats :=
  alter (TitanInternalStats_ResetStats type) cf_id <$> stats.

Definition AddStats (stats : option TitanStats) (cf_id : Z) (type : StatsType) (value : Z)
    : option TitanStats :=
  alter (TitanInternalStats_AddStats type value) cf_id <$> stats.

Definition SubStats (stats : option TitanStats) (cf_id : Z) (type : StatsType) (value : Z)
    : option TitanStats :=
  alter (TitanInternalStats_SubStats type value) cf_id <$> stats.

(** The operation statistics of one operation type; [value] defaults to 1 in
    the source. *)
Definition AddOpStats (s : TitanInternalStats) (op : InternalOpType)
    (type : InternalOpStatsType) (value : Z) : TitanInternalStats :=
  {| stats_ := stats_ s;
     internal_op_stats_ := fun op' =>
       if decide (op' = op)
       then counter_set type (internal_op_stats_ s op type +u64 value) (internal_op_stats_ s op)
       else internal_op_stats_ s op' |}.

Definition SubOpStats (s : TitanInternalStats) (op : InternalOpType)
    (type : InternalOpStatsType) (value : Z) : TitanInternalStats :=
  {| stats_ := stats_ s;
     internal_op_stats_ := fun op' =>
       if decide (op' = op)
       then counter_set type (internal_op_stats_ s op type -u64 value) (internal_op_stats_ s op)
       else internal_op_stats_ s op' |}.

Definition GetAndResetOpStats (s : TitanInternalStats) (op : InternalOpType)
    (type : InternalOpStatsType) : Z * TitanInternalStats :=
  (internal_op_stats_ s op type,
   {| stats_ := stats_ s;
      internal_op_stats_ := fun op' =>
        if decide (op' = op) then counter_set type 0 (internal_op_stats_ s op)
        else internal_op_stats_ s op' |}).

(** [DumpAndResetInternalOpStats]: what it logs of each operation, in order, and
    the statistics afterwards. *)
Definition dumped_types : list InternalOpStatsType :=
  [COUNT; BYTES_READ; BYTES_WRITTEN; IO_BYTES_READ; IO_BYTES_WRITTEN; INPUT_FILE_NUM; OUTPUT_FILE_NUM].

Definition dump_op (st : list (list Z) * TitanInternalStats) (op : InternalOpType)
    : list (list Z) * TitanInternalStats :=
  let '(line, s) := foldl (fun acc type => let '(v, s) := GetAndResetOpStats acc.2 op type in (acc.1 ++ [v], s))
                      ([], st.2) dumped_types in
  (st.1 ++ [line], s).

Definition DumpAndResetInternalOpStats (s : TitanInternalStats) : list (list Z) * TitanInternalStats :=
  foldl dump_op ([], s) [FLUSH; COMPACTION; GC].

(** The value of one counter of one column family, when statistics are kept. *)
Definition stat (stats : option TitanStats) (cf_id : Z) (type : StatsType) : option Z :=
  match stats with
  | Some st => (fun s => stats_ s type) <$> st !! cf_id
  | None => None
  end.

Lemma stat_AddStats stats cf cf' t t' v :
  stat (AddStats stats cf t v) cf' t' =
  if decide (cf' = cf /\ t' = t) then (fun x => x +u64 v) <$> stat stats cf' t'
  else stat stats cf' t'.
Proof.
  destruct stats as [st|]; simpl; [|by case_decide].
  rewrite lookup_alter. destruct (decide (cf = cf')) as [<-|Hne].
  - destruct (st !! cf); simpl; [|by case_decide]. unfold counter_set.
    destruct (decide (t' = t)) as [->|Ht]; [by rewrite decide_True|].
    rewrite decide_False; naive_solver.
  - rewrite decide_False; naive_solver.
Qed.

Lemma stat_SubStats stats cf cf' t t' v :
  stat (SubStats stats cf t v) cf' t' =
  if decide (cf' = cf /\ t' = t) then (fun x => x -u64 v) <$> stat stats cf' t'
  else stat stats cf' t'.
Proof.
  destruct stats as [st|]; simpl; [|by case_decide].
  rewrite lookup_alter. destruct (decide (cf = cf')) as [<-|Hne].
  - destruct (st !! cf); simpl; [|by case_decide]. unfold counter_set.
    destruct (decide (t' = t)) as [->|Ht]; [by rewrite decide_True|].
    rewrite decide_False; naive_solver.
  - rewrite decide_False; naive_solver.
Qed.

Lemma property_name_inj t t' : property_name t = property_name t' -> t = t'.
Proof. by destruct t, t'. Qed.

Lemma stat_AddStats_eq stats cf t v :
  stat (AddStats stats cf t v) cf t = (fun x => x +u64 v) <$> stat stats cf t.
Proof. by rewrite stat_AddStats, decide_True. Qed.

Lemma stat_AddStats_ne stats cf cf' t t' v :
  t' <> t -> stat (AddStats stats cf t v) cf' t' = stat stats cf' t'.
Proof. intros Ht. rewrite stat_AddStats, decide_False; [done|]. by intros [_ ?]. Qed.

Lemma stat_SubStats_eq stats cf t v :
  stat (SubStats stats cf t v) cf t = (fun x => x -u64 v) <$> stat stats cf t.
Proof. by rewrite stat_SubStats, decide_True. Qed.

Lemma stat_SubStats_ne stats cf cf' t t' v :
  t' <> t -> stat (SubStats stats cf t v) cf' t' = stat stats cf' t'.
Proof. intros Ht. rewrite stat_SubStats, decide_False; [done|]. by intros [_ ?]. Qed.

(** Evaluates the updates of the statistics in a counter's value. *)
Ltac stat_simpl Hv :=
  repeat first
    [ rewrite stat_AddStats_ne in Hv by discriminate
    | rewrite stat_SubStats_ne in Hv by discriminate
    | rewrite stat_AddStats_eq in Hv | rewrite stat_SubStats_eq in Hv ].
