(* ===== verification/Tickers.v ===== *)
(** * Tickers and histograms (class [TitanStats] of src/titan_stats.h)

    [TitanStats] extends the statistics of the base database with tickers and
    histograms of its own, in two arrays behind the base's. The internal
    statistics by column family are those of [Stats]. Also here: the counters of
    I/O bytes and the stop watch. *)

From S2P Require Import Prelude Rocks Options Stats.

(** RocksDB's [Statistics] and [HistogramImpl], and where its types end. *)
Class BaseStatistics := {
  statistics : Type;
  histogram : Type;
  histogram_data : Type;
  TICKER_ENUM_MAX : Z;
  HISTOGRAM_ENUM_MAX : Z;
  base_getTickerCount : Z -> statistics -> Z;
  base_recordTick : Z -> Z -> statistics -> statistics;
  base_setTickerCount : Z -> Z -> statistics -> statistics;
  base_getAndResetTickerCount : Z -> statistics -> Z * statistics;
  base_measureTime : Z -> Z -> statistics -> statistics;
  base_histogramData : Z -> statistics -> histogram_data;
  base_Reset : statistics -> Status * statistics;
  histogram_Add : Z -> histogram -> histogram;
  histogram_Clear : histogram -> histogram;
  histogram_Data : histogram -> histogram_data
}.

(** RocksDB has more than a hundred tickers and more than thirty histograms. *)
Class BaseStatisticsOk `{BaseStatistics} : Prop := {
  many_tickers : 100 < TICKER_ENUM_MAX < two32 - 100;
  many_histograms : 30 < HISTOGRAM_ENUM_MAX < two32 - 100
}.

Inductive TickerType :=
| BLOB_CACHE_HIT | BLOB_CACHE_MISS | GC_NO_NEED | GC_REMAIN | GC_DISCARDABLE | GC_SAMPLE | GC_SMALL_FILE
| GC_FAIL | GC_SUCCESS | GC_TRIGGER_NEXT.

Inductive HistogramType := TITAN_MANIFEST_FILE_SYNC_MICROS | GC_INPUT_FILE_SIZE | GC_OUTPUT_FILE_SIZE.

#[export] Instance TickerType_eq_dec : EqDecision TickerType.
Proof. solve_decision. Defined.
#[export] Instance HistogramType_eq_dec : EqDecision HistogramType.
Proof. solve_decision. Defined.

(** The distance of an enumerator from the first one. *)
Definition ticker_offset (t : TickerType) : Z :=
  match t with
  | BLOB_CACHE_HIT => 0 | BLOB_CACHE_MISS => 1 | GC_NO_NEED => 2 | GC_REMAIN => 3 | GC_DISCARDABLE => 4
  | GC_SAMPLE => 5 | GC_SMALL_FILE => 6 | GC_FAIL => 7 | GC_SUCCESS => 8 | GC_TRIGGER_NEXT => 9
  end.

Definition histogram_offset (t : HistogramType) : Z :=
  match t with TITAN_MANIFEST_FILE_SYNC_MICROS => 0 | GC_INPUT_FILE_SIZE => 1 | GC_OUTPUT_FILE_SIZE => 2 end.

Section stats.
Context `{BaseStatistics}.

Definition ticker_type (t : TickerType) : Z := TICKER_ENUM_MAX + 1 + ticker_offset t.
Definition histogram_type (t : HistogramType) : Z := HISTOGRAM_ENUM_MAX + 1 + histogram_offset t.
Definition INTERNAL_TICKER_ENUM_MAX : Z := TICKER_ENUM_MAX + 11.
Definition INTERNAL_HISTOGRAM_ENUM_MAX : Z := HISTOGRAM_ENUM_MAX + 4.

(** [stats_], [tickers_], [histograms_] and [internal_stats_]. *)
Record TitanTickers := MkTitanTickers {
  ts_base : option statistics;
  ts_tickers : list Z;
  ts_histograms : list histogram;
  ts_internal : gmap Z TitanInternalStats
}.

Definition set_base (b : statistics) (st : TitanTickers) : TitanTickers :=
  MkTitanTickers (Some b) (ts_tickers st) (ts_histograms st) (ts_internal st).

(** Element [i] of one of the arrays; past the end the access is undefined. *)
Definition array_get {A} (i : Z) (l : list A) : result A :=
  if i <? 0 then Fault else match l !! Z.to_nat i with Some x => Ok x | None => Fault end.

Definition array_set {A} (i : Z) (x : A) (l : list A) : result (list A) :=
  let* _ := array_get i l in Ok (<[Z.to_nat i := x]> l).

Definition set_tickers (l : list Z) (st : TitanTickers) : TitanTickers :=
  MkTitanTickers (ts_base st) l (ts_histograms st) (ts_internal st).

Definition set_histograms (l : list histogram) (st : TitanTickers) : TitanTickers :=
  MkTitanTickers (ts_base st) (ts_tickers st) l (ts_internal st).

(** The index of a ticker of [TitanStats]. *)
Definition ticker_index (type : Z) : Z := type - (TICKER_ENUM_MAX + 1).
Definition histogram_index (type : Z) : Z := type - (HISTOGRAM_ENUM_MAX + 1).

Definition getTickerCount (type : Z) (st : TitanTickers) : result Z :=
  match ts_base st with
  | None => Ok 0
  | Some b => if type >? TICKER_ENUM_MAX then array_get (ticker_index type) (ts_tickers st)
              else Ok (base_getTickerCount type b)
  end.

Definition histogramData (type : Z) (st : TitanTickers) : result (option histogram_data) :=
  match ts_base st with
  | None => Ok None
  | Some b => if type >? HISTOGRAM_ENUM_MAX
              then let* h := array_get (histogram_index type) (ts_histograms st) in Ok (Some (histogram_Data h))
              else Ok (Some (base_histogramData type b))
  end.

Definition recordTick (type count : Z) (st : TitanTickers) : result TitanTickers :=
  match ts_base st with
  | None => Ok st
  | Some b =>
      if type >? TICKER_ENUM_MAX then
        let* v := array_get (ticker_index type) (ts_tickers st) in
        let* l := array_set (ticker_index type) (v +u64 count) (ts_tickers st) in
        Ok (set_tickers l st)
      else Ok (set_base (base_recordTick type count b) st)
  end.

Definition setTickerCount (type count : Z) (st : TitanTickers) : result TitanTickers :=
  match ts_base st with
  | None => Ok st
  | Some b =>
      if type >? TICKER_ENUM_MAX then
        let* l := array_set (ticker_index type) count (ts_tickers st) in Ok (set_tickers l st)
      else Ok (set_base (base_setTickerCount type count b) st)
  end.

Definition getAndResetTickerCount (type : Z) (st : TitanTickers) : result (Z * TitanTickers) :=
  match ts_base st with
  | None => Ok (0, st)
  | Some b =>
      if type >? TICKER_ENUM_MAX then
        let* v := array_get (ticker_index type) (ts_tickers st) in
        let* l := array_set (ticker_index type) 0 (ts_tickers st) in
        Ok (v, set_tickers l st)
      else let '(v, b) := base_getAndResetTickerCount type b in Ok (v, set_base b st)
  end.

Definition measureTime (type time : Z) (st : TitanTickers) : result TitanTickers :=
  match ts_base st with
  | None => Ok st
  | Some b =>
      if type >? HISTOGRAM_ENUM_MAX then
        let* h := array_get (histogram_index type) (ts_histograms st) in
        let* l := array_set (histogram_index type) (histogram_Add time h) (ts_histograms st) in
        Ok (set_histograms l st)
      else Ok (set_base (base_measureTime type time b) st)
  end.

(** The two loops of [Reset], which index the arrays with the type itself. *)
Definition reset_tickers (st : TitanTickers) : result TitanTickers :=
  let* l := foldl (fun acc type => let* l := acc in array_set type 0 l) (Ok (ts_tickers st))
              (seqZ TICKER_ENUM_MAX (INTERNAL_TICKER_ENUM_MAX - TICKER_ENUM_MAX)) in
  Ok (set_tickers l st).

Definition reset_histograms (st : TitanTickers) : result TitanTickers :=
  let* l := foldl (fun acc type => let* l := acc in let* h := array_get type l in array_set type (histogram_Clear h) l)
              (Ok (ts_histograms st)) (seqZ HISTOGRAM_ENUM_MAX (INTERNAL_HISTOGRAM_ENUM_MAX - HISTOGRAM_ENUM_MAX)) in
  Ok (set_histograms l st).

Definition TitanStats_Reset (st : TitanTickers) : result (Status * TitanTickers) :=
  let st := MkTitanTickers (ts_base st) (ts_tickers st) (ts_histograms st) ((fun _ => TitanInternalStats_Clear) <$> ts_internal st) in
  let* st := reset_tickers st in
  let* st := reset_histograms st in
  match ts_base st with
  | None => Fault
  | Some b => let '(s, b) := base_Reset b in Ok (s, set_base b st)
  end.

Definition HistEnabledForType (type : Z) : bool := type <? INTERNAL_HISTOGRAM_ENUM_MAX.

(** ** Bytes of I/O and time *)

(** [UpdateIOBytes]: [read] and [written] are the thread's counters, if it has
    them, and [prev] what [SavePrevIOBytes] saved of them. *)
Definition SavePrevIOBytes (io_stats : option (Z * Z)) (prev : Z * Z) : Z * Z :=
  match io_stats with Some io => io | None => prev end.

Definition UpdateIOBytes (io_stats : option (Z * Z)) (prev total : Z * Z) : Z * Z :=
  match io_stats with
  | Some (r, w) => (total.1 +u64 (r -u64 prev.1), total.2 +u64 (w -u64 prev.2))
  | None => total
  end.

(** The destructor of [TitanStopWatch], at the time [now]. *)
Definition TitanStopWatch_delete (start now stats : Z) : Z := stats +u64 (now -u64 start).

(** ** What the tickers count *)

(** The arrays have the sizes of their declarations. *)
Record tickers_wf (st : TitanTickers) : Prop := {
  wf_tickers : length (ts_tickers st) = Z.to_nat (INTERNAL_TICKER_ENUM_MAX - TICKER_ENUM_MAX);
  wf_histograms : length (ts_histograms st) = Z.to_nat (INTERNAL_HISTOGRAM_ENUM_MAX - HISTOGRAM_ENUM_MAX)
}.

Lemma array_get_in {A} i (l : list A) : 0 <= i < Z.of_nat (length l) -> exists x, array_get i l = Ok x /\ l !! Z.to_nat i = Some x.
Proof.
  intros Hi. unfold array_get. destruct (Z.ltb_spec i 0); [lia|].
  destruct (lookup_lt_is_Some_2 l (Z.to_nat i)) as [x Hx]; [lia|]. exists x. by rewrite Hx.
Qed.

Lemma array_get_out {A} i (l : list A) : Z.of_nat (length l) <= i -> array_get i l = Fault.
Proof. intros Hi. unfold array_get. destruct (i <? 0); [done|]. by rewrite lookup_ge_None_2 by lia. Qed.

Lemma ticker_offset_inj t t' : ticker_offset t = ticker_offset t' -> t = t'.
Proof. by destruct t, t'. Qed.

Lemma ticker_offset_range t : 0 <= ticker_offset t < 10.
Proof. destruct t; cbn; lia. Qed.

Lemma ticker_slot t st : tickers_wf st ->
  (ticker_type t >? TICKER_ENUM_MAX) = true /\ ticker_index (ticker_type t) = ticker_offset t /\
  0 <= ticker_offset t < Z.of_nat (length (ts_tickers st)).
Proof.
  intros [Ht _]. pose proof (ticker_offset_range t). unfold ticker_type, ticker_index, INTERNAL_TICKER_ENUM_MAX in *.
  split_and!; [apply Z.gtb_lt; lia|lia..].
Qed.

(** A store into the slot of [t] is seen by [t] alone. *)
Lemma ticker_store t v st b : tickers_wf st -> ts_base st = Some b ->
  exists l, array_set (ticker_offset t) v (ts_tickers st) = Ok l /\ tickers_wf (set_tickers l st) /\
    getTickerCount (ticker_type t) (set_tickers l st) = Ok v /\
    forall t', t' <> t -> getTickerCount (ticker_type t') (set_tickers l st) = getTickerCount (ticker_type t') st.
Proof.
  intros Hwf Hb. destruct (ticker_slot t st Hwf) as (_ & _ & Hr).
  destruct (array_get_in _ _ Hr) as (x & Hx & _). unfold array_set. rewrite Hx. cbn [result_bind]. eexists. split; [done|].
  assert (Hwf' : tickers_wf (set_tickers (<[Z.to_nat (ticker_offset t) := v]> (ts_tickers st)) st)).
  { destruct Hwf. split; cbn; [by rewrite length_insert|done]. }
  assert (Hget : forall t' st', tickers_wf st' -> ts_base st' = Some b ->
            getTickerCount (ticker_type t') st' = match ts_tickers st' !! Z.to_nat (ticker_offset t') with Some y => Ok y | None => Fault end).
  { intros t' st' Hw Hb'. destruct (ticker_slot t' st' Hw) as (Hg & Hi & Hr'). unfold getTickerCount. rewrite Hb', Hg, Hi.
    unfold array_get. destruct (Z.ltb_spec (ticker_offset t') 0); [lia|done]. }
  split; [done|]. split.
  - rewrite Hget by done. cbn. rewrite list_lookup_insert_eq by lia. done.
  - intros t' Hne. rewrite !Hget by done. cbn. rewrite list_lookup_insert_ne; [done|]. intros Heq.
    apply Hne, ticker_offset_inj. pose proof (ticker_offset_range t). pose proof (ticker_offset_range t'). lia.
Qed.

(** The tickers of [TitanStats] count on their own. With the statistics of a base
    database, a tick is added to its counter, modulo 2^64, a count is set, and a
    count is taken and reset; the other tickers and the base's statistics are left
    alone, and no access is out of bounds. A type of the base is handed on, and
    without a base nothing is counted. *)
Theorem tickers_count (t : TickerType) (v n : Z) (st : TitanTickers) (b : statistics) :
  tickers_wf st -> ts_base st = Some b -> getTickerCount (ticker_type t) st = Ok v ->
  (exists st', recordTick (ticker_type t) n st = Ok st' /\ tickers_wf st' /\ ts_base st' = Some b /\
     getTickerCount (ticker_type t) st' = Ok (v +u64 n) /\
     forall t', t' <> t -> getTickerCount (ticker_type t') st' = getTickerCount (ticker_type t') st) /\
  (exists st', setTickerCount (ticker_type t) n st = Ok st' /\ tickers_wf st' /\ ts_base st' = Some b /\
     getTickerCount (ticker_type t) st' = Ok n /\
     forall t', t' <> t -> getTickerCount (ticker_type t') st' = getTickerCount (ticker_type t') st) /\
  (exists st', getAndResetTickerCount (ticker_type t) st = Ok (v, st') /\ tickers_wf st' /\ ts_base st' = Some b /\
     getTickerCount (ticker_type t) st' = Ok 0 /\
     forall t', t' <> t -> getTickerCount (ticker_type t') st' = getTickerCount (ticker_type t') st) /\
  (forall type, type <= TICKER_ENUM_MAX -> recordTick type n st = Ok (set_base (base_recordTick type n b) st)).
Proof.
  intros Hwf Hb Hv. destruct (ticker_slot t st Hwf) as (Hg & Hi & Hr).
  unfold getTickerCount in Hv. rewrite Hb, Hg, Hi in Hv.
  assert (Hgo : forall x, exists l, array_set (ticker_offset t) x (ts_tickers st) = Ok l /\ tickers_wf (set_tickers l st) /\
            ts_base (set_tickers l st) = Some b /\ getTickerCount (ticker_type t) (set_tickers l st) = Ok x /\
            forall t', t' <> t -> getTickerCount (ticker_type t') (set_tickers l st) = getTickerCount (ticker_type t') st).
  { intros x. destruct (ticker_store t x st b Hwf Hb) as (l & Hl & Hw & Hsame & Hother). exists l. by split_and!. }
  split_and!.
  - destruct (Hgo (v +u64 n)) as (l & Hl & Hrest). exists (set_tickers l st). split; [|exact Hrest].
    unfold recordTick. rewrite Hb, Hg, Hi, Hv. cbn [result_bind]. by rewrite Hl.
  - destruct (Hgo n) as (l & Hl & Hrest). exists (set_tickers l st). split; [|exact Hrest].
    unfold setTickerCount. rewrite Hb, Hg, Hi, Hl. done.
  - destruct (Hgo 0) as (l & Hl & Hrest). exists (set_tickers l st). split; [|exact Hrest].
    unfold getAndResetTickerCount. rewrite Hb, Hg, Hi, Hv. cbn [result_bind]. by rewrite Hl.
  - intros type Ht. unfold recordTick. rewrite Hb. replace (type >? TICKER_ENUM_MAX) with false; [done|].
    symmetry. rewrite Z.gtb_ltb. by apply Z.ltb_ge.
Qed.

(** [Reset] writes past the end of the array of tickers: its loop starts at the
    type [TICKER_ENUM_MAX], which is far beyond the array's eleven elements. *)
Theorem reset_out_of_bounds `{!BaseStatisticsOk} (st : TitanTickers) : tickers_wf st -> TitanStats_Reset st = Fault.
Proof.
  intros [Ht _]. unfold TitanStats_Reset, reset_tickers. cbn [ts_tickers]. unfold INTERNAL_TICKER_ENUM_MAX in *.
  replace (TICKER_ENUM_MAX + 11 - TICKER_ENUM_MAX) with 11 in * by lia.
  rewrite seqZ_cons by lia. cbn [foldl result_bind].
  unfold array_set at 2. rewrite array_get_out by (destruct many_tickers; lia). cbn [result_bind].
  assert (Hf : forall L, foldl (fun acc type => let* l := acc in array_set type 0 l) Fault L = Fault) by (induction L; done).
  by rewrite Hf.
Qed.
End stats.

(** ** An application *)

Section witnesses.
(** A base with a map of counters and no histograms of its own. *)
Definition mem_statistics : BaseStatistics := {|
  statistics := gmap Z Z;
  histogram := list Z;
  histogram_data := list Z;
  TICKER_ENUM_MAX := 130;
  HISTOGRAM_ENUM_MAX := 40;
  base_getTickerCount := fun t m => default 0 (m !! t);
  base_recordTick := fun t n m => <[t := default 0 (m !! t) +u64 n]> m;
  base_setTickerCount := fun t n m => <[t := n]> m;
  base_getAndResetTickerCount := fun t m => (default 0 (m !! t), <[t := 0]> m);
  base_measureTime := fun _ _ m => m;
  base_histogramData := fun _ _ => [];
  base_Reset := fun _ => (OK, ∅);
  histogram_Add := fun v h => h ++ [v];
  histogram_Clear := fun _ => [];
  histogram_Data := fun h => h
|}.

#[local] Existing Instance mem_statistics.

#[export] Instance mem_statistics_ok : @BaseStatisticsOk mem_statistics.
Proof. split; vm_compute; intuition congruence. Qed.

Definition example_tickers : TitanTickers := MkTitanTickers (Some (∅ : gmap Z Z)) (replicate 11 7) (replicate 4 []) ∅.

Lemma example_tickers_wf : tickers_wf example_tickers.
Proof. by split. Qed.

Lemma tickers_count_witness :
  exists st', recordTick (ticker_type GC_SUCCESS) 5 example_tickers = Ok st' /\
    getTickerCount (ticker_type GC_SUCCESS) st' = Ok 12 /\ getTickerCount (ticker_type GC_FAIL) st' = Ok 7.
Proof.
  destruct (tickers_count GC_SUCCESS 7 5 example_tickers (∅ : gmap Z Z) example_tickers_wf eq_refl eq_refl)
    as ((st' & Hrec & _ & _ & Hv & Hother) & _).
  exists st'. split; [exact Hrec|]. split; [exact Hv|]. rewrite (Hother GC_FAIL) by done. reflexivity.
Defined.

Lemma reset_out_of_bounds_witness : TitanStats_Reset example_tickers = Fault.
Proof. exact (reset_out_of_bounds example_tickers example_tickers_wf). Defined.
End witnesses.
