(* ===== verification/Util.v ===== *)
(** * Compression of records (src/util.cc) *)

From S2P Require Import Prelude Rocks Options.

Definition kCompressionFormat : Z := 2.

(** Whether compression saved more than 12.5%. *)
Definition GoodCompressionRatio (compressed_size raw_size : Z) : bool :=
  compressed_size <? raw_size - raw_size / 8.

Section compression.
Context `{Compressors}.

(** The output of one compressor, when it succeeds and is small enough. *)
Definition good_output (input : bytes) (output : option bytes) : option bytes :=
  match output with
  | Some o =>
      if GoodCompressionRatio (Z.of_nat (length o)) (Z.of_nat (length input))
      then Some o else None
  | None => None
  end.

(** [Compress]: the bytes to store and the compression type to record. *)
Definition Compress (info_type : Z) (input : bytes) : bytes * Z :=
  if info_type =? kNoCompression then (input, kNoCompression)
  else
    let attempt :=
      if info_type =? kSnappyCompression then good_output input (Snappy_Compress input)
      else if info_type =? kZlibCompression then
        good_output input (Zlib_Compress kCompressionFormat input)
      else if info_type =? kBZip2Compression then
        good_output input (BZip2_Compress kCompressionFormat input)
      else if info_type =? kLZ4Compression then
        good_output input (LZ4_Compress kCompressionFormat input)
      else if info_type =? kLZ4HCCompression then
        good_output input (LZ4HC_Compress kCompressionFormat input)
      else if info_type =? kXpressCompression then good_output input (XPRESS_Compress input)
      else if (info_type =? kZSTD) || (info_type =? kZSTDNotFinalCompression) then
        good_output input (ZSTD_Compress input)
      else None in
    match attempt with
    | Some o => (o, info_type)
    | None => (input, kNoCompression)
    end.

(** [Uncompress]; the caller checks that the type is not [kNoCompression]. *)
Definition Uncompress (info_type : Z) (input : bytes) : result bytes :=
  let corrupted (what : string) := Corruption ("Corrupted compressed blob: " +:+ what) in
  if info_type =? kSnappyCompression then
    let* usize := or_err (Snappy_GetUncompressedLength input) (corrupted "Snappy") in
    let* ubuf := or_err (Snappy_Uncompress input) (corrupted "Snappy") in
    Ok (take (Z.to_nat usize) ubuf)
  else if info_type =? kZlibCompression then
    or_err (Zlib_Uncompress input kCompressionFormat) (corrupted "Zlib")
  else if info_type =? kBZip2Compression then
    or_err (BZip2_Uncompress input kCompressionFormat) (corrupted "Bzip2")
  else if info_type =? kLZ4Compression then
    or_err (LZ4_Uncompress input kCompressionFormat) (corrupted "LZ4")
  else if info_type =? kLZ4HCCompression then
    or_err (LZ4_Uncompress input kCompressionFormat) (corrupted "LZ4HC")
  else if info_type =? kXpressCompression then
    or_err (XPRESS_Uncompress input) (corrupted "Xpress")
  else if (info_type =? kZSTD) || (info_type =? kZSTDNotFinalCompression) then
    or_err (ZSTD_Uncompress input) (corrupted "ZSTD")
  else Err (Corruption "bad compression type").

Lemma good_output_Some i o o' : good_output i o = Some o' -> o = Some o'.
Proof. unfold good_output. destruct o; [|done]. case_match; naive_solver. Qed.

Lemma good_output_smaller i o o' :
  good_output i o = Some o' -> (length o' < length i)%nat.
Proof.
  unfold good_output. destruct o as [o|]; [|done]. case_match eqn:E; [|done].
  intros [= <-]. apply Z.ltb_lt in E.
  pose proof (Z.div_pos (Z.of_nat (length i)) 8). lia.
Qed.

(** The stored bytes are the input itself or a strictly smaller output of the
    requested method. *)
Lemma Compress_cases t i o t' :
  Compress t i = (o, t') ->
  (o = i /\ t' = kNoCompression) \/
  (t' = t /\ t <> kNoCompression /\ (length o < length i)%nat).
Proof.
  unfold Compress. destruct (Z.eqb_spec t kNoCompression) as [->|Hne].
  - intros [= <- <-]. by left.
  - repeat case_match; intros [= <- <-]; try (by left); right; split_and!; try done;
      by eapply good_output_smaller.
Qed.

(** What was compressed uncompresses to the input. *)
Lemma Uncompress_Compress `{!CompressorsOk _} t i o t' :
  Compress t i = (o, t') -> t' <> kNoCompression -> Uncompress t' o = Ok i.
Proof.
  unfold Compress. destruct (Z.eqb_spec t kNoCompression) as [->|Hne]; [naive_solver|].
  intros HC Ht'. unfold Uncompress.
  repeat match goal with
  | H : context [if ?b then _ else _] |- _ => destruct b eqn:?
  end; case_match eqn:E; simplify_eq; apply good_output_Some in E;
    repeat match goal with H : (_ =? _) = _ |- _ => rewrite ?H; clear H end.
  - apply snappy_roundtrip in E as [-> ->]. simpl. by rewrite Nat2Z.id, firstn_all.
  - by rewrite (zlib_roundtrip _ _ _ E).
  - by rewrite (bzip2_roundtrip _ _ _ E).
  - by rewrite (lz4_roundtrip _ _ _ E).
  - by rewrite (lz4hc_roundtrip _ _ _ E).
  - by rewrite (xpress_roundtrip _ _ E).
  - match goal with H : (_ || _) = true |- _ => rewrite H end.
    by rewrite (zstd_roundtrip _ _ E).
Qed.
End compression.
