(* ===== verification/BlockQueue.v ===== *)
(** * The blocking queue and the threads that serve it
    ([BlockQueue] of src/util.h; [handleRequest], [Flush] and [Finish] of
    [ForegroundBuilder], src/table_builder.cc)

    The operations are what a thread does while it holds the queue's mutex. First
    any number of threads that take from one queue; then the servers of a
    foreground builder, each with a queue of its own, over any handler. *)

From S2P Require Import Prelude.

Section operations.
Context {T : Type}.

(** [Put]: the queue, and whether it calls [cv_.SignalAll]. *)
Definition BlockQueue_Put (item : T) (q : list T) : list T * bool :=
  let q := q ++ [item] in (q, bool_decide (length q = 1%nat)).

(** One test of the loop of [Get]; [None] when the thread waits. *)
Definition BlockQueue_Get (q : list T) : option (T * list T) :=
  match q with
  | [] => None
  | ret :: q => Some (ret, q)
  end.

(** One test of the loop of [GetBulk], which splices the whole queue whatever
    [max] is. *)
Definition BlockQueue_GetBulk (max : Z) (q : list T) : option (list T * list T) :=
  match q with
  | [] => None
  | q => Some (q, [])
  end.
End operations.

(** ** Threads that take from one queue *)

(** A consumer is blocked in [cv_.Wait], or about to take the mutex and test the
    queue: at the start of its call or after it was woken. *)
Inductive Consumer := CTesting | CBlocked.

Definition wake (signal : bool) (c : Consumer) : Consumer := if signal then CTesting else c.

Section consumers.
Context {T : Type}.

(** The queue, its consumers, everything put, and what the calls returned, in
    order. *)
Record Queue := MkQueue {
  q_items : list T;
  q_consumers : list Consumer;
  q_put : list T;
  q_taken : list (list T)
}.

Inductive queue_step : Queue -> Queue -> Prop :=
| qs_put item q q' signal cs put taken :
    BlockQueue_Put item q = (q', signal) ->
    queue_step (MkQueue q cs put taken)
      (MkQueue q' (wake signal <$> cs) (put ++ [item]) taken)
| qs_get item q q' cs1 cs2 put taken :
    BlockQueue_Get q = Some (item, q') ->
    queue_step (MkQueue q (cs1 ++ CTesting :: cs2) put taken)
      (MkQueue q' (cs1 ++ CTesting :: cs2) put (taken ++ [[item]]))
| qs_bulk max items q q' cs1 cs2 put taken :
    BlockQueue_GetBulk max q = Some (items, q') ->
    queue_step (MkQueue q (cs1 ++ CTesting :: cs2) put taken)
      (MkQueue q' (cs1 ++ CTesting :: cs2) put (taken ++ [items]))
| qs_wait q cs1 cs2 put taken :
    BlockQueue_Get q = None ->
    queue_step (MkQueue q (cs1 ++ CTesting :: cs2) put taken)
      (MkQueue q (cs1 ++ CBlocked :: cs2) put taken)
| qs_spurious q cs1 cs2 put taken :
    queue_step (MkQueue q (cs1 ++ CBlocked :: cs2) put taken)
      (MkQueue q (cs1 ++ CTesting :: cs2) put taken).

Definition queue_reachable (consumers : nat) (w : Queue) : Prop :=
  rtc queue_step (MkQueue [] (replicate consumers CTesting) [] []) w.

Record queue_inv (consumers : nat) (w : Queue) : Prop := {
  qi_fifo : q_put w = concat (q_taken w) ++ q_items w;
  qi_nonempty : Forall (fun r => r <> []) (q_taken w);
  qi_awake : CBlocked ∈ q_consumers w -> q_items w = [];
  qi_threads : length (q_consumers w) = consumers
}.

Lemma queue_inv_step n w w' : queue_inv n w -> queue_step w w' -> queue_inv n w'.
Proof.
  intros [Hf Hne Ha Hn] Hs.
  destruct Hs as [item q q' signal cs put taken Hput|item q q' cs1 cs2 put taken Hget
    |max items q q' cs1 cs2 put taken Hget|q cs1 cs2 put taken Hget|q cs1 cs2 put taken];
    cbn [q_items q_consumers q_put q_taken] in *.
  - unfold BlockQueue_Put in Hput. injection Hput as <- <-.
    split; cbn [q_items q_consumers q_put q_taken]; [by rewrite Hf, assoc by apply _|done| |by rewrite length_fmap].
    case_bool_decide as Hl; intros Hin; apply list_elem_of_fmap in Hin as (c & Hc & Hin); [done|].
    cbn [wake] in Hc. subst c. rewrite (Ha Hin) in Hl. done.
  - destruct q as [|x q]; [done|]. injection Hget as <- <-.
    split; cbn [q_items q_consumers q_put q_taken]; [|by apply Forall_app; repeat constructor| |done].
    + rewrite concat_app, Hf. cbn [concat app]. by rewrite <- app_assoc.
    + intros Hin. by specialize (Ha Hin).
  - destruct q as [|x q]; [done|]. injection Hget as <- <-.
    split; cbn [q_items q_consumers q_put q_taken]; [|by apply Forall_app; repeat constructor|done|done].
    rewrite concat_app, Hf. cbn [concat app]. by rewrite !app_nil_r.
  - destruct q as [|x q]; [|done].
    split; cbn [q_items q_consumers q_put q_taken]; try done. rewrite length_app in *. done.
  - split; cbn [q_items q_consumers q_put q_taken]; try done; [|rewrite length_app in *; done].
    intros Hin. apply Ha. rewrite elem_of_app, elem_of_cons in *. tauto.
Qed.

Lemma queue_inv_reachable n w : queue_reachable n w -> queue_inv n w.
Proof.
  intros Hr. assert (Hgen : forall w1 w2, rtc queue_step w1 w2 -> queue_inv n w1 -> queue_inv n w2).
  { induction 1; eauto using queue_inv_step. }
  apply (Hgen _ _ Hr). split; [done|constructor|done|apply length_replicate].
Qed.

(** C24: The blocking queue hands out every item once and in the order it was put,
    whatever the interleaving of any number of threads, of wake-ups without a
    signal included: what the calls of [Get] and [GetBulk] returned, followed by
    what is queued, is what was put. Although [Put] signals only when the queue
    was empty, no wake-up is lost: while items are queued no thread is blocked,
    so when there is a thread it can take the items at once. *)
Theorem block_queue_fifo (n : nat) (w : Queue) :
  queue_reachable n w ->
  q_put w = concat (q_taken w) ++ q_items w /\
  (q_items w <> [] -> CBlocked ∉ q_consumers w /\
     ((0 < n)%nat -> exists w', queue_step w w' /\ q_items w' = [] /\
        q_taken w' = q_taken w ++ [q_items w])).
Proof.
  intros Hr. destruct (queue_inv_reachable n w Hr) as [Hf _ Ha Hn]. split; [done|].
  intros Hne. assert (CBlocked ∉ q_consumers w) as Hnb by (intros Hb; by apply Hne, Ha).
  split; [done|]. intros Hpos. destruct w as [q cs put taken]; cbn [q_items q_consumers q_put q_taken] in *.
  destruct cs as [|c cs]; [simpl in Hn; lia|]. destruct c; [|exfalso; apply Hnb; left].
  destruct q as [|x q]; [done|]. eexists. split; [|split].
  - by apply (qs_bulk 32 (x :: q) (x :: q) [] [] cs).
  - done.
  - done.
Qed.
End consumers.
Arguments Queue : clear implicits.

Lemma block_queue_fifo_witness :
  let w := MkQueue [2; 3]%Z [CTesting; CTesting] [1; 2; 3]%Z [[1]]%Z in
  q_put w = concat (q_taken w) ++ q_items w /\
  (q_items w <> [] -> CBlocked ∉ q_consumers w /\
     ((0 < 2)%nat -> exists w', queue_step w w' /\ q_items w' = [] /\
        q_taken w' = q_taken w ++ [q_items w])).
Proof.
  apply (block_queue_fifo 2). unfold queue_reachable.
  eapply rtc_l; [by eapply (qs_wait [] [] [CTesting])|].
  eapply rtc_l; [by eapply (qs_put 1)|].
  eapply rtc_l; [by eapply (qs_put 2)|].
  eapply rtc_l; [by eapply (qs_get 1 _ _ [] [CTesting])|].
  eapply rtc_l; [by eapply (qs_put 3)|]. apply rtc_refl.
Defined.

(** ** The servers of a foreground builder *)

(** The requests in front of the null pointer that [Finish] puts. *)
Fixpoint before_null {R} (l : list (option R)) : list R :=
  match l with
  | Some r :: l => r :: before_null l
  | _ => []
  end.

(** The entries of a history that belong to server [i]. *)
Definition of_server {X} (i : nat) (l : list (nat * X)) : list X :=
  (filter (fun p => p.1 = i) l).*2.

Lemma of_server_snoc {X} i j (x : X) l :
  of_server i (l ++ [(j, x)]) = of_server i l ++ (if decide (j = i) then [x] else []).
Proof.
  unfold of_server. rewrite filter_app, fmap_app. f_equal.
  rewrite filter_cons, filter_nil. cbn [fst]. by destruct (decide (j = i)).
Qed.

Lemma before_null_app {R} (rs : list R) l :
  before_null ((Some <$> rs) ++ l) = rs ++ before_null l.
Proof. induction rs as [|r rs IH]; cbn; [done|]. by rewrite IH. Qed.

Section servers.
Context {R A St : Type}.
(** What a server [b] does with a request: the answer it sets in the promise, and
    the state afterwards; [None] when the process ends. *)
Context (handle : nat -> R -> St -> option (A * St)).

(** Where the thread of [handleRequest] is: testing the queue in [GetBulk],
    blocked there, in the loop over the requests it got, or at its end. *)
Inductive ServerPc :=
| PTesting
| PBlocked
| PServing (reqs : list (option R))
| PReturned.

Record Server := MkServer {
  sv_requests : list (option R);
  sv_pc : ServerPc
}.

(** The servers of a builder over the state they share, with everything put to
    their queues and the answers given, in order. *)
Record Servers := MkServers {
  ss_state : St;
  ss_servers : list Server;
  ss_put : list (nat * option R);
  ss_served : list (nat * (R * A))
}.

Definition Servers_new (n : nat) (st : St) : Servers :=
  MkServers st (replicate n (MkServer [] PTesting)) [] [].

Definition wake_server (signal : bool) (pc : ServerPc) : ServerPc :=
  match pc with
  | PBlocked => if signal then PTesting else PBlocked
  | pc => pc
  end.

(** A step of the thread of server [i]. *)
Inductive serve_step (i : nat) : Servers -> Servers -> Prop :=
| ss_bulk st ss q q' reqs put served :
    ss !! i = Some (MkServer q PTesting) -> BlockQueue_GetBulk 32 q = Some (reqs, q') ->
    serve_step i (MkServers st ss put served)
      (MkServers st (<[i := MkServer q' (PServing reqs)]> ss) put served)
| ss_wait st ss q put served :
    ss !! i = Some (MkServer q PTesting) -> BlockQueue_GetBulk 32 q = None ->
    serve_step i (MkServers st ss put served)
      (MkServers st (<[i := MkServer q PBlocked]> ss) put served)
| ss_answer st st' ss q r a reqs put served :
    ss !! i = Some (MkServer q (PServing (Some r :: reqs))) -> handle i r st = Some (a, st') ->
    serve_step i (MkServers st ss put served)
      (MkServers st' (<[i := MkServer q (PServing reqs)]> ss) put (served ++ [(i, (r, a))]))
| ss_return st ss q reqs put served :
    ss !! i = Some (MkServer q (PServing (None :: reqs))) ->
    serve_step i (MkServers st ss put served)
      (MkServers st (<[i := MkServer q PReturned]> ss) put served)
| ss_again st ss q put served :
    ss !! i = Some (MkServer q (PServing [])) ->
    serve_step i (MkServers st ss put served)
      (MkServers st (<[i := MkServer q PTesting]> ss) put served).

(** A step of any thread: a server, a caller of [Add], [Flush] or [Finish] that
    puts a request, or a wake-up without a signal. *)
Inductive servers_step : Servers -> Servers -> Prop :=
| ss_serve i w w' : serve_step i w w' -> servers_step w w'
| ss_call i req st ss q q' pc signal put served :
    ss !! i = Some (MkServer q pc) -> BlockQueue_Put req q = (q', signal) ->
    servers_step (MkServers st ss put served)
      (MkServers st (<[i := MkServer q' (wake_server signal pc)]> ss) (put ++ [(i, req)]) served)
| ss_spurious i st ss q put served :
    ss !! i = Some (MkServer q PBlocked) ->
    servers_step (MkServers st ss put served)
      (MkServers st (<[i := MkServer q PTesting]> ss) put served).

Definition servers_reachable (n : nat) (st : St) : Servers -> Prop :=
  rtc servers_step (Servers_new n st).

(** The state after requests handled one after the other, when these are the
    answers. *)
Inductive handled : St -> list (nat * (R * A)) -> St -> Prop :=
| handled_nil st : handled st [] st
| handled_snoc st1 st2 st3 l i r a :
    handled st1 l st2 -> handle i r st2 = Some (a, st3) -> handled st1 (l ++ [(i, (r, a))]) st3.

Definition served_by (i : nat) (w : Servers) : list R := (of_server i (ss_served w)).*1.

(** What is left of the requests put to a server when [done] were answered. *)
Definition server_ok (put : list (option R)) (answered : list R) (sv : Server) : Prop :=
  match sv_pc sv with
  | PTesting => put = (Some <$> answered) ++ sv_requests sv
  | PBlocked => put = (Some <$> answered) ++ sv_requests sv /\ sv_requests sv = []
  | PServing reqs => put = (Some <$> answered) ++ reqs ++ sv_requests sv
  | PReturned => exists rest, put = (Some <$> answered) ++ None :: rest
  end.

Record servers_inv (n : nat) (st0 : St) (w : Servers) : Prop := {
  svi_state : handled st0 (ss_served w) (ss_state w);
  svi_count : length (ss_servers w) = n;
  svi_server : forall i sv, ss_servers w !! i = Some sv ->
    server_ok (of_server i (ss_put w)) (served_by i w) sv
}.

(** A step of server [i] leaves the other servers' histories alone. *)
Lemma servers_inv_insert n st0 st st' ss put put' served served' i sv' :
  servers_inv n st0 (MkServers st ss put served) ->
  handled st0 served' st' ->
  (forall j, j <> i -> of_server j put' = of_server j put /\ of_server j served' = of_server j served) ->
  server_ok (of_server i put') (of_server i served').*1 sv' ->
  servers_inv n st0 (MkServers st' (<[i := sv']> ss) put' served').
Proof.
  intros [_ Hn Hs] Hst Hj Hi. split; cbn [ss_state ss_servers ss_put ss_served] in *.
  - done.
  - by rewrite length_insert.
  - intros j sv. unfold served_by. cbn [ss_served].
    intros [(-> & <- & _)|[Hne Hl]]%list_lookup_insert_Some; [done|].
    destruct (Hj j) as [-> ->]; [done|]. by apply Hs.
Qed.

Lemma servers_inv_serve n st0 i w w' :
  servers_inv n st0 w -> serve_step i w w' -> servers_inv n st0 w'.
Proof.
  intros Hinv Hs. pose proof Hinv as [Hst _ Hok].
  destruct Hs as [st ss q q' reqs put served Hl Hb|st ss q put served Hl Hb
    |st st' ss q r a reqs put served Hl Hh|st ss q reqs put served Hl|st ss q put served Hl];
    cbn [ss_state ss_servers ss_put ss_served] in *;
    specialize (Hok _ _ Hl); unfold server_ok, served_by in Hok;
    cbn [sv_pc sv_requests ss_put ss_served] in Hok.
  - apply (servers_inv_insert _ _ _ _ _ _ _ _ _ _ _ Hinv); [done|done|].
    unfold BlockQueue_GetBulk in Hb. destruct q as [|x q]; [done|]. injection Hb as <- <-.
    unfold server_ok; cbn [sv_pc sv_requests]. by rewrite app_nil_r.
  - apply (servers_inv_insert _ _ _ _ _ _ _ _ _ _ _ Hinv); [done|done|].
    unfold BlockQueue_GetBulk in Hb. by destruct q.
  - apply (servers_inv_insert _ _ _ _ _ _ _ _ _ _ _ Hinv); [by econstructor| |].
    + intros j Hne. rewrite of_server_snoc, decide_False by done. by rewrite app_nil_r.
    + rewrite of_server_snoc, decide_True by done. unfold server_ok; cbn [sv_pc sv_requests].
      rewrite !fmap_app, <- app_assoc. done.
  - apply (servers_inv_insert _ _ _ _ _ _ _ _ _ _ _ Hinv); [done|done|].
    unfold server_ok; cbn [sv_pc sv_requests]. by exists (reqs ++ q).
  - by apply (servers_inv_insert _ _ _ _ _ _ _ _ _ _ _ Hinv).
Qed.

Lemma servers_inv_step n st0 w w' :
  servers_inv n st0 w -> servers_step w w' -> servers_inv n st0 w'.
Proof.
  intros Hinv Hs. destruct Hs as [i w w' Hs|i req st ss q q' pc signal put served Hl Hp
    |i st ss q put served Hl]; [by eapply servers_inv_serve|..];
    pose proof Hinv as [Hst _ Hok]; specialize (Hok _ _ Hl); unfold server_ok, served_by in Hok;
    cbn [ss_state sv_pc sv_requests ss_put ss_served] in Hst, Hok.
  - apply (servers_inv_insert _ _ _ _ _ _ _ _ _ _ _ Hinv); [done| |].
    + intros j Hne. rewrite of_server_snoc, decide_False by done. by rewrite app_nil_r.
    + rewrite of_server_snoc, decide_True by done.
      unfold BlockQueue_Put in Hp. injection Hp as <- <-. unfold server_ok; cbn [sv_pc sv_requests].
      destruct pc; cbn [wake_server].
      * by rewrite Hok, <- app_assoc.
      * destruct Hok as [-> ->]. rewrite bool_decide_true by done. by rewrite app_nil_r.
      * by rewrite Hok, <- !app_assoc.
      * destruct Hok as [rest ->]. exists (rest ++ [req]). by rewrite <- app_assoc.
  - apply (servers_inv_insert _ _ _ _ _ _ _ _ _ _ _ Hinv); [done|done|by destruct Hok].
Qed.

Lemma servers_inv_reachable n st0 w : servers_reachable n st0 w -> servers_inv n st0 w.
Proof.
  intros Hr. assert (Hgen : forall w1 w2, rtc servers_step w1 w2 ->
    servers_inv n st0 w1 -> servers_inv n st0 w2) by (induction 1; eauto using servers_inv_step).
  apply (Hgen _ _ Hr). split; [constructor|apply length_replicate|].
  by intros i sv [-> _]%lookup_replicate_1.
Qed.

(** *** Progress *)

(** How many steps a server can take before it needs another request. *)
Definition server_weight (sv : Server) : nat :=
  3 * length (sv_requests sv) +
  match sv_pc sv with
  | PTesting => 1
  | PServing reqs => 2 + length reqs
  | _ => 0
  end.

Definition weight (w : Servers) : nat := sum_list_with server_weight (ss_servers w).

Lemma sum_insert_lt {X} (f : X -> nat) (l : list X) i x y :
  l !! i = Some x -> (f y < f x)%nat -> (sum_list_with f (<[i := y]> l) < sum_list_with f l)%nat.
Proof.
  revert i. induction l as [|z l IH]; intros [|i] Hl Hlt; simplify_eq/=; [lia|].
  specialize (IH i Hl Hlt). lia.
Qed.

Lemma serve_step_weight i w w' : serve_step i w w' -> (weight w' < weight w)%nat.
Proof.
  intros Hs. destruct Hs as [st ss q q' reqs put served Hl Hb|st ss q put served Hl Hb
    |st st' ss q r a reqs put served Hl Hh|st ss q reqs put served Hl|st ss q put served Hl];
    unfold weight; cbn [ss_servers]; apply (sum_insert_lt _ _ _ _ _ Hl); unfold server_weight;
    cbn [sv_requests sv_pc length]; try lia.
  unfold BlockQueue_GetBulk in Hb. destruct q as [|x q]; [done|]. injection Hb as <- <-.
  cbn [length]. lia.
Qed.

Lemma serve_step_put i w w' : serve_step i w w' -> ss_put w' = ss_put w.
Proof. by destruct 1. Qed.

Lemma serve_terminates w : sn (fun w w' => exists i, serve_step i w w') w.
Proof.
  remember (weight w) as k eqn:Hk. revert w Hk.
  induction (lt_wf k) as [k _ IH]; intros w ->. constructor. intros w' [i Hs].
  by eapply IH; [apply (serve_step_weight _ _ _ Hs)|].
Qed.

Definition serving (sv : Server) : bool :=
  match sv_pc sv with PServing _ => true | _ => false end.

(** A thread that cannot step is blocked on an empty queue, has returned, or is
    at a request that ends the process. *)
Lemma serve_stuck w i sv :
  nf (fun w w' => exists i, serve_step i w w') w -> ss_servers w !! i = Some sv ->
  sv_pc sv = PBlocked \/ sv_pc sv = PReturned \/
  exists r reqs, sv_pc sv = PServing (Some r :: reqs) /\ handle i r (ss_state w) = None.
Proof.
  intros Hnf Hl. destruct w as [st ss put served], sv as [q pc]; cbn [ss_servers ss_state sv_pc] in *.
  destruct pc as [| |reqs|]; [exfalso; apply Hnf|by left| |by right; left].
  - destruct (BlockQueue_GetBulk 32 q) as [[reqs q']|] eqn:Hb; eexists _, i.
    + by eapply ss_bulk.
    + by eapply ss_wait.
  - destruct reqs as [|[r|] reqs].
    + exfalso. apply Hnf. eexists _, i. by eapply ss_again.
    + right. right. exists r, reqs. split; [done|]. destruct (handle i r st) as [[a st']|] eqn:Ha; [|done].
      exfalso. apply Hnf. eexists _, i. by eapply ss_answer.
    + exfalso. apply Hnf. eexists _, i. by eapply ss_return.
Qed.

(** The threads of a foreground builder answer requests in order. Whatever
    the interleaving of callers and servers, the state they share is the one that
    the answered requests lead to when they are handled one after the other, with
    the answers that were given; and each server has answered, each once, the
    first of the requests put to it in the order they were put, and all those put
    before [Finish] when it has returned. *)
Theorem requests_handled_in_order (n : nat) (st0 : St) (w : Servers) :
  servers_reachable n st0 w ->
  handled st0 (ss_served w) (ss_state w) /\
  forall i sv, ss_servers w !! i = Some sv ->
    exists pending, before_null (of_server i (ss_put w)) = served_by i w ++ pending /\
      (sv_pc sv = PReturned \/ sv_pc sv = PBlocked -> pending = []).
Proof.
  intros Hr. destruct (servers_inv_reachable n st0 w Hr) as [Hst _ Hok]. split; [done|].
  intros i [q pc] Hl. specialize (Hok i _ Hl). unfold server_ok in Hok. cbn [sv_pc sv_requests] in *.
  destruct pc as [| |reqs|].
  - exists (before_null q). rewrite Hok, before_null_app. split; [done|by intros [|]].
  - destruct Hok as [-> ->]. exists []. by rewrite before_null_app.
  - exists (before_null (reqs ++ q)). rewrite Hok, before_null_app. split; [done|by intros [|]].
  - destruct Hok as [rest ->]. exists []. by rewrite before_null_app.
Qed.

(** The threads stop after finitely many steps of their own. When they have
    stopped, either each server has answered everything put in front of a null
    pointer and has returned if there was one, or a server is at a request that
    ends the process. *)
Lemma servers_stop (n : nat) (st0 : St) (w : Servers) :
  servers_reachable n st0 w ->
  let own w w' := exists i, serve_step i w w' in
  sn own w /\
  forall w', rtc own w w' -> nf own w' ->
    servers_reachable n st0 w' /\
    ((forall i, (i < n)%nat ->
       served_by i w' = before_null (of_server i (ss_put w)) /\
       (None ∈ of_server i (ss_put w) -> exists q, ss_servers w' !! i = Some (MkServer q PReturned))) \/
     exists i q r reqs, (i < n)%nat /\ ss_servers w' !! i = Some (MkServer q (PServing (Some r :: reqs))) /\
       handle i r (ss_state w') = None).
Proof.
  intros Hr own. split; [apply serve_terminates|]. intros w' Hrun Hnf.
  assert (Hput : ss_put w' = ss_put w).
  { clear Hr Hnf. induction Hrun as [|w1 w2 w3 [j Hs] _ IH]; [done|]. by rewrite IH, (serve_step_put _ _ _ Hs). }
  assert (Hr' : servers_reachable n st0 w').
  { unfold servers_reachable in *. etrans; [exact Hr|]. eapply rtc_subrel; [|exact Hrun].
    intros w1 w2 [j Hs]. by eapply ss_serve. }
  split; [done|]. destruct (servers_inv_reachable n st0 w' Hr') as [_ Hn Hok]. rewrite Hput in Hok.
  destruct (decide (Exists (fun sv => serving sv = true) (ss_servers w'))) as [Hex|Hno].
  - right. apply Exists_exists in Hex as ([q pc] & [i Hl]%list_elem_of_lookup & Hpc). unfold serving in Hpc. cbn [sv_pc] in Hpc.
    destruct (serve_stuck w' i _ Hnf Hl) as [E|[E|(r & reqs & E & Hh)]]; cbn [sv_pc] in E; subst pc; [done|done|].
    exists i, q, r, reqs. split; [|done]. rewrite <- Hn. by eapply lookup_lt_Some.
  - left. intros i Hi. destruct (lookup_lt_is_Some_2 (ss_servers w') i) as [[q pc] Hl]; [lia|].
    specialize (Hok i _ Hl). unfold server_ok in Hok. cbn [sv_pc sv_requests] in Hok.
    destruct (serve_stuck w' i _ Hnf Hl) as [Hpc|[Hpc|(r & reqs & Hpc & _)]]; cbn [sv_pc] in Hpc; subst pc.
    + destruct Hok as [-> ->]. rewrite before_null_app. cbn [before_null]. rewrite !app_nil_r.
      split; [done|]. by intros (r & [=] & _)%list_elem_of_fmap.
    + destruct Hok as [rest ->]. rewrite before_null_app. cbn [before_null]. rewrite app_nil_r.
      split; [done|]. by exists q.
    + exfalso. apply Hno, Exists_exists. eexists. split; [by eapply list_elem_of_lookup_2|done].
Qed.
End servers.
Arguments Server : clear implicits.
Arguments Servers : clear implicits.

(** A run of two servers that add numbers up: three calls, the last one stops the
    first server. *)
Definition example_handle (i : nat) (r total : Z) : option (Z * Z) := Some (total + r, total + r).

Definition example_servers : Servers Z Z Z :=
  MkServers 3 [MkServer [] (PServing [None]); MkServer [] (PServing [])]
    [(0%nat, Some 1); (1%nat, Some 2); (0%nat, None)] [(1%nat, (2, 2)); (0%nat, (1, 3))].

Lemma example_servers_reachable : servers_reachable example_handle 2 0 example_servers.
Proof.
  unfold servers_reachable.
  eapply rtc_l; [eapply (ss_serve _ 1), ss_wait; done|].
  eapply rtc_l; [by eapply (ss_call _ 0 (Some 1))|].
  eapply rtc_l; [by eapply (ss_call _ 1 (Some 2))|].
  eapply rtc_l; [by eapply (ss_call _ 0 None)|].
  eapply rtc_l; [eapply (ss_serve _ 1), ss_bulk; done|].
  eapply rtc_l; [eapply (ss_serve _ 0), ss_bulk; done|].
  eapply rtc_l; [eapply (ss_serve _ 1), ss_answer; done|].
  eapply rtc_l; [eapply (ss_serve _ 0), ss_answer; done|]. apply rtc_refl.
Qed.

Lemma requests_handled_in_order_witness :
  handled example_handle 0 (ss_served example_servers) (ss_state example_servers) /\
  forall i sv, ss_servers example_servers !! i = Some sv ->
    exists pending,
      before_null (of_server i (ss_put example_servers)) = served_by i example_servers ++ pending /\
      (sv_pc sv = PReturned \/ sv_pc sv = PBlocked -> pending = []).
Proof. exact (requests_handled_in_order example_handle 2 0 example_servers example_servers_reachable). Defined.
