(* ===== verification/ThreadPool.v ===== *)
(** * The thread pool ([ThreadPool] of src/threadpool.h)

    Workers that take tasks from a queue under a mutex, [addTask], and the
    destructor. A step is what a thread does while it holds the mutex, or a
    notification, which the code sends after it has released the mutex. The flag
    [terminated] has no initialiser: its first value is a parameter. *)

From S2P Require Import Prelude.

Section pool.
Context {T : Type}.

(** A worker tests the queue, is blocked in [cond.wait], runs a task, or has
    returned. *)
Inductive Worker :=
| WTesting
| WBlocked
| WRunning (task : T)
| WReturned.

(** The destructor: not called, before [notify_all], joining the workers. *)
Inductive Closing := COpen | CTerminating | CJoining.

#[export] Instance Closing_eq_dec : EqDecision Closing.
Proof. solve_decision. Defined.

(** [p_notifying] calls of [addTask] have not notified yet; the last three fields
    are the tasks added, started and finished, in order. *)
Record ThreadPool := MkThreadPool {
  tasks : list T;
  terminated : bool;
  workers : list Worker;
  p_notifying : nat;
  p_closing : Closing;
  p_added : list T;
  p_started : list T;
  p_finished : list T
}.

Definition ThreadPool_new (terminated0 : bool) (n : nat) : ThreadPool :=
  MkThreadPool [] terminated0 (replicate n WTesting) 0 COpen [] [] [].

Definition notified (w : Worker) : Worker :=
  match w with WBlocked => WTesting | w => w end.

Definition n_testing (ws : list Worker) : nat :=
  sum_list_with (fun w => match w with WTesting => 1 | _ => 0 end)%nat ws.

Definition running (ws : list Worker) : list T :=
  omap (fun w => match w with WRunning t => Some t | _ => None end) ws.

(** A step the pool takes by itself: of a worker, or a notification. *)
Inductive own_step : ThreadPool -> ThreadPool -> Prop :=
| ps_take t ts d ws1 ws2 k c a s f :
    own_step (MkThreadPool (t :: ts) d (ws1 ++ WTesting :: ws2) k c a s f)
      (MkThreadPool ts d (ws1 ++ WRunning t :: ws2) k c a (s ++ [t]) f)
| ps_wait ws1 ws2 k c a s f :
    own_step (MkThreadPool [] false (ws1 ++ WTesting :: ws2) k c a s f)
      (MkThreadPool [] false (ws1 ++ WBlocked :: ws2) k c a s f)
| ps_return ws1 ws2 k c a s f :
    own_step (MkThreadPool [] true (ws1 ++ WTesting :: ws2) k c a s f)
      (MkThreadPool [] true (ws1 ++ WReturned :: ws2) k c a s f)
| ps_finish t ts d ws1 ws2 k c a s f :
    own_step (MkThreadPool ts d (ws1 ++ WRunning t :: ws2) k c a s f)
      (MkThreadPool ts d (ws1 ++ WTesting :: ws2) k c a s (f ++ [t]))
| ps_notify_one ts d ws1 ws2 k c a s f :
    own_step (MkThreadPool ts d (ws1 ++ WBlocked :: ws2) (S k) c a s f)
      (MkThreadPool ts d (ws1 ++ WTesting :: ws2) k c a s f)
| ps_notify_none ts d ws k c a s f :
    WBlocked ∉ ws ->
    own_step (MkThreadPool ts d ws (S k) c a s f) (MkThreadPool ts d ws k c a s f)
| ps_notify_all ts d ws k a s f :
    own_step (MkThreadPool ts d ws k CTerminating a s f)
      (MkThreadPool ts d (notified <$> ws) k CJoining a s f).

(** Any step: also [addTask], the start of the destructor, and a wake-up without
    a notification. *)
Inductive pool_step : ThreadPool -> ThreadPool -> Prop :=
| ps_own p p' : own_step p p' -> pool_step p p'
| ps_addTask t ts d ws k a s f :
    pool_step (MkThreadPool ts d ws k COpen a s f)
      (MkThreadPool (ts ++ [t]) d ws (S k) COpen (a ++ [t]) s f)
| ps_terminate ts d ws k a s f :
    pool_step (MkThreadPool ts d ws k COpen a s f)
      (MkThreadPool ts true ws k CTerminating a s f)
| ps_spurious ts d ws1 ws2 k c a s f :
    pool_step (MkThreadPool ts d (ws1 ++ WBlocked :: ws2) k c a s f)
      (MkThreadPool ts d (ws1 ++ WTesting :: ws2) k c a s f).

Definition pool_reachable (terminated0 : bool) (n : nat) : ThreadPool -> Prop :=
  rtc pool_step (ThreadPool_new terminated0 n).

Record pool_inv (n : nat) (p : ThreadPool) : Prop := {
  pi_workers : length (workers p) = n;
  pi_fifo : p_added p = p_started p ++ tasks p;
  pi_started : p_started p ≡ₚ p_finished p ++ running (workers p);
  (** a blocked worker is not needed, or a notification is on its way *)
  pi_awake : WBlocked ∈ workers p ->
    (length (tasks p) <= n_testing (workers p) + p_notifying p)%nat;
  pi_flag : terminated p = negb (bool_decide (p_closing p = COpen));
  pi_returned : WReturned ∈ workers p -> terminated p = true /\ tasks p = [];
  pi_joining : p_closing p = CJoining -> WBlocked ∉ workers p
}.

Lemma n_testing_app ws1 ws2 : n_testing (ws1 ++ ws2) = (n_testing ws1 + n_testing ws2)%nat.
Proof. apply sum_list_with_app. Qed.

Lemma running_app ws1 ws2 : running (ws1 ++ ws2) = running ws1 ++ running ws2.
Proof. apply omap_app. Qed.

Lemma running_notified ws : running (notified <$> ws) = running ws.
Proof. induction ws as [|w ws IH]; [done|]. destruct w; cbn; unfold running in IH; by rewrite IH. Qed.

Lemma not_blocked_notified (ws : list Worker) : WBlocked ∉ (notified <$> ws).
Proof. intros (w & Hw & _)%list_elem_of_fmap. by destruct w. Qed.

Lemma returned_notified (ws : list Worker) : WReturned ∈ (notified <$> ws) -> WReturned ∈ ws.
Proof. intros (w & Hw & Hin)%list_elem_of_fmap. by destruct w. Qed.

Ltac pool_simpl :=
  cbn [tasks terminated workers p_notifying p_closing p_added p_started p_finished] in *.

Ltac pool_members :=
  pool_simpl; rewrite ?length_app, ?running_app, ?n_testing_app, ?elem_of_app, ?elem_of_cons in *;
  cbn [length n_testing sum_list_with running omap list_omap] in *; fold running in *.

Lemma pool_inv_own n p p' : pool_inv n p -> own_step p p' -> pool_inv n p'.
Proof.
  intros [Hn Hf Hst Ha Hfl Hr Hj] Hs.
  destruct Hs as [t ts d ws1 ws2 k c a s f|ws1 ws2 k c a s f|ws1 ws2 k c a s f|t ts d ws1 ws2 k c a s f
    |ts d ws1 ws2 k c a s f|ts d ws k c a s f Hnb|ts d ws k a s f]; split; pool_members; try done.
  all: try (naive_solver lia).
  - by rewrite Hf, <- app_assoc.
  - rewrite Hst, <- !app_assoc. by rewrite <- Permutation_cons_append, <- !Permutation_middle.
  - rewrite Hst, <- !app_assoc. cbn [app]. by rewrite <- !Permutation_middle.
  - by rewrite length_fmap.
  - by rewrite running_notified.
  - by intros ?%not_blocked_notified.
  - by intros ?%returned_notified%Hr.
  - intros _. apply not_blocked_notified.
Qed.

Lemma pool_inv_step n p p' : pool_inv n p -> pool_step p p' -> pool_inv n p'.
Proof.
  intros Hinv Hs. destruct Hs as [p p' Hs|t ts d ws k a s f|ts d ws k a s f|ts d ws1 ws2 k c a s f];
    [by eapply pool_inv_own|..]; destruct Hinv as [Hn Hf Hst Ha Hfl Hr Hj]; split; pool_members; try done.
  all: try (naive_solver lia).
  - by rewrite Hf, <- app_assoc.
Qed.

Lemma pool_inv_reachable n p : pool_reachable false n p -> pool_inv n p.
Proof.
  intros Hr. assert (Hgen : forall p1 p2, rtc pool_step p1 p2 -> pool_inv n p1 -> pool_inv n p2)
    by (induction 1; eauto using pool_inv_step).
  apply (Hgen _ _ Hr). split; unfold ThreadPool_new; pool_simpl; try done; try lia.
  - apply length_replicate.
  - enough (running (replicate n WTesting) = []) as ->; [done|]. clear Hr Hgen. induction n as [|n IH]; [done|exact IH].
  - by intros [[=] _]%elem_of_replicate.
  - by intros [[=] _]%elem_of_replicate.
Qed.

(** *** Progress *)

Definition pool_weight (p : ThreadPool) : nat :=
  2 * length (tasks p) + 2 * length (running (workers p)) + n_testing (workers p) +
  2 * p_notifying p +
  match p_closing p with CTerminating => S (length (workers p)) | _ => 0 end.

Lemma n_testing_le ws : (n_testing ws <= length ws)%nat.
Proof. induction ws as [|w ws IH]; [done|]. unfold n_testing in *. destruct w; cbn; lia. Qed.

Lemma own_step_weight p p' : own_step p p' -> (pool_weight p' < pool_weight p)%nat.
Proof.
  destruct 1 as [t ts d ws1 ws2 k c a s f|ws1 ws2 k c a s f|ws1 ws2 k c a s f|t ts d ws1 ws2 k c a s f
    |ts d ws1 ws2 k c a s f|ts d ws k c a s f Hnb|ts d ws k a s f]; unfold pool_weight;
    [pool_members; rewrite ?length_app; cbn [length]; destruct c; lia..|].
  pool_simpl. rewrite running_notified. pose proof (n_testing_le (notified <$> ws)) as Hle.
  rewrite length_fmap in Hle. lia.
Qed.

Lemma own_step_added p p' : own_step p p' -> p_added p' = p_added p /\ (p_closing p' = COpen <-> p_closing p = COpen).
Proof. by destruct 1. Qed.

Lemma own_terminates p : sn own_step p.
Proof.
  remember (pool_weight p) as k eqn:Hk. revert p Hk.
  induction (lt_wf k) as [k _ IH]; intros p ->. constructor. intros p' Hs.
  by eapply IH; [apply (own_step_weight _ _ Hs)|].
Qed.

(** When the pool cannot step by itself its workers are blocked or have returned. *)
Lemma own_stuck p w : nf own_step p -> w ∈ workers p -> w = WBlocked \/ w = WReturned.
Proof.
  intros Hnf Hw. destruct p as [ts d ws k c a s f]; pool_simpl.
  apply list_elem_of_split in Hw as (ws1 & ws2 & ->).
  destruct w as [| |t|]; [exfalso|by left|exfalso|by right]; apply Hnf.
  - destruct ts as [|t ts]; [destruct d|]; eexists; [apply ps_return|apply ps_wait|apply ps_take].
  - eexists. apply ps_finish.
Qed.

Lemma blocked_dec (ws : list Worker) : WBlocked ∈ ws \/ WBlocked ∉ ws.
Proof.
  induction ws as [|w ws [IH|IH]]; [right; apply not_elem_of_nil|left; by right|].
  destruct w; [right|left; left|right..]; by rewrite elem_of_cons; intros [|].
Qed.

Lemma own_stuck_notified p : nf own_step p -> p_notifying p = 0%nat /\ p_closing p <> CTerminating.
Proof.
  intros Hnf. destruct p as [ts d ws k c a s f]; pool_simpl. split.
  - destruct k as [|k]; [done|]. exfalso. apply Hnf.
    destruct (blocked_dec ws) as [(ws1 & ws2 & ->)%list_elem_of_split|Hb]; eexists.
    + apply ps_notify_one.
    + by apply ps_notify_none.
  - intros ->. apply Hnf. eexists. apply ps_notify_all.
Qed.

(** Given that the flag [terminated] starts as false, the pool runs every
    task. Tasks are started in the order they were added, each once; a worker
    sleeps only when every queued task has a worker about to take it or a
    notification to come; from any reachable state the pool stops after finitely
    many steps of its own, all tasks added so far finished, and when the
    destructor was called every worker has returned, so that it can return. *)
Theorem thread_pool_runs_all (n : nat) (p : ThreadPool) :
  pool_reachable false n p -> (0 < n)%nat ->
  p_added p = p_started p ++ tasks p /\
  (WBlocked ∈ workers p -> (length (tasks p) <= n_testing (workers p) + p_notifying p)%nat) /\
  sn own_step p /\
  forall p', rtc own_step p p' -> nf own_step p' ->
    p_finished p' ≡ₚ p_added p /\
    (p_closing p <> COpen -> forall w, w ∈ workers p' -> w = WReturned).
Proof.
  intros Hr Hn. pose proof (pool_inv_reachable n p Hr) as [_ Hf _ Ha _ _ _].
  split_and!; [done|done|apply own_terminates|]. intros p' Hrun Hnf.
  assert (Hsame : p_added p' = p_added p /\ (p_closing p' = COpen <-> p_closing p = COpen)).
  { clear Hr Hf Ha Hnf. induction Hrun as [|p1 p2 p3 Hs _ [IH1 IH2]]; [done|].
    destruct (own_step_added _ _ Hs) as [H1 H2]. rewrite IH1, H1. tauto. }
  assert (Hr' : pool_reachable false n p').
  { unfold pool_reachable in *. etrans; [exact Hr|]. eapply rtc_subrel; [|exact Hrun].
    intros p1 p2. apply ps_own. }
  pose proof (pool_inv_reachable n p' Hr') as [Hn' Hf' Hst' Ha' Hfl' Hr0' Hj'].
  destruct (own_stuck_notified p' Hnf) as [Hk Hc]. pose proof (own_stuck p') as Hw. destruct Hsame as [Hadd Hcl].
  assert (Hrunning : running (workers p') = []).
  { apply elem_of_nil_inv. intros t (w & Hin & Ht)%list_elem_of_omap.
    destruct (Hw w Hnf Hin) as [-> | ->]; done. }
  assert (Htesting : n_testing (workers p') = 0%nat).
  { clear -Hw Hnf. specialize (fun w => Hw w Hnf). clear Hnf. revert Hw. generalize (workers p') as ws.
    induction ws as [|w ws IH]; intros Hw; [done|]. cbn. unfold n_testing in IH. rewrite IH.
    - destruct (Hw w) as [-> | ->]; [left|done..].
    - intros w' Hin. apply Hw. by right. }
  assert (Htasks : tasks p' = []).
  { destruct (workers p') as [|w ws] eqn:Hws; [simpl in Hn'; lia|].
    destruct (Hw w Hnf) as [-> | ->]; [left| |].
    - apply nil_length_inv. specialize (Ha' ltac:(left)). lia.
    - apply Hr0'. left. }
  split.
  - rewrite <- Hadd, Hf', Htasks, Hst', Hrunning. by rewrite !app_nil_r.
  - intros Ho w Hin. destruct (Hw w Hnf Hin) as [-> | ->]; [|done]. exfalso.
    destruct (p_closing p') eqn:Hpc; [tauto|done|]. by apply Hj'.
Qed.
End pool.
Arguments ThreadPool : clear implicits.
Arguments Worker : clear implicits.

Lemma thread_pool_runs_all_witness :
  let p := MkThreadPool [7] false [WRunning 5; WBlocked] 1 COpen [5; 7] [5] [] in
  p_added p = p_started p ++ tasks p /\
  (WBlocked ∈ workers p -> (length (tasks p) <= n_testing (workers p) + p_notifying p)%nat) /\
  sn own_step p /\
  forall p', rtc own_step p p' -> nf own_step p' ->
    p_finished p' ≡ₚ p_added p /\
    (p_closing p <> COpen -> forall w, w ∈ workers p' -> w = WReturned).
Proof.
  apply (thread_pool_runs_all 2); [|lia]. unfold pool_reachable.
  eapply rtc_l; [apply ps_own, (ps_wait [WTesting] [])|].
  eapply rtc_l; [apply (ps_addTask 5)|].
  eapply rtc_l; [apply ps_own, (ps_notify_one _ _ [WTesting] [])|].
  eapply rtc_l; [apply ps_own, (ps_take 5 [] false [] [WTesting])|].
  eapply rtc_l; [apply ps_own, (ps_wait [WRunning 5] [])|].
  eapply rtc_l; [apply (ps_addTask 7)|]. apply rtc_refl.
Defined.

(** The constructor does not initialise [terminated]. If the memory holds
    something other than zero, the workers can return at once, and a task added
    afterwards is never run although the pool was not closed. *)
Lemma uninitialised_pool_drops_task :
  exists p, pool_reachable true 2 p /\ p_added p = [5] /\ p_closing p = COpen /\
    forall p', rtc own_step p p' -> p_finished p' = [] /\ tasks p' = [5].
Proof.
  exists (MkThreadPool [5] true [WReturned; WReturned] 1 COpen [5] [] []).
  split; [|split; [done|split; [done|]]].
  - unfold pool_reachable. eapply rtc_l; [apply ps_own, (ps_return [] [WTesting])|].
    eapply rtc_l; [apply ps_own, (ps_return [WReturned] [])|].
    eapply rtc_l; [apply (ps_addTask 5)|]. apply rtc_refl.
  - assert (Hgen : forall p p', rtc own_step p p' ->
      workers p = [WReturned; WReturned] /\ p_closing p = COpen /\ tasks p = [5] /\ p_finished p = [] ->
      p_finished p' = [] /\ tasks p' = [5]).
    { induction 1 as [p|p1 p2 p3 Hs _ IH]; [tauto|]. intros (Hw & Hc & Ht & Hf). apply IH. clear IH.
      assert (Hno : forall ws1 ws2 (w : Worker Z), w <> WReturned -> ws1 ++ w :: ws2 <> [WReturned; WReturned]).
      { intros ws1 ws2 w Hne Heq. apply Hne. assert (Hin : w ∈ ws1 ++ w :: ws2) by (apply elem_of_app; right; left).
        rewrite Heq in Hin. by apply list_elem_of_In in Hin as [?|[?|[]]]. }
      destruct Hs; cbn in *; try done; exfalso; by eapply Hno; [|exact Hw]. }
    intros p' Hrun. apply (Hgen _ _ Hrun). done.
Qed.
