(* ===== verification/BlobFormat.v ===== *)
(** * The blob file format (src/blob_format.h, src/blob_format.cc)

    Records, handles, indexes, file metadata, header and footer, with their
    encoders and decoders, and the life cycle of a blob file. A decoder takes
    the object it fills and returns the filled object with the rest of the
    slice; after an error the object is not used. *)

From S2P Require Import Prelude Rocks Options Stats Util.

Definition kBlobHeaderSize : Z := 8.
Definition kRecordHeaderSize : Z := 9.
Definition kBlobFooterSize : Z := kBlockHandleMaxEncodedLength + 8 + 4.
Definition kSorted : Z := 0.
Definition kUnSorted : Z := 1.

(** ** Data *)

Record BlobRecord := MkBlobRecord {
  record_key : bytes;
  record_value : bytes;
  only_value : bool
}.

Definition BlobRecord_default : BlobRecord := MkBlobRecord [] [] false.

Record BlobHandle := MkBlobHandle { handle_offset : Z; handle_size : Z }.

Record BlobIndex := MkBlobIndex { index_file_number : Z; blob_handle : BlobHandle }.

Definition BlobHandle_default : BlobHandle := MkBlobHandle 0 0.
Definition BlobIndex_default : BlobIndex := MkBlobIndex 0 BlobHandle_default.

(** [BlobIndex::Type::kBlobRecord]. *)
Definition kBlobRecord : Z := 1.

Module FileEvent.
Inductive t :=
| kInit
| kFlushCompleted
| kCompactionCompleted
| kGCCompleted
| kGCBegin
| kGCOutput
| kFlushOrCompactionOutput
| kDbRestart
| kDelete
| kNeedMerge
| kReset
| kNeedGC.
End FileEvent.

Module FileState.
Inductive t :=
| kInit
| kNormal
| kPendingLSM
| kBeingGC
| kPendingGC
| kObsolete
| kToMerge
| kToGC.
End FileState.

#[export] Instance FileEvent_eq_dec : EqDecision FileEvent.t.
Proof. solve_decision. Defined.
#[export] Instance FileState_eq_dec : EqDecision FileState.t.
Proof. solve_decision. Defined.

Record BlobFileMeta := MkBlobFileMeta {
  file_number : Z;
  file_size : Z;
  file_entries : Z;
  file_type : Z;
  file_level : Z;
  smallest_key : bytes;
  largest_key : bytes;
  file_state : FileState.t;
  discardable_size : Z;
  gc_mark : bool
}.

(** [std::make_shared<BlobFileMeta>()] value-initializes the object. *)
Definition BlobFileMeta_default : BlobFileMeta := {|
  file_number := 0; file_size := 0; file_entries := 0; file_type := kUnSorted;
  file_level := 0; smallest_key := []; largest_key := [];
  file_state := FileState.kInit; discardable_size := 0; gc_mark := false |}.

Definition BlobFileMeta_new (number size entries level : Z) (smallest largest : bytes)
    (type : Z) : BlobFileMeta := {|
  file_number := number; file_size := size; file_entries := entries; file_type := type;
  file_level := level; smallest_key := smallest; largest_key := largest;
  file_state := FileState.kInit; discardable_size := 0; gc_mark := false |}.

Definition set_file_state (s : FileState.t) (m : BlobFileMeta) : BlobFileMeta := {|
  file_number := file_number m; file_size := file_size m; file_entries := file_entries m;
  file_type := file_type m; file_level := file_level m; smallest_key := smallest_key m;
  largest_key := largest_key m; file_state := s; discardable_size := discardable_size m;
  gc_mark := gc_mark m |}.

Definition set_discardable_size (d : Z) (m : BlobFileMeta) : BlobFileMeta := {|
  file_number := file_number m; file_size := file_size m; file_entries := file_entries m;
  file_type := file_type m; file_level := file_level m; smallest_key := smallest_key m;
  largest_key := largest_key m; file_state := file_state m; discardable_size := d;
  gc_mark := gc_mark m |}.

Definition set_gc_mark (b : bool) (m : BlobFileMeta) : BlobFileMeta := {|
  file_number := file_number m; file_size := file_size m; file_entries := file_entries m;
  file_type := file_type m; file_level := file_level m; smallest_key := smallest_key m;
  largest_key := largest_key m; file_state := file_state m;
  discardable_size := discardable_size m; gc_mark := b |}.

Definition is_obsolete (m : BlobFileMeta) : bool :=
  bool_decide (file_state m = FileState.kObsolete).

(** [operator==] of the format structs. *)
Definition BlobRecord_eqb (lhs rhs : BlobRecord) : bool :=
  bool_decide (record_key lhs = record_key rhs) && bool_decide (record_value lhs = record_value rhs).

Definition BlobHandle_eqb (lhs rhs : BlobHandle) : bool :=
  (handle_offset lhs =? handle_offset rhs) && (handle_size lhs =? handle_size rhs).

Definition BlobIndex_eqb (lhs rhs : BlobIndex) : bool :=
  (index_file_number lhs =? index_file_number rhs)
  && BlobHandle_eqb (blob_handle lhs) (blob_handle rhs).

Definition BlobFileMeta_eqb (lhs rhs : BlobFileMeta) : bool :=
  (file_number lhs =? file_number rhs) && (file_size lhs =? file_size rhs)
  && (file_entries lhs =? file_entries rhs) && (file_level lhs =? file_level rhs).

(** ** File life cycle *)

(** The state after [FileStateTransit(event)], assertions apart. *)
Definition FileStateTransit_state (state : FileState.t) (event : FileEvent.t) : FileState.t :=
  match event with
  | FileEvent.kFlushCompleted =>
      if bool_decide (state = FileState.kPendingLSM) then FileState.kNormal else state
  | FileEvent.kGCCompleted =>
      if bool_decide (state = FileState.kObsolete) then state else FileState.kNormal
  | FileEvent.kCompactionCompleted => FileState.kNormal
  | FileEvent.kGCBegin => FileState.kBeingGC
  | FileEvent.kGCOutput => FileState.kPendingGC
  | FileEvent.kFlushOrCompactionOutput => FileState.kPendingLSM
  | FileEvent.kDbRestart => FileState.kNormal
  | FileEvent.kDelete => FileState.kObsolete
  | FileEvent.kNeedMerge =>
      if bool_decide (state = FileState.kToGC) || bool_decide (state = FileState.kObsolete)
      then state else FileState.kToMerge
  | FileEvent.kReset => FileState.kNormal
  | FileEvent.kNeedGC =>
      if bool_decide (state = FileState.kObsolete) then state else FileState.kToGC
  | FileEvent.kInit => state
  end.

(** The assertion [FileStateTransit] makes before it changes the state. *)
Definition FileStateTransit_assert (state : FileState.t) (event : FileEvent.t) : bool :=
  match event with
  | FileEvent.kFlushCompleted =>
      match state with
      | FileState.kPendingLSM | FileState.kPendingGC | FileState.kNormal
      | FileState.kBeingGC | FileState.kObsolete => true
      | _ => false
      end
  | FileEvent.kGCCompleted =>
      match state with
      | FileState.kObsolete | FileState.kPendingGC | FileState.kBeingGC => true
      | _ => false
      end
  | FileEvent.kCompactionCompleted => bool_decide (state = FileState.kPendingLSM)
  | FileEvent.kGCBegin => bool_decide (state = FileState.kNormal)
  | FileEvent.kGCOutput | FileEvent.kFlushOrCompactionOutput | FileEvent.kDbRestart =>
      bool_decide (state = FileState.kInit)
  | FileEvent.kDelete => negb (bool_decide (state = FileState.kObsolete))
  | FileEvent.kNeedMerge | FileEvent.kReset | FileEvent.kNeedGC => true
  | FileEvent.kInit => false
  end.

Definition FileStateTransit (event : FileEvent.t) (m : BlobFileMeta) : BlobFileMeta :=
  set_file_state (FileStateTransit_state (file_state m) event) m.

(** ** Discardable data *)

(** [AddDiscardableSize]; the [uint64_t] sum wraps. *)
Definition AddDiscardableSize (d : Z) (m : BlobFileMeta) : BlobFileMeta :=
  set_discardable_size (discardable_size m +u64 d) m.

(** Its two assertions. *)
Definition AddDiscardableSize_assert (d : Z) (m : BlobFileMeta) : bool :=
  (d <? file_size m) && (discardable_size m +u64 d <? file_size m).

Definition GetDiscardableRatio (m : BlobFileMeta) : double :=
  double_div (double_of_Z (discardable_size m)) (double_of_Z (file_size m)).

Definition NoLiveData (m : BlobFileMeta) : bool :=
  discardable_size m =? (file_size m -u64 (kBlobHeaderSize + kBlobFooterSize)).

(** The doubles 0.2, 0.8 and [numeric_limits<double>::epsilon()]. *)
Definition d02 : double := double_div (double_of_Z 1) (double_of_Z 5).
Definition d08 : double := double_div (double_of_Z 4) (double_of_Z 5).
Definition d_epsilon : double := S754_finite false 4503599627370496 (-104).

Definition GetDiscardableRatioLevel (m : BlobFileMeta) : StatsType :=
  let ratio := GetDiscardableRatio m in
  if double_eqb ratio (double_of_Z 0) then NUM_DISCARDABLE_RATIO_LE0
  else if double_leb ratio d02 then NUM_DISCARDABLE_RATIO_LE20
  else if double_leb ratio d05 then NUM_DISCARDABLE_RATIO_LE50
  else if double_leb ratio d08 then NUM_DISCARDABLE_RATIO_LE80
  else if double_leb ratio (double_of_Z 1)
          || double_ltb (double_sub ratio (double_of_Z 1)) d_epsilon
  then NUM_DISCARDABLE_RATIO_LE100
  else NUM_DISCARDABLE_RATIO_LE100.

(** ** Encoders and decoders *)

(** [GetChar]. *)
Definition GetChar (src : bytes) : option (Z * bytes) :=
  match src with
  | [] => None
  | b :: src' => Some (byte_to_Z b, src')
  end.

(** [DecodeInto]: decodes a whole slice and rejects trailing bytes. *)
Definition DecodeInto {T} (DecodeFrom : T -> bytes -> result (T * bytes)) (src : bytes)
    (target : T) : result T :=
  let* (t, tmp) := DecodeFrom target src in
  match tmp with
  | [] => Ok t
  | _ :: _ => Err (Corruption "")
  end.

Section codec.
Context `{Coding} `{Compressors}.

Definition BlobRecord_EncodeTo (r : BlobRecord) : bytes :=
  if only_value r then record_value r
  else PutLengthPrefixedSlice (record_key r) ++ PutLengthPrefixedSlice (record_value r).

Definition BlobRecord_DecodeFrom (self : BlobRecord) (src : bytes)
    : result (BlobRecord * bytes) :=
  if only_value self then Ok (MkBlobRecord (record_key self) src true, [])
  else
    let* (key, src) := or_err (GetLengthPrefixedSlice src) (Corruption "BlobRecord") in
    let* (value, src) := or_err (GetLengthPrefixedSlice src) (Corruption "BlobRecord") in
    Ok (MkBlobRecord key value false, src).

Definition BlobRecord_size (r : BlobRecord) : Z :=
  Z.of_nat (length (record_key r)) + Z.of_nat (length (record_value r)).

(** [BlobEncoder::EncodeRecord]: the header and the stored record. *)
Definition EncodeRecord (compression : Z) (record : BlobRecord) : bytes * bytes :=
  let record_buffer := BlobRecord_EncodeTo record in
  let '(stored, type) := Compress compression record_buffer in
  let tail := EncodeFixed32 (wrap32 (Z.of_nat (length stored))) ++ [byte_of_Z type] in
  let crc := crc32c_Extend (crc32c_Value tail) stored in
  (EncodeFixed32 crc ++ tail, stored).

(** [BlobEncoder::GetEncodedSize]. *)
Definition GetEncodedSize (enc : bytes * bytes) : Z :=
  kRecordHeaderSize + Z.of_nat (length enc.2).

Record BlobDecoder := MkBlobDecoder {
  dec_crc : Z;
  dec_header_crc : Z;
  record_size : Z;
  dec_compression : Z
}.

(** [BlobDecoder::DecodeHeader]: the header's checksum runs over the five bytes
    after the first four whatever the slice holds, so it reads past the end of
    a shorter slice. *)
Definition BlobDecoder_DecodeHeader (src : bytes) : result (BlobDecoder * bytes) :=
  let* (crc, src) := or_err (GetFixed32 src) (Corruption "BlobHeader") in
  if Z.of_nat (length src) <? kRecordHeaderSize - 4 then Fault else
  let header_crc := crc32c_Value (take (Z.to_nat (kRecordHeaderSize - 4)) src) in
  let* (size, src) := or_err (GetFixed32 src) (Corruption "BlobHeader") in
  let* (compression, src) := or_err (GetChar src) (Corruption "BlobHeader") in
  Ok (MkBlobDecoder crc header_crc size compression, src).

(** [BlobDecoder::DecodeRecord]: the record and the rest of the slice. The
    slice must hold [record_size] bytes. *)
Definition BlobDecoder_DecodeRecord (dec : BlobDecoder) (src : bytes) (record : BlobRecord)
    : result (BlobRecord * bytes) :=
  let input := take (Z.to_nat (record_size dec)) src in
  let* src := remove_prefix (record_size dec) src in
  if dec_compression dec =? kNoCompression then
    let* record := DecodeInto BlobRecord_DecodeFrom input record in
    Ok (record, src)
  else
    let* buffer := Uncompress (dec_compression dec) input in
    let* record := DecodeInto BlobRecord_DecodeFrom buffer record in
    Ok (record, src).

Definition BlobHandle_EncodeTo (h : BlobHandle) : bytes :=
  PutVarint64 (handle_offset h) ++ PutVarint64 (handle_size h).

Definition BlobHandle_DecodeFrom (self : BlobHandle) (src : bytes)
    : result (BlobHandle * bytes) :=
  let* (offset, src) := or_err (GetVarint64 src) (Corruption "BlobHandle") in
  let* (size, src) := or_err (GetVarint64 src) (Corruption "BlobHandle") in
  Ok (MkBlobHandle offset size, src).

Definition BlobIndex_EncodeTo (i : BlobIndex) : bytes :=
  byte_of_Z kBlobRecord :: PutVarint64 (index_file_number i) ++ BlobHandle_EncodeTo (blob_handle i).

Definition BlobIndex_DecodeFrom (self : BlobIndex) (src : bytes)
    : result (BlobIndex * bytes) :=
  let* (type, src) := or_err (GetChar src) (Corruption "BlobIndex") in
  if negb (type =? kBlobRecord) then Err (Corruption "BlobIndex")
  else
    let* (number, src) := or_err (GetVarint64 src) (Corruption "BlobIndex") in
    let* (handle, src) :=
      map_err (BlobHandle_DecodeFrom (blob_handle self) src) (fun _ => Corruption "BlobIndex") in
    Ok (MkBlobIndex number handle, src).

Definition BlobFileMeta_EncodeTo (m : BlobFileMeta) : bytes :=
  PutVarint64 (file_number m) ++ PutVarint64 (file_size m) ++ PutVarint64 (file_entries m)
  ++ PutVarint32 (file_type m) ++ PutVarint32 (file_level m)
  ++ PutLengthPrefixedSlice (smallest_key m) ++ PutLengthPrefixedSlice (largest_key m).

Definition BlobFileMeta_DecodeFromLegacy (self : BlobFileMeta) (src : bytes)
    : result (BlobFileMeta * bytes) :=
  let failed := Corruption "BlobFileMeta decode legacy failed" in
  let* (number, src) := or_err (GetVarint64 src) failed in
  let* (size, src) := or_err (GetVarint64 src) failed in
  Ok ({| file_number := number; file_size := size; file_entries := file_entries self;
         file_type := file_type self; file_level := file_level self;
         smallest_key := smallest_key self; largest_key := largest_key self;
         file_state := file_state self; discardable_size := discardable_size self;
         gc_mark := gc_mark self |}, src).

Definition BlobFileMeta_DecodeFrom (self : BlobFileMeta) (src : bytes)
    : result (BlobFileMeta * bytes) :=
  let failed := Corruption "BlobFileMeta decode failed" in
  let* (number, src) := or_err (GetVarint64 src) failed in
  let* (size, src) := or_err (GetVarint64 src) failed in
  let* (entries, src) := or_err (GetVarint64 src) failed in
  let* (type, src) := or_err (GetVarint32 src) failed in
  let* (level, src) := or_err (GetVarint32 src) failed in
  let* (smallest, src) :=
    or_err (GetLengthPrefixedSlice src) (Corruption "BlobSmallestKey Decode failed") in
  let* (largest, src) :=
    or_err (GetLengthPrefixedSlice src) (Corruption "BlobLargestKey decode failed") in
  Ok ({| file_number := number; file_size := size; file_entries := entries;
         file_type := type; file_level := level; smallest_key := smallest;
         largest_key := largest; file_state := file_state self;
         discardable_size := discardable_size self; gc_mark := gc_mark self |}, src).

(** [BlobFileHeader]: the version is its only field. *)
Definition kHeaderMagicNumber : Z := 0x2be0a614.
Definition kVersion1 : Z := 1.

Definition BlobFileHeader_EncodeTo (version : Z) : bytes :=
  EncodeFixed32 kHeaderMagicNumber ++ EncodeFixed32 version.

Definition BlobFileHeader_DecodeFrom (version : Z) (src : bytes) : result (Z * bytes) :=
  let bad_magic := Corruption "Blob file header magic number missing or mismatched." in
  let bad_version := Corruption "Blob file header version missing or invalid." in
  let* (magic_number, src) := or_err (GetFixed32 src) bad_magic in
  if negb (magic_number =? kHeaderMagicNumber) then Err bad_magic
  else
    let* (version, src) := or_err (GetFixed32 src) bad_version in
    if negb (version =? kVersion1) then Err bad_version
    else Ok (version, src).

(** [BlobFileFooter]: the handle of the meta index block. *)
Definition kFooterMagicNumber : Z := 0x2be0a6148e39edc6.
Definition NullBlockHandle : Z * Z := (0, 0).

(** [std::string::resize]. *)
Definition resize (n : nat) (s : bytes) : bytes :=
  take n s ++ replicate (n - length s) Byte.x00.

Definition BlobFileFooter_EncodeTo (meta_index_handle : Z * Z) : bytes :=
  let dst := BlockHandle_EncodeTo meta_index_handle in
  let dst := resize (Z.to_nat (kBlobFooterSize - 12)) dst in
  let encoded := dst ++ PutFixed64 kFooterMagicNumber in
  encoded ++ EncodeFixed32 (crc32c_Value encoded).

Definition BlobFileFooter_DecodeFrom (self : Z * Z) (data : bytes)
    : result ((Z * Z) * bytes) :=
  let* (handle, src) :=
    or_err (BlockHandle_DecodeFrom data) (Corruption "BlobFileFooter") in
  let consumed := Z.of_nat (length data) - Z.of_nat (length src) in
  let* src := remove_prefix (kBlobFooterSize - 12 - consumed) src in
  let bad_magic := Corruption "BlobFileFooter: magic number" in
  let bad_checksum := Corruption "BlobFileFooter: checksum" in
  let* (magic_number, src) := or_err (GetFixed64 src) bad_magic in
  if negb (magic_number =? kFooterMagicNumber) then Err bad_magic
  else
    let decoded := take (length data - length src) data in
    let* (checksum, src) := or_err (GetFixed32 src) bad_checksum in
    if negb (crc32c_Value decoded =? checksum) then Err bad_checksum
    else Ok (handle, src).

(** The handle a default footer holds after [DecodeFrom], which may have
    failed; a failed [BlockHandle::DecodeFrom] resets the handle. *)
Definition BlobFileFooter_handle_after (data : bytes) : Z * Z :=
  match BlockHandle_DecodeFrom data with
  | Some (handle, _) => handle
  | None => NullBlockHandle
  end.
End codec.

(** ** Well-formed values: what the fixed-width fields can hold *)

Definition handle_wf (h : BlobHandle) : Prop := is_u64 (handle_offset h) /\ is_u64 (handle_size h).

Definition index_wf (i : BlobIndex) : Prop := is_u64 (index_file_number i) /\ handle_wf (blob_handle i).

Definition slice_wf (s : bytes) : Prop := Z.of_nat (length s) < two32.

Definition meta_wf (m : BlobFileMeta) : Prop :=
  is_u64 (file_number m) /\ is_u64 (file_size m) /\ is_u64 (file_entries m) /\
  is_u32 (file_type m) /\ is_u32 (file_level m) /\
  slice_wf (smallest_key m) /\ slice_wf (largest_key m).

(** The persistent fields of a file's metadata, the others at their defaults. *)
Definition persistent (m : BlobFileMeta) : BlobFileMeta :=
  BlobFileMeta_new (file_number m) (file_size m) (file_entries m) (file_level m)
    (smallest_key m) (largest_key m) (file_type m).

(** A record whose encoding fits the 32-bit length fields. *)
Definition record_wf `{Coding} (r : BlobRecord) : Prop :=
  slice_wf (record_key r) /\ slice_wf (record_value r) /\ slice_wf (BlobRecord_EncodeTo r).

Section codec_lemmas.
Context `{Coding} `{!CodingOk _} `{Compressors} `{!CompressorsOk _}.

Lemma byte_to_Z_kBlobRecord : byte_to_Z (byte_of_Z kBlobRecord) = kBlobRecord.
Proof. done. Qed.

Lemma BlobRecord_roundtrip r t :
  record_wf r -> only_value t = only_value r ->
  DecodeInto BlobRecord_DecodeFrom (BlobRecord_EncodeTo r) t =
  Ok (MkBlobRecord (if only_value r then record_key t else record_key r) (record_value r)
        (only_value r)).
Proof.
  intros (Hk & Hv & _) Ht. unfold DecodeInto, BlobRecord_DecodeFrom, BlobRecord_EncodeTo.
  rewrite Ht. destruct (only_value r); [done|].
  rewrite slice_roundtrip by done. cbn [or_err result_bind].
  rewrite <- (app_nil_r (PutLengthPrefixedSlice (record_value r))).
  by rewrite slice_roundtrip.
Qed.

Lemma Compress_length t i o t' : Compress t i = (o, t') -> (length o <= length i)%nat.
Proof. intros [[-> _]|(_ & _ & ?)]%Compress_cases; lia. Qed.

Lemma Compress_type_range t i o t' :
  Compress t i = (o, t') -> 0 <= t < 256 -> 0 <= t' < 256.
Proof. intros [[_ ->]|(-> & _ & _)]%Compress_cases; unfold kNoCompression; lia. Qed.

(** The header is nine bytes long. *)
Lemma EncodeRecord_header_length t r :
  Z.of_nat (length (EncodeRecord t r).1) = kRecordHeaderSize.
Proof.
  unfold EncodeRecord. destruct (Compress t _) as [o t']. simpl.
  by rewrite !length_app, !fixed32_length.
Qed.

(** The stored record decodes to the record that was encoded, whatever crc
    its header carries. *)
Lemma header_in_slice {A} (src : bytes) (a b : A) :
  (5 <= length src)%nat -> (if Z.of_nat (length src) <? kRecordHeaderSize - 4 then a else b) = b.
Proof. intros Hl. unfold kRecordHeaderSize. destruct (Z.ltb_spec (Z.of_nat (length src)) (9 - 4)); [lia|done]. Qed.

Lemma record_roundtrip_any_crc t r target rest crc :
  record_wf r -> 0 <= t < 256 -> only_value target = only_value r -> is_u32 crc ->
  (let '(hdr, stored) := EncodeRecord t r in
   let* (dec, src) :=
     BlobDecoder_DecodeHeader (EncodeFixed32 crc ++ drop 4 hdr ++ stored ++ rest) in
   BlobDecoder_DecodeRecord dec src target) =
  Ok (MkBlobRecord (if only_value r then record_key target else record_key r)
        (record_value r) (only_value r), rest).
Proof.
  intros Hwf Ht Hov Hcrc. unfold EncodeRecord.
  destruct (Compress t (BlobRecord_EncodeTo r)) as [o t'] eqn:HC.
  pose proof (Compress_length _ _ _ _ HC) as Hlen.
  pose proof (Compress_type_range _ _ _ _ HC Ht) as Ht'.
  assert (Hsz : is_u32 (Z.of_nat (length o))).
  { destruct Hwf as (_ & _ & Hs). unfold slice_wf in Hs. unfold is_u32. lia. }
  assert (Hw : wrap32 (Z.of_nat (length o)) = Z.of_nat (length o)) by by apply Z.mod_small.
  rewrite (drop_app_length' (EncodeFixed32 _)) by by rewrite fixed32_length.
  unfold BlobDecoder_DecodeHeader.
  rewrite fixed32_roundtrip by done. cbn [or_err result_bind].
  rewrite Hw, <- !app_assoc, header_in_slice by (rewrite length_app, fixed32_length; simpl; lia).
  rewrite fixed32_roundtrip by done. cbn [or_err result_bind GetChar app].
  rewrite byte_to_Z_of_Z by done. cbn [or_err result_bind].
  unfold BlobDecoder_DecodeRecord. cbn [record_size dec_compression].
  rewrite Nat2Z.id, take_app_length, remove_prefix_app by done. cbn [result_bind].
  destruct (Z.eqb_spec t' kNoCompression) as [->|Hne].
  - apply Compress_cases in HC as [[-> _]|(<- & ? & _)]; [|done].
    by rewrite BlobRecord_roundtrip.
  - rewrite (Uncompress_Compress _ _ _ _ HC Hne). cbn [result_bind].
    by rewrite BlobRecord_roundtrip.
Qed.

Lemma EncodeRecord_crc t r :
  exists crc, is_u32 crc /\
    (EncodeRecord t r).1 = EncodeFixed32 crc ++ drop 4 (EncodeRecord t r).1.
Proof.
  unfold EncodeRecord. destruct (Compress t _) as [o t']. simpl.
  eexists. split; [apply crc32c_extend_range|].
  by rewrite drop_app_length' by by rewrite fixed32_length.
Qed.

(** A record written by the encoder decodes to itself. *)
Lemma record_roundtrip t r target rest :
  record_wf r -> 0 <= t < 256 -> only_value target = only_value r ->
  (let* (dec, src) :=
     BlobDecoder_DecodeHeader ((EncodeRecord t r).1 ++ (EncodeRecord t r).2 ++ rest) in
   BlobDecoder_DecodeRecord dec src target) =
  Ok (MkBlobRecord (if only_value r then record_key target else record_key r)
        (record_value r) (only_value r), rest).
Proof.
  intros Hwf Ht Hov. destruct (EncodeRecord_crc t r) as (crc & Hcrc & E).
  pose proof (record_roundtrip_any_crc t r target rest crc Hwf Ht Hov Hcrc) as Hrt.
  rewrite E. destruct (EncodeRecord t r) as [hdr stored]. cbn [fst snd] in *.
  by rewrite <- app_assoc.
Qed.

(** The header alone announces the size of what follows. *)
Lemma DecodeHeader_EncodeRecord t r :
  record_wf r -> 0 <= t < 256 ->
  exists dec,
    (forall rest, BlobDecoder_DecodeHeader ((EncodeRecord t r).1 ++ rest) = Ok (dec, rest)) /\
    record_size dec = Z.of_nat (length (EncodeRecord t r).2) /\
    (if dec_compression dec =? kNoCompression then Ok (EncodeRecord t r).2
     else Uncompress (dec_compression dec) (EncodeRecord t r).2) = Ok (BlobRecord_EncodeTo r).
Proof.
  intros Hwf Ht. unfold EncodeRecord.
  destruct (Compress t (BlobRecord_EncodeTo r)) as [o t'] eqn:HC. cbn [fst snd].
  pose proof (Compress_length _ _ _ _ HC) as Hlen.
  pose proof (Compress_type_range _ _ _ _ HC Ht) as Ht'.
  assert (Hsz : is_u32 (Z.of_nat (length o))).
  { destruct Hwf as (_ & _ & Hs). unfold slice_wf in Hs. unfold is_u32. lia. }
  assert (Hw : wrap32 (Z.of_nat (length o)) = Z.of_nat (length o)) by by apply Z.mod_small.
  rewrite Hw. set (tail := EncodeFixed32 (Z.of_nat (length o)) ++ [byte_of_Z t']).
  assert (Htl : length tail = 5%nat) by (unfold tail; by rewrite length_app, fixed32_length).
  eexists. split_and!.
  - intros rest. unfold BlobDecoder_DecodeHeader.
    rewrite <- app_assoc, fixed32_roundtrip by apply crc32c_extend_range.
    cbn [or_err result_bind]. rewrite header_in_slice by (rewrite length_app, Htl; lia).
    rewrite take_app_length' by by rewrite Htl.
    assert (HG : GetFixed32 (tail ++ rest) = Some (Z.of_nat (length o), byte_of_Z t' :: rest))
      by (unfold tail; rewrite <- app_assoc; by apply fixed32_roundtrip).
    rewrite HG. cbn [or_err result_bind GetChar app]. by rewrite byte_to_Z_of_Z by done.
  - done.
  - cbn [dec_compression]. destruct (Z.eqb_spec t' kNoCompression) as [->|Hne].
    + by apply Compress_cases in HC as [[-> _]|(<- & ? & _)].
    + exact (Uncompress_Compress _ _ _ _ HC Hne).
Qed.

(** The decoder of a record's header decodes the record that follows. *)
Lemma DecodeRecord_EncodeRecord t r target rest dec :
  record_wf r -> 0 <= t < 256 -> only_value target = only_value r ->
  (forall rest, BlobDecoder_DecodeHeader ((EncodeRecord t r).1 ++ rest) = Ok (dec, rest)) ->
  BlobDecoder_DecodeRecord dec ((EncodeRecord t r).2 ++ rest) target =
  Ok (MkBlobRecord (if only_value r then record_key target else record_key r)
        (record_value r) (only_value r), rest).
Proof.
  intros Hwf Ht Hov Hdec. pose proof (record_roundtrip t r target rest Hwf Ht Hov) as Hrt.
  by rewrite Hdec in Hrt.
Qed.

Lemma BlobHandle_roundtrip h t rest :
  handle_wf h -> BlobHandle_DecodeFrom t (BlobHandle_EncodeTo h ++ rest) = Ok (h, rest).
Proof.
  intros [Ho Hs]. unfold BlobHandle_DecodeFrom, BlobHandle_EncodeTo. rewrite <- app_assoc.
  rewrite varint64_roundtrip by done. cbn [or_err result_bind].
  rewrite varint64_roundtrip by done. by destruct h.
Qed.

Lemma BlobIndex_roundtrip i t rest :
  index_wf i -> BlobIndex_DecodeFrom t (BlobIndex_EncodeTo i ++ rest) = Ok (i, rest).
Proof.
  intros [Hn Hh]. unfold BlobIndex_DecodeFrom, BlobIndex_EncodeTo. cbn [app GetChar].
  cbn [or_err result_bind]. rewrite byte_to_Z_kBlobRecord. cbn [negb Z.eqb].
  change (kBlobRecord =? kBlobRecord) with true. cbn [negb].
  rewrite <- app_assoc, varint64_roundtrip by done. cbn [or_err result_bind].
  rewrite BlobHandle_roundtrip by done. by destruct i.
Qed.

Lemma BlobIndex_EncodeTo_inj i j :
  index_wf i -> index_wf j -> BlobIndex_EncodeTo i = BlobIndex_EncodeTo j -> i = j.
Proof.
  intros Hi Hj E. pose proof (BlobIndex_roundtrip i BlobIndex_default [] Hi) as Ri.
  pose proof (BlobIndex_roundtrip j BlobIndex_default [] Hj) as Rj.
  rewrite E, Rj in Ri. congruence.
Qed.

Lemma BlobFileMeta_roundtrip m t rest :
  meta_wf m ->
  BlobFileMeta_DecodeFrom t (BlobFileMeta_EncodeTo m ++ rest) =
  Ok (set_gc_mark (gc_mark t) (set_discardable_size (discardable_size t)
        (set_file_state (file_state t) m)), rest).
Proof.
  intros (?&?&?&?&?&?&?). unfold BlobFileMeta_DecodeFrom, BlobFileMeta_EncodeTo.
  rewrite <- !app_assoc.
  repeat (first [rewrite varint64_roundtrip by done | rewrite varint32_roundtrip by done
                | rewrite slice_roundtrip by done]; cbn [or_err result_bind]).
  done.
Qed.

Lemma BlobFileMeta_roundtrip_default m rest :
  meta_wf m ->
  BlobFileMeta_DecodeFrom BlobFileMeta_default (BlobFileMeta_EncodeTo m ++ rest) =
  Ok (persistent m, rest).
Proof. intros Hm. by rewrite BlobFileMeta_roundtrip. Qed.

Lemma BlobFileHeader_roundtrip v rest :
  BlobFileHeader_DecodeFrom v (BlobFileHeader_EncodeTo kVersion1 ++ rest) = Ok (kVersion1, rest).
Proof.
  unfold BlobFileHeader_DecodeFrom, BlobFileHeader_EncodeTo. rewrite <- app_assoc.
  rewrite fixed32_roundtrip by (unfold is_u32, kHeaderMagicNumber, two32; lia).
  cbn [or_err result_bind]. rewrite Z.eqb_refl. cbn [negb].
  rewrite fixed32_roundtrip by (unfold is_u32, kVersion1, two32; lia). done.
Qed.

Lemma BlobFileHeader_length v : Z.of_nat (length (BlobFileHeader_EncodeTo v)) = kBlobHeaderSize.
Proof. unfold BlobFileHeader_EncodeTo. by rewrite length_app, !fixed32_length. Qed.

Lemma resize_grow n s : (length s <= n)%nat -> resize n s = s ++ replicate (n - length s) Byte.x00.
Proof. intros Hn. unfold resize. by rewrite take_ge. Qed.

Lemma resize_length n s : length (resize n s) = n.
Proof. unfold resize. rewrite length_app, length_take, length_replicate. lia. Qed.

Lemma BlobFileFooter_length h :
  Z.of_nat (length (BlobFileFooter_EncodeTo h)) = kBlobFooterSize.
Proof.
  unfold BlobFileFooter_EncodeTo.
  by rewrite !length_app, resize_length, fixed64_length, fixed32_length.
Qed.

Lemma BlobFileFooter_roundtrip o n t rest :
  is_u64 o -> is_u64 n ->
  BlobFileFooter_DecodeFrom t (BlobFileFooter_EncodeTo (o, n) ++ rest) = Ok ((o, n), rest).
Proof.
  intros Ho Hn. unfold BlobFileFooter_EncodeTo.
  pose proof (block_handle_length (o, n)) as HL.
  change (Z.to_nat (kBlobFooterSize - 12)) with 20%nat.
  change (Z.to_nat kBlockHandleMaxEncodedLength) with 20%nat in HL.
  rewrite resize_grow by done.
  set (h := BlockHandle_EncodeTo (o, n)) in *. set (pad := replicate (20 - length h) Byte.x00).
  assert (Hpad : length pad = (20 - length h)%nat) by apply length_replicate.
  unfold BlobFileFooter_DecodeFrom. rewrite <- !app_assoc.
  unfold h at 1. rewrite block_handle_roundtrip by done. fold h. cbn [or_err result_bind].
  rewrite remove_prefix_app by (rewrite !length_app; unfold kBlobFooterSize, kBlockHandleMaxEncodedLength; lia).
  cbn [result_bind].
  rewrite fixed64_roundtrip by (unfold is_u64, kFooterMagicNumber, two64; lia).
  cbn [or_err result_bind]. rewrite Z.eqb_refl. cbn [negb].
  rewrite fixed32_roundtrip by apply crc32c_range. cbn [or_err result_bind].
  rewrite !app_assoc, <- (app_assoc _ (EncodeFixed32 _) rest).
  rewrite take_app_length', Z.eqb_refl; [done|]. rewrite !length_app. lia.
Qed.
End codec_lemmas.

(** ** The life cycle as a step relation *)

(** One event whose assertion holds. *)
Inductive transit_step : FileState.t -> FileEvent.t -> FileState.t -> Prop :=
| transit_step_intro s e :
    FileStateTransit_assert s e = true -> transit_step s e (FileStateTransit_state s e).

Inductive transit_trace : FileState.t -> list FileEvent.t -> FileState.t -> Prop :=
| transit_nil s : transit_trace s [] s
| transit_cons s e s' es s'' :
    transit_step s e s' -> transit_trace s' es s'' -> transit_trace s (e :: es) s''.

(** The number of deletions in a trace. *)
Definition num_deletes (es : list FileEvent.t) : nat :=
  length (filter (fun e => e = FileEvent.kDelete) es).

Lemma obsolete_step e s :
  transit_step FileState.kObsolete e s -> e <> FileEvent.kReset ->
  s = FileState.kObsolete /\ e <> FileEvent.kDelete.
Proof. intros Hs Hr. inversion Hs as [? ? Ha]; subst. by destruct e. Qed.

Lemma obsolete_trace es s s' :
  transit_trace s es s' -> s = FileState.kObsolete -> FileEvent.kReset ∉ es ->
  s' = FileState.kObsolete /\ num_deletes es = 0%nat.
Proof.
  induction 1 as [s|s e s1 es s2 Hstep _ IH]; intros -> Hnr; [done|].
  apply not_elem_of_cons in Hnr as [Hne Hnr].
  destruct (obsolete_step _ _ Hstep) as [-> Hd]; [done|].
  destruct IH as [-> Hc]; [done..|]. split; [done|].
  unfold num_deletes in *. by rewrite filter_cons_False.
Qed.

Lemma deleted_once_trace s es s' :
  transit_trace s es s' -> FileEvent.kReset ∉ es ->
  (num_deletes es <= 1)%nat /\ (FileEvent.kDelete ∈ es -> s' = FileState.kObsolete).
Proof.
  induction 1 as [s|s e s1 es s2 Hstep Htr IH]; intros Hnr.
  { split; [unfold num_deletes; simpl; lia|]. by intros ?%not_elem_of_nil. }
  apply not_elem_of_cons in Hnr as [Hne Hnr].
  destruct (decide (e = FileEvent.kDelete)) as [->|Hd].
  - inversion Hstep; subst.
    destruct (obsolete_trace _ _ _ Htr) as [-> Hc]; [done..|].
    split; [|done]. unfold num_deletes in *. rewrite filter_cons_True by done. simpl. lia.
  - destruct IH as [IH1 IH2]; [done|]. split.
    + unfold num_deletes in *. by rewrite filter_cons_False.
    + intros [?|?]%elem_of_cons; [congruence|auto].
Qed.

(** ** Properties *)

Section properties.
Context `{Coding} `{!CodingOk _} `{Compressors} `{!CompressorsOk _}.

(** a record stored by [BlobEncoder::EncodeRecord], under any compression
    type, decodes through [DecodeHeader] and [DecodeRecord] to the same value
    (and key, when the key is stored), consuming exactly its own bytes. *)
Theorem blob_record_roundtrip (t : Z) (r target : BlobRecord) (rest : bytes) :
  record_wf r -> 0 <= t < 256 -> only_value target = only_value r ->
  GetEncodedSize (EncodeRecord t r) =
    Z.of_nat (length ((EncodeRecord t r).1 ++ (EncodeRecord t r).2)) /\
  (let* (dec, src) :=
     BlobDecoder_DecodeHeader ((EncodeRecord t r).1 ++ (EncodeRecord t r).2 ++ rest) in
   BlobDecoder_DecodeRecord dec src target) =
  Ok (MkBlobRecord (if only_value r then record_key target else record_key r)
        (record_value r) (only_value r), rest).
Proof.
  intros Hwf Ht Hov. split; [|by apply record_roundtrip].
  unfold GetEncodedSize. rewrite length_app, Nat2Z.inj_add.
  by rewrite EncodeRecord_header_length.
Qed.

(** [DecodeRecord] accepts a record whatever checksum its header holds:
    the stored crc is never compared with the data. *)
Theorem record_checksum_ignored (t : Z) (r target : BlobRecord) (crc : Z) :
  record_wf r -> 0 <= t < 256 -> only_value target = only_value r -> is_u32 crc ->
  exists record,
    (let* (dec, src) := BlobDecoder_DecodeHeader
       (EncodeFixed32 crc ++ drop 4 (EncodeRecord t r).1 ++ (EncodeRecord t r).2) in
     BlobDecoder_DecodeRecord dec src target) = Ok (record, []) /\
    record_value record = record_value r.
Proof.
  intros Hwf Ht Hov Hcrc.
  pose proof (record_roundtrip_any_crc t r target [] crc Hwf Ht Hov Hcrc) as Hrt.
  destruct (EncodeRecord t r) as [hdr stored]. rewrite app_nil_r in Hrt.
  eexists. split; [exact Hrt|done].
Qed.

(** a blob index read back from the LSM tree is the index that was
    stored, different indexes have different encodings, and [DecodeInto]
    rejects an encoding with trailing bytes. *)
Theorem blob_index_roundtrip (i j t : BlobIndex) (b : byte) (rest : bytes) :
  index_wf i -> index_wf j ->
  DecodeInto BlobIndex_DecodeFrom (BlobIndex_EncodeTo i) t = Ok i /\
  (BlobIndex_EncodeTo i = BlobIndex_EncodeTo j <-> BlobIndex_eqb i j = true) /\
  DecodeInto BlobIndex_DecodeFrom (BlobIndex_EncodeTo i ++ b :: rest) t = Err (Corruption "").
Proof.
  intros Hi Hj. split_and!.
  - unfold DecodeInto. rewrite <- (app_nil_r (BlobIndex_EncodeTo i)).
    by rewrite BlobIndex_roundtrip.
  - assert (Hb : BlobIndex_eqb i j = true <-> i = j).
    { destruct i as [ni [oi si]], j as [nj [oj sj]]. unfold BlobIndex_eqb, BlobHandle_eqb.
      cbn. rewrite !andb_true_iff, !Z.eqb_eq. naive_solver. }
    rewrite Hb. split; [by apply BlobIndex_EncodeTo_inj|by intros ->].
  - unfold DecodeInto. by rewrite BlobIndex_roundtrip.
Qed.

(** the metadata of a blob file read back from the manifest has the
    persistent fields that were written, and the volatile ones at their
    defaults (state [kInit], no discardable data, no gc mark). *)
Theorem blob_file_meta_roundtrip (m : BlobFileMeta) :
  meta_wf m ->
  DecodeInto BlobFileMeta_DecodeFrom (BlobFileMeta_EncodeTo m) BlobFileMeta_default =
    Ok (persistent m) /\
  BlobFileMeta_eqb (persistent m) m = true.
Proof.
  intros Hm. split.
  - unfold DecodeInto. rewrite <- (app_nil_r (BlobFileMeta_EncodeTo m)).
    by rewrite BlobFileMeta_roundtrip_default.
  - unfold BlobFileMeta_eqb, persistent. cbn. by rewrite !Z.eqb_refl.
Qed.

(** The footer occupies exactly [kBlobFooterSize] bytes, decodes to the
    handle it was built from, and no slice whose checksum disagrees with its
    first bytes decodes. *)
Theorem blob_file_footer_roundtrip (o n : Z) (t h : Z * Z) (src rest : bytes) :
  is_u64 o -> is_u64 n ->
  Z.of_nat (length (BlobFileFooter_EncodeTo (o, n))) = kBlobFooterSize /\
  DecodeInto BlobFileFooter_DecodeFrom (BlobFileFooter_EncodeTo (o, n)) t = Ok (o, n) /\
  (BlobFileFooter_DecodeFrom t src = Ok (h, rest) ->
   exists crc tail, GetFixed32 tail = Some (crc, rest) /\
     crc32c_Value (take (length src - length tail) src) = crc).
Proof.
  intros Ho Hn. split_and!.
  - apply BlobFileFooter_length.
  - unfold DecodeInto. rewrite <- (app_nil_r (BlobFileFooter_EncodeTo _)).
    by rewrite BlobFileFooter_roundtrip.
  - unfold BlobFileFooter_DecodeFrom. intros Hd. result_inv.
    destruct a as [handle s1]. cbn in Hd. result_inv.
    destruct a0 as [magic s3]. cbn in Hd. case_match; [done|]. result_inv.
    destruct a0 as [crc s4]. cbn in Hd.
    destruct (crc32c_Value _ =? crc) eqn:Ec; [|done]. apply Z.eqb_eq in Ec.
    cbn in Hd. injection Hd as -> ->. eauto.
Qed.
End properties.

(** under the assertions of [FileStateTransit], and without the test event
    [kReset], a blob file is deleted at most once, and stays obsolete from then
    on whatever flush, compaction or GC events follow. *)
Theorem file_deleted_at_most_once (s s' : FileState.t) (es : list FileEvent.t) :
  transit_trace s es s' -> FileEvent.kReset ∉ es ->
  (num_deletes es <= 1)%nat /\ (FileEvent.kDelete ∈ es -> s' = FileState.kObsolete).
Proof. apply deleted_once_trace. Qed.

(** ** Examples: the properties at concrete values *)

Definition example_record : BlobRecord :=
  MkBlobRecord [Byte.x6b; Byte.x31] (replicate 20 Byte.x61) false.

Definition example_index : BlobIndex := MkBlobIndex 7 (MkBlobHandle 300 64).
Definition example_index' : BlobIndex := MkBlobIndex 7 (MkBlobHandle 364 64).

Definition example_meta : BlobFileMeta :=
  set_discardable_size 100
    (BlobFileMeta_new 12 4096 3 6 [Byte.x61] [Byte.x7a] kSorted).

#[local] Existing Instances leb128_coding rle_compressors.

Lemma example_record_wf : record_wf example_record.
Proof. unfold record_wf, slice_wf, two32. vm_compute. split_and!; congruence. Qed.

Lemma blob_record_roundtrip_witness :
  (let* (dec, src) := BlobDecoder_DecodeHeader
     ((EncodeRecord kSnappyCompression example_record).1
      ++ (EncodeRecord kSnappyCompression example_record).2 ++ [Byte.xff]) in
   BlobDecoder_DecodeRecord dec src BlobRecord_default) = Ok (example_record, [Byte.xff]).
Proof.
  apply (blob_record_roundtrip kSnappyCompression example_record BlobRecord_default [Byte.xff]);
    [exact example_record_wf|unfold kSnappyCompression; lia|reflexivity].
Defined.

Lemma record_checksum_ignored_witness :
  exists record,
    (let* (dec, src) := BlobDecoder_DecodeHeader
       (EncodeFixed32 0 ++ drop 4 (EncodeRecord kNoCompression example_record).1
        ++ (EncodeRecord kNoCompression example_record).2) in
     BlobDecoder_DecodeRecord dec src BlobRecord_default) = Ok (record, []) /\
    record_value record = record_value example_record.
Proof.
  apply (record_checksum_ignored kNoCompression example_record BlobRecord_default 0);
    [exact example_record_wf|unfold kNoCompression; lia|reflexivity|vm_compute; intuition congruence].
Defined.

Lemma blob_index_roundtrip_witness :
  DecodeInto BlobIndex_DecodeFrom (BlobIndex_EncodeTo example_index) BlobIndex_default =
    Ok example_index.
Proof.
  refine (proj1 (blob_index_roundtrip example_index example_index' BlobIndex_default
                   Byte.x00 [] _ _)); vm_compute; intuition congruence.
Defined.

Lemma blob_file_meta_roundtrip_witness :
  DecodeInto BlobFileMeta_DecodeFrom (BlobFileMeta_EncodeTo example_meta) BlobFileMeta_default =
    Ok (set_discardable_size 0 example_meta).
Proof.
  refine (proj1 (blob_file_meta_roundtrip example_meta _)); vm_compute; intuition congruence.
Defined.

Lemma blob_file_footer_roundtrip_witness :
  DecodeInto BlobFileFooter_DecodeFrom (BlobFileFooter_EncodeTo (123, 321)) NullBlockHandle =
    Ok (123, 321).
Proof.
  refine (proj1 (proj2 (blob_file_footer_roundtrip 123 321 NullBlockHandle (123, 321) [] [] _ _)));
    vm_compute; intuition congruence.
Defined.

Lemma file_deleted_at_most_once_witness :
  (num_deletes [FileEvent.kDbRestart; FileEvent.kGCBegin; FileEvent.kDelete;
                FileEvent.kGCCompleted; FileEvent.kNeedGC] <= 1)%nat.
Proof.
  refine (proj1 (file_deleted_at_most_once FileState.kInit FileState.kObsolete _ _ _)).
  - repeat (eapply transit_cons; [by apply transit_step_intro|]). apply transit_nil.
  - set_solver.
Defined.
