(* ===== verification/Env.v ===== *)
(** * Files and caches

    The parts of [rocksdb::Env], of its file readers and writers and of
    [rocksdb::Cache] the sources call, as parameters: any implementation can be
    plugged in, and an operation may fail with any status. *)

From S2P Require Import Prelude.

(** ** Files *)

Class Env := {
  (** The state of the file system. *)
  fs : Type;
  (** [RandomAccessFileReader]. *)
  rafile : Type;
  (** [WritableFileWriter]. *)
  writer : Type;
  BlobFileName : string -> Z -> string;
  NewRandomAccessFile : fs -> string -> result rafile;
  (** [Read(offset, n, &slice, scratch)]: at most [n] bytes. *)
  raf_Read : fs -> rafile -> Z -> Z -> result bytes;
  (** [RandomAccessFile::GetUniqueId]: empty when the file has none. *)
  raf_GetUniqueId : rafile -> bytes;
  w_Append : bytes -> writer -> Status * writer;
  w_Flush : writer -> Status * writer;
  w_GetFileSize : writer -> Z;
  (** The bytes appended so far. *)
  w_contents : writer -> bytes
}.

Class EnvOk (E : Env) : Prop := {
  (** Different numbers name different files. *)
  BlobFileName_inj : forall d n m, BlobFileName d n = BlobFileName d m -> n = m;
  (** A successful append adds its bytes at the end. *)
  append_contents : forall s w w', w_Append s w = (OK, w') -> w_contents w' = w_contents w ++ s;
  (** A successful flush keeps them. *)
  flush_contents : forall w w', w_Flush w = (OK, w') -> w_contents w' = w_contents w;
  (** [GetFileSize] counts them. *)
  file_size_contents : forall w, w_GetFileSize w = Z.of_nat (length (w_contents w))
}.

(** The bytes of [c] from [off] on, at most [n] of them. *)
Definition pread (c : bytes) (off n : Z) : bytes := take (Z.to_nat n) (drop (Z.to_nat off) c).

(** The open file [f] holds [c] and reading it does not fail. *)
Definition readable `{Env} (w : fs) (f : rafile) (c : bytes) : Prop :=
  forall off n, 0 <= off -> 0 <= n -> raf_Read w f off n = Ok (pread c off n).

Lemma pread_app a b c off n :
  off = Z.of_nat (length a) -> n = Z.of_nat (length b) -> pread (a ++ b ++ c) off n = b.
Proof.
  intros -> ->. unfold pread. rewrite !Nat2Z.id, drop_app_length, take_app_length. done.
Qed.

(** ** Caches *)

(** A cache of values of type [V]. A lookup may change the state (recency) and
    an insertion may evict other entries. *)
Class Cache (V : Type) := {
  cache : Type;
  cache_Lookup : bytes -> cache -> option V * cache;
  cache_Insert : bytes -> V -> cache -> cache;
  cache_Erase : bytes -> cache -> cache;
  (** [NewId]: a number not handed out before. *)
  cache_NewId : cache -> Z * cache;
  (** [k] may be found with value [v]. *)
  cache_has : cache -> bytes -> V -> Prop
}.
Arguments cache V {_}.

Class CacheOk {V} (C : Cache V) : Prop := {
  lookup_has : forall k c v, (cache_Lookup k c).1 = Some v -> cache_has c k v;
  has_lookup : forall k c k' v, cache_has (cache_Lookup k c).2 k' v -> cache_has c k' v;
  has_insert : forall k v c k' v', cache_has (cache_Insert k v c) k' v' ->
    (k' = k /\ v' = v) \/ (k' <> k /\ cache_has c k' v');
  has_erase : forall k c k' v, cache_has (cache_Erase k c) k' v -> k' <> k /\ cache_has c k' v;
  has_new_id : forall c k v, cache_has (cache_NewId c).2 k v -> cache_has c k v
}.

(** ** One implementation of each *)

(** A file system in memory. A writer accepts [budget] bytes. *)
Record mem_writer := MkMemWriter { mem_data : bytes; mem_budget : Z }.

Definition mem_append (s : bytes) (w : mem_writer) : Status * mem_writer :=
  if Z.of_nat (length s) <=? mem_budget w
  then (OK, MkMemWriter (mem_data w ++ s) (mem_budget w - Z.of_nat (length s)))
  else (IOError "No space left on device", w).

Definition mem_env : Env := {|
  fs := gmap string bytes;
  rafile := string;
  writer := mem_writer;
  BlobFileName := fun d n => d +:+ "/" +:+ pretty n;
  NewRandomAccessFile := fun w name =>
    match w !! name with Some _ => Ok name | None => Err (NotFound name) end;
  raf_Read := fun w f off n =>
    match w !! f with Some c => Ok (pread c off n) | None => Err (IOError f) end;
  raf_GetUniqueId := fun _ => [];
  w_Append := mem_append;
  w_Flush := fun w => (OK, w);
  w_GetFileSize := fun w => Z.of_nat (length (mem_data w));
  w_contents := mem_data
|}.

#[export] Instance mem_env_ok : EnvOk mem_env.
Proof.
  split; simpl.
  - intros d n m Heq. apply (inj (String.app d)) in Heq. by apply (inj (String.app _)), (inj pretty) in Heq.
  - intros s w w'. unfold mem_append. case_match; [|done]. by intros [= <-].
  - by intros w w' [= <-].
  - done.
Qed.

(** A cache without a capacity, with the last id handed out. *)
Definition map_cache (V : Type) : Cache V := {|
  cache := Z * gmap bytes V;
  cache_Lookup := fun k c => (c.2 !! k, c);
  cache_Insert := fun k v c => (c.1, <[k := v]> c.2);
  cache_Erase := fun k c => (c.1, delete k c.2);
  cache_NewId := fun c => (c.1 + 1, (c.1 + 1, c.2));
  cache_has := fun c k v => c.2 !! k = Some v
|}.

#[export] Instance map_cache_ok V : CacheOk (map_cache V).
Proof.
  split; simpl; try done.
  - intros k v c k' v'. rewrite lookup_insert_Some. naive_solver.
  - intros k c k' v. rewrite lookup_delete_Some. naive_solver.
Qed.
