(* ===== verification/BaseDb.v ===== *)
(** * The base database

    Titan runs on a RocksDB instance that keeps keys with inline values or blob
    indexes. What the sources call of it is a parameter; the laws state how
    writes change what reads return. *)

From S2P Require Import Prelude.

Class BaseDB := {
  base : Type;
  (** [WriteBatch]. *)
  batch : Type;
  batch_empty : batch;
  (** [WriteBatchInternal::PutBlobIndex(&wb, cf, key, index)]. *)
  PutBlobIndex : Z -> bytes -> bytes -> batch -> Status * batch;
  (** [GetDataSize]. *)
  GetDataSize : batch -> Z;
  (** [DBImpl::GetImpl]: the value and whether it is a blob index. *)
  base_GetImpl : base -> Z -> bytes -> result (bytes * bool);
  (** [Write(options, &wb)] and [Put(options, cf, key, value)]. *)
  base_Write : batch -> base -> Status * base;
  base_Put : Z -> bytes -> bytes -> base -> Status * base;
  GetLatestSequenceNumber : base -> Z;
  (** [ColumnFamilyData::IsDropped]. *)
  IsDropped : base -> Z -> bool;
  (** The blob indexes of a batch, in order. *)
  batch_puts : batch -> list (Z * bytes * bytes)
}.

(** What a read of [k] returns after the puts [l]. *)
Definition puts_of (l : list (Z * bytes * bytes)) (cf : Z) (k : bytes) : option bytes :=
  snd <$> last (filter (fun p => p.1 = (cf, k)) l).

Class BaseDBOk (B : BaseDB) : Prop := {
  batch_puts_empty : batch_puts batch_empty = [];
  batch_puts_put : forall cf k v b b', PutBlobIndex cf k v b = (OK, b') ->
    batch_puts b' = batch_puts b ++ [(cf, k, v)];
  (** A successful write makes the puts of the batch visible. *)
  write_get : forall b d d' cf k, base_Write b d = (OK, d') ->
    base_GetImpl d' cf k =
      match puts_of (batch_puts b) cf k with
      | Some v => Ok (v, true)
      | None => base_GetImpl d cf k
      end;
  put_get : forall d d' cf k v cf' k', base_Put cf k v d = (OK, d') ->
    base_GetImpl d' cf' k' =
      if decide ((cf', k') = (cf, k)) then Ok (v, false) else base_GetImpl d cf' k';
  get_total : forall d cf k, base_GetImpl d cf k <> Fault;
  (** A failed read has a status that says so. *)
  get_error : forall d cf k s, base_GetImpl d cf k = Err s -> status_ok s = false;
  (** [Busy] is an answer to a callback, and there is none. *)
  write_not_busy : forall b d d' msg, base_Write b d <> (Busy msg, d')
}.

(** ** A base database in memory *)

Record mem_base := MkMemBase { mem_keys : gmap (Z * bytes) (bytes * bool); mem_seq : Z }.

Definition mem_write (l : list (Z * bytes * bytes)) (d : mem_base) : mem_base :=
  MkMemBase (foldl (fun m p => <[p.1 := (p.2, true)]> m) (mem_keys d) l)
    (mem_seq d + Z.of_nat (length l)).

Definition mem_basedb : BaseDB := {|
  base := mem_base;
  batch := list (Z * bytes * bytes);
  batch_empty := [];
  PutBlobIndex := fun cf k v b => (OK, b ++ [(cf, k, v)]);
  GetDataSize := fun b => Z.of_nat (length b);
  base_GetImpl := fun d cf k =>
    match mem_keys d !! (cf, k) with Some e => Ok e | None => Err (NotFound "") end;
  base_Write := fun b d => (OK, mem_write b d);
  base_Put := fun cf k v d =>
    (OK, MkMemBase (<[(cf, k) := (v, false)]> (mem_keys d)) (mem_seq d + 1));
  GetLatestSequenceNumber := mem_seq;
  IsDropped := fun _ _ => false;
  batch_puts := fun b => b
|}.

Lemma mem_write_lookup (l : list (Z * bytes * bytes)) (m : gmap (Z * bytes) (bytes * bool)) cf k :
  foldl (fun (m : gmap (Z * bytes) (bytes * bool)) p => <[p.1 := (p.2, true)]> m) m l !! (cf, k) =
  match puts_of l cf k with Some v => Some (v, true) | None => m !! (cf, k) end.
Proof.
  revert l. refine (rev_ind _ _ _); [done|]. intros [[cf' k'] v] l IH.
  rewrite foldl_snoc. unfold puts_of in *. rewrite filter_app, filter_cons, filter_nil. cbn [fst snd].
  destruct (decide ((cf', k') = (cf, k))) as [Heq|Hne].
  - rewrite last_snoc, Heq, lookup_insert_eq. done.
  - rewrite app_nil_r, lookup_insert_ne by done. exact IH.
Qed.

#[export] Instance mem_basedb_ok : BaseDBOk mem_basedb.
Proof.
  split.
  - done.
  - by intros cf k v b b' [= <-].
  - intros b d d' cf k [= <-]. cbn [base_GetImpl mem_basedb mem_write mem_keys batch_puts].
    rewrite mem_write_lookup. by destruct (puts_of b cf k).
  - intros d d' cf k v cf' k' [= <-]. cbn [base_GetImpl mem_basedb mem_keys]. rewrite lookup_insert.
    destruct (decide ((cf', k') = (cf, k))) as [Heq|Hne]; [by rewrite decide_True|by rewrite decide_False].
  - intros d cf k. cbn. by destruct (mem_keys d !! (cf, k)).
  - intros d cf k s. cbn. destruct (mem_keys d !! (cf, k)); [done|]. by intros [= <-].
  - done.
Qed.
