(* ===== verification/BlobFileBuilder.v ===== *)
(** * Building blob files (src/blob_file_builder.h, src/blob_file_builder.cc) *)

From S2P Require Import Prelude Rocks Options Stats Util BlobFormat Env.

Section builder.
Context `{Coding} `{Compressors} `{Env}.

(** [bytes_written] is the global counter of the same name. *)
Record BlobFileBuilder := MkBlobFileBuilder {
  bfb_cf_options : TitanCFOptions;
  bfb_file : writer;
  bfb_status : Status;
  num_entries : Z;
  bfb_smallest_key : bytes;
  bfb_largest_key : bytes;
  bytes_written : Z
}.

Definition BlobFileBuilder_new (cf_options : TitanCFOptions) (file : writer) (written : Z)
    : BlobFileBuilder :=
  let '(s, file) := w_Append (BlobFileHeader_EncodeTo kVersion1) file in
  MkBlobFileBuilder cf_options file s 0 [] [] written.

(** [Add(record, handle)]: [handle] is left as it was when the builder has
    already failed. *)
Definition BlobFileBuilder_Add (record : BlobRecord) (handle : BlobHandle) (b : BlobFileBuilder)
    : BlobHandle * BlobFileBuilder :=
  if negb (status_ok (bfb_status b)) then (handle, b)
  else
    let cmp := comparator (cf_base (bfb_cf_options b)) in
    let enc := EncodeRecord (blob_file_compression (bfb_cf_options b)) record in
    let handle := MkBlobHandle (w_GetFileSize (bfb_file b)) (GetEncodedSize enc) in
    let '(s, file) := w_Append (enc.1 ++ enc.2) (bfb_file b) in
    if status_ok s then
      let key := record_key record in
      let first := bool_decide (bfb_smallest_key b = []) in
      let smallest := if first then key else bfb_smallest_key b in
      let largest := if first then key else bfb_largest_key b in
      let '(smallest, largest) :=
        if cmp key largest >? 0 then (smallest, key)
        else if cmp key smallest <? 0 then (key, largest)
        else (smallest, largest) in
      (handle, MkBlobFileBuilder (bfb_cf_options b) file s (num_entries b +u64 1) smallest largest
                 (bytes_written b +u64 handle_size handle))
    else
      (handle, MkBlobFileBuilder (bfb_cf_options b) file s (num_entries b) (bfb_smallest_key b)
                 (bfb_largest_key b) (bytes_written b)).

Definition BlobFileBuilder_Finish (b : BlobFileBuilder) : Status * BlobFileBuilder :=
  if negb (status_ok (bfb_status b)) then (bfb_status b, b)
  else
    let set_file s file :=
      MkBlobFileBuilder (bfb_cf_options b) file s (num_entries b) (bfb_smallest_key b)
        (bfb_largest_key b) (bytes_written b) in
    let '(s, file) := w_Append (BlobFileFooter_EncodeTo NullBlockHandle) (bfb_file b) in
    if status_ok s then
      let '(s, file) := w_Flush file in (s, set_file s file)
    else (s, set_file s file).

(** The calls a client makes: one [Add] per record, each with a fresh handle. *)
Fixpoint BlobFileBuilder_AddAll (records : list BlobRecord) (b : BlobFileBuilder)
    : list BlobHandle * BlobFileBuilder :=
  match records with
  | [] => ([], b)
  | r :: records =>
      let '(h, b) := BlobFileBuilder_Add r BlobHandle_default b in
      let '(hs, b) := BlobFileBuilder_AddAll records b in
      (h :: hs, b)
  end.

(** ** The file that is built *)

Definition record_bytes (t : Z) (r : BlobRecord) : bytes :=
  (EncodeRecord t r).1 ++ (EncodeRecord t r).2.

Definition records_bytes (t : Z) (rs : list BlobRecord) : bytes := concat (record_bytes t <$> rs).

(** Where consecutive records starting at [off] lie. *)
Fixpoint layout (t : Z) (off : Z) (rs : list BlobRecord) : list BlobHandle :=
  match rs with
  | [] => []
  | r :: rs =>
      let n := Z.of_nat (length (record_bytes t r)) in
      MkBlobHandle off n :: layout t (off + n) rs
  end.

Definition blob_file_bytes (t : Z) (rs : list BlobRecord) : bytes :=
  BlobFileHeader_EncodeTo kVersion1 ++ records_bytes t rs ++ BlobFileFooter_EncodeTo NullBlockHandle.
End builder.

Section lemmas.
Context `{Coding} `{!CodingOk _} `{Compressors} `{E : Env} `{!EnvOk E}.

Lemma record_bytes_length t r :
  Z.of_nat (length (record_bytes t r)) = GetEncodedSize (EncodeRecord t r).
Proof.
  unfold record_bytes, GetEncodedSize. rewrite length_app, Nat2Z.inj_add.
  by rewrite EncodeRecord_header_length.
Qed.

Lemma records_bytes_cons t r rs : records_bytes t (r :: rs) = record_bytes t r ++ records_bytes t rs.
Proof. done. Qed.

Lemma records_bytes_app t rs rs' :
  records_bytes t (rs ++ rs') = records_bytes t rs ++ records_bytes t rs'.
Proof. unfold records_bytes. by rewrite fmap_app, concat_app. Qed.

Lemma length_layout t off rs : length (layout t off rs) = length rs.
Proof. revert off; induction rs as [|r rs IH]; intros off; simpl; [done|]. by rewrite IH. Qed.

Lemma layout_app t off rs rs' :
  layout t off (rs ++ rs') =
  layout t off rs ++ layout t (off + Z.of_nat (length (records_bytes t rs))) rs'.
Proof.
  revert off; induction rs as [|r rs IH]; intros off; simpl.
  - by rewrite Z.add_0_r.
  - rewrite IH, records_bytes_cons, length_app, Nat2Z.inj_add. by rewrite Z.add_assoc.
Qed.

(** The [i]th handle covers the [i]th record. *)
Lemma layout_lookup t off rs i r :
  rs !! i = Some r ->
  layout t off rs !! i =
    Some (MkBlobHandle (off + Z.of_nat (length (records_bytes t (take i rs))))
            (Z.of_nat (length (record_bytes t r)))).
Proof.
  intros Hr. rewrite <- (take_drop_middle rs i r Hr) at 1.
  rewrite layout_app, lookup_app_r by (rewrite length_layout, length_take; lia).
  assert (i < length rs)%nat by (by eapply lookup_lt_Some).
  by rewrite length_layout, length_take, Nat.min_l, Nat.sub_diag by lia.
Qed.

Lemma record_bytes_pos t r : 0 < Z.of_nat (length (record_bytes t r)).
Proof. rewrite record_bytes_length. unfold GetEncodedSize, kRecordHeaderSize. lia. Qed.

Lemma layout_offset_ge t off rs i h : layout t off rs !! i = Some h -> off <= handle_offset h.
Proof.
  revert off i; induction rs as [|r rs IH]; intros off [|i] Hi; simpl in Hi; try done.
  - by simplify_eq.
  - apply IH in Hi. pose proof (record_bytes_pos t r). lia.
Qed.

Lemma layout_offset_inj t off rs i j h h' :
  layout t off rs !! i = Some h -> layout t off rs !! j = Some h' ->
  handle_offset h = handle_offset h' -> i = j.
Proof.
  revert off i j; induction rs as [|r rs IH]; intros off i j Hi Hj Heq; [done|].
  pose proof (record_bytes_pos t r) as Hpos.
  destruct i as [|i], j as [|j]; simpl in Hi, Hj; [done| | |f_equal; by eapply IH].
  - apply layout_offset_ge in Hj. simplify_eq. simpl in *. lia.
  - apply layout_offset_ge in Hi. simplify_eq. simpl in *. lia.
Qed.

Lemma blob_file_bytes_middle t rs i r :
  rs !! i = Some r ->
  blob_file_bytes t rs =
    (BlobFileHeader_EncodeTo kVersion1 ++ records_bytes t (take i rs)) ++ record_bytes t r
    ++ (records_bytes t (drop (S i) rs) ++ BlobFileFooter_EncodeTo NullBlockHandle).
Proof.
  intros Hr. unfold blob_file_bytes. rewrite <- (take_drop_middle rs i r Hr) at 1.
  by rewrite records_bytes_app, records_bytes_cons, <- !app_assoc.
Qed.

Lemma blob_file_bytes_length t rs :
  Z.of_nat (length (blob_file_bytes t rs)) =
  kBlobHeaderSize + Z.of_nat (length (records_bytes t rs)) + kBlobFooterSize.
Proof.
  unfold blob_file_bytes. rewrite !length_app, !Nat2Z.inj_add.
  rewrite BlobFileHeader_length, BlobFileFooter_length. lia.
Qed.

(** The header and the footer of the file, where a reader looks for them. *)
Lemma pread_header t rs :
  pread (blob_file_bytes t rs) 0 kBlobHeaderSize = BlobFileHeader_EncodeTo kVersion1.
Proof. apply (pread_app []); [done|]. by rewrite BlobFileHeader_length. Qed.

Lemma pread_footer t rs size :
  size = Z.of_nat (length (blob_file_bytes t rs)) ->
  pread (blob_file_bytes t rs) (size - kBlobFooterSize) kBlobFooterSize
  = BlobFileFooter_EncodeTo NullBlockHandle.
Proof.
  intros ->. rewrite blob_file_bytes_length. unfold blob_file_bytes.
  set (footer := BlobFileFooter_EncodeTo NullBlockHandle).
  assert (Hf : footer = footer ++ []) by by rewrite app_nil_r.
  rewrite Hf at 1. rewrite app_assoc. apply pread_app.
  - rewrite length_app, Nat2Z.inj_add, BlobFileHeader_length. lia.
  - unfold footer. by rewrite BlobFileFooter_length.
Qed.

Lemma decode_header v :
  BlobFileHeader_DecodeFrom v (BlobFileHeader_EncodeTo kVersion1) = Ok (kVersion1, []).
Proof. rewrite <- (app_nil_r (BlobFileHeader_EncodeTo _)). apply BlobFileHeader_roundtrip. Qed.

Lemma decode_footer h :
  BlobFileFooter_DecodeFrom h (BlobFileFooter_EncodeTo NullBlockHandle) = Ok (NullBlockHandle, []).
Proof.
  rewrite <- (app_nil_r (BlobFileFooter_EncodeTo _)).
  apply BlobFileFooter_roundtrip; unfold is_u64, two64; lia.
Qed.

Lemma footer_handle_after :
  BlobFileFooter_handle_after (BlobFileFooter_EncodeTo NullBlockHandle) = NullBlockHandle.
Proof.
  unfold BlobFileFooter_handle_after, BlobFileFooter_EncodeTo.
  rewrite resize_grow by apply (block_handle_length NullBlockHandle). rewrite <- !app_assoc.
  unfold NullBlockHandle. by rewrite block_handle_roundtrip by (unfold is_u64, two64; lia).
Qed.

Lemma Add_failed r h b : bfb_status b <> OK -> BlobFileBuilder_Add r h b = (h, b).
Proof. unfold BlobFileBuilder_Add. by destruct (bfb_status b). Qed.

Lemma AddAll_failed rs b : bfb_status b <> OK -> (BlobFileBuilder_AddAll rs b).2 = b.
Proof.
  intros Hs. induction rs as [|r rs IH]; [done|]. simpl. rewrite Add_failed by done.
  by destruct (BlobFileBuilder_AddAll rs b).
Qed.

(** What a successful [Add] does to the file and the handle. *)
Lemma Add_ok r h b h' b' :
  BlobFileBuilder_Add r h b = (h', b') -> bfb_status b' = OK ->
  bfb_status b = OK /\ bfb_cf_options b' = bfb_cf_options b /\
  h' = MkBlobHandle (Z.of_nat (length (w_contents (bfb_file b))))
         (Z.of_nat (length (record_bytes (blob_file_compression (bfb_cf_options b)) r))) /\
  w_contents (bfb_file b') =
    w_contents (bfb_file b) ++ record_bytes (blob_file_compression (bfb_cf_options b)) r.
Proof.
  intros HA Hok. unfold BlobFileBuilder_Add in HA.
  destruct (bfb_status b) eqn:Hb; cbn [negb status_ok] in HA; try (simplify_eq; congruence).
  destruct (w_Append _ (bfb_file b)) as [s file] eqn:Happ.
  destruct s; cbn [status_ok] in HA; try (simplify_eq; simpl in Hok; done).
  apply append_contents in Happ. repeat case_match; simplify_eq; simpl;
    rewrite file_size_contents, record_bytes_length; done.
Qed.

Lemma AddAll_ok rs b hs b' :
  BlobFileBuilder_AddAll rs b = (hs, b') -> bfb_status b' = OK ->
  let t := blob_file_compression (bfb_cf_options b) in
  bfb_cf_options b' = bfb_cf_options b /\
  hs = layout t (Z.of_nat (length (w_contents (bfb_file b)))) rs /\
  w_contents (bfb_file b') = w_contents (bfb_file b) ++ records_bytes t rs.
Proof.
  revert b hs; induction rs as [|r rs IH]; intros b hs HA Hok; simpl in HA.
  - simplify_eq. split_and!; [done|done|]. by rewrite app_nil_r.
  - destruct (BlobFileBuilder_Add r BlobHandle_default b) as [h b1] eqn:H1.
    destruct (BlobFileBuilder_AddAll rs b1) as [hs1 b2] eqn:H2. simplify_eq.
    assert (Hb1 : bfb_status b1 = OK).
    { destruct (decide (bfb_status b1 = OK)) as [|Hne]; [done|].
      pose proof (AddAll_failed rs b1 Hne) as HF. rewrite H2 in HF. simpl in HF. congruence. }
    destruct (Add_ok _ _ _ _ _ H1 Hb1) as (_ & Hcf & -> & Hc).
    destruct (IH _ _ H2 Hok) as (Hcf' & -> & Hc'). rewrite Hcf, Hc in *.
    split_and!; [congruence| |].
    + simpl. f_equal. rewrite length_app, Nat2Z.inj_add. done.
    + rewrite Hc', records_bytes_cons. by rewrite <- app_assoc.
Qed.

Lemma Finish_ok b b' :
  BlobFileBuilder_Finish b = (OK, b') ->
  bfb_status b = OK /\
  w_contents (bfb_file b') = w_contents (bfb_file b) ++ BlobFileFooter_EncodeTo NullBlockHandle.
Proof.
  unfold BlobFileBuilder_Finish.
  destruct (bfb_status b) eqn:Hb; cbn [negb status_ok]; try (intros [=]; congruence).
  destruct (w_Append _ _) as [[] f1] eqn:HA; cbn [status_ok]; try (intros [=]; done).
  destruct (w_Flush f1) as [s2 f2] eqn:HF. intros [= -> <-]. simpl.
  apply append_contents in HA. apply flush_contents in HF. split; [done|congruence].
Qed.

(** The whole life of a builder on an empty file. *)
Lemma build_ok cf file written rs hs b b' :
  w_contents file = [] ->
  BlobFileBuilder_AddAll rs (BlobFileBuilder_new cf file written) = (hs, b) ->
  BlobFileBuilder_Finish b = (OK, b') ->
  w_contents (bfb_file b') = blob_file_bytes (blob_file_compression cf) rs /\
  hs = layout (blob_file_compression cf) kBlobHeaderSize rs.
Proof.
  intros Hempty HA HF. destruct (Finish_ok _ _ HF) as [Hb Hc].
  unfold BlobFileBuilder_new in HA.
  destruct (w_Append _ file) as [s f1] eqn:H1.
  assert (Hs : s = OK).
  { destruct (decide (s = OK)) as [|Hne]; [done|].
    match type of HA with BlobFileBuilder_AddAll _ ?b0 = _ =>
      pose proof (AddAll_failed rs b0 Hne) as HF0 end.
    rewrite HA in HF0. simpl in HF0. subst b. done. }
  subst s. destruct (AddAll_ok _ _ _ _ HA Hb) as (_ & -> & Hc'). simpl in *.
  apply append_contents in H1. rewrite Hempty in H1. simpl in H1. split.
  - rewrite Hc, Hc', H1. unfold blob_file_bytes. by rewrite <- app_assoc.
  - by rewrite H1, BlobFileHeader_length.
Qed.
End lemmas.

(** ** The key range *)

Section key_range.
Context `{Coding} `{!CodingOk _} `{Compressors} `{E : Env} `{!EnvOk E}.

(** [smallest] and [largest] are keys of [keys], and bound all of them. *)
Definition key_bounds (cmp : Comparator) (keys : list bytes) (smallest largest : bytes) : Prop :=
  smallest ∈ keys /\ largest ∈ keys /\
  forall k, k ∈ keys -> cmp smallest k <= 0 /\ cmp k largest <= 0.

(** The state of the builder after the records with keys [keys]. *)
Definition range_inv (keys : list bytes) (b : BlobFileBuilder) : Prop :=
  (keys = [] /\ bfb_smallest_key b = []) \/
  key_bounds (comparator (cf_base (bfb_cf_options b))) keys (bfb_smallest_key b) (bfb_largest_key b).

Lemma key_bounds_add (cmp : Comparator) `{!ComparatorOk cmp} keys k s l :
  key_bounds cmp keys s l ->
  key_bounds cmp (keys ++ [k])
    (if cmp k l >? 0 then s else if cmp k s <? 0 then k else s)
    (if cmp k l >? 0 then k else l).
Proof.
  intros (Hs & Hl & Hall). destruct (Hall l Hl) as [Hsl _].
  pose proof (compare_swap s k) as Hsk. pose proof (compare_refl k) as Hkk.
  pose proof (compare_swap l k) as Hlk.
  assert (Hle : forall a b, cmp a b <= 0 \/ cmp b a <= 0).
  { intros a b. pose proof (compare_swap b a). lia. }
  destruct (Z.gtb_spec (cmp k l) 0) as [Hgt|Hle1].
  - split_and!; [set_solver..|]. intros k' [Hk'| ->%list_elem_of_singleton]%elem_of_app.
    + destruct (Hall k' Hk'). split; [done|]. apply (compare_trans _ l); [done|lia].
    + split; [|lia]. apply (compare_trans _ l); [done|lia].
  - destruct (Z.ltb_spec (cmp k s) 0) as [Hlt|Hge].
    + split_and!; [set_solver..|]. intros k' [Hk'| ->%list_elem_of_singleton]%elem_of_app.
      * destruct (Hall k' Hk'). split; [|done]. apply (compare_trans _ s); [lia|done].
      * split; lia.
    + split_and!; [set_solver..|]. intros k' [Hk'| ->%list_elem_of_singleton]%elem_of_app.
      * by apply Hall.
      * split; [|lia]. pose proof (compare_swap k s). lia.
Qed.

Lemma Add_range_inv r h b h' b' keys :
  ComparatorOk (comparator (cf_base (bfb_cf_options b))) ->
  record_key r <> [] -> ~ [] ∈ keys ->
  BlobFileBuilder_Add r h b = (h', b') -> bfb_status b' = OK ->
  range_inv keys b -> range_inv (keys ++ [record_key r]) b'.
Proof.
  intros Hcmp Hne Hnk HA Hok Hinv. unfold BlobFileBuilder_Add in HA.
  destruct (bfb_status b) eqn:Hb; cbn [negb status_ok] in HA; try (simplify_eq; congruence).
  destruct (w_Append _ (bfb_file b)) as [s file]. right.
  destruct s; cbn [status_ok] in HA; try (simplify_eq; simpl in Hok; done).
  destruct Hinv as [[-> Hs]|Hkb].
  - rewrite Hs in HA. rewrite bool_decide_true, (compare_refl (record_key r)) in HA by done.
    simpl in HA. simplify_eq. simpl. split_and!; [set_solver..|].
    intros k ->%list_elem_of_singleton. rewrite compare_refl. lia.
  - assert (Hsm : bfb_smallest_key b <> []) by (intros Hs; rewrite <- Hs in Hnk; by apply Hnk, Hkb).
    rewrite bool_decide_false in HA by done.
    apply (key_bounds_add _ _ (record_key r)) in Hkb.
    repeat case_match; simplify_eq; done.
Qed.

Lemma AddAll_range_inv rs b hs b' keys :
  ComparatorOk (comparator (cf_base (bfb_cf_options b))) ->
  ~ [] ∈ keys -> Forall (fun r => record_key r <> []) rs ->
  BlobFileBuilder_AddAll rs b = (hs, b') -> bfb_status b' = OK ->
  range_inv keys b -> range_inv (keys ++ (record_key <$> rs)) b'.
Proof.
  revert b hs keys; induction rs as [|r rs IH]; intros b hs keys Hcmp Hnk Hne HA Hok Hinv;
    simpl in HA.
  - simplify_eq. by rewrite app_nil_r.
  - destruct (BlobFileBuilder_Add r BlobHandle_default b) as [h b1] eqn:H1.
    destruct (BlobFileBuilder_AddAll rs b1) as [hs1 b2] eqn:H2. simplify_eq.
    assert (Hb1 : bfb_status b1 = OK).
    { destruct (decide (bfb_status b1 = OK)) as [|Hs]; [done|].
      pose proof (AddAll_failed rs b1 Hs) as HF. rewrite H2 in HF. simpl in HF. congruence. }
    inversion Hne; subst. destruct (Add_ok _ _ _ _ _ H1 Hb1) as (_ & Hcf & _ & _).
    rewrite fmap_cons, cons_middle, app_assoc.
    eapply IH; [by rewrite Hcf| |done|done|done|by eapply Add_range_inv].
    rewrite elem_of_app, list_elem_of_singleton. naive_solver.
Qed.

(** The smallest and largest key a builder reports are the bounds of the
    file: after adding any sequence of records with non-empty keys, in any
    order, with every append succeeding, both are keys of added records and
    every added key lies between them in the comparator's order. *)
Theorem builder_key_range (cf : TitanCFOptions) (file : writer) (written : Z)
    (rs : list BlobRecord) (hs : list BlobHandle) (b : BlobFileBuilder) :
  ComparatorOk (comparator (cf_base cf)) ->
  rs <> [] -> Forall (fun r => record_key r <> []) rs ->
  BlobFileBuilder_AddAll rs (BlobFileBuilder_new cf file written) = (hs, b) ->
  bfb_status b = OK ->
  key_bounds (comparator (cf_base cf)) (record_key <$> rs) (bfb_smallest_key b) (bfb_largest_key b).
Proof.
  intros Hcmp Hrs Hne HA Hok. destruct (AddAll_ok _ _ _ _ HA Hok) as [Hcf _].
  unfold BlobFileBuilder_new in *. destruct (w_Append _ file) as [s f1].
  eapply (AddAll_range_inv rs _ hs b []) in HA; [|done|set_solver|done|done|by left].
  destruct HA as [[Hnil _]|HA]; [by apply fmap_nil_inv in Hnil|]. simpl in Hcf. by rewrite Hcf in HA.
Qed.
End key_range.

Definition example_cf_options : TitanCFOptions :=
  TitanCFOptions_of (MkColumnFamilyOptions bytewise_compare 7).

Definition example_records : list BlobRecord :=
  [MkBlobRecord [Byte.x6b; Byte.x32] [Byte.x76; Byte.x61] false;
   MkBlobRecord [Byte.x6b; Byte.x31] [Byte.x76; Byte.x62; Byte.x63] false;
   MkBlobRecord [Byte.x6b; Byte.x33] [] false].

#[local] Existing Instances leb128_coding rle_compressors mem_env.

Definition example_file : @writer mem_env := MkMemWriter [] 1000.

Definition example_build : list BlobHandle * BlobFileBuilder :=
  BlobFileBuilder_AddAll example_records
    (BlobFileBuilder_new example_cf_options example_file 0).

Lemma builder_key_range_witness :
  key_bounds bytewise_compare (record_key <$> example_records)
    [Byte.x6b; Byte.x31] [Byte.x6b; Byte.x33].
Proof.
  apply (builder_key_range example_cf_options example_file 0 example_records
           example_build.1 example_build.2).
  - apply bytewise_compare_ok.
  - discriminate.
  - repeat constructor; discriminate.
  - reflexivity.
  - reflexivity.
Defined.
