(* ===== verification/BlobFileReader.v ===== *)
(** * Reading blob files

    src/blob_file_reader.h, src/blob_file_reader.cc (reader and prefetcher) and
    src/blob_file_cache.h, src/blob_file_cache.cc (the cache of open readers).
    A call that can fail returns its result beside the state of the caches,
    which it may have changed either way. *)

From S2P Require Import Prelude Rocks Options Stats Util BlobFormat Env BlobFileBuilder.

Section reader.
Context `{Coding} `{Compressors} `{Env} `{Cache bytes}.

Record BlobFileReader := MkBlobFileReader {
  reader_options : TitanCFOptions;
  reader_file : rafile;
  cache_prefix : bytes;
  reader_footer : Z * Z
}.

Definition NewBlobFileReader (w : fs) (file_number : Z) (db_options : TitanDBOptions)
    : result rafile :=
  NewRandomAccessFile w (BlobFileName (dirname db_options) file_number).

Definition GenerateCachePrefix (file : rafile) (cc : cache bytes) : bytes * cache bytes :=
  match raf_GetUniqueId file with
  | [] => let '(id, cc) := cache_NewId cc in (PutVarint64 id, cc)
  | id => (id, cc)
  end.

Definition EncodeBlobCache (prefix : bytes) (offset : Z) : bytes := prefix ++ PutVarint64 offset.

(** The constructor. *)
Definition BlobFileReader_new (options : TitanCFOptions) (file : rafile) (bc : cache bytes)
    : BlobFileReader * cache bytes :=
  if blob_cache options then
    let '(prefix, bc) := GenerateCachePrefix file bc in
    (MkBlobFileReader options file prefix NullBlockHandle, bc)
  else (MkBlobFileReader options file [] NullBlockHandle, bc).

Definition BlobFileReader_Open (w : fs) (options : TitanCFOptions) (file : rafile) (size : Z)
    (bc : cache bytes) : result BlobFileReader * cache bytes :=
  if size <? kBlobFooterSize then (Err (Corruption "file is too short to be a blob file"), bc)
  else
    match (let* buffer := raf_Read w file (size - kBlobFooterSize) kBlobFooterSize in
           DecodeInto BlobFileFooter_DecodeFrom buffer NullBlockHandle) with
    | Ok footer =>
        let '(reader, bc) := BlobFileReader_new options file bc in
        (Ok (MkBlobFileReader (reader_options reader) (reader_file reader) (cache_prefix reader)
               footer), bc)
    | Err s => (Err s, bc)
    | Fault => (Fault, bc)
    end.

(** [ReadRecord]: the record and the buffer its slices point into. *)
Definition BlobFileReader_ReadRecord (w : fs) (r : BlobFileReader) (handle : BlobHandle)
    (record : BlobRecord) : result (BlobRecord * bytes) :=
  let* blob := raf_Read w (reader_file r) (handle_offset handle) (handle_size handle) in
  if negb (handle_size handle =? Z.of_nat (length blob)) then
    Err (Corruption ("ReadRecord actual size: " +:+ pretty (Z.of_nat (length blob))
                     +:+ " not equal to blob size " +:+ pretty (handle_size handle)))
  else
    let* (decoder, blob) := BlobDecoder_DecodeHeader blob in
    let* (record, _) := BlobDecoder_DecodeRecord decoder blob record in
    let* buffer :=
      if dec_compression decoder =? kNoCompression then Ok blob
      else Uncompress (dec_compression decoder) (take (Z.to_nat (record_size decoder)) blob) in
    Ok (record, buffer).

(** [Get]: the record and the pinned buffer. *)
Definition BlobFileReader_Get (w : fs) (r : BlobFileReader) (handle : BlobHandle)
    (record : BlobRecord) (bc : cache bytes) : result (BlobRecord * bytes) * cache bytes :=
  let use_cache := blob_cache (reader_options r) in
  let key := EncodeBlobCache (cache_prefix r) (handle_offset handle) in
  let '(found, bc) := if use_cache then cache_Lookup key bc else (None, bc) in
  match found with
  | Some blob =>
      (let* record := DecodeInto BlobRecord_DecodeFrom blob record in Ok (record, blob), bc)
  | None =>
      match BlobFileReader_ReadRecord w r handle record with
      | Ok (record, blob) =>
          (Ok (record, blob), if use_cache then cache_Insert key blob bc else bc)
      | Err s => (Err s, bc)
      | Fault => (Fault, bc)
      end
  end.

(** ** The prefetcher *)

Definition kMaxReadaheadSize : Z := Z.shiftl 64 10.

Record BlobFilePrefetcher := MkBlobFilePrefetcher {
  pf_reader : BlobFileReader;
  last_offset : Z;
  readahead_size : Z;
  readahead_limit : Z;
  pf_only_value : bool
}.

Definition BlobFilePrefetcher_new (reader : BlobFileReader) (ov : bool) : BlobFilePrefetcher :=
  MkBlobFilePrefetcher reader 0 0 0 ov.

(** [Prefetch(handle)]: the range handed to the file's [Prefetch]. *)
Definition BlobFilePrefetcher_Prefetch (handle : BlobHandle) : Z * Z :=
  (handle_offset handle, handle_size handle).

Definition set_only_value (b : bool) (r : BlobRecord) : BlobRecord :=
  MkBlobRecord (record_key r) (record_value r) b.

Definition BlobFilePrefetcher_PointGet (w : fs) (p : BlobFilePrefetcher) (handle : BlobHandle)
    (record : BlobRecord) (bc : cache bytes) : result (BlobRecord * bytes) * cache bytes :=
  BlobFileReader_Get w (pf_reader p) handle (set_only_value (pf_only_value p) record) bc.

(** The readahead decision of [Get]: the new state and the range to prefetch. *)
Definition BlobFilePrefetcher_readahead (p : BlobFilePrefetcher) (handle : BlobHandle)
    : BlobFilePrefetcher * option (Z * Z) :=
  let stop := handle_offset handle +u64 handle_size handle in
  if handle_offset handle =? last_offset p then
    if stop >? readahead_limit p then
      let size := Z.max (handle_size handle) (readahead_size p) in
      (MkBlobFilePrefetcher (pf_reader p) stop (Z.min kMaxReadaheadSize (wrap64 (size * 2)))
         (handle_offset handle +u64 size) (pf_only_value p),
       Some (handle_offset handle, size))
    else
      (MkBlobFilePrefetcher (pf_reader p) stop (readahead_size p) (readahead_limit p)
         (pf_only_value p), None)
  else (MkBlobFilePrefetcher (pf_reader p) stop 0 0 (pf_only_value p), None).

Definition BlobFilePrefetcher_Get (w : fs) (p : BlobFilePrefetcher) (handle : BlobHandle)
    (record : BlobRecord) (bc : cache bytes)
    : result (BlobRecord * bytes) * cache bytes * BlobFilePrefetcher * option (Z * Z) :=
  let record := set_only_value (pf_only_value p) record in
  let '(p', prefetch) := BlobFilePrefetcher_readahead p handle in
  let '(s, bc) := BlobFileReader_Get w (pf_reader p) handle record bc in
  (s, bc, p', prefetch).
End reader.

(** ** The cache of open files *)

Section file_cache.
Context `{Coding} `{Compressors} `{Env} `{BC : Cache bytes} `{FC : !Cache BlobFileReader}.

(** The process-wide caches: open readers by file number, and blobs. *)
Record Caches := MkCaches { file_cache : cache BlobFileReader; blobs : cache bytes }.

(** The key is the bytes of the number in memory (a little-endian host). *)
Definition EncodeFileNumber (number : Z) : bytes := PutFixed64 number.

Definition BlobFileCache_FindFile (w : fs) (db : TitanDBOptions) (cf : TitanCFOptions)
    (number size : Z) (c : Caches) : result BlobFileReader * Caches :=
  let key := EncodeFileNumber number in
  let '(found, fc) := cache_Lookup key (file_cache c) in
  match found with
  | Some reader => (Ok reader, MkCaches fc (blobs c))
  | None =>
      match NewRandomAccessFile w (BlobFileName (dirname db) number) with
      | Ok file =>
          let '(s, bc) := BlobFileReader_Open w cf file size (blobs c) in
          match s with
          | Ok reader => (Ok reader, MkCaches (cache_Insert key reader fc) bc)
          | _ => (s, MkCaches fc bc)
          end
      | Err s => (Err s, MkCaches fc (blobs c))
      | Fault => (Fault, MkCaches fc (blobs c))
      end
  end.

Definition BlobFileCache_Get (w : fs) (db : TitanDBOptions) (cf : TitanCFOptions)
    (number size : Z) (handle : BlobHandle) (record : BlobRecord) (c : Caches)
    : result (BlobRecord * bytes) * Caches :=
  let '(s, c) := BlobFileCache_FindFile w db cf number size c in
  match s with
  | Ok reader =>
      let '(s, bc) := BlobFileReader_Get w reader handle record (blobs c) in
      (s, MkCaches (file_cache c) bc)
  | Err s => (Err s, c)
  | Fault => (Fault, c)
  end.

Definition BlobFileCache_NewPrefetcher (w : fs) (db : TitanDBOptions) (cf : TitanCFOptions)
    (number size : Z) (sorted_blob : bool) (c : Caches) : result BlobFilePrefetcher * Caches :=
  let '(s, c) := BlobFileCache_FindFile w db cf number size c in
  (let* reader := s in Ok (BlobFilePrefetcher_new reader sorted_blob), c).

Definition BlobFileCache_Evict (number : Z) (c : Caches) : Caches :=
  MkCaches (cache_Erase (EncodeFileNumber number) (file_cache c)) (blobs c).
End file_cache.

(** ** Reading back what was built *)

(** [Lookup(offset)] in the blob cache can only give the record at [offset] of
    the file with records [rs]. *)
Definition blobs_coherent `{Coding} `{Compressors} `{Cache bytes} (prefix : bytes) (t : Z)
    (rs : list BlobRecord) (bc : cache bytes) : Prop :=
  forall i r h blob, rs !! i = Some r -> layout t kBlobHeaderSize rs !! i = Some h ->
    cache_has bc (EncodeBlobCache prefix (handle_offset h)) blob -> blob = BlobRecord_EncodeTo r.

(** The record a successful read fills in. *)
Definition filled (r record : BlobRecord) : BlobRecord :=
  MkBlobRecord (if only_value r then record_key record else record_key r) (record_value r)
    (only_value r).

Section reader_lemmas.
Context `{Coding} `{!CodingOk _} `{Compressors} `{!CompressorsOk _} `{E : Env} `{!EnvOk E}
        `{BC : Cache bytes} `{!CacheOk BC}.

Lemma EncodeBlobCache_inj prefix o o' :
  is_u64 o -> is_u64 o' -> EncodeBlobCache prefix o = EncodeBlobCache prefix o' -> o = o'.
Proof.
  unfold EncodeBlobCache. intros Ho Ho' Heq%app_inv_head.
  pose proof (varint64_roundtrip o [] Ho) as H1. pose proof (varint64_roundtrip o' [] Ho') as H2.
  rewrite Heq in H1. congruence.
Qed.


Lemma layout_offset_u64 t rs i h :
  layout t kBlobHeaderSize rs !! i = Some h -> Z.of_nat (length (blob_file_bytes t rs)) < two64 ->
  is_u64 (handle_offset h).
Proof.
  intros Hh. rewrite blob_file_bytes_length. intros Hlen.
  assert (is_Some (rs !! i)) as [r Hr].
  { apply lookup_lt_is_Some. rewrite <- (length_layout t kBlobHeaderSize).
    by apply lookup_lt_is_Some. }
  rewrite (layout_lookup _ _ _ _ _ Hr) in Hh. simplify_eq. simpl.
  rewrite <- (take_drop_middle rs i r Hr), records_bytes_app, length_app, Nat2Z.inj_add in Hlen.
  unfold is_u64, kBlobHeaderSize, kBlobFooterSize, kBlockHandleMaxEncodedLength in *. lia.
Qed.

(** The uncached read. *)
Lemma ReadRecord_ok w rd t rs i r h record :
  readable w (reader_file rd) (blob_file_bytes t rs) ->
  rs !! i = Some r -> layout t kBlobHeaderSize rs !! i = Some h ->
  record_wf r -> 0 <= t < 256 -> only_value record = only_value r ->
  BlobFileReader_ReadRecord w rd h record = Ok (filled r record, BlobRecord_EncodeTo r).
Proof.
  intros Hread Hr Hh Hwf Ht Hov. rewrite (layout_lookup _ _ _ _ _ Hr) in Hh. simplify_eq.
  unfold BlobFileReader_ReadRecord. cbn [handle_offset handle_size].
  rewrite Hread by (unfold kBlobHeaderSize; lia).
  rewrite (blob_file_bytes_middle _ _ _ _ Hr), pread_app; [|rewrite length_app, Nat2Z.inj_add,
    BlobFileHeader_length; lia|done].
  cbn [result_bind]. rewrite Z.eqb_refl. cbn [negb].
  destruct (DecodeHeader_EncodeRecord t r Hwf Ht) as (dec & Hdec & Hsz & Hbuf).
  unfold record_bytes. rewrite Hdec. cbn [result_bind].
  pose proof (DecodeRecord_EncodeRecord t r record [] dec Hwf Ht Hov Hdec) as Hrt.
  rewrite app_nil_r in Hrt. rewrite Hrt.
  cbn [result_bind]. rewrite Hsz, Nat2Z.id, firstn_all, Hbuf. done.
Qed.

(** A read through the cache gives the same, and keeps the cache coherent. *)
Lemma Get_ok w rd t rs i r h record bc :
  readable w (reader_file rd) (blob_file_bytes t rs) ->
  Z.of_nat (length (blob_file_bytes t rs)) < two64 ->
  rs !! i = Some r -> layout t kBlobHeaderSize rs !! i = Some h ->
  record_wf r -> 0 <= t < 256 -> only_value record = only_value r ->
  blobs_coherent (cache_prefix rd) t rs bc ->
  exists bc', BlobFileReader_Get w rd h record bc = (Ok (filled r record, BlobRecord_EncodeTo r), bc')
    /\ blobs_coherent (cache_prefix rd) t rs bc'.
Proof.
  intros Hread Hlen Hr Hh Hwf Ht Hov Hcoh. unfold BlobFileReader_Get.
  rewrite (ReadRecord_ok w rd t rs i r h record) by done.
  destruct (blob_cache (reader_options rd)); [|by eexists].
  destruct (cache_Lookup _ bc) as [[blob|] bc1] eqn:HL.
  - assert (blob = BlobRecord_EncodeTo r) as ->.
    { eapply Hcoh; [done|done|]. apply lookup_has. by rewrite HL. }
    rewrite BlobRecord_roundtrip by done. cbn [result_bind]. eexists. split; [done|].
    intros j r' h' blob Hj Hh' Hhas. eapply Hcoh; [done|done|].
    eapply has_lookup. by rewrite HL.
  - eexists. split; [done|]. intros j r' h' blob Hj Hh' [[Hk ->]|[_ Hhas]]%has_insert.
    + apply EncodeBlobCache_inj in Hk; [|by eapply layout_offset_u64..].
      assert (j = i) as -> by by eapply layout_offset_inj. congruence.
    + eapply Hcoh; [done|done|]. eapply has_lookup. by rewrite HL.
Qed.

Lemma Open_ok w options file t rs bc :
  readable w file (blob_file_bytes t rs) ->
  exists rd bc', BlobFileReader_Open w options file (Z.of_nat (length (blob_file_bytes t rs))) bc
                 = (Ok rd, bc')
    /\ reader_file rd = file /\ reader_options rd = options
    /\ (forall k v, cache_has bc' k v -> cache_has bc k v).
Proof.
  intros Hread. unfold BlobFileReader_Open. pose proof (blob_file_bytes_length t rs) as HL.
  rewrite (proj2 (Z.ltb_ge _ _)) by (unfold kBlobHeaderSize in HL; lia).
  rewrite Hread by (unfold kBlobHeaderSize, kBlobFooterSize, kBlockHandleMaxEncodedLength in *; lia).
  rewrite pread_footer by done. cbn [result_bind]. unfold DecodeInto. rewrite decode_footer.
  cbn [result_bind]. unfold BlobFileReader_new, GenerateCachePrefix.
  destruct (blob_cache options); [|by eexists _, _].
  destruct (raf_GetUniqueId file); [|by eexists _, _].
  destruct (cache_NewId bc) as [id bc'] eqn:HN.
  eexists _, _. split_and!; [done|done|done|]. intros k v Hk.
  apply has_new_id. by rewrite HN.
Qed.
End reader_lemmas.

Section properties.
Context `{Coding} `{!CodingOk _} `{Compressors} `{!CompressorsOk _} `{E : Env} `{!EnvOk E}
        `{BC : Cache bytes} `{!CacheOk BC}.

(** C9: What a builder writes can be read back. After adding any records and
    finishing successfully on an empty file, a reader opens on the resulting
    bytes, and for every record a [Get] with the handle [Add] returned for it
    gives its value (and its key, unless only values are stored), whether the
    blob comes from the file or from a coherent blob cache, which stays
    coherent. *)
Theorem blob_file_read_back (cf : TitanCFOptions) (file : writer) (written : Z)
    (rs : list BlobRecord) (hs : list BlobHandle) (b b' : BlobFileBuilder)
    (w : fs) (f : rafile) (bc0 : cache bytes) :
  w_contents file = [] ->
  BlobFileBuilder_AddAll rs (BlobFileBuilder_new cf file written) = (hs, b) ->
  BlobFileBuilder_Finish b = (OK, b') ->
  readable w f (w_contents (bfb_file b')) ->
  w_GetFileSize (bfb_file b') < two64 ->
  Forall record_wf rs -> 0 <= blob_file_compression cf < 256 ->
  exists rd bc1,
    BlobFileReader_Open w cf f (w_GetFileSize (bfb_file b')) bc0 = (Ok rd, bc1) /\
    forall i r h record bc,
      rs !! i = Some r -> hs !! i = Some h -> only_value record = only_value r ->
      blobs_coherent (cache_prefix rd) (blob_file_compression cf) rs bc ->
      exists bc',
        BlobFileReader_Get w rd h record bc
          = (Ok (filled r record, BlobRecord_EncodeTo r), bc') /\
        blobs_coherent (cache_prefix rd) (blob_file_compression cf) rs bc'.
Proof.
  intros Hempty HA HF Hread Hlen Hwf Ht.
  destruct (build_ok _ _ _ _ _ _ _ Hempty HA HF) as [Hc ->].
  rewrite file_size_contents, Hc in *.
  destruct (Open_ok w cf f (blob_file_compression cf) rs bc0 Hread) as (rd & bc1 & HO & Hf & _ & _).
  exists rd, bc1. split; [done|]. intros i r h record bc Hr Hh Hov Hcoh.
  rewrite Forall_lookup in Hwf. eapply Get_ok; try done; [by rewrite Hf|by eapply Hwf].
Qed.

(** C31: The prefetcher's window. For accesses that do not wrap around, a
    sequential read is always inside the range prefetched so far, each prefetch
    starts at the read and covers it, the readahead step never exceeds
    [kMaxReadaheadSize], a non-sequential read resets the window, and the record
    returned is the reader's. *)
Theorem prefetcher_window (w : fs) (p : BlobFilePrefetcher) (h : BlobHandle)
    (record : BlobRecord) (bc : cache bytes) :
  0 <= readahead_size p <= kMaxReadaheadSize -> 0 <= handle_offset h -> 0 <= handle_size h ->
  handle_offset h + Z.max (handle_size h) kMaxReadaheadSize < two63 ->
  let '(s, bc', p', prefetch) := BlobFilePrefetcher_Get w p h record bc in
  (s, bc') = BlobFilePrefetcher_PointGet w p h record bc /\
  last_offset p' = handle_offset h + handle_size h /\
  0 <= readahead_size p' <= kMaxReadaheadSize /\
  (if handle_offset h =? last_offset p
   then last_offset p' <= readahead_limit p' /\
        match prefetch with
        | Some (o, n) => o = handle_offset h /\ handle_size h <= n /\ readahead_limit p' = o + n
        | None => readahead_limit p' = readahead_limit p
        end
   else readahead_limit p' = 0 /\ readahead_size p' = 0 /\ prefetch = None).
Proof.
  intros Hsz Ho Hn Hsum. unfold BlobFilePrefetcher_Get, BlobFilePrefetcher_PointGet.
  unfold BlobFilePrefetcher_readahead.
  assert (Hk : kMaxReadaheadSize = 65536) by done. rewrite Hk in *.
  unfold two63 in Hsum.
  rewrite !wrap64_small by (unfold is_u64, two64; lia).
  destruct (BlobFileReader_Get w (pf_reader p) h _ bc) as [s bc'].
  destruct (Z.eqb_spec (handle_offset h) (last_offset p)) as [Hseq|Hns];
    [destruct (Z.gtb_spec (handle_offset h + handle_size h) (readahead_limit p))|]; simpl;
    split_and!; try done; lia.
Qed.
End properties.

Section witnesses.
#[local] Existing Instances leb128_coding rle_compressors mem_env.
#[local] Instance blobs_map : Cache bytes := map_cache bytes.

Definition example_finish : Status * BlobFileBuilder := BlobFileBuilder_Finish example_build.2.

Definition example_fs : @fs mem_env := {[ "f"%string := mem_data (bfb_file example_finish.2) ]}.

Definition example_blobs : @cache bytes (map_cache bytes) := (0, ∅).

Lemma example_readable :
  readable (H := mem_env) example_fs "f"%string (w_contents (bfb_file example_finish.2)).
Proof. intros off n _ _. reflexivity. Qed.

Lemma example_records_wf : Forall record_wf example_records.
Proof. repeat constructor; unfold slice_wf, two32; vm_compute; congruence. Qed.

Lemma blob_file_read_back_witness :
  exists rd bc1,
    BlobFileReader_Open example_fs example_cf_options "f"%string
      (w_GetFileSize (bfb_file example_finish.2)) example_blobs = (Ok rd, bc1) /\
    forall i r h record bc,
      example_records !! i = Some r -> example_build.1 !! i = Some h ->
      only_value record = only_value r ->
      blobs_coherent (cache_prefix rd) kNoCompression example_records bc ->
      exists bc',
        BlobFileReader_Get example_fs rd h record bc
          = (Ok (filled r record, BlobRecord_EncodeTo r), bc') /\
        blobs_coherent (cache_prefix rd) kNoCompression example_records bc'.
Proof.
  apply (blob_file_read_back example_cf_options example_file 0 example_records
           example_build.1 example_build.2 example_finish.2 example_fs "f"%string example_blobs).
  - reflexivity.
  - reflexivity.
  - reflexivity.
  - exact example_readable.
  - reflexivity.
  - exact example_records_wf.
  - vm_compute. intuition congruence.
Defined.

Definition example_prefetcher : BlobFilePrefetcher :=
  BlobFilePrefetcher_new (MkBlobFileReader example_cf_options "f"%string [] NullBlockHandle) false.

Lemma prefetcher_window_witness :
  let '(s, bc', p', prefetch) :=
    BlobFilePrefetcher_Get example_fs example_prefetcher (MkBlobHandle 0 100) BlobRecord_default
      example_blobs in
  (s, bc') = BlobFilePrefetcher_PointGet example_fs example_prefetcher (MkBlobHandle 0 100)
               BlobRecord_default example_blobs /\
  last_offset p' = 100 /\ 0 <= readahead_size p' <= kMaxReadaheadSize /\
  (last_offset p' <= readahead_limit p' /\
   match prefetch with
   | Some (o, n) => o = 0 /\ 100 <= n /\ readahead_limit p' = o + n
   | None => readahead_limit p' = 0
   end).
Proof.
  refine (prefetcher_window example_fs example_prefetcher (MkBlobHandle 0 100) BlobRecord_default
            example_blobs _ _ _ _); vm_compute; intuition congruence.
Defined.
End witnesses.
