(* ===== verification/BlobFileIterator.v ===== *)
(** * Iterating over blob files

    src/blob_file_iterator.h, src/blob_file_iterator.cc: the iterator over the
    records of one blob file and the merging iterator over several. Reading
    ahead is a hint to the file and has no result. *)

From S2P Require Import Prelude Rocks Options Stats Util BlobFormat Env BlobFileBuilder.

Section iterator.
Context `{Coding} `{Compressors} `{Env}.

Definition kMinReadaheadSize : Z := Z.shiftl 4 10.
Definition kMaxReadaheadSize : Z := Z.shiftl 256 10.
Definition kDefaultPageSize : Z := 4096.

Record BlobFileIterator := MkBlobFileIterator {
  it_file : rafile;
  it_file_number : Z;
  it_file_size : Z;
  it_cf_options : TitanCFOptions;
  it_init : bool;
  end_of_blob_record : Z;
  it_status : Status;
  it_valid : bool;
  iterate_offset : Z;
  cur_blob_record : BlobRecord;
  cur_record_offset : Z;
  cur_record_size : Z;
  readahead_begin_offset : Z;
  readahead_end_offset : Z;
  it_readahead_size : Z
}.

(** The constructor; the current offset and size are set with the first record. *)
Definition BlobFileIterator_new (file : rafile) (number size : Z) (cf : TitanCFOptions)
    : BlobFileIterator := {|
  it_file := file; it_file_number := number; it_file_size := size; it_cf_options := cf;
  it_init := false; end_of_blob_record := 0; it_status := OK; it_valid := false;
  iterate_offset := 0; cur_blob_record := BlobRecord_default; cur_record_offset := 0;
  cur_record_size := 0; readahead_begin_offset := 0; readahead_end_offset := 0;
  it_readahead_size := kMinReadaheadSize |}.

Definition it_set_init (init : bool) (stop : Z) (it : BlobFileIterator) : BlobFileIterator := {|
  it_file := it_file it; it_file_number := it_file_number it; it_file_size := it_file_size it;
  it_cf_options := it_cf_options it; it_init := init; end_of_blob_record := stop;
  it_status := it_status it; it_valid := it_valid it; iterate_offset := iterate_offset it;
  cur_blob_record := cur_blob_record it; cur_record_offset := cur_record_offset it;
  cur_record_size := cur_record_size it; readahead_begin_offset := readahead_begin_offset it;
  readahead_end_offset := readahead_end_offset it; it_readahead_size := it_readahead_size it |}.

Definition it_set_status (s : Status) (valid : bool) (off : Z) (it : BlobFileIterator)
    : BlobFileIterator := {|
  it_file := it_file it; it_file_number := it_file_number it; it_file_size := it_file_size it;
  it_cf_options := it_cf_options it; it_init := it_init it;
  end_of_blob_record := end_of_blob_record it; it_status := s; it_valid := valid;
  iterate_offset := off; cur_blob_record := cur_blob_record it;
  cur_record_offset := cur_record_offset it; cur_record_size := cur_record_size it;
  readahead_begin_offset := readahead_begin_offset it;
  readahead_end_offset := readahead_end_offset it; it_readahead_size := it_readahead_size it |}.

Definition it_set_record (r : BlobRecord) (off size : Z) (it : BlobFileIterator)
    : BlobFileIterator := {|
  it_file := it_file it; it_file_number := it_file_number it; it_file_size := it_file_size it;
  it_cf_options := it_cf_options it; it_init := it_init it;
  end_of_blob_record := end_of_blob_record it; it_status := it_status it;
  it_valid := it_valid it; iterate_offset := iterate_offset it; cur_blob_record := r;
  cur_record_offset := off; cur_record_size := size;
  readahead_begin_offset := readahead_begin_offset it;
  readahead_end_offset := readahead_end_offset it; it_readahead_size := it_readahead_size it |}.

Definition it_set_readahead (start stop size : Z) (it : BlobFileIterator) : BlobFileIterator := {|
  it_file := it_file it; it_file_number := it_file_number it; it_file_size := it_file_size it;
  it_cf_options := it_cf_options it; it_init := it_init it;
  end_of_blob_record := end_of_blob_record it; it_status := it_status it;
  it_valid := it_valid it; iterate_offset := iterate_offset it;
  cur_blob_record := cur_blob_record it; cur_record_offset := cur_record_offset it;
  cur_record_size := cur_record_size it; readahead_begin_offset := start;
  readahead_end_offset := stop; it_readahead_size := size |}.

(** [status_ = s], the rest unchanged. *)
Definition it_fail (s : Status) (it : BlobFileIterator) : BlobFileIterator :=
  it_set_status s (it_valid it) (iterate_offset it) it.

(** Runs [r]; on an error the status goes into the iterator, as in
    [status_ = ...; if (!status_.ok()) return;]. *)
Definition it_try {A} (r : result A) (it : BlobFileIterator)
    (k : A -> result BlobFileIterator) : result BlobFileIterator :=
  match r with
  | Ok a => k a
  | Err s => Ok (it_fail s it)
  | Fault => Fault
  end.

(** [Init]: whether it succeeded. The status of the footer's decoding is
    stored but does not stop it. *)
Definition BlobFileIterator_Init (w : fs) (it : BlobFileIterator)
    : result (bool * BlobFileIterator) :=
  match (let* slice := raf_Read w (it_file it) 0 kBlobHeaderSize in
         BlobFileHeader_DecodeFrom kVersion1 slice) with
  | Err s => Ok (false, it_fail s it)
  | Fault => Fault
  | Ok _ =>
      match raf_Read w (it_file it) (it_file_size it -u64 kBlobFooterSize) kBlobFooterSize with
      | Err s => Ok (false, it_fail s it)
      | Fault => Fault
      | Ok slice =>
          let stop := it_file_size it -u64 kBlobFooterSize
                      -u64 (BlobFileFooter_handle_after slice).2 in
          match BlobFileFooter_DecodeFrom NullBlockHandle slice with
          | Ok _ => Ok (true, it_set_init true stop (it_fail OK it))
          | Err s => Ok (true, it_set_init true stop (it_fail s it))
          | Fault => Fault
          end
      end
  end.

Definition BlobFileIterator_GetBlobRecord (w : fs) (it : BlobFileIterator)
    : result BlobFileIterator :=
  it_try (raf_Read w (it_file it) (iterate_offset it) kRecordHeaderSize) it (fun header =>
  it_try (BlobDecoder_DecodeHeader header) it (fun '(decoder, _) =>
  it_try (raf_Read w (it_file it) (iterate_offset it +u64 kRecordHeaderSize)
            (record_size decoder)) it (fun slice =>
  it_try (BlobDecoder_DecodeRecord decoder slice (cur_blob_record it)) it (fun '(record, _) =>
  let size := kRecordHeaderSize + record_size decoder in
  Ok (it_set_status OK true (iterate_offset it +u64 size)
        (it_set_record record (iterate_offset it) size it)))))).

(** [while (end + size <= min && size < kMaxReadaheadSize) size <<= 1]. *)
Fixpoint readahead_grow (fuel : nat) (stop min size : Z) : Z :=
  match fuel with
  | O => size
  | S fuel =>
      if (stop +u64 size <=? min) && (size <? kMaxReadaheadSize)
      then readahead_grow fuel stop min (wrap64 (Z.shiftl size 1))
      else size
  end.

(** The readahead bookkeeping of [PrefetchAndGet] before the record is read. *)
Definition BlobFileIterator_readahead (it : BlobFileIterator) : BlobFileIterator :=
  let off := iterate_offset it in
  let it :=
    if (readahead_begin_offset it >? off) || (readahead_end_offset it <? off) then
      let start := off -u64 Z.land off (kDefaultPageSize - 1) in
      it_set_readahead start start kMinReadaheadSize it
    else it in
  let min := off +u64 kRecordHeaderSize +u64 min_blob_size (it_cf_options it) in
  if readahead_end_offset it <=? min then
    let size := readahead_grow 64 (readahead_end_offset it) min (it_readahead_size it) in
    it_set_readahead (readahead_begin_offset it) (readahead_end_offset it +u64 size)
      (Z.min kMaxReadaheadSize (wrap64 (Z.shiftl size 1))) it
  else it.

Definition BlobFileIterator_PrefetchAndGet (w : fs) (it : BlobFileIterator)
    : result BlobFileIterator :=
  if iterate_offset it >=? end_of_blob_record it
  then Ok (it_set_status (it_status it) false (iterate_offset it) it)
  else
    let* it := BlobFileIterator_GetBlobRecord w (BlobFileIterator_readahead it) in
    if readahead_end_offset it <? iterate_offset it
    then Ok (it_set_readahead (readahead_begin_offset it) (iterate_offset it)
               (it_readahead_size it) it)
    else Ok it.

(** [if (!init_ && !Init()) return;]. *)
Definition it_ensure_init (w : fs) (it : BlobFileIterator)
    (k : BlobFileIterator -> result BlobFileIterator) : result BlobFileIterator :=
  if it_init it then k it
  else
    let* (ok, it) := BlobFileIterator_Init w it in
    if ok then k it else Ok it.

Definition BlobFileIterator_SeekToFirst (w : fs) (it : BlobFileIterator)
    : result BlobFileIterator :=
  it_ensure_init w it (fun it =>
    BlobFileIterator_PrefetchAndGet w (it_set_status OK (it_valid it) kBlobHeaderSize it)).

Definition BlobFileIterator_Valid (it : BlobFileIterator) : bool :=
  it_valid it && status_ok (it_status it).

Definition BlobFileIterator_Next (w : fs) (it : BlobFileIterator) : result BlobFileIterator :=
  BlobFileIterator_PrefetchAndGet w it.

Definition BlobFileIterator_key (it : BlobFileIterator) : bytes := record_key (cur_blob_record it).
Definition BlobFileIterator_value (it : BlobFileIterator) : bytes :=
  record_value (cur_blob_record it).

Definition BlobFileIterator_GetBlobIndex (it : BlobFileIterator) : BlobIndex :=
  MkBlobIndex (it_file_number it) (MkBlobHandle (cur_record_offset it) (cur_record_size it)).

(** The loop of [IterateForPrev] from [iterate_offset]; it reads a record header
    each time and so advances by at least nine bytes. *)
Fixpoint IterateForPrev_loop (fuel : nat) (w : fs) (offset total : Z) (it : BlobFileIterator)
    : result BlobFileIterator :=
  if iterate_offset it <? offset then
    match fuel with
    | O => Fault
    | S fuel =>
        it_try (raf_Read w (it_file it) (iterate_offset it) kRecordHeaderSize) it (fun header =>
        it_try (BlobDecoder_DecodeHeader header) it (fun '(decoder, _) =>
        let total := kRecordHeaderSize + record_size decoder in
        IterateForPrev_loop fuel w offset total
          (it_set_status OK (it_valid it) (iterate_offset it +u64 total) it)))
    end
  else
    let off := iterate_offset it in
    Ok (it_set_status (it_status it) false (if off >? offset then off -u64 total else off) it).

Definition BlobFileIterator_IterateForPrev (w : fs) (offset : Z) (it : BlobFileIterator)
    : result BlobFileIterator :=
  it_ensure_init w it (fun it =>
    let it := it_fail OK it in
    if offset >=? end_of_blob_record it
    then Ok (it_set_status (InvalidArgument "Out of bound") (it_valid it) offset it)
    else IterateForPrev_loop (Z.to_nat offset) w offset 0
           (it_set_status OK (it_valid it) kBlobHeaderSize it)).

(** A client's loop: the current key, value and index, then [Next], while the
    iterator is valid. *)
Fixpoint iterate (fuel : nat) (w : fs) (it : BlobFileIterator)
    : result (list (bytes * bytes * BlobIndex) * BlobFileIterator) :=
  if BlobFileIterator_Valid it then
    match fuel with
    | O => Fault
    | S fuel =>
        let* it' := BlobFileIterator_Next w it in
        let* (l, it'') := iterate fuel w it' in
        Ok ((BlobFileIterator_key it, BlobFileIterator_value it, BlobFileIterator_GetBlobIndex it)
              :: l, it'')
    end
  else Ok ([], it).
End iterator.

(** ** Iterating over a file that was built *)

Section iterator_lemmas.
Context `{Coding} `{!CodingOk _} `{Compressors} `{!CompressorsOk _} `{E : Env}.

Section file.
Context (w : fs) (t : Z) (rs : list BlobRecord) (number : Z).
Context (Ht : 0 <= t < 256) (Hwf : Forall record_wf rs).
Context (Hkeys : Forall (fun r => only_value r = false) rs).
Context (Hsize : Z.of_nat (length (blob_file_bytes t rs)) < two63).

(** Where the [k]th record starts. *)
Definition start (k : nat) : Z := kBlobHeaderSize + Z.of_nat (length (records_bytes t (take k rs))).

Lemma start_S k r :
  rs !! k = Some r -> start (S k) = start k + Z.of_nat (length (record_bytes t r)).
Proof.
  intros Hr. unfold start. rewrite (take_S_r _ _ _ Hr), records_bytes_app, length_app.
  unfold records_bytes at 2. simpl. rewrite app_nil_r. lia.
Qed.

Lemma start_mono k r : rs !! k = Some r -> start k + kRecordHeaderSize <= start (S k).
Proof.
  intros Hr. rewrite (start_S _ _ Hr), record_bytes_length. unfold GetEncodedSize. lia.
Qed.

Lemma start_le k k' : (k <= k')%nat -> start k <= start k'.
Proof.
  intros Hk. unfold start. rewrite <- (take_drop k (take k' rs)), take_take, Nat.min_l by lia.
  rewrite records_bytes_app, length_app. lia.
Qed.

Lemma start_range k : kBlobHeaderSize <= start k /\ start k + kBlobFooterSize < two63.
Proof.
  split; [unfold start; lia|].
  pose proof (blob_file_bytes_length t rs) as HL.
  assert (start k <= start (k `max` length rs)) by (apply start_le; lia).
  unfold start in *. rewrite (take_ge rs (_ `max` _)) in * by lia. lia.
Qed.

Lemma start_u64 k : is_u64 (start k).
Proof.
  destruct (start_range k) as [H1 H2].
  unfold is_u64, two64, two63, kBlobHeaderSize, kBlobFooterSize, kBlockHandleMaxEncodedLength in *.
  lia.
Qed.

(** The iterator stands before the [k]th record. *)
Record it_at (k : nat) (it : BlobFileIterator) : Prop := {
  at_file : readable w (it_file it) (blob_file_bytes t rs);
  at_number : it_file_number it = number;
  at_init : it_init it = true;
  at_end : end_of_blob_record it = start (length rs);
  at_status : it_status it = OK;
  at_offset : iterate_offset it = start k;
  at_keys : only_value (cur_blob_record it) = false
}.

(** The [k]th record is the current one. *)
Definition it_holds (k : nat) (r : BlobRecord) (it : BlobFileIterator) : Prop :=
  it_valid it = true /\ cur_blob_record it = r /\
  BlobFileIterator_GetBlobIndex it =
    MkBlobIndex number (MkBlobHandle (start k) (Z.of_nat (length (record_bytes t r)))).

Lemma it_at_set_readahead k a b c it : it_at k it -> it_at k (it_set_readahead a b c it).
Proof. intros []. by split. Qed.

Lemma it_holds_set_readahead k r a b c it : it_holds k r it -> it_holds k r (it_set_readahead a b c it).
Proof. done. Qed.

Lemma it_at_readahead k it : it_at k it -> it_at k (BlobFileIterator_readahead it).
Proof.
  intros Hat. unfold BlobFileIterator_readahead.
  repeat case_match; repeat apply it_at_set_readahead; done.
Qed.

(** The two reads that make up a record. *)
Lemma record_reads k it r :
  it_at k it -> rs !! k = Some r ->
  raf_Read w (it_file it) (iterate_offset it) kRecordHeaderSize = Ok (EncodeRecord t r).1 /\
  raf_Read w (it_file it) (iterate_offset it +u64 kRecordHeaderSize)
    (Z.of_nat (length (EncodeRecord t r).2)) = Ok (EncodeRecord t r).2.
Proof.
  intros Hat Hr. destruct (start_range k) as [Hr1 Hr2].
  assert (Hlay := blob_file_bytes_middle t rs k r Hr).
  set (pre := BlobFileHeader_EncodeTo kVersion1 ++ records_bytes t (take k rs)) in Hlay.
  unfold record_bytes in Hlay at 1. rewrite <- app_assoc in Hlay.
  assert (Hpre : Z.of_nat (length pre) = start k).
  { unfold pre. rewrite length_app, Nat2Z.inj_add, BlobFileHeader_length. done. }
  pose proof (EncodeRecord_header_length t r) as Hhdr.
  pose proof (start_u64 (S k)) as HuS. pose proof (start_mono k r Hr) as Hmono.
  rewrite (at_offset _ _ Hat).
  rewrite wrap64_small by (unfold is_u64, kRecordHeaderSize, kBlobHeaderSize in *; lia).
  rewrite !(at_file _ _ Hat) by (unfold kBlobHeaderSize, kRecordHeaderSize in *; lia).
  rewrite Hlay. split; f_equal; [by apply pread_app|].
  rewrite app_assoc. apply pread_app; [|done]. rewrite length_app, Nat2Z.inj_add. lia.
Qed.

Lemma GetBlobRecord_at k it r :
  it_at k it -> rs !! k = Some r ->
  exists it', BlobFileIterator_GetBlobRecord w it = Ok it' /\ it_at (S k) it' /\ it_holds k r it'.
Proof.
  intros Hat Hr. destruct (record_reads k it r Hat Hr) as [Hread1 Hread2].
  destruct Hat as [Hf Hn Hi He Hs Ho Hk].
  assert (Hr_wf : record_wf r) by (rewrite Forall_lookup in Hwf; by eapply Hwf).
  assert (Hr_ov : only_value r = false) by (rewrite Forall_lookup in Hkeys; by eapply Hkeys).
  pose proof (start_S k r Hr) as HS. rewrite record_bytes_length in HS.
  unfold BlobFileIterator_GetBlobRecord. rewrite Hread1. cbn [it_try].
  destruct (DecodeHeader_EncodeRecord t r Hr_wf Ht) as (dec & Hdec & Hsz & _).
  pose proof (Hdec []) as Hdec0. rewrite app_nil_r in Hdec0. rewrite Hdec0. cbn [it_try].
  rewrite Hsz, Hread2. cbn [it_try].
  pose proof (DecodeRecord_EncodeRecord t r (cur_blob_record it) [] dec Hr_wf Ht
                ltac:(congruence) Hdec) as Hrt.
  rewrite app_nil_r in Hrt. rewrite Hrt, Hr_ov. cbn [it_try].
  assert (Heta : MkBlobRecord (record_key r) (record_value r) false = r)
    by (rewrite <- Hr_ov; by destruct r).
  unfold GetEncodedSize in HS.
  rewrite Heta, Ho, <- HS, wrap64_small by apply start_u64.
  eexists. split; [done|]. split; [by split|].
  unfold it_holds, BlobFileIterator_GetBlobIndex. simpl. by rewrite Hn, record_bytes_length.
Qed.

Lemma PrefetchAndGet_at k it r :
  it_at k it -> rs !! k = Some r ->
  exists it', BlobFileIterator_PrefetchAndGet w it = Ok it' /\ it_at (S k) it' /\ it_holds k r it'.
Proof.
  intros Hat Hr. unfold BlobFileIterator_PrefetchAndGet.
  assert (Hlt : start k < start (length rs)).
  { pose proof (start_mono k r Hr). apply lookup_lt_Some in Hr.
    assert (start (S k) <= start (length rs)) by (apply start_le; lia).
    unfold kRecordHeaderSize in *. lia. }
  rewrite (at_offset _ _ Hat), (at_end _ _ Hat).
  destruct (Z.geb_spec (start k) (start (length rs))); [lia|].
  destruct (GetBlobRecord_at k _ r (it_at_readahead _ _ Hat) Hr) as (it' & -> & Hat' & Hh).
  cbn [result_bind]. case_match; eexists; (split; [done|]); [|done].
  split; [by apply it_at_set_readahead|by apply it_holds_set_readahead].
Qed.

Lemma PrefetchAndGet_end it :
  it_at (length rs) it ->
  exists it', BlobFileIterator_PrefetchAndGet w it = Ok it' /\ it_at (length rs) it' /\
    it_valid it' = false.
Proof.
  intros [Hf Hn Hi He Hs Ho Hk]. unfold BlobFileIterator_PrefetchAndGet. rewrite Ho, He.
  destruct (Z.geb_spec (start (length rs)) (start (length rs))); [|lia].
  eexists. split; [done|]. split; [by split|done].
Qed.

(** What the iteration visits from the [k]th record on. *)
Definition visited (k : nat) : list (bytes * bytes * BlobIndex) :=
  (fun '(r, h) => (record_key r, record_value r, MkBlobIndex number h))
    <$> zip (drop k rs) (layout t (start k) (drop k rs)).

Lemma visited_cons k r :
  rs !! k = Some r ->
  visited k = (record_key r, record_value r,
               MkBlobIndex number (MkBlobHandle (start k) (Z.of_nat (length (record_bytes t r)))))
              :: visited (S k).
Proof.
  intros Hr. unfold visited. rewrite (drop_S _ _ _ Hr). simpl. by rewrite (start_S _ _ Hr).
Qed.

Lemma visited_end : visited (length rs) = [].
Proof. unfold visited. by rewrite drop_all. Qed.

(** From a valid position the loop visits the rest and ends cleanly. *)
Lemma iterate_from fuel k it r :
  it_at (S k) it -> it_holds k r it -> rs !! k = Some r -> (length rs - k <= fuel)%nat ->
  exists it', iterate fuel w it = Ok (visited k, it') /\
    it_valid it' = false /\ it_status it' = OK.
Proof.
  revert k it r; induction fuel as [|fuel IH]; intros k it r Hat Hh Hr Hfuel;
    pose proof (lookup_lt_Some _ _ _ Hr) as Hlt; [lia|].
  destruct Hh as (Hv & Hcur & Hidx). cbn [iterate].
  unfold BlobFileIterator_Valid. rewrite Hv, (at_status _ _ Hat). cbn [andb status_ok].
  unfold BlobFileIterator_Next, BlobFileIterator_key, BlobFileIterator_value.
  rewrite (visited_cons _ _ Hr), Hcur, Hidx.
  destruct (rs !! S k) as [r'|] eqn:Hr'.
  - destruct (PrefetchAndGet_at _ _ _ Hat Hr') as (it1 & -> & Hat1 & Hh1). cbn [result_bind].
    destruct (IH _ _ _ Hat1 Hh1 Hr') as (it2 & -> & Hend); [lia|]. cbn [result_bind].
    by exists it2.
  - apply lookup_ge_None in Hr'. assert (S k = length rs) as Hk by lia. rewrite Hk in *.
    destruct (PrefetchAndGet_end _ Hat) as (it1 & -> & Hat1 & Hv1). cbn [result_bind].
    assert (Hit : iterate fuel w it1 = Ok ([], it1)).
    { destruct fuel; cbn [iterate]; unfold BlobFileIterator_Valid; by rewrite Hv1. }
    rewrite Hit, visited_end. cbn [result_bind]. exists it1. by rewrite (at_status _ _ Hat1).
Qed.

Lemma Init_ok it :
  readable w (it_file it) (blob_file_bytes t rs) ->
  it_file_size it = Z.of_nat (length (blob_file_bytes t rs)) ->
  BlobFileIterator_Init w it = Ok (true, it_set_init true (start (length rs)) (it_fail OK it)).
Proof.
  intros Hf Hs. unfold BlobFileIterator_Init.
  pose proof (blob_file_bytes_length t rs) as HL.
  rewrite Hf by (unfold kBlobHeaderSize; lia).
  rewrite pread_header. cbn [result_bind]. rewrite decode_header.
  assert (Hstart : start (length rs) = it_file_size it - kBlobFooterSize).
  { unfold start. rewrite firstn_all. lia. }
  pose proof (start_range (length rs)) as [Hr1 Hr2].
  rewrite (wrap64_small (it_file_size it - _)) by (rewrite <- Hstart; apply start_u64).
  rewrite Hf by (unfold kBlobHeaderSize, kBlobFooterSize, kBlockHandleMaxEncodedLength in *; lia).
  rewrite pread_footer, decode_footer, footer_handle_after by done. cbn [snd NullBlockHandle].
  rewrite Z.sub_0_r, Hstart, wrap64_small; [done|]. rewrite <- Hstart. apply start_u64.
Qed.

Lemma SeekToFirst_ok it :
  readable w (it_file it) (blob_file_bytes t rs) ->
  it_file_size it = Z.of_nat (length (blob_file_bytes t rs)) ->
  it_file_number it = number -> it_init it = false -> only_value (cur_blob_record it) = false ->
  exists it', BlobFileIterator_SeekToFirst w it = Ok it' /\
    match rs !! 0%nat with
    | Some r => it_at 1 it' /\ it_holds 0 r it'
    | None => it_at 0 it' /\ it_valid it' = false
    end.
Proof.
  intros Hf Hs Hn Hi Hk. unfold BlobFileIterator_SeekToFirst, it_ensure_init.
  rewrite Hi, Init_ok by done. cbn [result_bind].
  match goal with |- context [BlobFileIterator_PrefetchAndGet w ?i] => set (it0 := i) end.
  assert (Hat : it_at 0 it0) by (split; try done; unfold start; by rewrite take_0).
  destruct (rs !! 0%nat) as [r|] eqn:Hr; [by apply PrefetchAndGet_at|].
  apply lookup_ge_None in Hr. assert (length rs = 0%nat) as Hl by lia.
  rewrite <- Hl in Hat |- *. by apply PrefetchAndGet_end.
Qed.

(** Positioning by offset: the loop stops at or after [offset], and steps back
    to the record that contains it. *)
Lemma IterateForPrev_loop_ok fuel j k it offset total :
  it_at j it -> (j <= S k)%nat -> (k < length rs)%nat ->
  start k <= offset < start (S k) -> offset <= Z.of_nat fuel + start j ->
  (j = S k -> start j = start k + total) ->
  exists it', IterateForPrev_loop fuel w offset total it = Ok it' /\ it_at k it' /\
    it_valid it' = false.
Proof.
  revert j it total; induction fuel as [|fuel IH]; intros j it total Hat Hj Hk Hoff Hfuel Htot.
  all: cbn [IterateForPrev_loop]; rewrite (at_offset _ _ Hat).
  all: destruct (Z.ltb_spec (start j) offset) as [Hlt|Hge].
  1: lia.
  2: { assert (j <= k)%nat as Hjk.
       { destruct (decide (j = S k)) as [->|]; [lia|lia]. }
       destruct (lookup_lt_is_Some_2 rs j) as [r Hr]; [lia|].
       destruct (record_reads j it r Hat Hr) as [Hread _]. rewrite (at_offset _ _ Hat) in Hread.
       rewrite Hread. cbn [it_try].
       assert (Hr_wf : record_wf r) by (rewrite Forall_lookup in Hwf; by eapply Hwf).
       destruct (DecodeHeader_EncodeRecord t r Hr_wf Ht) as (dec & Hdec & Hsz & _).
       pose proof (Hdec []) as Hdec0. rewrite app_nil_r in Hdec0. rewrite Hdec0. cbn [it_try].
       pose proof (start_S j r Hr) as HS. rewrite record_bytes_length in HS.
       unfold GetEncodedSize in HS. rewrite Hsz, <- HS, wrap64_small by apply start_u64.
       pose proof (start_mono j r Hr). apply (IH (S j)); try lia.
       - destruct Hat. by split.
       - unfold kRecordHeaderSize in *. lia.
       - intros [= ->]. lia. }
  all: eexists; split; [done|]; split; [|done].
  all: destruct (Z.gtb_spec (start j) offset) as [Hgt|Hle].
  all: destruct Hat; split; try done; simpl.
  1,3: assert (j = S k) as -> by (destruct (decide (j = S k)); [done|];
         pose proof (start_le j k); lia); rewrite Htot by done.
  1,2: rewrite wrap64_small; [lia|]; pose proof (start_u64 k); unfold is_u64 in *; lia.
  all: assert (start j = start k) by (destruct (decide (j = S k)) as [->|]; [lia|];
         pose proof (start_le j k); lia); done.
Qed.

Lemma IterateForPrev_ok k offset it :
  readable w (it_file it) (blob_file_bytes t rs) ->
  it_file_size it = Z.of_nat (length (blob_file_bytes t rs)) ->
  it_file_number it = number -> it_init it = false -> only_value (cur_blob_record it) = false ->
  (k < length rs)%nat -> start k <= offset < start (S k) ->
  exists it', BlobFileIterator_IterateForPrev w offset it = Ok it' /\ it_at k it' /\
    it_valid it' = false.
Proof.
  intros Hf Hs Hn Hi Hk Hklt Hoff. unfold BlobFileIterator_IterateForPrev, it_ensure_init.
  rewrite Hi, Init_ok by done. cbn [result_bind].
  assert (start (S k) <= start (length rs)) by (apply start_le; lia).
  match goal with |- context [if offset >=? ?e then _ else _] =>
    destruct (Z.geb_spec offset e) as [Hge|_] end; [simpl in Hge; lia|].
  assert (start 0 = kBlobHeaderSize) as Hst0 by (unfold start; by rewrite take_0).
  destruct (start_range k) as [? _]. unfold kBlobHeaderSize in *.
  apply (IterateForPrev_loop_ok _ 0); try lia. by split.
Qed.
End file.
End iterator_lemmas.

(** The doubling of the readahead size ends well before its fuel: the loop's
    condition is false when it returns. *)
Lemma readahead_grow_exit fuel stop min size :
  0 < size -> kMaxReadaheadSize <= size * 2 ^ Z.of_nat fuel -> size <= kMaxReadaheadSize ->
  (stop +u64 readahead_grow fuel stop min size <=? min)
  && (readahead_grow fuel stop min size <? kMaxReadaheadSize) = false.
Proof.
  assert (HK : kMaxReadaheadSize = 262144) by done. rewrite HK.
  revert size; induction fuel as [|fuel IH]; intros size Hpos Hbig Hle; cbn [readahead_grow].
  - rewrite Z.pow_0_r in Hbig. rewrite (proj2 (Z.ltb_ge size _)) by lia. apply andb_false_r.
  - rewrite HK. destruct ((stop +u64 size <=? min) && (size <? 262144)) eqn:Ec; [|done].
    apply andb_prop in Ec as [_ Hlt%Z.ltb_lt].
    rewrite Z.shiftl_mul_pow2, Z.pow_1_r by lia.
    rewrite !(wrap64_small (size * 2)) by (unfold is_u64, two64; lia).
    rewrite Nat2Z.inj_succ, Z.pow_succ_r in Hbig by lia.
    destruct (Z.le_gt_cases (size * 2) 262144) as [Hs|Hs]; [apply IH; [lia|by rewrite <- Z.mul_assoc|lia]|].
    destruct fuel; cbn [readahead_grow]; rewrite ?HK;
      rewrite (proj2 (Z.ltb_ge (size * 2) _)) by lia; rewrite ?andb_false_r; [done|].
    rewrite (proj2 (Z.ltb_ge (size * 2) _)) by lia. by rewrite andb_false_r.
Qed.

Section properties.
Context `{Coding} `{!CodingOk _} `{Compressors} `{!CompressorsOk _} `{E : Env} `{!EnvOk E}.

Section built.
Context (cf : TitanCFOptions) (file : writer) (written : Z) (rs : list BlobRecord)
        (hs : list BlobHandle) (b b' : BlobFileBuilder) (w : fs) (f : rafile) (number : Z).

(** A file was built from [rs], each stored with its key, and can be read. *)
Record built_file : Prop := {
  built_empty : w_contents file = [];
  built_add : BlobFileBuilder_AddAll rs (BlobFileBuilder_new cf file written) = (hs, b);
  built_finish : BlobFileBuilder_Finish b = (OK, b');
  built_readable : readable w f (w_contents (bfb_file b'));
  built_size : w_GetFileSize (bfb_file b') < two63;
  built_wf : Forall record_wf rs;
  built_keys : Forall (fun r => only_value r = false) rs;
  built_compression : 0 <= blob_file_compression cf < 256
}.

Lemma iterator_visits (Hb : built_file) :
  exists it it',
    BlobFileIterator_SeekToFirst w
      (BlobFileIterator_new f number (w_GetFileSize (bfb_file b')) cf) = Ok it /\
    iterate (length rs) w it =
      Ok ((fun '(r, h) => (record_key r, record_value r, MkBlobIndex number h)) <$> zip rs hs, it') /\
    BlobFileIterator_Valid it' = false /\ it_status it' = OK.
Proof.
  destruct Hb as [He HA HF Hread Hsz Hwf Hkeys Ht].
  destruct (build_ok _ _ _ _ _ _ _ He HA HF) as [Hc ->]. rewrite file_size_contents, Hc in *.
  destruct (SeekToFirst_ok w (blob_file_compression cf) rs number Ht Hwf Hkeys Hsz
              (BlobFileIterator_new f number (Z.of_nat (length (blob_file_bytes
                 (blob_file_compression cf) rs))) cf)) as (it & HS & Hit); try done.
  exists it. unfold BlobFileIterator_Valid. destruct (rs !! 0%nat) as [r|] eqn:Hr.
  - destruct Hit as [Hat Hh].
    destruct (iterate_from w (blob_file_compression cf) rs number Ht Hwf Hkeys Hsz (length rs) 0
                it r Hat Hh Hr) as (it' & Hi & Hv & Hs); [lia|].
    exists it'. rewrite Hi, Hv, Hs. unfold visited, start. rewrite take_0, drop_0.
    by rewrite Z.add_0_r.
  - destruct Hit as [Hat Hv]. destruct rs; [|done]. exists it. simpl.
    unfold BlobFileIterator_Valid. rewrite Hv, (at_status _ _ _ _ _ _ Hat). done.
Qed.

(** C30: An iterator over a built file visits exactly the records that were
    added, in order, each with the index [Add] gave it, and then becomes invalid
    with an ok status; [length rs] steps are enough. *)
Theorem iterator_visits_all_records (Hb : built_file) :
  exists it it',
    BlobFileIterator_SeekToFirst w
      (BlobFileIterator_new f number (w_GetFileSize (bfb_file b')) cf) = Ok it /\
    iterate (length rs) w it =
      Ok ((fun '(r, h) => (record_key r, record_value r, MkBlobIndex number h)) <$> zip rs hs, it') /\
    BlobFileIterator_Valid it' = false /\ it_status it' = OK.
Proof. by apply iterator_visits. Qed.

(** [IterateForPrev(offset)] positions the iterator on the record that
    contains [offset]: the next [Next] yields that record; an offset at or past
    the end of the records is refused. *)
Theorem iterate_for_prev_finds_record (Hb : built_file) (i : nat) (r : BlobRecord)
    (h : BlobHandle) (offset : Z) :
  rs !! i = Some r -> hs !! i = Some h ->
  (handle_offset h <= offset < handle_offset h + handle_size h ->
   exists it it',
     BlobFileIterator_IterateForPrev w offset
       (BlobFileIterator_new f number (w_GetFileSize (bfb_file b')) cf) = Ok it /\
     BlobFileIterator_Next w it = Ok it' /\ BlobFileIterator_Valid it' = true /\
     cur_blob_record it' = r /\ BlobFileIterator_GetBlobIndex it' = MkBlobIndex number h) /\
  (w_GetFileSize (bfb_file b') - kBlobFooterSize <= offset ->
   exists it, BlobFileIterator_IterateForPrev w offset
       (BlobFileIterator_new f number (w_GetFileSize (bfb_file b')) cf) = Ok it /\
     BlobFileIterator_Valid it = false /\ it_status it = InvalidArgument "Out of bound").
Proof.
  intros Hr Hh. destruct Hb as [He HA HF Hread Hsz Hwf Hkeys Ht].
  destruct (build_ok _ _ _ _ _ _ _ He HA HF) as [Hc ->]. rewrite file_size_contents, Hc in *.
  rewrite (layout_lookup _ _ _ _ _ Hr) in Hh. simplify_eq. simpl. split.
  - intros Hoff.
    destruct (IterateForPrev_ok w (blob_file_compression cf) rs number Ht Hwf Hsz i offset
      (BlobFileIterator_new f number (Z.of_nat (length (blob_file_bytes
         (blob_file_compression cf) rs))) cf)) as (it & HI & Hat & _); try done.
    { by eapply lookup_lt_Some. }
    { rewrite (start_S _ _ _ _ Hr). done. }
    destruct (PrefetchAndGet_at w (blob_file_compression cf) rs number Ht Hwf Hkeys Hsz i it r Hat Hr)
      as (it' & HP & Hat' & Hv & Hcur & Hidx).
    exists it, it'. split_and!; try done. unfold BlobFileIterator_Valid.
    by rewrite Hv, (at_status _ _ _ _ _ _ Hat').
  - intros Hoff. unfold BlobFileIterator_IterateForPrev, it_ensure_init.
    cbn [it_init BlobFileIterator_new]. rewrite (Init_ok _ _ _ Hsz) by done. cbn [result_bind].
    pose proof (blob_file_bytes_length (blob_file_compression cf) rs) as HL.
    assert (start (blob_file_compression cf) rs (length rs)
            = Z.of_nat (length (blob_file_bytes (blob_file_compression cf) rs)) - kBlobFooterSize).
    { unfold start. rewrite firstn_all. lia. }
    match goal with |- context [if offset >=? ?e then _ else _] =>
      destruct (Z.geb_spec offset e) as [_|Hlt] end; [|simpl in Hlt; lia].
    eexists. split; [done|]. done.
Qed.
End built.
End properties.

Section witnesses.
#[local] Existing Instances leb128_coding rle_compressors mem_env.

Definition example_finish : Status * BlobFileBuilder := BlobFileBuilder_Finish example_build.2.
Definition example_fs : @fs mem_env := {[ "f"%string := mem_data (bfb_file example_finish.2) ]}.

Lemma example_built :
  built_file example_cf_options example_file 0 example_records example_build.1 example_build.2
    example_finish.2 example_fs "f"%string.
Proof.
  split; try reflexivity.
  - intros off n _ _. reflexivity.
  - repeat constructor; unfold slice_wf, two32; vm_compute; congruence.
  - repeat constructor.
  - vm_compute. intuition congruence.
Qed.

Lemma iterator_visits_all_records_witness :
  exists it it',
    BlobFileIterator_SeekToFirst example_fs
      (BlobFileIterator_new "f"%string 5 (w_GetFileSize (bfb_file example_finish.2))
         example_cf_options) = Ok it /\
    iterate 3 example_fs it =
      Ok ((fun '(r, h) => (record_key r, record_value r, MkBlobIndex 5 h))
            <$> zip example_records example_build.1, it') /\
    BlobFileIterator_Valid it' = false /\ it_status it' = OK.
Proof. exact (iterator_visits_all_records _ _ _ _ _ _ _ _ _ 5 example_built). Defined.

Lemma iterate_for_prev_finds_record_witness :
  exists it it',
    BlobFileIterator_IterateForPrev example_fs 30
      (BlobFileIterator_new "f"%string 5 (w_GetFileSize (bfb_file example_finish.2))
         example_cf_options) = Ok it /\
    BlobFileIterator_Next example_fs it = Ok it' /\ BlobFileIterator_Valid it' = true /\
    cur_blob_record it' = MkBlobRecord [Byte.x6b; Byte.x31] [Byte.x76; Byte.x62; Byte.x63] false /\
    BlobFileIterator_GetBlobIndex it' = MkBlobIndex 5 (MkBlobHandle 23 16).
Proof.
  refine (proj1 (iterate_for_prev_finds_record _ _ _ _ _ _ _ _ _ 5 example_built 1 _
                   (MkBlobHandle 23 16) 30 _ _) _).
  - reflexivity.
  - reflexivity.
  - vm_compute. intuition congruence.
Defined.
End witnesses.
