(* ===== verification/MergeIterator.v ===== *)
(** * Merging several blob files ([BlobFileMergeIterator], src/blob_file_iterator.h,
    src/blob_file_iterator.cc)

    The iterators are kept in a vector; the heap and the current iterator hold
    positions in it. *)

From S2P Require Import Prelude Rocks Options Stats Util BlobFormat Env BlobFileBuilder BlobFileIterator.

Section merge.
Context `{Coding} `{Compressors} `{Env} `{PriorityQueue}.

Record BlobFileMergeIterator := MkBlobFileMergeIterator {
  mi_status : Status;
  blob_file_iterators : list BlobFileIterator;
  min_heap : list nat;
  mi_current : option nat;
  mi_comparator : Comparator
}.

Definition BlobFileMergeIterator_new (its : list BlobFileIterator) (cmp : Comparator)
    : BlobFileMergeIterator := MkBlobFileMergeIterator OK its [] None cmp.

(** The key of the iterator at a position of the vector. *)
Definition key_at (its : list BlobFileIterator) (i : nat) : bytes :=
  match its !! i with Some it => BlobFileIterator_key it | None => [] end.

(** [BlobFileIterComparator]: smaller keys get higher priority. *)
Definition iter_comp (cmp : Comparator) (its : list BlobFileIterator) (i j : nat) : bool :=
  cmp (key_at its i) (key_at its j) >? 0.

(** The current iterator. *)
Definition mi_cur (mi : BlobFileMergeIterator) : option BlobFileIterator :=
  match mi_current mi with Some i => blob_file_iterators mi !! i | None => None end.

Definition BlobFileMergeIterator_status (mi : BlobFileMergeIterator) : Status :=
  match mi_cur mi with
  | Some it => if status_ok (it_status it) then mi_status mi else it_status it
  | None => mi_status mi
  end.

Definition BlobFileMergeIterator_Valid (mi : BlobFileMergeIterator) : bool :=
  match mi_cur mi with
  | None => false
  | Some it =>
      status_ok (BlobFileMergeIterator_status mi)
      && BlobFileIterator_Valid it && status_ok (it_status it)
  end.

(** The loop of [SeekToFirst] over the vector: the iterators and the heap. *)
Fixpoint seek_all (w : fs) (i : nat) (its : list BlobFileIterator)
    : result (list BlobFileIterator * list nat) :=
  match its with
  | [] => Ok ([], [])
  | it :: its =>
      let* it := BlobFileIterator_SeekToFirst w it in
      let* (its, heap) := seek_all w (S i) its in
      Ok (it :: its,
          if status_ok (it_status it) && BlobFileIterator_Valid it then i :: heap else heap)
  end.

Definition BlobFileMergeIterator_SeekToFirst (w : fs) (mi : BlobFileMergeIterator)
    : result BlobFileMergeIterator :=
  let* (its, pushed) := seek_all w 0 (blob_file_iterators mi) in
  let cmp := mi_comparator mi in
  match pq_pop (iter_comp cmp its) (min_heap mi ++ pushed) with
  | Some (i, heap) => Ok (MkBlobFileMergeIterator (mi_status mi) its heap (Some i) cmp)
  | None => Ok (MkBlobFileMergeIterator (Aborted "No iterator is valid") its [] (mi_current mi) cmp)
  end.

(** [Next]; without a current iterator it is undefined. *)
Definition BlobFileMergeIterator_Next (w : fs) (mi : BlobFileMergeIterator)
    : result BlobFileMergeIterator :=
  match mi_current mi, mi_cur mi with
  | Some i, Some it =>
      let* it := BlobFileIterator_Next w it in
      let its := <[i := it]> (blob_file_iterators mi) in
      let heap := if status_ok (it_status it) && BlobFileIterator_Valid it
                  then min_heap mi ++ [i] else min_heap mi in
      let cmp := mi_comparator mi in
      match pq_pop (iter_comp cmp its) heap with
      | Some (j, heap) => Ok (MkBlobFileMergeIterator (mi_status mi) its heap (Some j) cmp)
      | None => Ok (MkBlobFileMergeIterator (mi_status mi) its [] None cmp)
      end
  | _, _ => Fault
  end.

Definition entry := (bytes * bytes * BlobIndex)%type.

Definition it_entry (it : BlobFileIterator) : entry :=
  (BlobFileIterator_key it, BlobFileIterator_value it, BlobFileIterator_GetBlobIndex it).

(** [key], [value] and [GetBlobIndex] of the merging iterator. *)
Definition BlobFileMergeIterator_entry (mi : BlobFileMergeIterator) : option entry :=
  it_entry <$> mi_cur mi.

(** A client's loop over the merging iterator. *)
Fixpoint merge_iterate (fuel : nat) (w : fs) (mi : BlobFileMergeIterator)
    : result (list entry * BlobFileMergeIterator) :=
  if BlobFileMergeIterator_Valid mi then
    match fuel, BlobFileMergeIterator_entry mi with
    | S fuel, Some e =>
        let* mi' := BlobFileMergeIterator_Next w mi in
        let* (l, mi'') := merge_iterate fuel w mi' in
        Ok (e :: l, mi'')
    | _, _ => Fault
    end
  else Ok ([], mi).
End merge.

(** ** The merge *)

Section merge_lemmas.
Context `{Coding} `{Compressors} `{E : Env} `{PriorityQueue} (w : fs).

(** The entries an iterator still has to give, starting with the current one. *)
Inductive represents : BlobFileIterator -> list entry -> Prop :=
| represents_nil it : BlobFileIterator_Valid it = false -> represents it []
| represents_cons it it' l :
    BlobFileIterator_Valid it = true -> BlobFileIterator_Next w it = Ok it' ->
    represents it' l -> represents it (it_entry it :: l).

Lemma iterate_represents fuel it l it' : iterate fuel w it = Ok (l, it') -> represents it l.
Proof.
  revert it l; induction fuel as [|fuel IH]; intros it l Hi; cbn [iterate] in Hi;
    destruct (BlobFileIterator_Valid it) eqn:Hv; try done; try (simplify_eq; by constructor).
  result_inv. destruct a0 as [l' it'']. result_inv. simplify_eq.
  econstructor; [done|done|by eapply IH].
Qed.

Lemma represents_valid it l :
  represents it l -> status_ok (it_status it) && BlobFileIterator_Valid it = bool_decide (l <> []).
Proof.
  intros [? Hv|? ? ? Hv _ _].
  - rewrite Hv, bool_decide_false by naive_solver. apply andb_false_r.
  - rewrite Hv, bool_decide_true by done. unfold BlobFileIterator_Valid in Hv.
    apply andb_prop in Hv as [_ ->]. done.
Qed.

(** What [SeekToFirst] does to the vector. *)
Lemma seek_all_ok i its its' ls :
  Forall2 (fun it it' => BlobFileIterator_SeekToFirst w it = Ok it') its its' ->
  Forall2 represents its' ls ->
  exists heap, seek_all w i its = Ok (its', heap) /\ NoDup heap /\
    forall j, j ∈ heap <-> exists k l, j = (i + k)%nat /\ ls !! k = Some l /\ l <> [].
Proof.
  intros Hseek. revert i ls; induction Hseek as [|it it' its its' Hit _ IH]; intros i ls Hreps.
  - inversion Hreps; subst. exists []. split_and!; [done|constructor|]. set_solver.
  - inversion Hreps as [|? l ? ls' Hrep Hreps']; subst.
    destruct (IH (S i) ls' Hreps') as (heap & Hh & Hnd & Hin).
    cbn [seek_all]. rewrite Hit. cbn [result_bind]. rewrite Hh. cbn [result_bind].
    rewrite (represents_valid _ _ Hrep).
    assert (Hni : ~ i ∈ heap) by (intros (k & ? & ? & _)%Hin; lia).
    eexists. split; [done|]. split; [case_bool_decide; [by constructor|done]|].
    intros j. case_bool_decide as Hl; rewrite ?elem_of_cons, Hin; split.
    + intros [->|(k & l' & -> & ?)]; [exists 0%nat, l; split; [lia|done]|].
      exists (S k), l'. split; [lia|done].
    + intros ([|k] & l' & -> & Hk & ?); [left; lia|right]. exists k, l'. split; [lia|done].
    + intros (k & l' & -> & ?). exists (S k), l'. split; [lia|done].
    + intros ([|k] & l' & -> & Hk & ?); [simpl in Hk; simplify_eq; done|].
      exists k, l'. split; [lia|done].
Qed.
Context (cmp : Comparator) `{!ComparatorOk cmp}.

Definition key_le (a b : entry) : Prop := cmp a.1.1 b.1.1 <= 0.

#[local] Instance key_le_trans : Transitive key_le.
Proof. intros a b c. apply compare_trans. Qed.

Lemma iter_comp_negb_trans its a b c :
  iter_comp cmp its a b = false -> iter_comp cmp its b c = false -> iter_comp cmp its a c = false.
Proof.
  unfold iter_comp. rewrite !Z.gtb_ltb, !Z.ltb_ge. apply compare_trans.
Qed.

Lemma iter_comp_asym its a b : iter_comp cmp its a b = true -> iter_comp cmp its b a = false.
Proof.
  unfold iter_comp. rewrite !Z.gtb_ltb, Z.ltb_lt, Z.ltb_ge.
  pose proof (compare_swap (key_at its b) (key_at its a)). lia.
Qed.

(** The state between two calls: every iterator represents its list, exactly
    the ones with entries left are in the heap or current, and the current one
    has a smallest key. *)
Record merge_inv (ls : list (list entry)) (mi : BlobFileMergeIterator) : Prop := {
  inv_comparator : mi_comparator mi = cmp;
  inv_reps : Forall2 represents (blob_file_iterators mi) ls;
  inv_nodup : NoDup (option_list (mi_current mi) ++ min_heap mi);
  inv_active : forall i, i ∈ option_list (mi_current mi) ++ min_heap mi
                 <-> exists l, ls !! i = Some l /\ l <> [];
  inv_min : forall i, mi_current mi = Some i ->
    Forall (fun j => iter_comp cmp (blob_file_iterators mi) i j = false) (min_heap mi);
  inv_current : mi_current mi = None -> min_heap mi = []
}.

Lemma pop_inv its ls q st :
  Forall2 represents its ls -> NoDup q ->
  (forall i, i ∈ q <-> exists l, ls !! i = Some l /\ l <> []) ->
  match pq_pop (iter_comp cmp its) q with
  | Some (j, heap) => merge_inv ls (MkBlobFileMergeIterator st its heap (Some j) cmp)
  | None => q = [] /\ merge_inv ls (MkBlobFileMergeIterator st its [] None cmp)
  end.
Proof.
  intros Hreps Hnd Hact. destruct (decide (q = [])) as [->|Hne].
  - rewrite pq_pop_nil. split; [done|]. by split.
  - destruct (pq_pop_perm _ (iter_comp cmp its) q Hne) as (x & q' & Hpop & Hp). rewrite Hpop.
    split; try done; simpl.
    + by rewrite <- Hp.
    + intros i. rewrite <- Hact, Hp. done.
    + intros i [= <-].
      eapply pq_pop_top; [apply iter_comp_negb_trans|apply iter_comp_asym|exact Hpop].
Qed.

Lemma current_entry ls mi i :
  merge_inv ls mi -> mi_current mi = Some i ->
  exists it it' l, mi_cur mi = Some it /\ ls !! i = Some (it_entry it :: l) /\
    BlobFileIterator_Valid it = true /\ BlobFileIterator_Next w it = Ok it' /\ represents it' l.
Proof.
  intros Hinv Hi. assert (i ∈ option_list (mi_current mi) ++ min_heap mi) as Hin
    by (rewrite Hi; simpl; left).
  apply (inv_active _ _ Hinv) in Hin as (l & Hl & Hne).
  destruct (Forall2_lookup_r _ _ _ _ _ (inv_reps _ _ Hinv) Hl) as (it & Hit & Hrep).
  destruct Hrep as [|it it' l' Hv Hn Hrep]; [done|].
  exists it, it', l'. split_and!; try done. unfold mi_cur. by rewrite Hi.
Qed.

Lemma merge_next ls mi i it it' l :
  merge_inv ls mi -> mi_current mi = Some i -> mi_cur mi = Some it ->
  ls !! i = Some (it_entry it :: l) -> BlobFileIterator_Next w it = Ok it' -> represents it' l ->
  exists mi', BlobFileMergeIterator_Next w mi = Ok mi' /\ merge_inv (<[i := l]> ls) mi' /\
    mi_status mi' = mi_status mi.
Proof.
  intros Hinv Hi Hcur Hl Hn Hrep. unfold BlobFileMergeIterator_Next. rewrite Hi, Hcur, Hn.
  cbn [result_bind]. rewrite (represents_valid _ _ Hrep), (inv_comparator _ _ Hinv).
  pose proof (inv_nodup _ _ Hinv) as Hnd. rewrite Hi in Hnd. simpl in Hnd.
  apply NoDup_cons in Hnd as [Hni Hnd].
  pose proof (lookup_lt_Some _ _ _ Hl) as Hlt.
  set (q := if bool_decide (l <> []) then min_heap mi ++ [i] else min_heap mi).
  pose proof (pop_inv (<[i := it']> (blob_file_iterators mi)) (<[i := l]> ls) q (mi_status mi))
    as Hpop.
  destruct (pq_pop _ q) as [[j heap]|]; eexists; (split; [done|]); (split; [|done]);
    apply Hpop; clear Hpop.
  all: try by apply Forall2_insert; [apply (inv_reps _ _ Hinv)|].
  all: try by (unfold q; case_bool_decide; [|done]; apply NoDup_app; split_and!;
    [done|intros x Hx ->%list_elem_of_singleton; done|apply NoDup_singleton]).
  all: intros x; destruct (decide (x = i)) as [->|Hx].
  all: try (rewrite list_lookup_insert_eq by done; unfold q; case_bool_decide; set_solver).
  all: rewrite list_lookup_insert_ne by done;
    rewrite <- (inv_active _ _ Hinv x), Hi; unfold q; case_bool_decide; set_solver.
Qed.

(** The current entry has a smallest key of all that remain. *)
Lemma current_min ls mi i it l :
  merge_inv ls mi -> mi_current mi = Some i -> mi_cur mi = Some it ->
  ls !! i = Some (it_entry it :: l) -> Forall (StronglySorted key_le) ls ->
  Forall (key_le (it_entry it)) (concat (<[i := l]> ls)).
Proof.
  intros Hinv Hi Hcur Hl Hsort. apply Forall_forall. intros e (l' & He & Hl')%elem_of_concat.
  apply list_elem_of_lookup in Hl' as [j Hj].
  destruct (decide (j = i)) as [->|Hji].
  - rewrite list_lookup_insert_eq in Hj by by eapply lookup_lt_Some. simplify_eq.
    rewrite Forall_lookup in Hsort. apply Hsort in Hl. inversion Hl as [|? ? _ Hall]; subst.
    rewrite Forall_forall in Hall. by apply Hall.
  - rewrite list_lookup_insert_ne in Hj by done.
    destruct (Forall2_lookup_r _ _ _ _ _ (inv_reps _ _ Hinv) Hj) as (itj & Hitj & Hrep).
    assert (Hmin : cmp (BlobFileIterator_key it) (BlobFileIterator_key itj) <= 0).
    { assert (j ∈ min_heap mi) as Hjh.
      { assert (j ∈ option_list (mi_current mi) ++ min_heap mi) as Hin.
        { apply (inv_active _ _ Hinv). exists l'. split; [done|]. intros ->; by apply not_elem_of_nil in He. }
        rewrite Hi in Hin. set_solver. }
      pose proof (inv_min _ _ Hinv i Hi) as Hall. rewrite Forall_forall in Hall.
      specialize (Hall j Hjh). unfold iter_comp, key_at in Hall. unfold mi_cur in Hcur.
      rewrite Hi in Hcur. rewrite Hcur, Hitj in Hall. by rewrite Z.gtb_ltb, Z.ltb_ge in Hall. }
    rewrite Forall_lookup in Hsort. apply Hsort in Hj.
    destruct Hrep as [itj Hv|itj itj' l'' Hv Hn Hrep]; [set_solver|].
    inversion Hj as [|? ? _ Hall]; subst. rewrite Forall_forall in Hall.
    apply elem_of_cons in He as [->|He]; [done|].
    transitivity (it_entry itj); [done|by apply Hall].
Qed.

Lemma merge_all fuel ls mi :
  merge_inv ls mi -> mi_status mi = OK -> (length (concat ls) <= fuel)%nat ->
  exists L mi', merge_iterate fuel w mi = Ok (L, mi') /\ L ≡ₚ concat ls /\
    (Forall (StronglySorted key_le) ls -> StronglySorted key_le L) /\
    BlobFileMergeIterator_Valid mi' = false /\ BlobFileMergeIterator_status mi' = OK.
Proof.
  revert ls mi; induction fuel as [|fuel IH]; intros ls mi Hinv Hs Hfuel;
    destruct (mi_current mi) as [i|] eqn:Hi.
  2,4: assert (Hnil : concat ls = []) by
    (apply concat_nil_Forall, Forall_forall; intros l [j Hj]%list_elem_of_lookup;
     destruct (decide (l = [])) as [|Hne]; [done|];
     assert (j ∈ option_list (mi_current mi) ++ min_heap mi) as Hin
       by (apply (inv_active _ _ Hinv); eauto);
     rewrite Hi, (inv_current _ _ Hinv Hi) in Hin; set_solver);
    cbn [merge_iterate]; unfold BlobFileMergeIterator_Valid, mi_cur; rewrite Hi;
    exists [], mi; unfold BlobFileMergeIterator_Valid, BlobFileMergeIterator_status, mi_cur;
    rewrite Hi, Hnil; split_and!; (done || constructor).
  all: destruct (current_entry ls mi i Hinv Hi) as (it & it' & l & Hcur & Hl & Hv & Hn & Hrep).
  all: pose proof (concat_insert_perm _ _ _ _ Hl) as Hperm.
  { apply Permutation_length in Hperm. simpl in Hperm. lia. }
  destruct (merge_next _ _ _ _ _ _ Hinv Hi Hcur Hl Hn Hrep) as (mi' & Hnext & Hinv' & Hs').
  destruct (IH _ _ Hinv' ltac:(congruence)) as (L & mi'' & Hrun & HL & Hsorted & Hend).
  { apply Permutation_length in Hperm. simpl in Hperm. lia. }
  exists (it_entry it :: L), mi''. split_and!; try apply Hend.
  - cbn [merge_iterate]. pose proof Hv as Hv'. unfold BlobFileIterator_Valid in Hv'.
    apply andb_prop in Hv' as [_ Hok].
    unfold BlobFileMergeIterator_Valid, BlobFileMergeIterator_status, BlobFileMergeIterator_entry.
    rewrite Hcur, Hok, Hs, Hv. cbn [status_ok andb fmap option_fmap option_map].
    rewrite Hnext. cbn [result_bind]. by rewrite Hrun.
  - by rewrite Hperm, HL.
  - intros Hsort. constructor.
    + apply Hsorted. apply Forall_insert; [done|].
      rewrite Forall_lookup in Hsort. apply Hsort in Hl. by inversion Hl.
    + rewrite HL. by eapply current_min.
Qed.

End merge_lemmas.

Section properties.
Context `{Coding} `{!CodingOk _} `{Compressors} `{!CompressorsOk _} `{E : Env} `{PriorityQueue}.

(** The merging iterator visits all entries, sorted when the iterators are. *)
Lemma merge_visits (w : fs) (cmp : Comparator) (Hcmp : ComparatorOk cmp)
    (its its' : list BlobFileIterator) (ls : list (list entry)) :
  Forall2 (fun it it' => BlobFileIterator_SeekToFirst w it = Ok it') its its' ->
  Forall2 (fun it' l => exists fuel it'', iterate fuel w it' = Ok (l, it'')) its' ls ->
  concat ls <> [] ->
  exists mi L mi',
    BlobFileMergeIterator_SeekToFirst w (BlobFileMergeIterator_new its cmp) = Ok mi /\
    merge_iterate (length (concat ls)) w mi = Ok (L, mi') /\
    L ≡ₚ concat ls /\ (Forall (StronglySorted (key_le cmp)) ls -> StronglySorted (key_le cmp) L) /\
    BlobFileMergeIterator_Valid mi' = false /\ BlobFileMergeIterator_status mi' = OK.
Proof.
  intros Hseek Hit Hne.
  assert (Hreps : Forall2 (represents w) its' ls).
  { eapply Forall2_impl; [exact Hit|]. intros it l (fuel & it'' & Hi). by eapply iterate_represents. }
  destruct (seek_all_ok w 0%nat its its' ls Hseek Hreps) as (heap & Hh & Hnd & Hact).
  unfold BlobFileMergeIterator_SeekToFirst, BlobFileMergeIterator_new.
  cbn [blob_file_iterators mi_comparator mi_status min_heap mi_current app].
  rewrite Hh. cbn [result_bind].
  pose proof (pop_inv w cmp its' ls heap OK Hreps Hnd) as Hpop.
  assert (Hact' : forall i, i ∈ heap <-> exists l, ls !! i = Some l /\ l <> []).
  { intros i. rewrite Hact. split; [intros (k & l & -> & ?); by exists l|].
    intros (l & ?). by exists i, l. }
  specialize (Hpop Hact'). destruct (pq_pop _ heap) as [[j heap']|].
  - destruct (merge_all w cmp (length (concat ls)) ls _ Hpop) as (L & mi' & Hrun & HL & Hs & Hend);
      [done|lia|].
    eexists _, L, mi'. split_and!; try done; apply Hend.
  - exfalso. destruct Hpop as [-> _]. apply Hne, concat_nil_Forall, Forall_forall.
    intros l [i Hi]%list_elem_of_lookup. destruct (decide (l = [])) as [|Hl]; [done|].
    assert (i ∈ ([] : list nat)) by (apply Hact'; eauto). set_solver.
Qed.

(** C11: Merging blob files gives all their records in key order. Take
    iterators that each seek to their first record and from there visit a list
    of entries sorted by the comparator; if some list is not empty, the merging
    iterator seeks and then visits a permutation of all the entries, sorted by
    the comparator, and ends invalid with an ok status. *)
Theorem merge_iterator_sorted (w : fs) (cmp : Comparator) (Hcmp : ComparatorOk cmp)
    (its its' : list BlobFileIterator) (ls : list (list entry)) :
  Forall2 (fun it it' => BlobFileIterator_SeekToFirst w it = Ok it') its its' ->
  Forall2 (fun it' l => exists fuel it'', iterate fuel w it' = Ok (l, it'')) its' ls ->
  Forall (StronglySorted (key_le cmp)) ls -> concat ls <> [] ->
  exists mi L mi',
    BlobFileMergeIterator_SeekToFirst w (BlobFileMergeIterator_new its cmp) = Ok mi /\
    merge_iterate (length (concat ls)) w mi = Ok (L, mi') /\
    L ≡ₚ concat ls /\ StronglySorted (key_le cmp) L /\
    BlobFileMergeIterator_Valid mi' = false /\ BlobFileMergeIterator_status mi' = OK.
Proof.
  intros Hseek Hit Hsort Hne.
  destruct (merge_visits w cmp Hcmp its its' ls Hseek Hit Hne) as (mi & L & mi' & Hs & Hm & HL & Hso & Hend).
  exists mi, L, mi'. split_and!; try done; [by apply Hso|apply Hend..].
Qed.
End properties.

Section witnesses.
#[local] Existing Instances leb128_coding rle_compressors mem_env list_pq.

(** Two files: the example's records k1, k3 and k2. *)
Definition example_part (l : list nat) : Status * BlobFileBuilder :=
  BlobFileBuilder_Finish
    (BlobFileBuilder_AddAll (omap (fun i => example_records !! i) l)
       (BlobFileBuilder_new example_cf_options example_file 0)).2.

Definition example_parts : @fs mem_env :=
  {[ "a"%string := mem_data (bfb_file (example_part [1; 2]%nat).2);
     "b"%string := mem_data (bfb_file (example_part [0]%nat).2) ]}.

Definition example_its : list BlobFileIterator :=
  [BlobFileIterator_new "a"%string 1 (w_GetFileSize (bfb_file (example_part [1; 2]%nat).2))
     example_cf_options;
   BlobFileIterator_new "b"%string 2 (w_GetFileSize (bfb_file (example_part [0]%nat).2))
     example_cf_options].

Definition example_sought : list BlobFileIterator :=
  omap (fun it => match BlobFileIterator_SeekToFirst example_parts it with
                  | Ok it' => Some it' | _ => None end) example_its.

Definition example_visit (it : BlobFileIterator) : option (list entry) :=
  match iterate 2 example_parts it with Ok (l, _) => Some l | _ => None end.

Definition example_entries : list (list entry) := omap example_visit example_sought.

Lemma example_seek :
  BlobFileIterator_SeekToFirst example_parts <$> example_its = Ok <$> example_sought.
Proof. vm_compute. reflexivity. Qed.

Lemma example_iterate : example_visit <$> example_sought = Some <$> example_entries.
Proof. vm_compute. reflexivity. Qed.

Lemma fmap_eq_Forall2 {A B C} (f : A -> C) (g : B -> C) l l' :
  f <$> l = g <$> l' -> Forall2 (fun x y => f x = g y) l l'.
Proof.
  revert l'; induction l as [|x l IH]; intros [|y l'] Heq; try done.
  simpl in Heq. simplify_eq. constructor; [done|by apply IH].
Qed.

Lemma merge_iterator_sorted_witness :
  exists mi L mi',
    BlobFileMergeIterator_SeekToFirst example_parts
      (BlobFileMergeIterator_new example_its bytewise_compare) = Ok mi /\
    merge_iterate 3 example_parts mi = Ok (L, mi') /\
    L ≡ₚ concat example_entries /\ StronglySorted (key_le bytewise_compare) L /\
    BlobFileMergeIterator_Valid mi' = false /\ BlobFileMergeIterator_status mi' = OK.
Proof.
  apply (merge_iterator_sorted example_parts bytewise_compare _ example_its example_sought
           example_entries).
  - exact (fmap_eq_Forall2 _ _ _ _ example_seek).
  - eapply Forall2_impl; [exact (fmap_eq_Forall2 _ _ _ _ example_iterate)|].
    intros it l Hv. unfold example_visit in Hv. exists 2%nat.
    destruct (iterate 2 example_parts it) as [[l' it'']| |]; try discriminate Hv.
    exists it''. by injection Hv as ->.
  - vm_compute. repeat constructor; congruence.
  - vm_compute. congruence.
Defined.
End witnesses.
