(* ===== verification/VersionEdit.v ===== *)
(** * Version edits (src/version_edit.h, src/version_edit.cc)

    An edit is what one manifest record holds. Its added files are shared
    pointers to file metadata: metadata lives in a heap that every component
    shares, and an edit holds locations. *)

From S2P Require Import Prelude Rocks Options Stats Util BlobFormat.

(** ** The heap of [std::shared_ptr<BlobFileMeta>] *)

Abbreviation loc := positive.
Abbreviation heap := (gmap positive BlobFileMeta).

(** The object at a location in use. *)
Definition deref (h : heap) (l : loc) : BlobFileMeta := default BlobFileMeta_default (h !! l).

(** [std::make_shared]. *)
Definition make_shared (m : BlobFileMeta) (h : heap) : loc * heap :=
  let l := fresh (dom h) in (l, <[l := m]> h).

(** A method call on the object at [l]. *)
Definition heap_call (f : BlobFileMeta -> BlobFileMeta) (l : loc) (h : heap) : heap := alter f l h.

Lemma make_shared_fresh m h : h !! (make_shared m h).1 = None.
Proof. apply not_elem_of_dom, is_fresh. Qed.

Lemma make_shared_subseteq m h : h ⊆ (make_shared m h).2.
Proof. apply insert_subseteq. exact (make_shared_fresh m h). Qed.

Lemma deref_make_shared m h : deref (make_shared m h).2 (make_shared m h).1 = m.
Proof. unfold deref, make_shared. simpl. by rewrite lookup_insert_eq. Qed.

Lemma deref_subseteq h h' l : h ⊆ h' -> is_Some (h !! l) -> deref h' l = deref h l.
Proof.
  intros Hsub [m Hm]. unfold deref. rewrite Hm.
  by rewrite (lookup_weaken _ _ _ _ Hm Hsub).
Qed.

Lemma deref_heap_call f h l l' :
  is_Some (h !! l) ->
  deref (heap_call f l h) l' = if decide (l = l') then f (deref h l') else deref h l'.
Proof.
  intros [m Hm]. unfold deref, heap_call. rewrite lookup_alter. case_decide; [|done].
  subst. by rewrite Hm.
Qed.

(** ** Edits *)

Module Tag.
Definition kNextFileNumber : Z := 1.
Definition kColumnFamilyID : Z := 10.
Definition kAddedBlobFile : Z := 11.
Definition kDeletedBlobFile : Z := 12.
Definition kAddedBlobFileV2 : Z := 13.
Definition kUpdateDiscardableSize : Z := 14.
End Tag.

Record VersionEdit := MkVersionEdit {
  has_next_file_number : bool;
  next_file_number : Z;
  column_family_id : Z;
  added_files : list loc;
  deleted_files : list (Z * Z);
  updated_discardable_size : gmap Z Z
}.

Definition VersionEdit_default : VersionEdit := MkVersionEdit false 0 0 [] [] ∅.

Definition SetNextFileNumber (v : Z) (e : VersionEdit) : VersionEdit :=
  MkVersionEdit true v (column_family_id e) (added_files e) (deleted_files e)
    (updated_discardable_size e).

Definition SetColumnFamilyID (v : Z) (e : VersionEdit) : VersionEdit :=
  MkVersionEdit (has_next_file_number e) (next_file_number e) v (added_files e)
    (deleted_files e) (updated_discardable_size e).

Definition VersionEdit_AddBlobFile (file : loc) (e : VersionEdit) : VersionEdit :=
  MkVersionEdit (has_next_file_number e) (next_file_number e) (column_family_id e)
    (added_files e ++ [file]) (deleted_files e) (updated_discardable_size e).

(** [std::unordered_map::emplace]: an existing entry is kept. *)
Definition emplace {V} (k : Z) (v : V) (m : gmap Z V) : gmap Z V :=
  match m !! k with Some _ => m | None => <[k := v]> m end.

Definition UpdateBlobFile (number discardable : Z) (e : VersionEdit) : VersionEdit :=
  MkVersionEdit (has_next_file_number e) (next_file_number e) (column_family_id e)
    (added_files e) (deleted_files e) (emplace number discardable (updated_discardable_size e)).

Definition DeleteBlobFile (number obsolete_sequence : Z) (e : VersionEdit) : VersionEdit :=
  MkVersionEdit (has_next_file_number e) (next_file_number e) (column_family_id e)
    (added_files e) (deleted_files e ++ [(number, obsolete_sequence)])
    (updated_discardable_size e).

Section codec.
Context `{Coding} `{UnorderedIter}.

Definition VersionEdit_EncodeTo (h : heap) (e : VersionEdit) : bytes :=
  (if has_next_file_number e
   then PutVarint32 Tag.kNextFileNumber ++ PutVarint64 (next_file_number e) else [])
  ++ (PutVarint32 Tag.kColumnFamilyID ++ PutVarint32 (column_family_id e))
  ++ concat ((fun file => PutVarint32 Tag.kAddedBlobFileV2
                          ++ BlobFileMeta_EncodeTo (deref h file)) <$> added_files e)
  ++ concat ((fun file => PutVarint32 Tag.kDeletedBlobFile
                          ++ PutVarint64 file.1) <$> deleted_files e)
  ++ concat ((fun file => PutVarint32 Tag.kUpdateDiscardableSize ++ PutVarint64 file.1
                          ++ PutVarint64 file.2) <$> unordered_iter (updated_discardable_size e)).

Definition edit_error (error : string) : Status := Corruption ("VersionEdit: " +:+ error).

(** [error = s.ToString().c_str()]: the temporary string is gone at the end of
    the statement, and [error] still points into it when the loop has ended and
    [Status::Corruption("VersionEdit", error)] reads it. *)
Definition dangling_error {A} (r : result A) : result A :=
  match r with Err _ => Fault | _ => r end.

(** The loop of [VersionEdit::DecodeFrom]. Each iteration reads a tag, so
    [length src] iterations are enough. *)
Fixpoint VersionEdit_DecodeLoop (fuel : nat) (self : VersionEdit * heap) (src : bytes)
    : result ((VersionEdit * heap) * bytes) :=
  match src, fuel with
  | [], _ => Ok (self, [])
  | _ :: _, O => Fault
  | _ :: _, S fuel =>
      let '(e, h) := self in
      let* (tag, src) := or_err (GetVarint32 src) (edit_error "invalid tag") in
      if tag =? Tag.kNextFileNumber then
        let* (v, src) := or_err (GetVarint64 src) (edit_error "next file number") in
        VersionEdit_DecodeLoop fuel (SetNextFileNumber v e, h) src
      else if tag =? Tag.kColumnFamilyID then
        let* (v, src) := or_err (GetVarint32 src) (edit_error "column family id") in
        VersionEdit_DecodeLoop fuel (SetColumnFamilyID v e, h) src
      else if tag =? Tag.kAddedBlobFile then
        let* (m, src) := dangling_error (BlobFileMeta_DecodeFromLegacy BlobFileMeta_default src) in
        let '(blob_file, h) := make_shared m h in
        VersionEdit_DecodeLoop fuel (VersionEdit_AddBlobFile blob_file e, h) src
      else if tag =? Tag.kAddedBlobFileV2 then
        let* (m, src) := dangling_error (BlobFileMeta_DecodeFrom BlobFileMeta_default src) in
        let '(blob_file, h) := make_shared m h in
        VersionEdit_DecodeLoop fuel (VersionEdit_AddBlobFile blob_file e, h) src
      else if tag =? Tag.kDeletedBlobFile then
        let* (number, src) := or_err (GetVarint64 src) (edit_error "deleted blob file") in
        VersionEdit_DecodeLoop fuel (DeleteBlobFile number 0 e, h) src
      else if tag =? Tag.kUpdateDiscardableSize then
        let* (number, src) := or_err (GetVarint64 src) (edit_error "update discardable size") in
        let* (discardable, src) :=
          or_err (GetVarint64 src) (edit_error "update discardable size") in
        VersionEdit_DecodeLoop fuel (UpdateBlobFile number discardable e, h) src
      else Err (edit_error "unknown tag")
  end.

Definition VersionEdit_DecodeFrom (self : VersionEdit * heap) (src : bytes)
    : result ((VersionEdit * heap) * bytes) :=
  VersionEdit_DecodeLoop (length src) self src.

(** [operator==] on edits. *)
Definition VersionEdit_eqb (h : heap) (lhs rhs : VersionEdit) : bool :=
  if negb (length (added_files lhs) =? length (added_files rhs))%nat then false
  else
    let blob_files : gmap Z loc :=
      foldl (fun m l => emplace (file_number (deref h l)) l m) ∅ (added_files lhs) in
    forallb (fun r => match blob_files !! file_number (deref h r) with
                      | Some l => BlobFileMeta_eqb (deref h l) (deref h r)
                      | None => false
                      end) (added_files rhs)
    && Bool.eqb (has_next_file_number lhs) (has_next_file_number rhs)
    && (next_file_number lhs =? next_file_number rhs)
    && (column_family_id lhs =? column_family_id rhs)
    && bool_decide (deleted_files lhs = deleted_files rhs).
End codec.

(** ** Termination and round trip of the decoder *)

(** What a manifest record can hold: every field in its width, no pending file
    number without the flag, deletions without their sequence. *)
Record edit_wf (h : heap) (e : VersionEdit) : Prop := {
  edit_wf_next : is_u64 (next_file_number e);
  edit_wf_no_next : has_next_file_number e = false -> next_file_number e = 0;
  edit_wf_cf : is_u32 (column_family_id e);
  edit_wf_added : Forall (fun l => meta_wf (deref h l)) (added_files e);
  edit_wf_deleted : Forall (fun d => is_u64 d.1) (deleted_files e);
  edit_wf_updated : map_Forall (fun k v => is_u64 k /\ is_u64 v) (updated_discardable_size e)
}.

Section decode.
Context `{Coding} `{!CodingOk _} `{UnorderedIter}.

Lemma BlobFileMeta_DecodeFrom_no_fault t src : BlobFileMeta_DecodeFrom t src <> Fault.
Proof.
  unfold BlobFileMeta_DecodeFrom.
  repeat match goal with
  | |- context [or_err ?o _] => destruct o as [[??]|]; cbn [or_err result_bind]; try done
  end.
Qed.

Lemma BlobFileMeta_DecodeFromLegacy_no_fault t src : BlobFileMeta_DecodeFromLegacy t src <> Fault.
Proof.
  unfold BlobFileMeta_DecodeFromLegacy.
  repeat match goal with
  | |- context [or_err ?o _] => destruct o as [[??]|]; cbn [or_err result_bind]; try done
  end.
Qed.

(** The [Get] calls of a successful decoder shorten the slice. *)
Ltac get_shorter :=
  repeat match goal with
  | H : GetVarint32 _ = Some (_, _) |- _ => apply get_varint32_shorter in H
  | H : GetVarint64 _ = Some (_, _) |- _ => apply get_varint64_shorter in H
  | H : GetLengthPrefixedSlice _ = Some (_, _) |- _ => apply get_slice_shorter in H
  end.

Ltac destruct_pairs :=
  repeat (match goal with p : (_ * _)%type |- _ => destruct p end; cbn beta iota in *).

Lemma BlobFileMeta_DecodeFrom_shorter t src m r :
  BlobFileMeta_DecodeFrom t src = Ok (m, r) -> (length r < length src)%nat.
Proof.
  unfold BlobFileMeta_DecodeFrom. intros Hd.
  repeat (result_inv; destruct_pairs). get_shorter. simplify_eq. lia.
Qed.

Lemma BlobFileMeta_DecodeFromLegacy_shorter t src m r :
  BlobFileMeta_DecodeFromLegacy t src = Ok (m, r) -> (length r < length src)%nat.
Proof.
  unfold BlobFileMeta_DecodeFromLegacy. intros Hd.
  repeat (result_inv; destruct_pairs). get_shorter. simplify_eq. lia.
Qed.

(** The bytes of a record whose decoding reaches the metadata of an added file
    that does not decode: every item before it is well formed. *)
Inductive undecodable_file : bytes -> Prop :=
| undecodable_legacy src r s :
    GetVarint32 src = Some (Tag.kAddedBlobFile, r) ->
    BlobFileMeta_DecodeFromLegacy BlobFileMeta_default r = Err s -> undecodable_file src
| undecodable_v2 src r s :
    GetVarint32 src = Some (Tag.kAddedBlobFileV2, r) ->
    BlobFileMeta_DecodeFrom BlobFileMeta_default r = Err s -> undecodable_file src
| undecodable_next src r v r' :
    GetVarint32 src = Some (Tag.kNextFileNumber, r) -> GetVarint64 r = Some (v, r') ->
    undecodable_file r' -> undecodable_file src
| undecodable_cf src r v r' :
    GetVarint32 src = Some (Tag.kColumnFamilyID, r) -> GetVarint32 r = Some (v, r') ->
    undecodable_file r' -> undecodable_file src
| undecodable_after_legacy src r m r' :
    GetVarint32 src = Some (Tag.kAddedBlobFile, r) ->
    BlobFileMeta_DecodeFromLegacy BlobFileMeta_default r = Ok (m, r') ->
    undecodable_file r' -> undecodable_file src
| undecodable_after_v2 src r m r' :
    GetVarint32 src = Some (Tag.kAddedBlobFileV2, r) ->
    BlobFileMeta_DecodeFrom BlobFileMeta_default r = Ok (m, r') ->
    undecodable_file r' -> undecodable_file src
| undecodable_deleted src r n r' :
    GetVarint32 src = Some (Tag.kDeletedBlobFile, r) -> GetVarint64 r = Some (n, r') ->
    undecodable_file r' -> undecodable_file src
| undecodable_updated src r n r1 d r' :
    GetVarint32 src = Some (Tag.kUpdateDiscardableSize, r) -> GetVarint64 r = Some (n, r1) ->
    GetVarint64 r1 = Some (d, r') ->
    undecodable_file r' -> undecodable_file src.

(** The loop faults only there: it never runs out of iterations. *)
Lemma VersionEdit_DecodeLoop_fault fuel self src :
  (length src <= fuel)%nat -> VersionEdit_DecodeLoop fuel self src = Fault -> undecodable_file src.
Proof.
  revert self src; induction fuel as [|fuel IH]; intros [e h] [|b src] Hlen;
    try done; [simpl in Hlen; lia|].
  cbn [VersionEdit_DecodeLoop]. set (s0 := b :: src) in *.
  destruct (GetVarint32 s0) as [[tag s1]|] eqn:E0; [|done]. cbn [or_err result_bind].
  pose proof (get_varint32_shorter _ _ _ E0).
  repeat (match goal with |- context [tag =? ?t] => destruct (Z.eqb_spec tag t) as [->|_] end);
    try done;
    repeat match goal with
    | |- context [or_err ?o _] =>
        let E := fresh "E" in destruct o as [[??]|] eqn:E; cbn [or_err result_bind]; try done;
        let Hs := fresh "Hs" in pose proof E as Hs
    | |- context [dangling_error (BlobFileMeta_DecodeFrom ?t ?s)] =>
        let E := fresh "E" in destruct (BlobFileMeta_DecodeFrom t s) as [[??]| |] eqn:E;
        cbn [dangling_error result_bind];
        [pose proof (BlobFileMeta_DecodeFrom_shorter _ _ _ _ E)
        |by intros _; eapply undecodable_v2
        |by apply BlobFileMeta_DecodeFrom_no_fault in E]
    | |- context [dangling_error (BlobFileMeta_DecodeFromLegacy ?t ?s)] =>
        let E := fresh "E" in destruct (BlobFileMeta_DecodeFromLegacy t s) as [[??]| |] eqn:E;
        cbn [dangling_error result_bind];
        [pose proof (BlobFileMeta_DecodeFromLegacy_shorter _ _ _ _ E)
        |by intros _; eapply undecodable_legacy
        |by apply BlobFileMeta_DecodeFromLegacy_no_fault in E]
    end;
    try destruct (make_shared _ _);
    (intros Hf; apply IH in Hf; [|get_shorter; lia]).
  all: first [by eapply undecodable_next|by eapply undecodable_cf|by eapply undecodable_after_legacy
    |by eapply undecodable_after_v2|by eapply undecodable_deleted|by eapply undecodable_updated].
Qed.

(** Case analysis on one iteration of the loop in [Hd]. *)
Ltac loop_cases Hd :=
  cbn [VersionEdit_DecodeLoop] in Hd;
  repeat match type of Hd with
  | context [or_err ?o _] => destruct o as [[??]|]; cbn [or_err result_bind] in Hd
  | context [dangling_error ?o] => destruct o as [[??]| |]; cbn [dangling_error result_bind] in Hd
  | context [if ?c then _ else _] => destruct c
  | context [make_shared ?m ?h] => destruct (make_shared m h)
  end.

Ltac tag_cases :=
  cbn [Z.eqb Pos.eqb Tag.kUpdateDiscardableSize Tag.kDeletedBlobFile Tag.kNextFileNumber
       Tag.kColumnFamilyID Tag.kAddedBlobFile Tag.kAddedBlobFileV2].

Lemma undecodable_faults src fuel self :
  undecodable_file src -> VersionEdit_DecodeLoop fuel self src = Fault.
Proof.
  intros Hu. revert fuel self. induction Hu; intros fuel [e h];
    destruct src as [|b src]; try (get_shorter; simpl in *; lia); (destruct fuel as [|fuel]; [done|]);
    cbn [VersionEdit_DecodeLoop];
    repeat match goal with
    | Hx : ?o = Some _ |- context [or_err ?o _] => rewrite Hx; cbn [or_err result_bind]
    | Hx : ?o = Ok _ |- context [dangling_error ?o] => rewrite Hx; cbn [dangling_error result_bind]
    | Hx : ?o = Err _ |- context [dangling_error ?o] => rewrite Hx; cbn [dangling_error result_bind]
    | |- _ => progress tag_cases
    end; try done; try destruct (make_shared _ _); auto.
Qed.

Lemma VersionEdit_DecodeLoop_consumes fuel self src self' r :
  VersionEdit_DecodeLoop fuel self src = Ok (self', r) -> r = [].
Proof.
  revert self src; induction fuel as [|fuel IH]; intros [e h] [|b src] Hd;
    loop_cases Hd; try discriminate Hd; first [exact (IH _ _ Hd)|by simplify_eq].
Qed.

Lemma VersionEdit_DecodeLoop_error fuel self src s :
  VersionEdit_DecodeLoop fuel self src = Err s -> exists msg, s = Corruption msg.
Proof.
  revert self src; induction fuel as [|fuel IH]; intros [e h] [|b src] Hd;
    loop_cases Hd; try discriminate Hd; first [exact (IH _ _ Hd)|simplify_eq; by eexists].
Qed.

(** One iteration per kind of item. *)
Ltac decode_item :=
  match goal with
  | |- VersionEdit_DecodeLoop _ _ (?p ++ ?q) = _ =>
      let b := fresh "b" in let s' := fresh "s'" in let E := fresh "E" in
      let Hne := fresh "Hne" in
      assert (Hne : p ++ q <> []) by
        (let HH := fresh in intros [HH _]%app_nil; by apply varint32_nonempty in HH);
      destruct (p ++ q) as [|b s'] eqn:E; [done|]; cbn [VersionEdit_DecodeLoop];
      rewrite <- E; clear Hne E b s'
  end.

Lemma decode_next fuel e h v rest :
  is_u64 v ->
  VersionEdit_DecodeLoop (S fuel) (e, h)
    (PutVarint32 Tag.kNextFileNumber ++ PutVarint64 v ++ rest) =
  VersionEdit_DecodeLoop fuel (SetNextFileNumber v e, h) rest.
Proof.
  intros Hv. decode_item. rewrite varint32_roundtrip by done. cbn [or_err result_bind].
  rewrite varint64_roundtrip by done. done.
Qed.

Lemma decode_cf fuel e h v rest :
  is_u32 v ->
  VersionEdit_DecodeLoop (S fuel) (e, h)
    (PutVarint32 Tag.kColumnFamilyID ++ PutVarint32 v ++ rest) =
  VersionEdit_DecodeLoop fuel (SetColumnFamilyID v e, h) rest.
Proof.
  intros Hv. decode_item. rewrite varint32_roundtrip by done. cbn [or_err result_bind].
  tag_cases.
  rewrite varint32_roundtrip by done. done.
Qed.

Lemma decode_added fuel e h m rest :
  meta_wf m ->
  VersionEdit_DecodeLoop (S fuel) (e, h)
    (PutVarint32 Tag.kAddedBlobFileV2 ++ BlobFileMeta_EncodeTo m ++ rest) =
  VersionEdit_DecodeLoop fuel
    (VersionEdit_AddBlobFile (make_shared (persistent m) h).1 e,
     (make_shared (persistent m) h).2) rest.
Proof.
  intros Hm. decode_item. rewrite varint32_roundtrip by done. cbn [or_err result_bind].
  tag_cases.
  rewrite BlobFileMeta_roundtrip_default by done. done.
Qed.

Lemma decode_deleted fuel e h n rest :
  is_u64 n ->
  VersionEdit_DecodeLoop (S fuel) (e, h)
    (PutVarint32 Tag.kDeletedBlobFile ++ PutVarint64 n ++ rest) =
  VersionEdit_DecodeLoop fuel (DeleteBlobFile n 0 e, h) rest.
Proof.
  intros Hn. decode_item. rewrite varint32_roundtrip by done. cbn [or_err result_bind].
  tag_cases.
  rewrite varint64_roundtrip by done. done.
Qed.

Lemma decode_updated fuel e h n d rest :
  is_u64 n -> is_u64 d ->
  VersionEdit_DecodeLoop (S fuel) (e, h)
    (PutVarint32 Tag.kUpdateDiscardableSize ++ PutVarint64 n ++ PutVarint64 d ++ rest) =
  VersionEdit_DecodeLoop fuel (UpdateBlobFile n d e, h) rest.
Proof.
  intros Hn Hd. decode_item. rewrite varint32_roundtrip by done. cbn [or_err result_bind].
  tag_cases.
  rewrite varint64_roundtrip by done. cbn [or_err result_bind].
  rewrite varint64_roundtrip by done. done.
Qed.

Definition append_added (ls : list loc) (e : VersionEdit) : VersionEdit :=
  MkVersionEdit (has_next_file_number e) (next_file_number e) (column_family_id e)
    (added_files e ++ ls) (deleted_files e) (updated_discardable_size e).

Definition append_deleted (ds : list (Z * Z)) (e : VersionEdit) : VersionEdit :=
  MkVersionEdit (has_next_file_number e) (next_file_number e) (column_family_id e)
    (added_files e) (deleted_files e ++ ds) (updated_discardable_size e).

(** The locations [ls] were allocated on top of [h] for the objects [ms]. *)
Record allocated (h h' : heap) (ls : list loc) (ms : list BlobFileMeta) : Prop := {
  alloc_extends : h ⊆ h';
  alloc_deref : deref h' <$> ls = ms;
  alloc_live : Forall (fun l => is_Some (h' !! l)) ls;
  alloc_fresh : Forall (fun l => h !! l = None) ls;
  alloc_nodup : NoDup ls
}.

Lemma allocated_nil h : allocated h h [] [].
Proof. split; by try constructor. Qed.

Lemma allocated_cons h h' m ls ms :
  allocated (make_shared m h).2 h' ls ms ->
  allocated h h' ((make_shared m h).1 :: ls) (m :: ms).
Proof.
  intros [Hext Hd Hl Hf Hn].
  assert (Hin : (make_shared m h).2 !! (make_shared m h).1 = Some m) by apply lookup_insert_eq.
  split.
  - etrans; [apply make_shared_subseteq|done].
  - simpl. f_equal; [|done]. rewrite (deref_subseteq _ _ _ Hext) by by eexists.
    apply deref_make_shared.
  - constructor; [|done]. eexists. by eapply lookup_weaken.
  - constructor; [apply make_shared_fresh|]. eapply Forall_impl; [exact Hf|].
    intros l Hl'. destruct (h !! l) eqn:E; [|done].
    eapply lookup_weaken in E; [|apply (make_shared_subseteq m)]. congruence.
  - constructor; [|done]. intros Hin'. rewrite Forall_forall in Hf.
    specialize (Hf _ Hin'). congruence.
Qed.

Lemma decode_added_list ms fuel e h rest :
  Forall meta_wf ms -> (length ms <= fuel)%nat ->
  exists ls h', allocated h h' ls (persistent <$> ms) /\
  VersionEdit_DecodeLoop fuel (e, h)
    (concat ((fun m => PutVarint32 Tag.kAddedBlobFileV2 ++ BlobFileMeta_EncodeTo m) <$> ms)
     ++ rest) =
  VersionEdit_DecodeLoop (fuel - length ms) (append_added ls e, h') rest.
Proof.
  revert fuel e h; induction ms as [|m ms IH]; intros fuel e h Hwf Hfuel.
  - exists [], h. split; [apply allocated_nil|]. cbn [fmap list_fmap concat app length].
    rewrite Nat.sub_0_r. unfold append_added. rewrite app_nil_r. by destruct e.
  - destruct fuel as [|fuel]; [simpl in Hfuel; lia|].
    inversion Hwf as [|? ? Hm Hms]; subst.
    destruct (IH fuel (VersionEdit_AddBlobFile (make_shared (persistent m) h).1 e)
                (make_shared (persistent m) h).2) as (ls & h' & Hal & Hdec);
      [done|simpl in Hfuel; lia|].
    exists ((make_shared (persistent m) h).1 :: ls), h'.
    split; [by apply allocated_cons|]. cbn [fmap list_fmap concat length].
    rewrite <- !app_assoc, decode_added, Hdec by done.
    unfold append_added, VersionEdit_AddBlobFile. cbn. by rewrite <- app_assoc.
Qed.

Lemma decode_deleted_list ds fuel e h rest :
  Forall (fun d => is_u64 d.1) ds -> (length ds <= fuel)%nat ->
  VersionEdit_DecodeLoop fuel (e, h)
    (concat ((fun d : Z * Z => PutVarint32 Tag.kDeletedBlobFile ++ PutVarint64 d.1) <$> ds)
     ++ rest) =
  VersionEdit_DecodeLoop (fuel - length ds) (append_deleted ((fun d => (d.1, 0)) <$> ds) e, h) rest.
Proof.
  revert fuel e; induction ds as [|d ds IH]; intros fuel e Hwf Hfuel.
  - cbn [fmap list_fmap concat app length]. rewrite Nat.sub_0_r.
    unfold append_deleted. rewrite app_nil_r. by destruct e.
  - destruct fuel as [|fuel]; [simpl in Hfuel; lia|]. inversion Hwf; subst.
    cbn [fmap list_fmap concat length]. rewrite <- !app_assoc, decode_deleted by done.
    rewrite IH by (simpl in Hfuel; done || lia).
    unfold append_deleted, DeleteBlobFile. cbn. by rewrite <- app_assoc.
Qed.

Lemma decode_updated_list us fuel e h :
  Forall (fun u => is_u64 u.1 /\ is_u64 u.2) us -> (length us <= fuel)%nat ->
  VersionEdit_DecodeLoop fuel (e, h)
    (concat ((fun u : Z * Z => PutVarint32 Tag.kUpdateDiscardableSize ++ PutVarint64 u.1
                               ++ PutVarint64 u.2) <$> us)) =
  Ok ((foldl (fun e u => UpdateBlobFile u.1 u.2 e) e us, h), []).
Proof.
  revert fuel e; induction us as [|u us IH]; intros fuel e Hwf Hfuel.
  - by destruct fuel.
  - destruct fuel as [|fuel]; [simpl in Hfuel; lia|]. inversion Hwf as [|? ? [] ]; subst.
    cbn [fmap list_fmap concat length]. rewrite <- !app_assoc, decode_updated by done.
    rewrite IH by (simpl in Hfuel; done || lia). done.
Qed.

Lemma foldl_UpdateBlobFile us e :
  NoDup us.*1 -> (forall k, k ∈ us.*1 -> updated_discardable_size e !! k = None) ->
  foldl (fun e u => UpdateBlobFile u.1 u.2 e) e us =
  MkVersionEdit (has_next_file_number e) (next_file_number e) (column_family_id e)
    (added_files e) (deleted_files e) (list_to_map us ∪ updated_discardable_size e).
Proof.
  revert e; induction us as [|u us IH]; intros e Hnd Hne.
  - simpl. rewrite (left_id_L ∅ (∪)). by destruct e.
  - simpl in Hnd. apply NoDup_cons in Hnd as [Hu Hnd]. simpl.
    assert (Hnone : updated_discardable_size e !! u.1 = None) by (apply Hne; left).
    assert (Hemp : emplace u.1 u.2 (updated_discardable_size e)
                   = <[u.1 := u.2]> (updated_discardable_size e)).
    { unfold emplace. by rewrite Hnone. }
    rewrite IH; [| |].
    + unfold UpdateBlobFile. cbn. rewrite Hemp. destruct u as [k v]. cbn in *.
      f_equal. rewrite <- insert_union_l. symmetry.
      apply insert_union_r. by apply not_elem_of_list_to_map_1.
    + done.
    + intros k Hk. unfold UpdateBlobFile. cbn. rewrite Hemp.
      rewrite lookup_insert_ne by (intros <-; done). apply Hne. by right.
Qed.

Lemma concat_length_ge {A} (ls : list (list A)) :
  Forall (fun l => l <> []) ls -> (length ls <= length (concat ls))%nat.
Proof.
  induction 1 as [|l ls Hl _ IH]; [done|]. simpl. rewrite length_app.
  destruct l; [done|]. simpl. lia.
Qed.

Lemma chunks_nonempty {A} (f : A -> bytes) t (l : list A) :
  Forall (fun s => s <> []) ((fun x => PutVarint32 t ++ f x) <$> l).
Proof.
  apply Forall_fmap, Forall_true. intros x [Hn _]%app_nil. by apply varint32_nonempty in Hn.
Qed.

Lemma decode_next_opt (e : VersionEdit) fuel e0 h rest :
  is_u64 (next_file_number e) ->
  VersionEdit_DecodeLoop ((if has_next_file_number e then 1 else 0) + fuel) (e0, h)
    ((if has_next_file_number e
      then PutVarint32 Tag.kNextFileNumber ++ PutVarint64 (next_file_number e) else []) ++ rest) =
  VersionEdit_DecodeLoop fuel
    (if has_next_file_number e then SetNextFileNumber (next_file_number e) e0 else e0, h) rest.
Proof.
  intros Hn. destruct (has_next_file_number e); [|done]. rewrite <- app_assoc. by apply decode_next.
Qed.

(** Enough fuel: each item of the encoding has at least its tag's byte. *)
Lemma EncodeTo_length h e :
  (length (added_files e) + length (deleted_files e)
   + length (unordered_iter (updated_discardable_size e)) + 1
   + (if has_next_file_number e then 1 else 0) <= length (VersionEdit_EncodeTo h e))%nat.
Proof.
  pose proof (concat_length_ge _ (chunks_nonempty (fun l => BlobFileMeta_EncodeTo (deref h l))
                Tag.kAddedBlobFileV2 (added_files e))) as H1.
  pose proof (concat_length_ge _ (chunks_nonempty (fun d : Z * Z => PutVarint64 d.1)
                Tag.kDeletedBlobFile (deleted_files e))) as H2.
  pose proof (concat_length_ge _ (chunks_nonempty (fun u : Z * Z => PutVarint64 u.1 ++ PutVarint64 u.2)
                Tag.kUpdateDiscardableSize (unordered_iter (updated_discardable_size e)))) as H3.
  rewrite length_fmap in H1. rewrite length_fmap in H2. rewrite length_fmap in H3. unfold VersionEdit_EncodeTo. rewrite !length_app.
  assert (forall v, 1 <= length (PutVarint32 v))%nat as Hv.
  { intros v. destruct (PutVarint32 v) eqn:E; [by apply varint32_nonempty in E|simpl; lia]. }
  pose proof (Hv Tag.kColumnFamilyID). pose proof (Hv Tag.kNextFileNumber).
  destruct (has_next_file_number e); rewrite ?length_app; lia.
Qed.

Lemma VersionEdit_roundtrip h h0 e :
  edit_wf h e ->
  exists files h',
    DecodeInto VersionEdit_DecodeFrom (VersionEdit_EncodeTo h e) (VersionEdit_default, h0) =
      Ok (MkVersionEdit (has_next_file_number e) (next_file_number e) (column_family_id e)
            files ((fun d => (d.1, 0)) <$> deleted_files e) (updated_discardable_size e), h')
    /\ allocated h0 h' files ((fun l => persistent (deref h l)) <$> added_files e).
Proof.
  intros [Hn Hnn Hcf Hadd Hdel Hupd].
  pose proof (EncodeTo_length h e) as Hlen.
  unfold DecodeInto, VersionEdit_DecodeFrom.
  set (F := length (VersionEdit_EncodeTo h e)) in *. unfold VersionEdit_EncodeTo.
  set (b := (if has_next_file_number e then 1 else 0)%nat) in *.
  replace F with (b + (S (F - b - 1)))%nat by lia. subst b.
  rewrite decode_next_opt, <- app_assoc, decode_cf by done.
  set (e1 := if has_next_file_number e then _ else _).
  assert (Hsplit : forall (A B : Type) (f : A -> B) (g : loc -> A), f <$> (g <$> added_files e)
            = (fun l => f (g l)) <$> added_files e) by (intros; by rewrite <- list_fmap_compose).
  rewrite <- (Hsplit _ _ (fun m => PutVarint32 Tag.kAddedBlobFileV2 ++ BlobFileMeta_EncodeTo m)).
  rewrite <- (Hsplit _ _ persistent).
  edestruct (decode_added_list (deref h <$> added_files e)) as (ls & h' & Hal & Hdec);
    [by apply Forall_fmap|shelve|].
  rewrite Hdec. rewrite length_fmap.
  rewrite decode_deleted_list by (rewrite ?length_fmap; done || lia).
  rewrite decode_updated_list; [|apply Forall_forall|rewrite ?length_fmap; lia].
  2: { intros [k v] Hin. apply elem_of_unordered_iter in Hin. by apply (Hupd k v). }
  rewrite foldl_UpdateBlobFile; [|apply NoDup_unordered_iter|].
  2: { intros k _. unfold e1. by destruct (has_next_file_number e). }
  exists ls, h'. split; [|done]. cbn. rewrite unordered_iter_to_map.
  unfold e1. destruct (has_next_file_number e) eqn:E; cbn; rewrite (right_id_L ∅ (∪)); [done|].
  by rewrite Hnn.
  Unshelve. rewrite length_fmap. lia.
Qed.

(** C33: Reading a manifest record back gives the edit that was written: for
    every edit whose fields fit their widths, decoding its encoding consumes the
    whole record and yields the same flag, file number, column family, file
    deletions (with the obsolete sequence, which is not written, reset to 0) and
    discardable-size updates, and for each added file a fresh metadata object
    with the persistent fields of the one encoded. *)
Theorem version_edit_roundtrip h h0 e :
  edit_wf h e ->
  exists files h',
    DecodeInto VersionEdit_DecodeFrom (VersionEdit_EncodeTo h e) (VersionEdit_default, h0) =
      Ok (MkVersionEdit (has_next_file_number e) (next_file_number e) (column_family_id e)
            files ((fun d => (d.1, 0)) <$> deleted_files e) (updated_discardable_size e), h')
    /\ allocated h0 h' files ((fun l => persistent (deref h l)) <$> added_files e).
Proof. apply VersionEdit_roundtrip. Qed.

(** C34: Decoding a manifest record terminates on every byte string, with one
    iteration per input byte at most: it returns an edit and consumes the whole
    record, or a corruption status, or has undefined behaviour, and the last
    exactly when decoding reaches an added file whose metadata does not decode:
    the error text of that case points into a string that is already
    destroyed when it is read. *)
Theorem version_edit_decode_total src self :
  ((exists self', VersionEdit_DecodeFrom self src = Ok (self', [])) \/
   (exists msg, VersionEdit_DecodeFrom self src = Err (Corruption msg)) \/
   VersionEdit_DecodeFrom self src = Fault) /\
  (VersionEdit_DecodeFrom self src = Fault <-> undecodable_file src).
Proof.
  split; [|split; [by apply VersionEdit_DecodeLoop_fault|by intros; apply undecodable_faults]].
  destruct (VersionEdit_DecodeFrom self src) as [[self' r]|s|] eqn:E; [left|right; left|by right; right].
  - exists self'. rewrite <- (VersionEdit_DecodeLoop_consumes _ _ _ _ _ E). done.
  - destruct (VersionEdit_DecodeLoop_error _ _ _ _ E) as [msg ->]. by exists msg.
Qed.
End decode.

Definition example_heap : heap := {[ 1%positive := example_meta ]}.

Definition example_edit : VersionEdit :=
  UpdateBlobFile 12 7 (DeleteBlobFile 4 9 (VersionEdit_AddBlobFile 1
    (SetColumnFamilyID 3 (SetNextFileNumber 15 VersionEdit_default)))).

#[local] Existing Instances leb128_coding map_to_list_iter.

Lemma example_edit_wf : edit_wf example_heap example_edit.
Proof.
  split; simpl.
  - vm_compute. intuition congruence.
  - done.
  - vm_compute. intuition congruence.
  - constructor; [|done]. vm_compute. intuition congruence.
  - constructor; [|done]. vm_compute. intuition congruence.
  - apply map_Forall_singleton. vm_compute. intuition congruence.
Qed.

Lemma version_edit_roundtrip_witness :
  exists files h',
    DecodeInto VersionEdit_DecodeFrom (VersionEdit_EncodeTo example_heap example_edit)
      (VersionEdit_default, ∅) =
      Ok (MkVersionEdit true 15 3 files [(4, 0)] {[ 12 := 7 ]}, h')
    /\ allocated ∅ h' files [set_discardable_size 0 example_meta].
Proof. exact (version_edit_roundtrip example_heap ∅ example_edit example_edit_wf). Defined.

(** A record with an added file cut off after its tag: the corruption is found
    and its text is read after it was freed. *)
Definition truncated_record : bytes := [Byte.x01; Byte.x0f; Byte.x0d].

Lemma truncated_record_undecodable : undecodable_file truncated_record.
Proof.
  apply (undecodable_next _ [Byte.x0f; Byte.x0d] 15 [Byte.x0d]); [reflexivity|reflexivity|].
  by apply (undecodable_v2 _ [] (Corruption "BlobFileMeta decode failed")).
Qed.

Lemma version_edit_decode_total_witness :
  VersionEdit_DecodeFrom (VersionEdit_default, ∅) truncated_record = Fault /\
  VersionEdit_DecodeFrom (VersionEdit_default, ∅) [Byte.x01; Byte.x0f] =
    Ok ((SetNextFileNumber 15 VersionEdit_default, ∅), []) /\
  ~ undecodable_file [Byte.x01; Byte.x0f].
Proof.
  split; [|split; [reflexivity|]].
  - apply (version_edit_decode_total truncated_record (VersionEdit_default, ∅)), truncated_record_undecodable.
  - intros Hu. apply (version_edit_decode_total [Byte.x01; Byte.x0f] (VersionEdit_default, ∅)) in Hu.
    discriminate Hu.
Defined.
