(* ===== verification/BlobStorage.v ===== *)
(** * The blob storage of a column family (src/blob_storage.h, src/blob_storage.cc)

    Every method holds the storage's mutex for its whole body, so a method is
    one step. The metadata heap, the statistics and the caches are shared by all
    column families. *)

From S2P Require Import Prelude Rocks Options Stats Util BlobFormat Env BlobFileBuilder BlobFileReader VersionEdit.

(** [GCScore] of src/blob_gc.h. *)
Record GCScore := MkGCScore { gcs_file_number : Z; gcs_score : double }.

Section storage.
Context `{Coding} `{Compressors} `{Env} `{BC : Cache bytes} `{FC : !Cache BlobFileReader}
        `{UnorderedIter}.

(** What the storages share. *)
Record Shared := MkShared {
  sh_heap : heap;
  sh_stats : option TitanStats;
  sh_caches : Caches
}.

Record BlobStorage := MkBlobStorage {
  bs_db_options : TitanDBOptions;
  bs_cf_options : TitanCFOptions;
  bs_cf_id : Z;
  files : gmap Z loc;
  building_files : gmap Z rafile;
  blob_ranges : list (bytes * loc);
  gc_score : list GCScore;
  obsolete_files : list (Z * Z);
  destroyed : bool;
  level_blob_size : list Z
}.

Definition BlobStorage_new (db : TitanDBOptions) (cf : TitanCFOptions) (cf_id : Z) : BlobStorage :=
  MkBlobStorage db cf cf_id ∅ ∅ [] [] [] false
    (replicate (Z.to_nat (num_levels (cf_base cf) + 1)) 0).

Definition bs_comparator (bs : BlobStorage) : Comparator := comparator (cf_base (bs_cf_options bs)).
Definition bs_num_levels (bs : BlobStorage) : Z := num_levels (cf_base (bs_cf_options bs)).

Definition set_heap (h : heap) (sh : Shared) : Shared := MkShared h (sh_stats sh) (sh_caches sh).
Definition set_stats (st : option TitanStats) (sh : Shared) : Shared :=
  MkShared (sh_heap sh) st (sh_caches sh).
Definition set_caches (c : Caches) (sh : Shared) : Shared := MkShared (sh_heap sh) (sh_stats sh) c.

(** ** The [std::multimap] from smallest keys to files *)

(** [emplace]: after the entries whose key does not exceed the new one. *)
Fixpoint multimap_emplace (cmp : Comparator) (k : bytes) (v : loc) (l : list (bytes * loc))
    : list (bytes * loc) :=
  match l with
  | [] => [(k, v)]
  | (k', v') :: l' =>
      if cmp k k' <? 0 then (k, v) :: l else (k', v') :: multimap_emplace cmp k v l'
  end.

(** The positions of [lower_bound(k)] and [upper_bound(k)]. *)
Fixpoint lower_bound (cmp : Comparator) (k : bytes) (l : list (bytes * loc)) : nat :=
  match l with
  | [] => 0
  | (k', _) :: l' => if cmp k' k <? 0 then S (lower_bound cmp k l') else 0
  end.

Fixpoint upper_bound (cmp : Comparator) (k : bytes) (l : list (bytes * loc)) : nat :=
  match l with
  | [] => 0
  | (k', _) :: l' => if cmp k k' <? 0 then 0 else S (upper_bound cmp k l')
  end.

(** Erases the first entry of [equal_range(k)] whose file has this number. *)
Fixpoint erase_range (cmp : Comparator) (h : heap) (k : bytes) (number : Z)
    (l : list (bytes * loc)) : list (bytes * loc) :=
  match l with
  | [] => []
  | (k', v') :: l' =>
      if negb (cmp k' k <? 0) && negb (cmp k k' <? 0) && (file_number (deref h v') =? number)
      then l' else (k', v') :: erase_range cmp h k number l'
  end.

(** ** Adding and finding files *)

Definition bs_FindFile (number : Z) (bs : BlobStorage) : option loc := files bs !! number.

Definition FindBuildingFile (number : Z) (bs : BlobStorage) : option rafile :=
  building_files bs !! number.

(** The counter of [level_blob_size_] a file counts in. *)
Definition level_index (bs : BlobStorage) (m : BlobFileMeta) : Z :=
  if file_type m =? kSorted then file_level m else bs_num_levels bs.

Definition bs_AddBlobFile (file : loc) (st : BlobStorage * Shared) : BlobStorage * Shared :=
  let '(bs, sh) := st in
  let m := deref (sh_heap sh) file in
  let stats := AddStats (sh_stats sh) (bs_cf_id bs) LIVE_BLOB_FILE_SIZE (file_size m) in
  let stats := AddStats stats (bs_cf_id bs) NUM_LIVE_BLOB_FILE 1 in
  (MkBlobStorage (bs_db_options bs) (bs_cf_options bs) (bs_cf_id bs)
     (emplace (file_number m) file (files bs))
     (if sep_before_flush (bs_db_options bs) then delete (file_number m) (building_files bs)
      else building_files bs)
     (multimap_emplace (bs_comparator bs) (smallest_key m) file (blob_ranges bs))
     (gc_score bs) (obsolete_files bs) (destroyed bs)
     (array_update (fun v => v +u64 file_size m) (level_blob_size bs) (level_index bs m)),
   set_stats stats sh).

(** [AddBuildingFile]: on an error the storage is unchanged. *)
Definition AddBuildingFile (w : fs) (number : Z) (bs : BlobStorage) : result BlobStorage :=
  let* reader := NewRandomAccessFile w (BlobFileName (dirname (bs_db_options bs)) number) in
  Ok (MkBlobStorage (bs_db_options bs) (bs_cf_options bs) (bs_cf_id bs) (files bs)
        (emplace number reader (building_files bs)) (blob_ranges bs) (gc_score bs)
        (obsolete_files bs) (destroyed bs) (level_blob_size bs)).

(** ** Obsolete files *)

Definition MarkFileObsoleteLocked (file : loc) (obsolete_sequence : Z)
    (st : BlobStorage * Shared) : BlobStorage * Shared :=
  let '(bs, sh) := st in
  let h := heap_call (FileStateTransit FileEvent.kDelete) file (sh_heap sh) in
  let m := deref (sh_heap sh) file in
  let cf := bs_cf_id bs in
  let stats := SubStats (sh_stats sh) cf LIVE_BLOB_SIZE (file_size m -u64 discardable_size m) in
  let stats := SubStats stats cf LIVE_BLOB_FILE_SIZE (file_size m) in
  let stats := SubStats stats cf NUM_LIVE_BLOB_FILE 1 in
  let stats := AddStats stats cf OBSOLETE_BLOB_FILE_SIZE (file_size m) in
  let stats := AddStats stats cf NUM_OBSOLETE_BLOB_FILE 1 in
  (MkBlobStorage (bs_db_options bs) (bs_cf_options bs) (bs_cf_id bs) (files bs)
     (building_files bs) (blob_ranges bs) (gc_score bs)
     (obsolete_files bs ++ [(file_number m, obsolete_sequence)]) (destroyed bs)
     (array_update (fun v => v -u64 file_size m) (level_blob_size bs) (level_index bs m)),
   set_heap h (set_stats stats sh)).

Definition MarkFileObsolete (number obsolete_sequence : Z) (st : BlobStorage * Shared)
    : bool * (BlobStorage * Shared) :=
  match files st.1 !! number with
  | None => (false, st)
  | Some file => (true, MarkFileObsoleteLocked file obsolete_sequence st)
  end.

Definition RemoveFile (number : Z) (st : BlobStorage * Shared) : bool * (BlobStorage * Shared) :=
  let '(bs, sh) := st in
  match files bs !! number with
  | None => (false, st)
  | Some file =>
      let m := deref (sh_heap sh) file in
      let stats := SubStats (sh_stats sh) (bs_cf_id bs) OBSOLETE_BLOB_FILE_SIZE (file_size m) in
      let stats := SubStats stats (bs_cf_id bs) NUM_OBSOLETE_BLOB_FILE 1 in
      (true,
       (MkBlobStorage (bs_db_options bs) (bs_cf_options bs) (bs_cf_id bs)
          (delete number (files bs)) (building_files bs)
          (erase_range (bs_comparator bs) (sh_heap sh) (smallest_key m) (file_number m)
             (blob_ranges bs))
          (gc_score bs) (obsolete_files bs) (destroyed bs) (level_blob_size bs),
        set_caches (BlobFileCache_Evict number (sh_caches sh)) (set_stats stats sh)))
  end.

Definition set_obsolete_files (l : list (Z * Z)) (bs : BlobStorage) : BlobStorage :=
  MkBlobStorage (bs_db_options bs) (bs_cf_options bs) (bs_cf_id bs) (files bs)
    (building_files bs) (blob_ranges bs) (gc_score bs) l (destroyed bs) (level_blob_size bs).

(** The loop of [GetObsoleteFiles] over the list: the names handed out, the
    entries kept, the storage. *)
Fixpoint GetObsoleteFiles_loop (oldest_sequence : Z) (l : list (Z * Z))
    (st : BlobStorage * Shared) : list string * list (Z * Z) * (BlobStorage * Shared) :=
  match l with
  | [] => ([], [], st)
  | (number, obsolete_sequence) :: l =>
      if oldest_sequence >? obsolete_sequence then
        let '(_, st) := RemoveFile number st in
        let '(names, kept, st) := GetObsoleteFiles_loop oldest_sequence l st in
        (BlobFileName (dirname (bs_db_options st.1)) number :: names, kept, st)
      else
        let '(names, kept, st) := GetObsoleteFiles_loop oldest_sequence l st in
        (names, (number, obsolete_sequence) :: kept, st)
  end.

Definition bs_GetObsoleteFiles (oldest_sequence : Z) (st : BlobStorage * Shared)
    : list string * (BlobStorage * Shared) :=
  let '(names, kept, (bs, sh)) :=
    GetObsoleteFiles_loop oldest_sequence (obsolete_files st.1) st in
  (names, (set_obsolete_files kept bs, sh)).

(** [MarkAllFilesForGC] over the files in iteration order. *)
Definition bs_MarkAllFilesForGC (st : BlobStorage * Shared) : BlobStorage * Shared :=
  let '(bs, sh) := st in
  (bs, foldl (fun sh file =>
         let h := heap_call (fun m => FileStateTransit FileEvent.kDbRestart (set_gc_mark true m))
                    file.2 (sh_heap sh) in
         let level := GetDiscardableRatioLevel (deref h file.2) in
         set_heap h (set_stats (AddStats (sh_stats sh) (bs_cf_id bs) level 1) sh))
       sh (unordered_iter (files bs))).

Definition MarkDestroyed (bs : BlobStorage) : BlobStorage :=
  MkBlobStorage (bs_db_options bs) (bs_cf_options bs) (bs_cf_id bs) (files bs)
    (building_files bs) (blob_ranges bs) (gc_score bs) (obsolete_files bs) true
    (level_blob_size bs).

Definition MaybeRemove (bs : BlobStorage) : bool :=
  destroyed bs && bool_decide (obsolete_files bs = []).

Definition NumBlobFiles (bs : BlobStorage) : Z := Z.of_nat (size (files bs)).
Definition NumObsoleteBlobFiles (bs : BlobStorage) : Z := Z.of_nat (length (obsolete_files bs)).
Definition ExportBlobFiles (bs : BlobStorage) : gmap Z loc := files bs.

(** The destructor: the readers of the files that are left leave the file cache. *)
Definition BlobStorage_destroy (st : BlobStorage * Shared) : Shared :=
  foldl (fun sh file =>
           set_caches (BlobFileCache_Evict (file_number (deref (sh_heap sh) file.2)) (sh_caches sh)) sh)
    st.2 (unordered_iter (files st.1)).

(** Dropping the last reference to the storage, if it is removed. *)
Definition release_storage (bs : BlobStorage) (sh : Shared) : Shared :=
  if MaybeRemove bs then BlobStorage_destroy (bs, sh) else sh.

Lemma destroy_shared st : sh_heap (BlobStorage_destroy st) = sh_heap st.2 /\
  sh_stats (BlobStorage_destroy st) = sh_stats st.2.
Proof.
  unfold BlobStorage_destroy. generalize (unordered_iter (files st.1)) as l. generalize st.2 as sh.
  intros sh l. revert sh. induction l as [|x l IH]; intros sh; [done|]. cbn [foldl]. by rewrite !(proj1 (IH _)), !(proj2 (IH _)).
Qed.

Lemma release_shared bs sh : sh_heap (release_storage bs sh) = sh_heap sh /\
  sh_stats (release_storage bs sh) = sh_stats sh.
Proof. unfold release_storage. destruct (MaybeRemove bs); [apply destroy_shared|done]. Qed.

(** ** Queries *)

(** [ReadBuildingFile]. The record it returns points into a buffer that it frees;
    the model returns what the buffer held. *)
Definition ReadBuildingFile (w : fs) (index : BlobIndex) (record : BlobRecord) (bs : BlobStorage)
    : result BlobRecord :=
  match FindBuildingFile (index_file_number index) bs with
  | None => Err (Corruption ("File " +:+ pretty (index_file_number index) +:+ " not exist"))
  | Some reader =>
      let handle := blob_handle index in
      let* blob := raf_Read w reader (handle_offset handle) (handle_size handle) in
      if negb (handle_size handle =? Z.of_nat (length blob)) then
        Err (Corruption ("ReadRecord actual size: " +:+ pretty (Z.of_nat (length blob))
                         +:+ " not equal to blob size " +:+ pretty (handle_size handle)))
      else
        let* (decoder, blob) := BlobDecoder_DecodeHeader blob in
        let* (record, _) := BlobDecoder_DecodeRecord decoder blob record in
        Ok record
  end.

(** [Get]: the record, when the index points to one. *)
Definition bs_Get (w : fs) (index : BlobIndex) (record : BlobRecord) (st : BlobStorage * Shared)
    : result BlobRecord * Shared :=
  let '(bs, sh) := st in
  match bs_FindFile (index_file_number index) bs with
  | None =>
      if sep_before_flush (bs_db_options bs) then (ReadBuildingFile w index record bs, sh)
      else (Err (Corruption ("Missing blob file: " +:+ pretty (index_file_number index))), sh)
  | Some file =>
      let m := deref (sh_heap sh) file in
      let record :=
        set_only_value (level_merge (bs_cf_options bs) && (file_type m =? kSorted)) record in
      let '(s, c) := BlobFileCache_Get w (bs_db_options bs) (bs_cf_options bs) (file_number m)
                       (file_size m) (blob_handle index) record (sh_caches sh) in
      (let* (record, _) := s in Ok record, set_caches c sh)
  end.

Definition bs_NewPrefetcher (w : fs) (number : Z) (st : BlobStorage * Shared)
    : result BlobFilePrefetcher * Shared :=
  let '(bs, sh) := st in
  match bs_FindFile number bs with
  | None => (Err (Corruption ("Missing blob wfile: " +:+ pretty number)), sh)
  | Some file =>
      let m := deref (sh_heap sh) file in
      let '(s, c) := BlobFileCache_NewPrefetcher w (bs_db_options bs) (bs_cf_options bs)
                       (file_number m) (file_size m)
                       ((file_type m =? kSorted) && level_merge (bs_cf_options bs))
                       (sh_caches sh) in
      (s, set_caches c sh)
  end.

(** The test of [GetBlobFilesInRanges] on one file. *)
Definition in_range (cmp : Comparator) (include_end : bool) (limit : option bytes)
    (m : BlobFileMeta) : bool :=
  match limit with
  | None => negb (is_obsolete m)
  | Some e =>
      negb (is_obsolete m) && negb (bool_decide (largest_key m = []))
      && (if include_end then cmp (largest_key m) e <=? 0 else cmp (largest_key m) e <? 0)
  end.

(** Where the iteration over a range starts and stops; [nullptr] means the
    minimum or maximum. *)
Definition range_start (bs : BlobStorage) (start : option bytes) : nat :=
  match start with Some k => lower_bound (bs_comparator bs) k (blob_ranges bs) | None => 0%nat end.

Definition range_stop (bs : BlobStorage) (limit : option bytes) : nat :=
  match limit with
  | Some k => upper_bound (bs_comparator bs) k (blob_ranges bs)
  | None => length (blob_ranges bs)
  end.

(** One range; iterating from a lower bound past the upper bound leaves the
    multimap. *)
Definition GetBlobFilesInRange (include_end : bool) (range : option bytes * option bytes)
    (h : heap) (bs : BlobStorage) : result (list Z) :=
  let start := range_start bs range.1 in
  let stop := range_stop bs range.2 in
  if (stop <? start)%nat then Fault
  else Ok ((fun e => file_number (deref h e.2))
             <$> filter (fun e => in_range (bs_comparator bs) include_end range.2 (deref h e.2) = true)
                   (take (stop - start) (drop start (blob_ranges bs)))).

Fixpoint GetBlobFilesInRanges (include_end : bool) (rs : list (option bytes * option bytes))
    (h : heap) (bs : BlobStorage) : result (list Z) :=
  match rs with
  | [] => Ok []
  | r :: rs =>
      let* l := GetBlobFilesInRange include_end r h bs in
      let* l' := GetBlobFilesInRanges include_end rs h bs in
      Ok (l ++ l')
  end.

Definition sum_u64 (l : list Z) : Z := foldl (fun s v => s +u64 v) 0 l.

Definition ShouldGCLowLevel (bs : BlobStorage) : bool :=
  let n := bs_num_levels bs in
  let k := Z.to_nat (n - 2) in
  let low_size := sum_u64 (take k (level_blob_size bs)) in
  let high_size := sum_u64 (take (Z.to_nat (n + 1) - k) (drop k (level_blob_size bs))) in
  let total := low_size +u64 high_size in
  (high_size >? low_size) && (low_size >? 0) && (total >? Z.shiftl 100 30)
  && (total / low_size <=? 10).

(** ** GC scores *)

(** The files [ComputeGCScore] skips. *)
Definition skip_gc (cf : TitanCFOptions) (m : BlobFileMeta) : bool :=
  is_obsolete m
  || (level_merge cf && ((file_type m =? kSorted)
                         || double_ltb (GetDiscardableRatio m) (blob_file_discardable_ratio cf))).

Definition file_score (cf : TitanCFOptions) (m : BlobFileMeta) : double :=
  if file_size m <? merge_small_file_threshold cf then blob_file_discardable_ratio cf
  else GetDiscardableRatio m.

Definition gc_score_lt (cf : TitanCFOptions) (first second : GCScore) : bool :=
  if level_merge cf then double_ltb (gcs_score second) (gcs_score first)
  else gcs_file_number first <? gcs_file_number second.

Definition gc_scores (cf : TitanCFOptions) (h : heap) (fs : gmap Z loc) : list GCScore :=
  std_sort (gc_score_lt cf)
    ((fun file => MkGCScore file.1 (file_score cf (deref h file.2)))
       <$> filter (fun file => skip_gc cf (deref h file.2) = false) (unordered_iter fs)).

Definition ComputeGCScore (h : heap) (bs : BlobStorage) : Z * BlobStorage :=
  let scores := gc_scores (bs_cf_options bs) h (files bs) in
  (Z.of_nat (length scores),
   MkBlobStorage (bs_db_options bs) (bs_cf_options bs) (bs_cf_id bs) (files bs)
     (building_files bs) (blob_ranges bs) scores (obsolete_files bs) (destroyed bs)
     (level_blob_size bs)).
End storage.

(** ** Sorted runs *)

(** [CountSortedRun]: files by smallest key; each joins the first run whose last
    file ends before it starts. *)
Fixpoint place_file (f : BlobFileMeta) (ss : list (list BlobFileMeta))
    : list (list BlobFileMeta) :=
  match ss with
  | [] => [[f]]
  | s :: ss =>
      match last s with
      | Some b => if bytes_ltb (largest_key b) (smallest_key f) then (s ++ [f]) :: ss
                  else s :: place_file f ss
      | None => s :: place_file f ss
      end
  end.

Definition sorted_runs (fs : list BlobFileMeta) : list (list BlobFileMeta) :=
  foldl (fun ss f => place_file f ss) []
    (std_sort (fun f1 f2 => bytes_ltb (smallest_key f1) (smallest_key f2)) fs).

Definition CountSortedRun (fs : list BlobFileMeta) : list Z :=
  (fun s => Z.of_nat (length s)) <$> sorted_runs fs.
