(* ===== verification/StorageInv.v ===== *)
(** * What a blob storage keeps true

    The invariant that ties the file table, the range index, the list of
    obsolete files and the counters of a column family together, the steps that
    change them, and the theorems about obsolete files, ranges and GC scores. *)

From S2P Require Import Prelude Rocks Options Stats Util BlobFormat Env BlobFileBuilder BlobFileReader VersionEdit BlobStorage.

(** ** The range index *)

Section ranges.
Context (cmp : Comparator) `{!ComparatorOk cmp}.

Definition range_le (a b : bytes * loc) : Prop := cmp a.1 b.1 <= 0.

#[export] Instance range_le_trans : Transitive range_le.
Proof. intros a b c. apply compare_trans. Qed.

Lemma multimap_emplace_perm k v l : multimap_emplace cmp k v l ≡ₚ (k, v) :: l.
Proof.
  induction l as [|[k' v'] l IH]; simpl; [done|]. case_match; [done|].
  rewrite IH. apply Permutation_swap.
Qed.

Lemma multimap_emplace_sorted k v l :
  StronglySorted range_le l -> StronglySorted range_le (multimap_emplace cmp k v l).
Proof.
  induction 1 as [|[k' v'] l Hl IH Hall]; simpl; [by repeat constructor|].
  destruct (Z.ltb_spec (cmp k k') 0) as [Hlt|Hge].
  - constructor; [by constructor|]. constructor; [unfold range_le; simpl; lia|].
    eapply Forall_impl; [exact Hall|]. intros e He. transitivity (k', v'); [|done].
    unfold range_le. simpl. lia.
  - constructor; [done|]. rewrite multimap_emplace_perm. constructor; [|done].
    unfold range_le. simpl. pose proof (compare_swap k k'). pose proof (compare_swap k' k). lia.
Qed.

Lemma erase_range_sublist h k n l : erase_range cmp h k n l `sublist_of` l.
Proof.
  induction l as [|[k' v'] l IH]; simpl; [done|]. case_match.
  - by apply sublist_cons.
  - by apply sublist_skip.
Qed.

Lemma erase_range_perm h k n l0 l :
  (forall e, e ∈ l -> file_number (deref h e.2) = n -> e = (k, l0)) ->
  (k, l0) ∈ l -> file_number (deref h l0) = n -> l ≡ₚ (k, l0) :: erase_range cmp h k n l.
Proof.
  intros Huniq Hin Hn. induction l as [|[k' v'] l IH]; [by apply not_elem_of_nil in Hin|].
  simpl. destruct (file_number (deref h v') =? n) eqn:Hv.
  - apply Z.eqb_eq in Hv. assert ((k', v') = (k, l0)) as [= -> ->] by (apply Huniq; [left|done]).
    rewrite compare_refl. done.
  - rewrite andb_false_r. etrans; [|apply Permutation_swap]. constructor. apply IH.
    + intros e He. apply Huniq. by right.
    + apply elem_of_cons in Hin as [[= -> ->]|Hin]; [|done]. apply Z.eqb_neq in Hv. done.
Qed.

Lemma StronglySorted_sublist {A} (R : A -> A -> Prop) l l' :
  l `sublist_of` l' -> StronglySorted R l' -> StronglySorted R l.
Proof.
  induction 1 as [|x l l' Hs IH|x l l' Hs IH]; intros HS; [constructor| |]; inversion HS; subst.
  - constructor; [by apply IH|]. rewrite Forall_forall in *. intros y Hy.
    match goal with H : forall _, _ -> R x _ |- _ => apply H end.
    apply sublist_submseteq in Hs. by eapply elem_of_submseteq.
  - by apply IH.
Qed.
End ranges.

(** ** The invariant *)

(** What a file contributes to the counters that describe the file table. *)
Definition weight (t : StatsType) (m : BlobFileMeta) : Z :=
  match t with
  | NUM_LIVE_BLOB_FILE => if is_obsolete m then 0 else 1
  | LIVE_BLOB_FILE_SIZE => if is_obsolete m then 0 else file_size m
  | NUM_OBSOLETE_BLOB_FILE => if is_obsolete m then 1 else 0
  | OBSOLETE_BLOB_FILE_SIZE => if is_obsolete m then file_size m else 0
  | _ => 0
  end.

Definition counted : list StatsType :=
  [NUM_LIVE_BLOB_FILE; LIVE_BLOB_FILE_SIZE; NUM_OBSOLETE_BLOB_FILE; OBSOLETE_BLOB_FILE_SIZE].

(** The sum of a weight over the files of a table. *)
Definition total (g : BlobFileMeta -> Z) (h : heap) (fs : gmap Z loc) : Z :=
  msum (fun _ l => g (deref h l)) fs.

Section inv.
Context `{Coding} `{Compressors} `{Env} `{BC : Cache bytes} `{FC : !Cache BlobFileReader}.

(** The weight of a file in the [i]th level counter. *)
Definition level_weight (bs : BlobStorage) (i : Z) (m : BlobFileMeta) : Z :=
  if is_obsolete m then 0 else if level_index bs m =? i then file_size m else 0.

(** The invariant, with the obsolete entries as an argument. *)
Record storage_inv (obs : list (Z * Z)) (bs : BlobStorage) (sh : Shared) : Prop := {
  inv_levels_pos : 0 <= bs_num_levels bs;
  (** each number maps to the object with that number *)
  inv_files : forall n l, files bs !! n = Some l ->
    exists m, sh_heap sh !! l = Some m /\ file_number m = n /\
              0 <= level_index bs m <= bs_num_levels bs;
  (** the range index has exactly the files, in key order *)
  inv_ranges : blob_ranges bs ≡ₚ
    (fun e => (smallest_key (deref (sh_heap sh) e.2), e.2)) <$> map_to_list (files bs);
  inv_ranges_sorted : StronglySorted (range_le (bs_comparator bs)) (blob_ranges bs);
  (** the obsolete list has exactly the obsolete files, once each *)
  inv_obsolete_nodup : NoDup obs.*1;
  inv_obsolete : forall n, n ∈ obs.*1 <->
    exists l, files bs !! n = Some l /\ is_obsolete (deref (sh_heap sh) l) = true;
  (** the counters are the sums over the files, modulo 2^64 *)
  inv_level_length : Z.of_nat (length (level_blob_size bs)) = bs_num_levels bs + 1;
  inv_level_sums : forall i, 0 <= i <= bs_num_levels bs ->
    array_get (level_blob_size bs) i = wrap64 (total (level_weight bs i) (sh_heap sh) (files bs));
  inv_stats : forall t v, t ∈ counted -> stat (sh_stats sh) (bs_cf_id bs) t = Some v ->
    v = wrap64 (total (weight t) (sh_heap sh) (files bs))
}.

Lemma inv_loc_inj obs bs sh n n' l :
  storage_inv obs bs sh -> files bs !! n = Some l -> files bs !! n' = Some l -> n = n'.
Proof.
  intros Hinv Hn Hn'. destruct (inv_files _ _ _ Hinv _ _ Hn) as (m & Hm & <- & _).
  destruct (inv_files _ _ _ Hinv _ _ Hn') as (m' & Hm' & <- & _). congruence.
Qed.

Lemma inv_number obs bs sh n l :
  storage_inv obs bs sh -> files bs !! n = Some l -> file_number (deref (sh_heap sh) l) = n.
Proof.
  intros Hinv Hn. destruct (inv_files _ _ _ Hinv _ _ Hn) as (m & Hm & <- & _).
  unfold deref. by rewrite Hm.
Qed.

Lemma inv_level_index obs bs sh n l :
  storage_inv obs bs sh -> files bs !! n = Some l ->
  0 <= level_index bs (deref (sh_heap sh) l) <= bs_num_levels bs.
Proof.
  intros Hinv Hn. destruct (inv_files _ _ _ Hinv _ _ Hn) as (m & Hm & _ & Hr).
  unfold deref. by rewrite Hm.
Qed.

(** A change of one object changes its own term of the sum. *)
Lemma total_heap_call obs bs sh n l f g :
  storage_inv obs bs sh -> files bs !! n = Some l ->
  total g (heap_call f l (sh_heap sh)) (files bs) =
  total g (sh_heap sh) (files bs) - g (deref (sh_heap sh) l) + g (f (deref (sh_heap sh) l)).
Proof.
  intros Hinv Hn. assert (Hl : is_Some (sh_heap sh !! l)).
  { destruct (inv_files _ _ _ Hinv _ _ Hn) as (m & Hm & _). by eexists. }
  unfold total. rewrite (msum_change (fun _ l0 => g (deref (sh_heap sh) l0)) _ _ n l Hn).
  - rewrite deref_heap_call, decide_True by done. done.
  - intros n' l' Hne Hn'. rewrite deref_heap_call by done. rewrite decide_False; [done|].
    intros <-. apply Hne. by eapply inv_loc_inj.
Qed.

Lemma total_insert g h fs n l :
  fs !! n = None -> total g h (<[n := l]> fs) = g (deref h l) + total g h fs.
Proof. apply (msum_insert (fun _ l => g (deref h l))). Qed.

Lemma total_delete g h fs n l :
  fs !! n = Some l -> total g h (delete n fs) = total g h fs - g (deref h l).
Proof. intros Hn. unfold total. rewrite (msum_delete _ fs n l Hn). lia. Qed.

(** ** Steps of the outside world

    While a storage stands still, other components move its files through
    their states, add discardable bytes, allocate metadata, read through the
    caches and count in other statistics. They do not change what a file is,
    and do not make it obsolete or live again. *)
Definition same_file (m m' : BlobFileMeta) : Prop :=
  file_number m' = file_number m /\ file_size m' = file_size m /\
  file_type m' = file_type m /\ file_level m' = file_level m /\
  smallest_key m' = smallest_key m /\ largest_key m' = largest_key m /\
  is_obsolete m' = is_obsolete m.

Definition rely (bs : BlobStorage) (sh sh' : Shared) : Prop :=
  (forall n l m, files bs !! n = Some l -> sh_heap sh !! l = Some m ->
     exists m', sh_heap sh' !! l = Some m' /\ same_file m m') /\
  (forall t, t ∈ counted -> stat (sh_stats sh') (bs_cf_id bs) t = stat (sh_stats sh) (bs_cf_id bs) t).

Lemma rely_deref obs bs sh sh' n l :
  storage_inv obs bs sh -> rely bs sh sh' -> files bs !! n = Some l ->
  same_file (deref (sh_heap sh) l) (deref (sh_heap sh') l).
Proof.
  intros Hinv [Hh _] Hn. destruct (inv_files _ _ _ Hinv _ _ Hn) as (m & Hm & _).
  destruct (Hh _ _ _ Hn Hm) as (m' & Hm' & Hsame). unfold deref. by rewrite Hm, Hm'.
Qed.

Lemma total_rely obs bs sh sh' g :
  storage_inv obs bs sh -> rely bs sh sh' ->
  (forall m m', same_file m m' -> g m' = g m) ->
  total g (sh_heap sh') (files bs) = total g (sh_heap sh) (files bs).
Proof.
  intros Hinv Hrely Hg. apply msum_ext. intros n l Hn. apply Hg. by eapply rely_deref.
Qed.

Lemma storage_inv_rely obs bs sh sh' :
  storage_inv obs bs sh -> rely bs sh sh' -> storage_inv obs bs sh'.
Proof.
  intros Hinv Hrely.
  assert (Hd := fun n l => rely_deref obs bs sh sh' n l Hinv Hrely).
  split.
  - apply (inv_levels_pos _ _ _ Hinv).
  - intros n l Hn. destruct (inv_files _ _ _ Hinv _ _ Hn) as (m & Hm & Hnum & Hr).
    destruct (proj1 Hrely _ _ _ Hn Hm) as (m' & Hm' & N1 & _ & N3 & N4 & _).
    exists m'. split; [done|]. split; [congruence|]. unfold level_index in *. by rewrite N3, N4.
  - rewrite (inv_ranges _ _ _ Hinv). apply reflexive_eq, list_fmap_ext.
    intros i [n l] Hi. simpl. f_equal.
    assert (files bs !! n = Some l) as Hn by (apply elem_of_map_to_list; by eapply list_elem_of_lookup_2).
    destruct (Hd n l Hn) as (_ & _ & _ & _ & ? & _). congruence.
  - apply (inv_ranges_sorted _ _ _ Hinv).
  - apply (inv_obsolete_nodup _ _ _ Hinv).
  - intros n. rewrite (inv_obsolete _ _ _ Hinv). split; intros (l & Hn & Hobs); exists l;
      (split; [done|]); destruct (Hd n l Hn) as (_ & _ & _ & _ & _ & _ & ?); congruence.
  - apply (inv_level_length _ _ _ Hinv).
  - intros i Hi. rewrite (inv_level_sums _ _ _ Hinv i Hi). f_equal. symmetry.
    eapply total_rely; [done|done|]. intros m m' (_ & N2 & N3 & N4 & _ & _ & N7).
    unfold level_weight, level_index. by rewrite N2, N3, N4, N7.
  - intros t v Ht Hv. rewrite (proj2 Hrely t Ht) in Hv.
    rewrite (inv_stats _ _ _ Hinv t v Ht Hv). f_equal. symmetry.
    eapply total_rely; [done|done|]. intros m m' (_ & N2 & _ & _ & _ & _ & N7).
    unfold weight. by rewrite N2, N7.
Qed.

(** ** Operations *)

(** Splits a counter of [counted] and evaluates the updates of the statistics. *)
Ltac counter_cases Ht Hv :=
  apply list_elem_of_In in Ht; destruct Ht as [<-|[<-|[<-|[<-|[]]]]]; stat_simpl Hv.

Lemma AddBlobFile_inv obs bs sh file m :
  ComparatorOk (bs_comparator bs) ->
  storage_inv obs bs sh -> sh_heap sh !! file = Some m -> files bs !! file_number m = None ->
  is_obsolete m = false -> 0 <= level_index bs m <= bs_num_levels bs ->
  storage_inv obs (bs_AddBlobFile file (bs, sh)).1 (bs_AddBlobFile file (bs, sh)).2.
Proof.
  intros Hcmp Hinv Hm Hnew Hobs Hlev. destruct Hinv as [Hp Hf Hr Hrs Hnd Ho Hll Hls Hst].
  assert (Hd : deref (sh_heap sh) file = m) by (unfold deref; by rewrite Hm).
  unfold bs_AddBlobFile. cbn [fst snd]. rewrite Hd. unfold emplace. rewrite Hnew.
  split; cbn [files blob_ranges sh_heap set_stats sh_stats level_blob_size bs_cf_id].
  - done.
  - intros n l [[<- <-]|[Hne Hn]]%lookup_insert_Some; [by exists m|by apply Hf].
  - rewrite multimap_emplace_perm, map_to_list_insert by done. rewrite fmap_cons, Hr. simpl.
    by rewrite Hd.
  - by apply multimap_emplace_sorted.
  - done.
  - intros n. rewrite Ho. split; intros (l & Hn & Hl); exists l; (split; [|done]).
    + rewrite lookup_insert_ne; [done|]. congruence.
    + apply lookup_insert_Some in Hn as [[_ <-]|[_ Hn]]; [congruence|done].
  - rewrite array_update_length. done.
  - intros i Hi. change (bs_num_levels _) with (bs_num_levels bs) in Hi.
    rewrite array_get_update by lia. rewrite total_insert by done. rewrite Hd.
    change (level_weight _ i) with (level_weight bs i). unfold level_weight at 1.
    rewrite Hobs, Hls by done. case_decide as Hi'.
    + rewrite (proj2 (Z.eqb_eq _ _)) by done. autorewrite with wrap. f_equal. lia.
    + rewrite (proj2 (Z.eqb_neq _ _)) by done. done.
  - intros t v Ht Hv. rewrite total_insert, Hd by done. pose proof Ht as Ht'.
    counter_cases Ht Hv; unfold weight at 1; rewrite Hobs.
    1,2: apply fmap_Some in Hv as (v0 & Hv & ->); rewrite (Hst _ _ Ht' Hv);
      autorewrite with wrap; f_equal; lia.
    all: rewrite (Hst _ _ Ht' Hv); f_equal; lia.
Qed.

Lemma MarkFileObsolete_inv obs bs sh n seq l :
  storage_inv obs bs sh -> files bs !! n = Some l -> is_obsolete (deref (sh_heap sh) l) = false ->
  let st' := (MarkFileObsolete n seq (bs, sh)).2 in
  storage_inv (obs ++ [(n, seq)]) st'.1 st'.2.
Proof.
  intros Hinv Hn Hlive. unfold MarkFileObsolete. cbn [fst snd]. rewrite Hn.
  unfold MarkFileObsoleteLocked. cbn [fst snd]. set (m := deref (sh_heap sh) l) in *.
  pose proof (fun g => total_heap_call obs bs sh n l (FileStateTransit FileEvent.kDelete) g Hinv Hn)
    as Htot.
  pose proof (inv_level_index _ _ _ _ _ Hinv Hn) as Hlev. fold m in Hlev.
  pose proof (inv_loc_inj obs bs sh) as Hinj.
  assert (Hl : is_Some (sh_heap sh !! l)).
  { destruct (inv_files _ _ _ Hinv _ _ Hn) as (m0 & Hm0 & _). by eexists. }
  assert (Hder : forall n' l', files bs !! n' = Some l' -> n' <> n ->
    deref (heap_call (FileStateTransit FileEvent.kDelete) l (sh_heap sh)) l'
    = deref (sh_heap sh) l').
  { intros n' l' Hn' Hne. rewrite deref_heap_call by done. rewrite decide_False; [done|].
    intros <-. apply Hne. by eapply Hinj. }
  assert (Hobs : is_obsolete (FileStateTransit FileEvent.kDelete m) = true) by done.
  assert (Hder0 : deref (heap_call (FileStateTransit FileEvent.kDelete) l (sh_heap sh)) l
                  = FileStateTransit FileEvent.kDelete m).
  { rewrite deref_heap_call, decide_True by done. done. }
  pose proof Hinv as [Hp Hf Hr Hrs Hnd Ho Hll Hls Hst].
  split; cbn [files blob_ranges sh_heap set_stats set_heap sh_stats level_blob_size bs_cf_id].
  - done.
  - intros n' l' Hn'. destruct (Hf _ _ Hn') as (m' & Hm' & Hnum & Hr').
    unfold heap_call. rewrite lookup_alter. case_decide; subst; rewrite Hm';
      (eexists; split; [reflexivity|]; split; [done|exact Hr']).
  - rewrite Hr. apply reflexive_eq, list_fmap_ext. intros i [n' l'] Hi. simpl. f_equal.
    assert (files bs !! n' = Some l') as Hn'
      by (apply elem_of_map_to_list; by eapply list_elem_of_lookup_2).
    destruct (decide (n' = n)) as [->|Hne]; [|by rewrite (Hder n')].
    replace l' with l by congruence. by rewrite Hder0.
  - done.
  - rewrite fmap_app. apply NoDup_app. split_and!; [done| |apply NoDup_singleton].
    intros x Hx ->%list_elem_of_singleton. apply Ho in Hx as (l' & Hl' & Ho').
    simpl in Hl'. replace l' with l in Ho' by congruence. fold m in Ho'. congruence.
  - intros x. rewrite fmap_app, elem_of_app, Ho. simpl. rewrite list_elem_of_singleton. split.
    + intros [(l' & Hx & Ho')| ->]; [|exists l; split; [done|by rewrite Hder0]].
      exists l'. split; [done|]. destruct (decide (x = n)) as [->|Hne]; [|by rewrite (Hder x)].
      replace l' with l in * by congruence. fold m in Ho'. congruence.
    + intros (l' & Hx & Ho'). destruct (decide (x = n)) as [->|Hne]; [by right|left].
      exists l'. by rewrite (Hder x) in Ho'.
  - by rewrite array_update_length.
  - intros i Hi. change (bs_num_levels _) with (bs_num_levels bs) in Hi.
    rewrite array_get_update by lia. rewrite Htot.
    change (level_weight _ i) with (level_weight bs i). fold m. unfold level_weight at 2 3.
    rewrite Hobs, Hlive, Hls by done. case_decide as Hi'.
    + rewrite (proj2 (Z.eqb_eq _ _)) by done. autorewrite with wrap. f_equal. lia.
    + rewrite (proj2 (Z.eqb_neq _ _)) by done. f_equal. lia.
  - intros t v Ht Hv. rewrite Htot. fold m. pose proof Ht as Ht'.
    counter_cases Ht Hv; unfold weight at 2 3; rewrite Hobs, Hlive.
    all: apply fmap_Some in Hv as (v0 & Hv & ->); rewrite (Hst _ _ Ht' Hv);
      autorewrite with wrap; f_equal; simpl; lia.
Qed.

Lemma RemoveFile_inv pre post bs sh n seq :
  ComparatorOk (bs_comparator bs) ->
  storage_inv (pre ++ (n, seq) :: post) bs sh ->
  let st' := (RemoveFile n (bs, sh)).2 in storage_inv (pre ++ post) st'.1 st'.2.
Proof.
  intros Hcmp Hinv. pose proof Hinv as [Hp Hf Hr Hrs Hnd Ho Hll Hls Hst].
  assert (Hperm : (pre ++ (n, seq) :: post).*1 ≡ₚ n :: (pre ++ post).*1).
  { by rewrite <- Permutation_middle. }
  destruct (proj1 (Ho n)) as (l & Hn & Hobs); [rewrite Hperm; left|].
  rewrite Hperm in Hnd. apply NoDup_cons in Hnd as [Hni Hnd].
  unfold RemoveFile. cbn [fst snd]. rewrite Hn. set (m := deref (sh_heap sh) l) in *.
  assert (Hnum : file_number m = n) by by eapply inv_number.
  split; cbn [fst snd files blob_ranges sh_heap set_stats set_caches sh_stats level_blob_size
              bs_cf_id].
  - done.
  - intros n' l' [_ Hn']%lookup_delete_Some. by apply Hf.
  - assert (Hrp : blob_ranges bs ≡ₚ (smallest_key m, l) ::
              ((fun e => (smallest_key (deref (sh_heap sh) e.2), e.2))
                 <$> map_to_list (delete n (files bs)))).
    { rewrite Hr. rewrite <- (insert_delete_id (files bs) n l Hn) at 1.
      rewrite map_to_list_insert by apply lookup_delete_eq. done. }
    assert (Her : blob_ranges bs ≡ₚ (smallest_key m, l) ::
              erase_range (bs_comparator bs) (sh_heap sh) (smallest_key m) (file_number m)
                (blob_ranges bs)).
    { rewrite Hnum. apply erase_range_perm; [done| |by rewrite Hrp; left|done].
      intros e He Hen. rewrite Hr in He. apply list_elem_of_fmap in He as ([n' l'] & -> & He).
      apply elem_of_map_to_list in He. simpl in *.
      pose proof (inv_number _ _ _ _ _ Hinv He). assert (n' = n) as -> by congruence.
      by replace l' with l by congruence. }
    rewrite Her in Hrp at 1. by apply Permutation_cons_inv in Hrp.
  - eapply StronglySorted_sublist; [apply erase_range_sublist|done].
  - done.
  - intros x. specialize (Ho x). rewrite Hperm, elem_of_cons in Ho. split.
    + intros Hx. destruct (proj1 Ho (or_intror Hx)) as (l' & Hl' & ?). exists l'.
      split; [|done]. rewrite lookup_delete_ne; [done|]. intros ->. done.
    + intros (l' & [Hne Hl']%lookup_delete_Some & ?).
      destruct (proj2 Ho) as [->|?]; [by exists l'|done|done].
  - done.
  - intros i Hi. rewrite (total_delete _ _ _ _ _ Hn). fold m.
    change (level_weight _ i) with (level_weight bs i). unfold level_weight at 2.
    rewrite Hobs, Z.sub_0_r. by apply Hls.
  - intros t v Ht Hv. rewrite (total_delete _ _ _ _ _ Hn). fold m. pose proof Ht as Ht'.
    counter_cases Ht Hv; unfold weight at 2; rewrite Hobs.
    1,2: rewrite (Hst _ _ Ht' Hv); f_equal; lia.
    all: apply fmap_Some in Hv as (v0 & Hv & ->); rewrite (Hst _ _ Ht' Hv);
      autorewrite with wrap; f_equal; lia.
Qed.

(** What stays fixed when files are removed. *)
Lemma RemoveFile_frame n bs sh :
  let '(bs', sh') := (RemoveFile n (bs, sh)).2 in
  bs_db_options bs' = bs_db_options bs /\ bs_cf_options bs' = bs_cf_options bs /\
  bs_cf_id bs' = bs_cf_id bs /\ obsolete_files bs' = obsolete_files bs /\
  destroyed bs' = destroyed bs /\ building_files bs' = building_files bs /\
  files bs' = delete n (files bs) /\ sh_heap sh' = sh_heap sh.
Proof.
  unfold RemoveFile. destruct (files bs !! n) eqn:E; simpl; split_and!; try done.
  by rewrite delete_id.
Qed.

Lemma GetObsoleteFiles_loop_inv oldest l pre bs sh names kept bs' sh' :
  ComparatorOk (bs_comparator bs) ->
  GetObsoleteFiles_loop oldest l (bs, sh) = (names, kept, (bs', sh')) ->
  storage_inv (pre ++ l) bs sh -> storage_inv (pre ++ kept) bs' sh'.
Proof.
  revert pre bs sh names kept; induction l as [|[n seq] l IH];
    intros pre bs sh names kept Hcmp Hloop Hinv; cbn [GetObsoleteFiles_loop] in Hloop;
    [by simplify_eq|].
  case_match.
  - pose proof (RemoveFile_frame n bs sh) as Hfr. pose proof (RemoveFile_inv pre l bs sh n seq Hcmp Hinv)
      as Hinv1. destruct (RemoveFile n (bs, sh)) as [b [bs1 sh1]]. cbn [fst snd] in *.
    destruct Hfr as (_ & Hcf & _). destruct (GetObsoleteFiles_loop oldest l (bs1, sh1)) as [[names1 kept1] st1] eqn:H1'.
    simplify_eq. eapply IH; [|exact H1'|done]. unfold bs_comparator in *. by rewrite Hcf.
  - destruct (GetObsoleteFiles_loop oldest l (bs, sh)) as [[names1 kept1] st1] eqn:H1'. simplify_eq.
    rewrite cons_middle, app_assoc. eapply IH; [done|exact H1'|]. by rewrite <- app_assoc.
Qed.

(** The entries [GetObsoleteFiles(oldest)] hands out. *)
Definition expired (oldest : Z) (e : Z * Z) : Prop := oldest >? e.2 = true.

#[global] Instance expired_dec oldest e : Decision (expired oldest e).
Proof. unfold expired. apply _. Defined.

(** What the loop hands out, keeps and removes. *)
Lemma GetObsoleteFiles_loop_spec oldest l bs sh names kept bs' sh' :
  GetObsoleteFiles_loop oldest l (bs, sh) = (names, kept, (bs', sh')) ->
  names = (fun e => BlobFileName (dirname (bs_db_options bs)) e.1) <$> filter (expired oldest) l /\
  kept = filter (fun e => ~ expired oldest e) l /\
  files bs' = foldr (fun e m => delete e.1 m) (files bs) (filter (expired oldest) l) /\
  sh_heap sh' = sh_heap sh /\ obsolete_files bs' = obsolete_files bs /\
  bs_db_options bs' = bs_db_options bs /\ bs_cf_options bs' = bs_cf_options bs /\
  bs_cf_id bs' = bs_cf_id bs /\ destroyed bs' = destroyed bs.
Proof.
  revert bs sh names kept; induction l as [|[n seq] l IH]; intros bs sh names kept Hloop;
    cbn [GetObsoleteFiles_loop] in Hloop; [by simplify_eq|].
  destruct (oldest >? seq) eqn:Hgt.
  - rewrite filter_cons_True by done. rewrite filter_cons_False by (intros Hn; by apply Hn).
    pose proof (RemoveFile_frame n bs sh) as Hfr.
    destruct (RemoveFile n (bs, sh)) as [b [bs1 sh1]]. cbn [fst snd] in *.
    destruct Hfr as (Hdb & Hcf & Hid & Ho & Hd & _ & Hf & Hh).
    destruct (GetObsoleteFiles_loop oldest l (bs1, sh1)) as [[names1 kept1] [bs2 sh2]] eqn:E2.
    simplify_eq. destruct (IH _ _ _ _ E2) as (-> & -> & Hf' & Hh' & Ho' & Hdb' & Hcf' & Hid' & Hd').
    cbn [fst snd] in *. rewrite Hdb', Hdb. split_and!; try done; try congruence.
    rewrite Hf', Hf. clear. generalize (filter (expired oldest) l) as l'.
    intros l'. induction l' as [|e l' IHl]; [done|]. simpl. rewrite IHl. apply delete_delete.
  - rewrite filter_cons_False by (unfold expired; simpl; congruence).
    rewrite filter_cons_True by (unfold expired; simpl; congruence).
    destruct (GetObsoleteFiles_loop oldest l (bs, sh)) as [[names1 kept1] [bs2 sh2]] eqn:E2.
    simplify_eq. destruct (IH _ _ _ _ E2) as (-> & -> & ?). done.
Qed.
End inv.

(** ** Reachable storages *)

Section reachable.
Context `{Coding} `{Compressors} `{Env} `{BC : Cache bytes} `{FC : !Cache BlobFileReader}
        `{UnorderedIter}.

Definition no_obsolete (bs : BlobStorage) (h : heap) : Prop :=
  forall n l, files bs !! n = Some l -> is_obsolete (deref h l) = false.

Inductive storage_step : BlobStorage * Shared -> BlobStorage * Shared -> Prop :=
| step_world bs sh sh' : rely bs sh sh' -> storage_step (bs, sh) (bs, sh')
| step_add bs sh file m :
    sh_heap sh !! file = Some m -> files bs !! file_number m = None ->
    is_obsolete m = false -> 0 <= level_index bs m <= bs_num_levels bs ->
    storage_step (bs, sh) (bs_AddBlobFile file (bs, sh))
| step_obsolete bs sh n seq l :
    files bs !! n = Some l -> is_obsolete (deref (sh_heap sh) l) = false ->
    storage_step (bs, sh) (MarkFileObsolete n seq (bs, sh)).2
| step_collect bs sh oldest : storage_step (bs, sh) (bs_GetObsoleteFiles oldest (bs, sh)).2
| step_score bs sh : storage_step (bs, sh) ((ComputeGCScore (sh_heap sh) bs).2, sh)
| step_building bs sh w n bs' :
    AddBuildingFile w n bs = Ok bs' -> storage_step (bs, sh) (bs', sh)
| step_destroyed bs sh : storage_step (bs, sh) (MarkDestroyed bs, sh)
| step_restart bs sh :
    no_obsolete bs (sh_heap sh) -> storage_step (bs, sh) (bs_MarkAllFilesForGC (bs, sh)).

Lemma ratio_level_uncounted m : GetDiscardableRatioLevel m ∉ counted.
Proof.
  unfold GetDiscardableRatioLevel, counted. repeat case_match; rewrite !not_elem_of_cons;
    split_and!; try discriminate; apply not_elem_of_nil.
Qed.

Lemma same_file_refl m : same_file m m.
Proof. by repeat split. Qed.

Lemma restart_rely bs sh obs :
  storage_inv obs bs sh -> no_obsolete bs (sh_heap sh) ->
  rely bs sh (bs_MarkAllFilesForGC (bs, sh)).2.
Proof.
  intros Hinv Hno. unfold bs_MarkAllFilesForGC. cbn [snd].
  apply (foldl_invariant (rely bs sh)).
  { split; [|done]. intros n l m _ Hm. exists m. split; [done|apply same_file_refl]. }
  intros sh' [n0 l0] Hin [Hh Hst]. apply elem_of_unordered_iter in Hin. split; cbn [sh_heap
    sh_stats set_heap set_stats snd].
  - intros n l m Hn Hm. destruct (Hh _ _ _ Hn Hm) as (m' & Hm' & Hsame).
    unfold heap_call. rewrite lookup_alter. case_decide; subst; rewrite Hm'.
    + eexists. split; [done|]. destruct Hsame as (?&?&?&?&?&?&Hobs). split_and!; try done.
      specialize (Hno _ _ Hn). unfold deref in Hno. rewrite Hm in Hno. simpl in Hno. by rewrite Hno.
    + by exists m'.
  - intros t Ht. rewrite stat_AddStats_ne; [by apply Hst|]. intros ->.
    by apply (ratio_level_uncounted _ Ht).
Qed.

Lemma storage_step_inv st st' :
  ComparatorOk (bs_comparator st.1) -> storage_step st st' ->
  storage_inv (obsolete_files st.1) st.1 st.2 ->
  storage_inv (obsolete_files st'.1) st'.1 st'.2 /\ bs_cf_options st'.1 = bs_cf_options st.1.
Proof.
  intros Hcmp Hstep Hinv. destruct Hstep as [bs sh sh' Hrely|bs sh file m Hm Hnew Hobs Hlev
    |bs sh n seq l Hn Hlive|bs sh oldest|bs sh|bs sh w n bs' Hb|bs sh|bs sh Hno]; cbn [fst snd] in *.
  - split; [|done]. by eapply storage_inv_rely.
  - split; [|done]. by eapply AddBlobFile_inv.
  - pose proof (inv_number _ _ _ _ _ Hinv Hn) as Hnum.
    pose proof (MarkFileObsolete_inv _ _ _ n seq l Hinv Hn Hlive) as Hinv'.
    unfold MarkFileObsolete in *. cbn [fst snd] in *. rewrite Hn in *. cbn [fst snd] in *.
    unfold MarkFileObsoleteLocked in *. cbn [fst snd obsolete_files] in *. rewrite Hnum in Hinv' |- *. split; done.
  - unfold bs_GetObsoleteFiles. cbn [fst].
    destruct (GetObsoleteFiles_loop oldest (obsolete_files bs) (bs, sh)) as [[names kept] [bs' sh']]
      eqn:E.
    pose proof (GetObsoleteFiles_loop_inv _ _ [] _ _ _ _ _ _ Hcmp E Hinv) as [].
    destruct (GetObsoleteFiles_loop_spec _ _ _ _ _ _ _ _ E) as (_&_&_&_&_&_&Hcf&_).
    split; [by split|done].
  - destruct Hinv. split; [by split|done].
  - unfold AddBuildingFile in Hb. apply result_bind_Ok in Hb as (rd & _ & [= <-]). destruct Hinv. split; [by split|done].
  - destruct Hinv. split; [by split|done].
  - split; [|done]. eapply storage_inv_rely; [done|]. by eapply restart_rely.
Qed.

Lemma storage_new_inv db cf id sh :
  0 <= num_levels (cf_base cf) ->
  (forall t v, t ∈ counted -> stat (sh_stats sh) id t = Some v -> v = 0) ->
  storage_inv [] (BlobStorage_new db cf id) sh.
Proof.
  intros Hlev Hzero. split; cbn [BlobStorage_new files blob_ranges level_blob_size bs_cf_id].
  - done.
  - intros n l Hn. by rewrite lookup_empty in Hn.
  - by rewrite map_to_list_empty.
  - constructor.
  - constructor.
  - intros n. split; [by intros ?%not_elem_of_nil|]. intros (l & Hl & _). by rewrite lookup_empty in Hl.
  - rewrite length_replicate. unfold bs_num_levels. simpl. lia.
  - intros i Hi. unfold total. rewrite msum_empty. unfold array_get.
    destruct (replicate _ _ !! Z.to_nat i) eqn:E; [|done].
    apply lookup_replicate in E as [-> _]. done.
  - intros t v Ht Hv. rewrite (Hzero t v Ht Hv). unfold total. by rewrite msum_empty.
Qed.

(** C8: The bookkeeping of a column family's blob files never drifts. From an
    empty storage, after any sequence of file additions, deletions, collections
    of obsolete files, score computations, restarts and outside activity: the
    table maps each number to the file with that number, the range index holds
    exactly the files of the table in key order, the list of obsolete files has
    exactly the obsolete ones once each, and the level sizes and the counters of
    live and obsolete files and bytes are the sums over the table (modulo
    2^64). *)
Theorem storage_bookkeeping (db : TitanDBOptions) (cf : TitanCFOptions) (id : Z) (sh : Shared)
    (bs' : BlobStorage) (sh' : Shared) :
  ComparatorOk (comparator (cf_base cf)) -> 0 <= num_levels (cf_base cf) ->
  (forall t v, t ∈ counted -> stat (sh_stats sh) id t = Some v -> v = 0) ->
  rtc storage_step (BlobStorage_new db cf id, sh) (bs', sh') ->
  storage_inv (obsolete_files bs') bs' sh'.
Proof.
  intros Hcmp Hlev Hzero Hsteps.
  assert (Hgen : forall st st', rtc storage_step st st' -> bs_cf_options st.1 = cf ->
            storage_inv (obsolete_files st.1) st.1 st.2 ->
            storage_inv (obsolete_files st'.1) st'.1 st'.2).
  { induction 1 as [|st1 st2 st3 Hstep _ IH]; [done|]. intros Hcf Hinv.
    destruct (storage_step_inv _ _ ltac:(unfold bs_comparator; by rewrite Hcf) Hstep Hinv) as [Hinv' Hcf'].
    apply IH; congruence || done. }
  apply (Hgen _ _ Hsteps); [done|]. by apply storage_new_inv.
Qed.
End reachable.

(** ** Handing out obsolete files *)

Section obsolete.
Context `{Coding} `{Compressors} `{Env} `{BC : Cache bytes} `{FC : !Cache BlobFileReader}.

Lemma RemoveFile_evicts `{!CacheOk FC} n bs sh k v :
  cache_has (file_cache (sh_caches (RemoveFile n (bs, sh)).2.2)) k v ->
  cache_has (file_cache (sh_caches sh)) k v /\
  (is_Some (files bs !! n) -> k <> EncodeFileNumber n).
Proof.
  unfold RemoveFile. destruct (files bs !! n) as [l|] eqn:E; simpl.
  - intros [Hne Hk]%has_erase. done.
  - intros Hk. split; [done|]. by intros [? ?].
Qed.

Lemma GetObsoleteFiles_loop_evicts `{!CacheOk FC} oldest l bs sh names kept bs' sh' k v :
  NoDup l.*1 -> Forall (fun e => is_Some (files bs !! e.1)) l ->
  GetObsoleteFiles_loop oldest l (bs, sh) = (names, kept, (bs', sh')) ->
  cache_has (file_cache (sh_caches sh')) k v ->
  cache_has (file_cache (sh_caches sh)) k v /\
  Forall (fun e => k <> EncodeFileNumber e.1) (filter (expired oldest) l).
Proof.
  revert bs sh names kept; induction l as [|[n seq] l IH]; intros bs sh names kept Hnd Hall Hloop Hk;
    cbn [GetObsoleteFiles_loop] in Hloop; [by simplify_eq|].
  cbn [fmap list_fmap fst] in Hnd. apply NoDup_cons in Hnd as [Hni Hnd]. inversion Hall as [|? ? Hn Hall']; subst.
  destruct (oldest >? seq) eqn:Hgt.
  - rewrite filter_cons_True by done. pose proof (RemoveFile_frame n bs sh) as Hfr.
    pose proof (RemoveFile_evicts n bs sh k v) as Hev.
    destruct (RemoveFile n (bs, sh)) as [b [bs1 sh1]]. cbn [fst snd] in *.
    destruct Hfr as (_ & _ & _ & _ & _ & _ & Hf & _).
    destruct (GetObsoleteFiles_loop oldest l (bs1, sh1)) as [[names1 kept1] st1] eqn:E1.
    simplify_eq. destruct (IH _ _ _ _ Hnd ltac:(
      rewrite Forall_forall in *; intros e He; rewrite Hf, lookup_delete_ne; [by apply Hall'|];
      intros ->; apply Hni; apply list_elem_of_fmap; by exists e) E1 Hk) as [Hk1 Hrest].
    destruct (Hev Hk1) as [Hk0 Hne]. split; [done|]. constructor; [by apply Hne|done].
  - rewrite filter_cons_False by (unfold expired; simpl; congruence).
    destruct (GetObsoleteFiles_loop oldest l (bs, sh)) as [[names1 kept1] st1] eqn:E1.
    simplify_eq. by eapply IH.
Qed.

(** [GetObsoleteFiles(oldest)] hands out exactly the files that became
    obsolete before the oldest snapshot, and forgets exactly those: a name is
    handed out iff it belongs to an obsolete file with a smaller obsolete
    sequence; those files leave the table, every other file (in particular every
    live one and every one a snapshot may still read) stays; what is handed out
    is no longer pending, so no later call hands it out again; no open reader of
    a handed-out file remains in the file cache; and the bookkeeping invariant
    is kept. *)
Theorem obsolete_files_collected `{!CacheOk FC} (oldest : Z) (bs : BlobStorage) (sh : Shared) :
  ComparatorOk (bs_comparator bs) -> storage_inv (obsolete_files bs) bs sh ->
  let '(names, (bs', sh')) := bs_GetObsoleteFiles oldest (bs, sh) in
  let gone n := exists seq, (n, seq) ∈ obsolete_files bs /\ seq < oldest in
  (forall name, name ∈ names <->
     exists n, gone n /\ name = BlobFileName (dirname (bs_db_options bs)) n) /\
  (forall n, gone n -> bs_FindFile n bs' = None /\
     (exists l, bs_FindFile n bs = Some l /\ is_obsolete (deref (sh_heap sh) l) = true)) /\
  (forall n, ~ gone n -> bs_FindFile n bs' = bs_FindFile n bs) /\
  (forall n seq, (n, seq) ∈ obsolete_files bs' <-> (n, seq) ∈ obsolete_files bs /\ oldest <= seq) /\
  (forall n rd, gone n -> ~ cache_has (file_cache (sh_caches sh')) (EncodeFileNumber n) rd) /\
  storage_inv (obsolete_files bs') bs' sh'.
Proof.
  intros Hcmp Hinv. unfold bs_GetObsoleteFiles. cbn [fst].
  destruct (GetObsoleteFiles_loop oldest (obsolete_files bs) (bs, sh)) as [[names kept] [bs' sh']]
    eqn:E.
  pose proof (GetObsoleteFiles_loop_inv _ _ [] _ _ _ _ _ _ Hcmp E Hinv) as Hinv'.
  pose proof (fun k v Hall => GetObsoleteFiles_loop_evicts oldest _ bs sh _ _ _ _ k v
    (inv_obsolete_nodup _ _ _ Hinv) Hall E) as Hev.
  destruct (GetObsoleteFiles_loop_spec _ _ _ _ _ _ _ _ E) as (-> & -> & Hf & _).
  assert (Hexp : forall n seq, (n, seq) ∈ filter (expired oldest) (obsolete_files bs) <->
                   (n, seq) ∈ obsolete_files bs /\ seq < oldest).
  { intros n seq. rewrite list_elem_of_filter. unfold expired. simpl. rewrite Z.gtb_lt. tauto. }
  assert (Hdel : forall n, files bs' !! n =
    if decide (n ∈ (filter (expired oldest) (obsolete_files bs)).*1) then None else files bs !! n).
  { intros n. rewrite Hf. clear. induction (filter (expired oldest) (obsolete_files bs)) as [|e l IH].
    - rewrite decide_False; [done|]. apply not_elem_of_nil.
    - simpl. destruct (decide (n = e.1)) as [->|Hne].
      + rewrite lookup_delete_eq, decide_True; [done|left].
      + rewrite lookup_delete_ne, IH by done. destruct (decide (n ∈ l.*1)).
        * rewrite decide_True; [done|by right].
        * rewrite decide_False; [done|]. rewrite elem_of_cons. naive_solver. }
  assert (Hgone : forall n, n ∈ (filter (expired oldest) (obsolete_files bs)).*1 <->
    exists seq, (n, seq) ∈ obsolete_files bs /\ seq < oldest).
  { intros n. rewrite list_elem_of_fmap. split.
    - intros ([n' seq] & -> & Hin). exists seq. by apply Hexp.
    - intros (seq & Hin). exists (n, seq). split; [done|]. by apply Hexp. }
  assert (Hfound : forall n seq, (n, seq) ∈ obsolete_files bs -> n ∈ (obsolete_files bs).*1).
  { intros n seq Hin. apply list_elem_of_fmap. by exists (n, seq). }
  split_and!.
  - intros name. rewrite list_elem_of_fmap. split.
    + intros ([n seq] & -> & Hin). exists n. split; [|done]. exists seq. by apply Hexp.
    + intros (n & (seq & Hin) & ->). exists (n, seq). split; [done|]. by apply Hexp.
  - intros n Hn. unfold bs_FindFile. cbn [files set_obsolete_files]. rewrite Hdel, decide_True by by apply Hgone.
    split; [done|]. destruct Hn as (seq & Hin & _). apply (inv_obsolete _ _ _ Hinv). by eapply Hfound.
  - intros n Hn. unfold bs_FindFile. cbn [files set_obsolete_files]. rewrite Hdel, decide_False; [done|].
    by rewrite Hgone.
  - intros n seq. cbn [obsolete_files set_obsolete_files]. rewrite list_elem_of_filter.
    unfold expired. simpl. rewrite Z.gtb_lt. naive_solver lia.
  - intros n rd (seq & Hin & Hlt) Hhas. apply Hev in Hhas; [|apply Forall_forall].
    + destruct Hhas as [_ Hall]. rewrite Forall_forall in Hall.
      by apply (Hall (n, seq)); [apply Hexp|].
    + intros [n' seq'] He. apply Hfound in He. apply (inv_obsolete _ _ _ Hinv) in He as (l & Hl & _).
      by exists l.
  - destruct Hinv'. by split.
Qed.
End obsolete.

Section witnesses.
#[local] Existing Instances leb128_coding rle_compressors mem_env map_to_list_iter.
#[local] Instance blobs_map : Cache bytes := map_cache bytes.
#[local] Instance readers_map : Cache BlobFileReader := map_cache BlobFileReader.

Definition example_db_options : TitanDBOptions := TitanDBOptions_of (MkDBOptions (-1) true).

Definition example_shared : Shared :=
  MkShared example_heap (Some {[ 5 := TitanInternalStats_Clear ]})
    (MkCaches ((0, ∅) : cache BlobFileReader) ((0, ∅) : cache bytes)).

Definition example_storage0 : BlobStorage * Shared :=
  (BlobStorage_new example_db_options example_cf_options 5, example_shared).
Definition example_storage1 : BlobStorage * Shared := bs_AddBlobFile 1 example_storage0.
Definition example_storage2 : BlobStorage * Shared := (MarkFileObsolete 12 100 example_storage1).2.
Definition example_storage3 : BlobStorage * Shared := (bs_GetObsoleteFiles 200 example_storage2).2.

Lemma example_counted_zero t v :
  t ∈ counted -> stat (sh_stats example_shared) 5 t = Some v -> v = 0.
Proof.
  intros Ht Hv. apply list_elem_of_In in Ht.
  destruct Ht as [<-|[<-|[<-|[<-|[]]]]]; vm_compute in Hv; congruence.
Qed.

Lemma example_step1 : storage_step example_storage0 example_storage1.
Proof.
  apply step_add with (m := example_meta); [reflexivity..|]. vm_compute. intuition congruence.
Qed.

Lemma example_step2 : storage_step example_storage1 example_storage2.
Proof.
  apply (step_obsolete example_storage1.1 example_storage1.2 12 100 1); reflexivity.
Qed.

Lemma storage_bookkeeping_witness :
  storage_inv (obsolete_files example_storage3.1) example_storage3.1 example_storage3.2.
Proof.
  apply (storage_bookkeeping example_db_options example_cf_options 5 example_shared
           example_storage3.1 example_storage3.2).
  - apply bytewise_compare_ok.
  - vm_compute. congruence.
  - exact example_counted_zero.
  - eapply rtc_l; [exact example_step1|]. eapply rtc_l; [exact example_step2|].
    eapply rtc_l; [exact (step_collect example_storage2.1 example_storage2.2 200)|]. apply rtc_refl.
Defined.

Lemma example_storage2_inv :
  storage_inv (obsolete_files example_storage2.1) example_storage2.1 example_storage2.2.
Proof.
  pose proof (storage_step_inv example_storage0 example_storage1 bytewise_compare_ok example_step1
    (storage_new_inv example_db_options example_cf_options 5 example_shared ltac:(done)
       example_counted_zero)) as [Hinv _].
  exact (proj1 (storage_step_inv example_storage1 example_storage2 bytewise_compare_ok example_step2 Hinv)).
Qed.

Lemma obsolete_files_collected_witness :
  let '(names, (bs', sh')) := bs_GetObsoleteFiles 200 example_storage2 in
  let gone n := exists seq, (n, seq) ∈ [(12, 100)] /\ seq < 200 in
  (forall name, name ∈ names <-> exists n, gone n /\ name = BlobFileName "" n) /\
  (forall n, gone n -> bs_FindFile n bs' = None /\
     (exists l, bs_FindFile n example_storage2.1 = Some l /\
        is_obsolete (deref (sh_heap example_storage2.2) l) = true)) /\
  (forall n, ~ gone n -> bs_FindFile n bs' = bs_FindFile n example_storage2.1) /\
  (forall n seq, (n, seq) ∈ obsolete_files bs' <-> (n, seq) ∈ [(12, 100)] /\ 200 <= seq) /\
  (forall n rd, gone n -> ~ cache_has (file_cache (sh_caches sh')) (EncodeFileNumber n) rd) /\
  storage_inv (obsolete_files bs') bs' sh'.
Proof.
  exact (obsolete_files_collected 200 example_storage2.1 example_storage2.2 bytewise_compare_ok
           example_storage2_inv).
Defined.
End witnesses.
