(* ===== verification/StorageQueries.v ===== *)
(** * Queries of a blob storage

    Which files [GetBlobFilesInRanges] selects, what [ComputeGCScore] computes,
    what [Get] returns for a file that is missing, and the minimality of the
    sorted runs. *)

From S2P Require Import Prelude Rocks Options Stats Util BlobFormat Env BlobFileBuilder BlobFileReader VersionEdit BlobStorage StorageInv.

(** ** Bounds in a sorted range index *)

Section bounds.
Context (cmp : Comparator) `{!ComparatorOk cmp}.

Lemma lower_bound_spec k l i x :
  StronglySorted (range_le cmp) l -> l !! i = Some x ->
  ((i < lower_bound cmp k l)%nat <-> cmp x.1 k < 0).
Proof.
  intros HS. revert i; induction HS as [|[k' v'] l Hl IH Hall]; intros i Hi; [done|].
  simpl. destruct (Z.ltb_spec (cmp k' k) 0) as [Hlt|Hge].
  - destruct i as [|i]; simpl in Hi; [simplify_eq; simpl; lia|].
    rewrite <- (IH i Hi). lia.
  - split; [lia|]. intros Hx. exfalso.
    assert (Hle : cmp k' x.1 <= 0).
    { destruct i as [|i]; simpl in Hi; [simplify_eq; simpl; rewrite compare_refl; lia|].
      rewrite Forall_lookup in Hall. apply (Hall i x Hi). }
    pose proof (compare_swap k' k). pose proof (compare_swap k k'). pose proof (compare_swap x.1 k).
    assert (cmp k x.1 <= 0) by (apply (compare_trans _ k'); [lia|done]). lia.
Qed.

Lemma upper_bound_spec k l i x :
  StronglySorted (range_le cmp) l -> l !! i = Some x ->
  ((i < upper_bound cmp k l)%nat <-> cmp x.1 k <= 0).
Proof.
  intros HS. revert i; induction HS as [|[k' v'] l Hl IH Hall]; intros i Hi; [done|].
  simpl. pose proof (compare_swap k k') as S1. pose proof (compare_swap k' k) as S2.
  destruct (Z.ltb_spec (cmp k k') 0) as [Hlt|Hge].
  - split; [lia|]. intros Hx. exfalso.
    assert (Hle : cmp k' x.1 <= 0).
    { destruct i as [|i]; simpl in Hi; [simplify_eq; simpl; rewrite compare_refl; lia|].
      rewrite Forall_lookup in Hall. apply (Hall i x Hi). }
    assert (cmp k' k <= 0) by (by apply (compare_trans _ x.1)). lia.
  - destruct i as [|i]; simpl in Hi; [simplify_eq; simpl; lia|].
    rewrite <- (IH i Hi). lia.
Qed.

Lemma lower_bound_le_length k l : (lower_bound cmp k l <= length l)%nat.
Proof. induction l as [|[k' v'] l IH]; simpl; [done|]. case_match; lia. Qed.

Lemma upper_bound_le_length k l : (upper_bound cmp k l <= length l)%nat.
Proof. induction l as [|[k' v'] l IH]; simpl; [done|]. case_match; lia. Qed.
End bounds.

Lemma elem_of_slice {A} (l : list A) i j x :
  x ∈ take (j - i) (drop i l) <-> exists k, l !! k = Some x /\ (i <= k < j)%nat.
Proof.
  rewrite list_elem_of_lookup. split.
  - intros [k Hk]. pose proof (lookup_lt_Some _ _ _ Hk) as Hlt.
    rewrite length_take, length_drop in Hlt. rewrite lookup_take in Hk.
    case_decide; [|done]. rewrite lookup_drop in Hk. exists (i + k)%nat. split; [done|lia].
  - intros (k & Hk & Hr). exists (k - i)%nat. rewrite lookup_take, decide_True by lia.
    rewrite lookup_drop. by replace (i + (k - i))%nat with k by lia.
Qed.

Lemma Sorted_impl {A} (P Q : A -> A -> Prop) l :
  (forall x y, P x y -> Q x y) -> Sorted P l -> Sorted Q l.
Proof.
  intros HPQ. induction 1 as [|x l Hl IH Hd]; constructor; [done|].
  destruct Hd; constructor. by apply HPQ.
Qed.

Section queries.
Context `{Coding} `{Compressors} `{Env} `{BC : Cache bytes} `{FC : !Cache BlobFileReader}
        `{UnorderedIter}.

Section range.
Context (bs : BlobStorage) (sh : Shared) (obs : list (Z * Z)).
Context `{!ComparatorOk (bs_comparator bs)} (Hinv : storage_inv obs bs sh).

(** The positions [GetBlobFilesInRange] iterates between. *)
Lemma range_start_spec b i x :
  blob_ranges bs !! i = Some x ->
  ((range_start bs b <= i)%nat <-> forall k, b = Some k -> bs_comparator bs k x.1 <= 0).
Proof.
  intros Hi. destruct b as [k|]; simpl; [|split; [done|lia]].
  pose proof (lower_bound_spec _ k _ _ _ (inv_ranges_sorted _ _ _ Hinv) Hi) as Hs.
  pose proof (compare_swap x.1 k). split.
  - intros Hle k' [= <-]. lia.
  - intros Hk. specialize (Hk k eq_refl). lia.
Qed.

Lemma range_stop_spec e i x :
  blob_ranges bs !! i = Some x ->
  ((i < range_stop bs e)%nat <-> forall k, e = Some k -> bs_comparator bs x.1 k <= 0).
Proof.
  intros Hi. destruct e as [k|]; simpl.
  - rewrite (upper_bound_spec _ k _ _ _ (inv_ranges_sorted _ _ _ Hinv) Hi).
    split; [by intros ? k' [= <-]|]. intros Hk. by apply Hk.
  - pose proof (lookup_lt_Some _ _ _ Hi). split; [done|lia].
Qed.

(** The iteration stays inside the index when the start does not exceed the end. *)
Lemma range_no_fault b e :
  (forall kb ke, b = Some kb -> e = Some ke -> bs_comparator bs kb ke <= 0) ->
  (range_start bs b <= range_stop bs e)%nat.
Proof.
  intros Hbe. destruct b as [kb|]; [|simpl; lia].
  pose proof (lower_bound_le_length (bs_comparator bs) kb (blob_ranges bs)) as Hlen.
  destruct (Nat.le_gt_cases (range_start bs (Some kb)) (range_stop bs e)) as [|Hgt]; [done|].
  exfalso. assert (Hl : (range_stop bs e < length (blob_ranges bs))%nat) by (simpl in Hgt; lia).
  destruct (lookup_lt_is_Some_2 _ _ Hl) as [x Hx].
  assert (Hlo : ~ bs_comparator bs kb x.1 <= 0).
  { intros Hn. apply (Nat.lt_irrefl (range_start bs (Some kb))). eapply Nat.le_lt_trans; [|exact Hgt].
    apply (range_start_spec _ _ _ Hx). by intros k [= <-]. }
  destruct e as [ke|]; [|simpl in Hl; lia].
  assert (Hhi : ~ bs_comparator bs x.1 ke <= 0).
  { intros Hn. apply (Nat.lt_irrefl (range_stop bs (Some ke))).
    apply (range_stop_spec _ _ _ Hx). by intros k [= <-]. }
  specialize (Hbe _ _ eq_refl eq_refl). pose proof (compare_swap ke x.1).
  pose proof (compare_trans kb ke x.1). lia.
Qed.

(** The entries of the index are the files of the table. *)
Lemma range_entry x :
  x ∈ blob_ranges bs <-> exists n, files bs !! n = Some x.2 /\
    x.1 = smallest_key (deref (sh_heap sh) x.2) /\ file_number (deref (sh_heap sh) x.2) = n.
Proof.
  rewrite (inv_ranges _ _ _ Hinv), list_elem_of_fmap. split.
  - intros ([n file] & -> & Hin). apply elem_of_map_to_list in Hin. exists n. simpl.
    split_and!; [done|done|by eapply inv_number].
  - intros (n & Hn & Hk & _). exists (n, x.2). simpl. rewrite <- Hk. destruct x.
    split; [done|]. by apply elem_of_map_to_list.
Qed.

Lemma range_numbers_inj x y :
  x ∈ blob_ranges bs -> y ∈ blob_ranges bs ->
  file_number (deref (sh_heap sh) x.2) = file_number (deref (sh_heap sh) y.2) -> x = y.
Proof.
  intros (n & Hn & Hk & Hx)%range_entry (n' & Hn' & Hk' & Hy)%range_entry Heq.
  destruct x, y. simpl in *. congruence.
Qed.

Lemma range_entries_NoDup : NoDup (blob_ranges bs).
Proof.
  rewrite (inv_ranges _ _ _ Hinv). apply NoDup_fmap_2_strong; [|apply NoDup_map_to_list].
  intros [n1 f1] [n2 f2] Hin1%elem_of_map_to_list Hin2%elem_of_map_to_list [= _ <-].
  f_equal. by eapply inv_loc_inj.
Qed.
End range.

(** What it means for a live file to lie in a range. *)
Definition file_in_range (cmp : Comparator) (include_end : bool) (b e : option bytes)
    (m : BlobFileMeta) : Prop :=
  is_obsolete m = false /\
  (forall k, b = Some k -> cmp k (smallest_key m) <= 0) /\
  (forall k, e = Some k -> largest_key m <> [] /\ cmp (smallest_key m) k <= 0 /\
     if include_end then cmp (largest_key m) k <= 0 else cmp (largest_key m) k < 0).

Lemma in_range_spec cmp include_end b e m :
  (forall k, b = Some k -> cmp k (smallest_key m) <= 0) ->
  (forall k, e = Some k -> cmp (smallest_key m) k <= 0) ->
  (in_range cmp include_end e m = true <-> file_in_range cmp include_end b e m).
Proof.
  intros Hb He. unfold in_range, file_in_range. destruct e as [ke|].
  - rewrite !andb_true_iff, !negb_true_iff, bool_decide_eq_false. split.
    + intros [[Hobs Hne] Hend]. split_and!; [done|done|]. intros k [= <-].
      split_and!; [done|by apply He|]. destruct include_end; [by apply Z.leb_le|by apply Z.ltb_lt].
    + intros (Hobs & _ & Hend). destruct (Hend ke eq_refl) as (Hne & _ & Hc). split; [done|].
      destruct include_end; [by apply Z.leb_le|by apply Z.ltb_lt].
  - rewrite negb_true_iff. split; [by intros|by intros (? & _)].
Qed.

(** C26: [GetBlobFilesInRanges] selects, for a range whose start does not exceed
    its end, exactly the live files that start at or after the start and end
    within the end (strictly before it when the end is excluded), each once;
    files without recorded keys are skipped when the range has an end. When the
    start exceeds the end and a file starts strictly in between, the iteration
    runs past the end of the index instead. *)
Theorem files_in_range_selected (include_end : bool) (b e : option bytes) (bs : BlobStorage)
    (sh : Shared) (obs : list (Z * Z)) :
  ComparatorOk (bs_comparator bs) -> storage_inv obs bs sh ->
  let cmp := bs_comparator bs in
  ((forall kb ke, b = Some kb -> e = Some ke -> cmp kb ke <= 0) ->
   exists l, GetBlobFilesInRange include_end (b, e) (sh_heap sh) bs = Ok l /\ NoDup l /\
     forall n, n ∈ l <-> exists file, files bs !! n = Some file /\
       file_in_range cmp include_end b e (deref (sh_heap sh) file)) /\
  (forall kb ke n file, b = Some kb -> e = Some ke -> files bs !! n = Some file ->
     cmp ke (smallest_key (deref (sh_heap sh) file)) < 0 ->
     cmp (smallest_key (deref (sh_heap sh) file)) kb < 0 ->
     GetBlobFilesInRange include_end (b, e) (sh_heap sh) bs = Fault).
Proof.
  intros Hcmp Hinv cmp. unfold GetBlobFilesInRange. cbn [fst snd]. split.
  - intros Hbe. pose proof (range_no_fault bs sh obs Hinv b e Hbe) as Hle.
    destruct (Nat.ltb_spec (range_stop bs e) (range_start bs b)); [lia|]. eexists. split; [done|].
    split.
    + apply NoDup_fmap_2_strong.
      * intros x y [_ (i & Hi & _)%elem_of_slice]%list_elem_of_filter
          [_ (j & Hj & _)%elem_of_slice]%list_elem_of_filter.
        apply (range_numbers_inj bs sh obs Hinv); by eapply list_elem_of_lookup_2.
      * apply NoDup_filter. eapply sublist_NoDup; [by eapply range_entries_NoDup|].
        etrans; [apply sublist_take|apply sublist_drop].
    + intros n. rewrite list_elem_of_fmap. split.
      * intros (x & -> & [Hin (i & Hi & Hlo & Hhi)%elem_of_slice]%list_elem_of_filter).
        pose proof (proj1 (range_start_spec bs sh obs Hinv b i x Hi) Hlo) as Hlo'.
        pose proof (proj1 (range_stop_spec bs sh obs Hinv e i x Hi) Hhi) as Hhi'.
        assert (Hx : x ∈ blob_ranges bs) by by eapply list_elem_of_lookup_2.
        apply (range_entry bs sh obs Hinv) in Hx as (n & Hn & Hk & ->). rewrite Hk in *.
        exists x.2. split; [done|]. by apply (in_range_spec _ _ b) in Hin.
      * intros (file & Hn & Hin). pose proof Hin as (_ & Hb & He).
        assert ((smallest_key (deref (sh_heap sh) file), file) ∈ blob_ranges bs) as Hx.
        { apply (range_entry bs sh obs Hinv). exists n. simpl.
          split_and!; [done|done|by eapply inv_number]. }
        exists (smallest_key (deref (sh_heap sh) file), file). simpl.
        split; [symmetry; by eapply inv_number|]. apply list_elem_of_filter. simpl. split.
        { apply (in_range_spec _ _ b); [done| |done]. intros k Hk. by apply He. }
        apply list_elem_of_lookup in Hx as [i Hi]. apply elem_of_slice. exists i. split; [done|].
        split; [by apply (range_start_spec bs sh obs Hinv b i _ Hi)|].
        apply (range_stop_spec bs sh obs Hinv e i _ Hi). intros k Hk. by apply He.
  - intros kb ke n file -> -> Hn Hlt1 Hlt2.
    assert ((smallest_key (deref (sh_heap sh) file), file) ∈ blob_ranges bs) as Hx.
    { apply (range_entry bs sh obs Hinv). exists n. simpl. split_and!; [done|done|by eapply inv_number]. }
    apply list_elem_of_lookup in Hx as [i Hi].
    pose proof (range_start_spec bs sh obs Hinv (Some kb) i _ Hi) as Hlo.
    pose proof (range_stop_spec bs sh obs Hinv (Some ke) i _ Hi) as Hhi. simpl fst in *.
    pose proof (compare_swap (smallest_key (deref (sh_heap sh) file)) kb).
    pose proof (compare_swap ke (smallest_key (deref (sh_heap sh) file))).
    assert (~ (range_start bs (Some kb) <= i)%nat)
      by (intros Hs; pose proof (proj1 Hlo Hs kb eq_refl); unfold cmp in *; lia).
    assert (~ (i < range_stop bs (Some ke))%nat)
      by (intros Hs; pose proof (proj1 Hhi Hs ke eq_refl); unfold cmp in *; lia).
    destruct (Nat.ltb_spec (range_stop bs (Some ke)) (range_start bs (Some kb))); [done|lia].
Qed.

(** ** GC scores *)

Lemma gc_score_lt_asym cf x y : gc_score_lt cf x y = true -> gc_score_lt cf y x = false.
Proof.
  unfold gc_score_lt. destruct (level_merge cf); [apply double_ltb_asym|].
  rewrite Z.ltb_lt, Z.ltb_ge. lia.
Qed.

Lemma gc_scores_perm cf h fm :
  gc_scores cf h fm ≡ₚ
    (fun file => MkGCScore file.1 (file_score cf (deref h file.2)))
      <$> filter (fun file => skip_gc cf (deref h file.2) = false) (unordered_iter fm).
Proof. apply std_sort_perm. Qed.

Lemma elem_of_gc_scores cf h fm s :
  s ∈ gc_scores cf h fm <-> exists file, fm !! gcs_file_number s = Some file /\
    skip_gc cf (deref h file) = false /\ gcs_score s = file_score cf (deref h file).
Proof.
  rewrite gc_scores_perm, list_elem_of_fmap. split.
  - intros ([n file] & -> & [Hs Hin]%list_elem_of_filter). apply elem_of_unordered_iter in Hin.
    by exists file.
  - intros (file & Hn & Hs & Hsc). exists (gcs_file_number s, file). simpl.
    split; [destruct s; simpl in *; by rewrite Hsc|]. apply list_elem_of_filter.
    split; [done|]. by apply elem_of_unordered_iter.
Qed.

Lemma gc_scores_NoDup cf h fm : NoDup (gcs_file_number <$> gc_scores cf h fm).
Proof.
  rewrite gc_scores_perm, <- list_fmap_compose. unfold compose. simpl.
  eapply sublist_NoDup; [apply (NoDup_unordered_iter fm)|].
  apply fmap_sublist, sublist_filter.
Qed.

(** [ComputeGCScore] lists every file that may be collected, once, with the
    right score and in the right order: a live file, and under level merge an
    unsorted one whose discardable ratio reaches the threshold; scored by the
    threshold itself when the file is small and by its discardable ratio
    otherwise; by decreasing score under level merge and by increasing number
    without. It returns the number of entries and changes nothing else. *)
Theorem gc_scores_correct (h : heap) (bs : BlobStorage) :
  let cf := bs_cf_options bs in
  let '(n, bs') := ComputeGCScore h bs in
  n = Z.of_nat (length (gc_score bs')) /\
  NoDup (gcs_file_number <$> gc_score bs') /\
  (forall s, s ∈ gc_score bs' <-> exists file, files bs !! gcs_file_number s = Some file /\
     is_obsolete (deref h file) = false /\
     (level_merge cf = true -> file_type (deref h file) <> kSorted /\
        double_ltb (GetDiscardableRatio (deref h file)) (blob_file_discardable_ratio cf) = false) /\
     gcs_score s = if file_size (deref h file) <? merge_small_file_threshold cf
                   then blob_file_discardable_ratio cf else GetDiscardableRatio (deref h file)) /\
  Sorted (fun x y => if level_merge cf then double_ltb (gcs_score x) (gcs_score y) = false
                     else gcs_file_number x <= gcs_file_number y) (gc_score bs') /\
  files bs' = files bs /\ blob_ranges bs' = blob_ranges bs /\
  obsolete_files bs' = obsolete_files bs /\ level_blob_size bs' = level_blob_size bs.
Proof.
  intros cf. unfold ComputeGCScore. fold cf. cbn [gc_score files blob_ranges obsolete_files
    level_blob_size]. split_and!; try done.
  - apply gc_scores_NoDup.
  - intros s. rewrite elem_of_gc_scores. unfold skip_gc, file_score.
    split; intros (file & Hn & Hs & Hrest); exists file; (split; [done|]).
    + rewrite orb_false_iff, andb_false_iff, orb_false_iff, Z.eqb_neq in Hs.
      destruct Hs as [Hobs Hs]. split_and!; [done| |done]. intros Hlm. rewrite Hlm in Hs.
      by destruct Hs as [|[]].
    + destruct Hrest as [Hlm Hsc]. split; [|done]. rewrite Hs. simpl.
      destruct (level_merge cf); [|done]. destruct (Hlm eq_refl) as [Hne ->].
      by rewrite (proj2 (Z.eqb_neq _ _)) by done.
  - pose proof (std_sort_sorted (gc_score_lt cf) ((fun file => MkGCScore file.1 (file_score cf (deref h file.2)))
       <$> filter (fun file => skip_gc cf (deref h file.2) = false) (unordered_iter (files bs)))
       (gc_score_lt_asym cf)) as HS.
    revert HS. apply Sorted_impl. intros x y. unfold gc_score_lt.
    destruct (level_merge cf); [done|]. by rewrite Z.ltb_ge.
Qed.
End queries.

Section witnesses.
#[local] Existing Instances leb128_coding rle_compressors mem_env map_to_list_iter.
#[local] Existing Instances blobs_map readers_map.

Lemma example_storage1_inv :
  storage_inv [] example_storage1.1 example_storage1.2.
Proof.
  exact (proj1 (storage_step_inv example_storage0 example_storage1 bytewise_compare_ok example_step1
    (storage_new_inv example_db_options example_cf_options 5 example_shared ltac:(done)
       example_counted_zero))).
Qed.

Lemma files_in_range_selected_witness :
  exists l, GetBlobFilesInRange false (Some [Byte.x61], Some [Byte.x7b])
              (sh_heap example_storage1.2) example_storage1.1 = Ok l /\ NoDup l /\
    forall n, n ∈ l <-> exists file, files example_storage1.1 !! n = Some file /\
      file_in_range bytewise_compare false (Some [Byte.x61]) (Some [Byte.x7b])
        (deref (sh_heap example_storage1.2) file).
Proof.
  refine (proj1 (files_in_range_selected false (Some [Byte.x61]) (Some [Byte.x7b])
           example_storage1.1 example_storage1.2 [] bytewise_compare_ok example_storage1_inv) _).
  intros kb ke [= <-] [= <-]. vm_compute. congruence.
Defined.
End witnesses.
