(* ===== verification/EditCollector.v ===== *)
(** * Collecting edits (src/edit_collector.h)

    A collector gathers the edits of a batch per column family, checks them
    against the storages ([Seal]) and applies them ([Apply]). The storages are
    those of the blob file set, by column family id. *)

From S2P Require Import Prelude Rocks Options Stats Util BlobFormat Env BlobFileBuilder BlobFileReader VersionEdit BlobStorage.

Section collector.
Context `{Coding} `{Compressors} `{Env} `{BC : Cache bytes} `{FC : !Cache BlobFileReader}
        `{UnorderedIter}.

Abbreviation Storages := (gmap Z BlobStorage).

Record CFEditCollector := MkCFEditCollector {
  cfc_added_files : gmap Z loc;
  cfc_deleted_files : gmap Z Z;
  cfc_updated_discardable_size : gmap Z Z
}.

Definition CFEditCollector_default : CFEditCollector := MkCFEditCollector ∅ ∅ ∅.

Record EditCollector := MkEditCollector {
  ec_status : Status;
  sealed : bool;
  ec_has_next_file_number : bool;
  ec_next_file_number : Z;
  ec_column_families : gmap Z CFEditCollector
}.

Definition EditCollector_default : EditCollector := MkEditCollector OK false false 0 ∅.

(** ** One column family *)

Definition CF_AddFile (h : heap) (file : loc) (c : CFEditCollector) : Status * CFEditCollector :=
  let number := file_number (deref h file) in
  match cfc_added_files c !! number with
  | Some _ => (Corruption ("Blob file " +:+ pretty number +:+ " has been added twice"), c)
  | None => (OK, MkCFEditCollector (emplace number file (cfc_added_files c)) (cfc_deleted_files c)
                   (cfc_updated_discardable_size c))
  end.

Definition CF_DeleteFile (number obsolete_sequence : Z) (c : CFEditCollector)
    : Status * CFEditCollector :=
  match cfc_deleted_files c !! number with
  | Some _ => (Corruption ("Blob file " +:+ pretty number +:+ " has been deleted twice"), c)
  | None => (OK, MkCFEditCollector (cfc_added_files c)
                   (emplace number obsolete_sequence (cfc_deleted_files c))
                   (cfc_updated_discardable_size c))
  end.

Definition CF_UpdateFile (number discardable : Z) (c : CFEditCollector) : CFEditCollector :=
  MkCFEditCollector (cfc_added_files c) (cfc_deleted_files c)
    (emplace number discardable (cfc_updated_discardable_size c)).

(** A loop [for (x : l) { s = f(x); if (!s.ok()) return s; }]. *)
Fixpoint for_each {A S : Type} (f : A -> S -> Status * S) (l : list A) (st : S) : Status * S :=
  match l with
  | [] => (OK, st)
  | x :: l =>
      let '(s, st) := f x st in
      if status_ok s then for_each f l st else (s, st)
  end.

(** The checks of [CFEditCollector::Seal]. *)
Definition seal_added (h : heap) (bs : BlobStorage) (number : Z) : Status :=
  match bs_FindFile number bs with
  | Some blob =>
      if is_obsolete (deref h blob)
      then Corruption ("Blob file " +:+ pretty number +:+ " has been deleted before")
      else Corruption ("Blob file " +:+ pretty number +:+ " has been added before")
  | None => OK
  end.

Definition seal_deleted (h : heap) (bs : BlobStorage) (c : CFEditCollector) (number : Z) : Status :=
  match cfc_added_files c !! number with
  | Some _ => OK
  | None =>
      match bs_FindFile number bs with
      | None => Corruption ("Blob file " +:+ pretty number +:+ " doesn't exist before")
      | Some blob =>
          if is_obsolete (deref h blob)
          then Corruption ("Blob file " +:+ pretty number +:+ " has been deleted already")
          else OK
      end
  end.

(** The first failing check, in order. *)
Fixpoint first_error (l : list Status) : Status :=
  match l with
  | [] => OK
  | s :: l => if status_ok s then first_error l else s
  end.

Definition CF_Seal (h : heap) (bs : BlobStorage) (c : CFEditCollector) : Status :=
  let s := first_error ((fun file => seal_added h bs file.1)
                          <$> unordered_iter (cfc_added_files c)) in
  if status_ok s
  then first_error ((fun file => seal_deleted h bs c file.1)
                      <$> unordered_iter (cfc_deleted_files c))
  else s.

(** The three loops of [CFEditCollector::Apply]. *)
Definition apply_added (c : CFEditCollector) (file : Z * loc) (st : BlobStorage * Shared)
    : BlobStorage * Shared :=
  match cfc_deleted_files c !! file.1 with
  | Some _ => st
  | None => bs_AddBlobFile file.2 st
  end.

Definition apply_deleted (c : CFEditCollector) (file : Z * Z) (st : BlobStorage * Shared)
    : Status * (BlobStorage * Shared) :=
  match cfc_added_files c !! file.1 with
  | Some _ => (OK, st)
  | None =>
      let '(found, st) := MarkFileObsolete file.1 file.2 st in
      (if found then OK else NotFound ("Invalid file number " +:+ pretty file.1), st)
  end.

Definition apply_updated (discardable : Z * Z) (st : BlobStorage * Shared) : BlobStorage * Shared :=
  match bs_FindFile discardable.1 st.1 with
  | None => st
  | Some file =>
      (st.1, set_heap (heap_call (AddDiscardableSize discardable.2) file (sh_heap st.2)) st.2)
  end.

Definition CF_Apply (c : CFEditCollector) (st : BlobStorage * Shared)
    : Status * (BlobStorage * Shared) :=
  let st := foldl (fun st file => apply_added c file st) st (unordered_iter (cfc_added_files c)) in
  let '(s, st) := for_each (apply_deleted c) (unordered_iter (cfc_deleted_files c)) st in
  if status_ok s then
    let '(bs, sh) := foldl (fun st d => apply_updated d st) st
                       (unordered_iter (cfc_updated_discardable_size c)) in
    (OK, ((ComputeGCScore (sh_heap sh) bs).2, sh))
  else (s, st).

(** ** The collector *)

Definition ec_set_status (s : Status) (c : EditCollector) : EditCollector :=
  MkEditCollector s (sealed c) (ec_has_next_file_number c) (ec_next_file_number c)
    (ec_column_families c).

Definition AddEdit (h : heap) (edit : VersionEdit) (c : EditCollector) : Status * EditCollector :=
  if sealed c then (Incomplete "Should be not called after Sealed() is called", c)
  else
    let cf_id := column_family_id edit in
    let cc := default CFEditCollector_default (ec_column_families c !! cf_id) in
    let '(s, cc) := for_each (CF_AddFile h) (added_files edit) cc in
    let '(s, cc) :=
      if status_ok s
      then for_each (fun file => CF_DeleteFile file.1 file.2) (deleted_files edit) cc
      else (s, cc) in
    let put cc := <[cf_id := cc]> (ec_column_families c) in
    if status_ok s then
      let cc := foldl (fun cc d => CF_UpdateFile d.1 d.2 cc) cc
                  (unordered_iter (updated_discardable_size edit)) in
      let c' := MkEditCollector
                  (if bool_decide (added_files edit = []) && bool_decide (deleted_files edit = [])
                   then ec_status c else OK)
                  (sealed c) (ec_has_next_file_number c) (ec_next_file_number c) (put cc) in
      if has_next_file_number edit then
        if next_file_number edit <? ec_next_file_number c then
          let s := Corruption ("Edit has a smaller next file number "
                     +:+ pretty (next_file_number edit) +:+ " than current "
                     +:+ pretty (ec_next_file_number c)) in
          (s, ec_set_status s c')
        else (OK, MkEditCollector (ec_status c') (sealed c') true (next_file_number edit)
                    (ec_column_families c'))
      else (OK, c')
    else (s, MkEditCollector s (sealed c) (ec_has_next_file_number c) (ec_next_file_number c)
               (put cc)).

(** [Seal]: column families without a storage are skipped. *)
Definition EditCollector_Seal (cfs : Storages) (h : heap) (c : EditCollector)
    : Status * EditCollector :=
  if negb (status_ok (ec_status c)) then (ec_status c, c)
  else
    let s := first_error ((fun cf => match cfs !! cf.1 with
                                     | Some bs => CF_Seal h bs cf.2
                                     | None => OK
                                     end) <$> unordered_iter (ec_column_families c)) in
    if status_ok s
    then (OK, MkEditCollector OK true (ec_has_next_file_number c) (ec_next_file_number c)
                (ec_column_families c))
    else (s, ec_set_status s c).

(** [Apply] on one column family of the set. *)
Definition apply_cf (cf : Z * CFEditCollector) (st : Storages * Shared)
    : Status * (Storages * Shared) :=
  match st.1 !! cf.1 with
  | None => (OK, st)
  | Some bs =>
      let '(s, (bs, sh)) := CF_Apply cf.2 (bs, st.2) in
      (s, (<[cf.1 := bs]> st.1, sh))
  end.

Definition EditCollector_Apply (c : EditCollector) (st : Storages * Shared)
    : Status * EditCollector * (Storages * Shared) :=
  if negb (status_ok (ec_status c)) then (ec_status c, c, st)
  else if negb (sealed c)
  then (Incomplete "Should be not called until Sealed() is called", c, st)
  else
    let '(s, st) := for_each apply_cf (unordered_iter (ec_column_families c)) st in
    (s, ec_set_status s c, st).

Definition GetNextFileNumber (c : EditCollector) : result Z :=
  if negb (status_ok (ec_status c)) then Err (ec_status c)
  else if ec_has_next_file_number c then Ok (ec_next_file_number c)
  else Err (Corruption "No next file number in manifest file").
End collector.
