(* ===== verification/BlobFileSet.v ===== *)
(** * The blob file set (src/blob_file_set.h, src/blob_file_set.cc)

    All column families' storages, the manifest and the file numbers. Every
    method runs with the database mutex held. The manifest log, the directory and
    the "CURRENT" file are parameters of the file system. *)

From S2P Require Import Prelude Rocks Options Stats Util BlobFormat Env BlobFileBuilder BlobFileReader VersionEdit BlobStorage EditCollector.

(** [rocksdb::FileType], of which Titan tells these apart. *)
Inductive FileType := kBlobFile | kDescriptorFile | kOtherFile.

#[export] Instance FileType_eq_dec : EqDecision FileType.
Proof. solve_decision. Defined.

(** The directory, the "CURRENT" file and the manifest logs. *)
Class ManifestIO `{Env} := {
  CurrentFileName : string -> string;
  DescriptorFileName : string -> Z -> string;
  FileExists : fs -> string -> Status;
  ReadFileToString : fs -> string -> result bytes;
  (** A name read from a file. *)
  name_of_bytes : bytes -> string;
  (** The records [log::Reader::ReadRecord] returns one after another, each with
      the status the reporter holds when it returns it. *)
  read_log : fs -> string -> result (list (bytes * Status));
  NewWritableFile : string -> fs -> Status * fs;
  (** [log::Writer::AddRecord] and [SyncTitanManifest] on the log of that name. *)
  log_AddRecord : string -> bytes -> fs -> Status * fs;
  SyncTitanManifest : string -> fs -> Status * fs;
  SetCurrentFile : string -> Z -> fs -> Status * fs;
  GetChildren : fs -> string -> list string;
  ParseFileName : string -> option (Z * FileType);
  env_DeleteFile : string -> fs -> Status * fs
}.

Definition kMaxSequenceNumber : Z := Z.shiftl 1 56 - 1.
Definition kMaxFileCacheSize : Z := 1024 * 1024.

Section set.
Context `{Coding} `{Compressors} `{E : Env} `{BC : Cache bytes} `{FC : !Cache BlobFileReader}
        `{UnorderedIter} `{!ManifestIO}.

Record BlobFileSet := MkBlobFileSet {
  set_db_options : TitanDBOptions;
  file_cache_size : Z;
  obsolete_manifests : list string;
  obsolete_columns : gset Z;
  column_families : gmap Z BlobStorage;
  manifest : option string;
  set_next_file_number : Z
}.

Definition set_dirname (vs : BlobFileSet) : string := dirname (set_db_options vs).

(** The set with what it shares and the file system. *)
Record Sys := MkSys { sys_set : BlobFileSet; sys_shared : Shared; sys_fs : fs }.

(** The constructor; a negative [max_open_files] stands for the largest cache. *)
Definition BlobFileSet_new (options : TitanDBOptions) : BlobFileSet :=
  let file_cache_size := max_open_files (db_base options) in
  MkBlobFileSet options (if file_cache_size <? 0 then kMaxFileCacheSize else file_cache_size)
    [] ∅ ∅ None 1.

(** Updates of a part of the state. *)
Definition with_cfs (cfs : gmap Z BlobStorage) (vs : BlobFileSet) : BlobFileSet :=
  MkBlobFileSet (set_db_options vs) (file_cache_size vs) (obsolete_manifests vs)
    (obsolete_columns vs) cfs (manifest vs) (set_next_file_number vs).

Definition with_next (n : Z) (vs : BlobFileSet) : BlobFileSet :=
  MkBlobFileSet (set_db_options vs) (file_cache_size vs) (obsolete_manifests vs)
    (obsolete_columns vs) (column_families vs) (manifest vs) n.

Definition with_manifest (m : option string) (obs : list string) (vs : BlobFileSet) : BlobFileSet :=
  MkBlobFileSet (set_db_options vs) (file_cache_size vs) obs (obsolete_columns vs)
    (column_families vs) m (set_next_file_number vs).

Definition with_columns (cols : gset Z) (vs : BlobFileSet) : BlobFileSet :=
  MkBlobFileSet (set_db_options vs) (file_cache_size vs) (obsolete_manifests vs) cols
    (column_families vs) (manifest vs) (set_next_file_number vs).

Definition NewFileNumber (vs : BlobFileSet) : Z * BlobFileSet :=
  (set_next_file_number vs, with_next (set_next_file_number vs +u64 1) vs).

Definition GetBlobStorage (cf_id : Z) (vs : BlobFileSet) : option BlobStorage :=
  column_families vs !! cf_id.

Definition IsColumnFamilyObsolete (cf_id : Z) (vs : BlobFileSet) : bool :=
  bool_decide (cf_id ∈ obsolete_columns vs).

(** [AddColumnFamilies]: an id that is there already keeps its storage. *)
Definition AddColumnFamilies (cfs : gmap Z TitanCFOptions) (vs : BlobFileSet) : BlobFileSet :=
  with_cfs (foldl (fun m cf => emplace cf.1 (BlobStorage_new (set_db_options vs) cf.2 cf.1) m)
              (column_families vs) (ordered_iter cfs)) vs.

(** ** The manifest *)

(** Appends a record to the log and reports its status. *)
Definition add_record (log : string) (record : bytes) (sys : Sys) : Status * Sys :=
  let '(s, w) := log_AddRecord log record (sys_fs sys) in
  (s, MkSys (sys_set sys) (sys_shared sys) w).

(** The edit [WriteSnapshot] writes for a column family: its live files. *)
Definition snapshot_edit (h : heap) (cf : Z * BlobStorage) : VersionEdit :=
  foldl (fun edit file => if is_obsolete (deref h file.2) then edit
                          else VersionEdit_AddBlobFile file.2 edit)
    (SetColumnFamilyID cf.1 VersionEdit_default) (unordered_iter (files cf.2)).

(** The records of a snapshot. *)
Definition snapshot_records (h : heap) (vs : BlobFileSet) : list bytes :=
  VersionEdit_EncodeTo h (SetNextFileNumber (set_next_file_number vs) VersionEdit_default)
  :: ((fun cf => VersionEdit_EncodeTo h (snapshot_edit h cf))
        <$> unordered_iter (column_families vs)).

Definition WriteSnapshot (log : string) (sys : Sys) : Status * Sys :=
  for_each (add_record log) (snapshot_records (sh_heap (sys_shared sys)) (sys_set sys)) sys.

Definition OpenManifest (file_number : Z) (sys : Sys) : Status * Sys :=
  let file_name := DescriptorFileName (set_dirname (sys_set sys)) file_number in
  let '(s, w) := NewWritableFile file_name (sys_fs sys) in
  if negb (status_ok s) then (s, MkSys (sys_set sys) (sys_shared sys) w)
  else
    let vs := with_manifest (Some file_name) (obsolete_manifests (sys_set sys)) (sys_set sys) in
    let '(s, sys) := WriteSnapshot file_name (MkSys vs (sys_shared sys) w) in
    let '(s, sys) :=
      if status_ok s then
        let '(s, w) := SyncTitanManifest file_name (sys_fs sys) in
        (s, MkSys (sys_set sys) (sys_shared sys) w)
      else (s, sys) in
    let '(s, sys) :=
      if status_ok s then
        let '(s, w) := SetCurrentFile (set_dirname (sys_set sys)) file_number (sys_fs sys) in
        (s, MkSys (sys_set sys) (sys_shared sys) w)
      else (s, sys) in
    if status_ok s then (s, sys)
    else (s, MkSys (with_manifest None (obsolete_manifests (sys_set sys) ++ [file_name])
                      (sys_set sys)) (sys_shared sys) (sys_fs sys)).

(** [LogAndApply]; without a manifest it is undefined. *)
Definition LogAndApply (edit : VersionEdit) (sys : Sys) : result (Status * Sys) :=
  let vs := sys_set sys in
  let h := sh_heap (sys_shared sys) in
  let edit := SetNextFileNumber (set_next_file_number vs) edit in
  let record := VersionEdit_EncodeTo h edit in
  let '(s, collector) := AddEdit h edit EditCollector_default in
  if negb (status_ok s) then Ok (s, sys)
  else
    let '(s, collector) := EditCollector_Seal (column_families vs) h collector in
    if negb (status_ok s) then Ok (s, sys)
    else
      match manifest vs with
      | None => Fault
      | Some log =>
          let '(s, w) := log_AddRecord log record (sys_fs sys) in
          if negb (status_ok s) then Ok (s, MkSys vs (sys_shared sys) w)
          else
            let '(s, w) := SyncTitanManifest log w in
            if negb (status_ok s) then Ok (s, MkSys vs (sys_shared sys) w)
            else
              let '(s, _, (cfs, sh)) :=
                EditCollector_Apply collector (column_families vs, sys_shared sys) in
              Ok (s, MkSys (with_cfs cfs vs) sh w)
      end.

(** ** Column families *)

(** The edit that deletes the live files of a dropped column family. *)
Definition drop_edit (h : heap) (obsolete_sequence : Z) (cf : Z * BlobStorage) : VersionEdit :=
  foldl (fun edit file => if is_obsolete (deref h file.2) then edit
                          else DeleteBlobFile file.1 obsolete_sequence edit)
    (SetColumnFamilyID cf.1 VersionEdit_default) (unordered_iter (files cf.2)).

Fixpoint DropColumnFamilies (cfs : list Z) (obsolete_sequence : Z) (sys : Sys)
    : result (Status * Sys) :=
  match cfs with
  | [] => Ok (OK, sys)
  | cf_id :: cfs =>
      match column_families (sys_set sys) !! cf_id with
      | None => Ok (NotFound "invalid column family", sys)
      | Some bs =>
          let edit := drop_edit (sh_heap (sys_shared sys)) obsolete_sequence (cf_id, bs) in
          let* (s, sys) := LogAndApply edit sys in
          if negb (status_ok s) then Ok (s, sys)
          else
            DropColumnFamilies cfs obsolete_sequence
              (MkSys (with_columns ({[cf_id]} ∪ obsolete_columns (sys_set sys)) (sys_set sys))
                 (sys_shared sys) (sys_fs sys))
      end
  end.

(** [MaybeDestroyColumnFamily]; a storage that is erased is destroyed with it. *)
Definition MaybeDestroyColumnFamily (cf_id : Z) (vs : BlobFileSet) (sh : Shared)
    : Status * (BlobFileSet * Shared) :=
  let vs := with_columns (obsolete_columns vs ∖ {[cf_id]}) vs in
  match column_families vs !! cf_id with
  | Some bs =>
      let bs := MarkDestroyed bs in
      (OK, (if MaybeRemove bs then with_cfs (delete cf_id (column_families vs)) vs
            else with_cfs (<[cf_id := bs]> (column_families vs)) vs,
            release_storage bs sh))
  | None => (NotFound "invalid column family", (vs, sh))
  end.

(** [DeleteBlobFilesInRanges]; [obsolete_sequence] is not used. *)
Definition DeleteBlobFilesInRanges (cf_id : Z) (ranges : list (option bytes * option bytes))
    (include_end : bool) (obsolete_sequence : Z) (sys : Sys) : result (Status * Sys) :=
  match column_families (sys_set sys) !! cf_id with
  | None => Ok (NotFound "invalid column family", sys)
  | Some bs =>
      let* numbers := GetBlobFilesInRanges include_end ranges (sh_heap (sys_shared sys)) bs in
      LogAndApply (foldl (fun edit n => DeleteBlobFile n 0 edit)
                     (SetColumnFamilyID cf_id VersionEdit_default) numbers) sys
  end.

(** [GetObsoleteFiles]: over the column families, then the old manifests. *)
Definition collect_cf (oldest_sequence : Z) (acc : list string * (gmap Z BlobStorage * Shared))
    (cf : Z * BlobStorage) : list string * (gmap Z BlobStorage * Shared) :=
  let '(names, (cfs, sh)) := acc in
  let '(names', (bs, sh)) := bs_GetObsoleteFiles oldest_sequence (cf.2, sh) in
  (names ++ names', (if MaybeRemove bs then delete cf.1 cfs else <[cf.1 := bs]> cfs, release_storage bs sh)).

Definition GetObsoleteFiles (oldest_sequence : Z) (vs : BlobFileSet) (sh : Shared)
    : list string * (BlobFileSet * Shared) :=
  let '(names, (cfs, sh)) :=
    foldl (fun acc cf => if IsColumnFamilyObsolete cf.1 vs then acc
                         else collect_cf oldest_sequence acc cf)
      ([], (column_families vs, sh)) (unordered_iter (column_families vs)) in
  (names ++ obsolete_manifests vs,
   (with_manifest (manifest vs) [] (with_cfs cfs vs), sh)).

Definition MarkAllFilesForGC (cfs : gmap Z BlobStorage) (sh : Shared)
    : gmap Z BlobStorage * Shared :=
  foldl (fun st cf => let '(bs, sh) := bs_MarkAllFilesForGC (cf.2, st.2) in
                      (<[cf.1 := bs]> st.1, sh))
    (cfs, sh) (unordered_iter cfs).

(** ** Opening *)

(** The loop of [Recover] over the manifest's records. It stops at the first
    record returned with a bad reporter status, which nothing checks later. *)
Fixpoint collect_edits (records : list (bytes * Status)) (c : EditCollector) (h : heap)
    : result (EditCollector * heap) :=
  match records with
  | [] => Ok (c, h)
  | (record, s) :: records =>
      if negb (status_ok s) then Ok (c, h)
      else
        let* (edit, h) := DecodeInto VersionEdit_DecodeFrom record (VersionEdit_default, h) in
        let '(s, c) := AddEdit h edit c in
        if status_ok s then collect_edits records c h else Err s
  end.

(** The name in the "CURRENT" file, which must end with a newline. *)
Definition current_manifest (content : bytes) : result bytes :=
  match last content with
  | Some Byte.x0a => Ok (take (length content - 1) content)
  | _ => Err (Corruption "CURRENT file does not end with newline")
  end.

(** The numbers of the files to keep: the manifest's and every file's. *)
Definition alive_numbers (manifest_number : Z) (cfs : gmap Z BlobStorage) (h : heap) : gset Z :=
  foldl (fun s cf => foldl (fun s file => {[file_number (deref h file.2)]} ∪ s) s
                       (unordered_iter (files cf.2)))
    {[manifest_number]} (unordered_iter cfs).

(** Whether the purge at the end of [Recover] deletes a directory entry. *)
Definition purged (alive : gset Z) (name : string) : bool :=
  match ParseFileName name with
  | None => false
  | Some (number, type) =>
      negb (bool_decide (number ∈ alive))
      && (bool_decide (type = kBlobFile) || bool_decide (type = kDescriptorFile))
  end.

(** The part of [Recover] from the manifest to the storages. *)
Definition replay (records : list (bytes * Status)) (cfs : gmap Z BlobStorage) (sh : Shared)
    : result (Z * (gmap Z BlobStorage * Shared)) :=
  let* (collector, h) := collect_edits records EditCollector_default (sh_heap sh) in
  let '(s, collector) := EditCollector_Seal cfs h collector in
  if negb (status_ok s) then Err s
  else
    let '(s, collector, st) := EditCollector_Apply collector (cfs, set_heap h sh) in
    if negb (status_ok s) then Err s
    else let* n := GetNextFileNumber collector in Ok (n, st).

(** The scores of every column family. *)
Definition compute_scores (h : heap) (cfs : gmap Z BlobStorage) : gmap Z BlobStorage :=
  (fun bs => (ComputeGCScore h bs).2) <$> cfs.

(** Obsolete files are dropped at start, whatever their sequence. *)
Definition collect_all (cfs : gmap Z BlobStorage) (sh : Shared) : gmap Z BlobStorage * Shared :=
  foldl (fun st cf => let '(_, (bs, sh)) := bs_GetObsoleteFiles kMaxSequenceNumber (cf.2, st.2) in
                      (<[cf.1 := bs]> st.1, sh))
    (cfs, sh) (unordered_iter cfs).

(** [Recover]; on an error the state is not used. *)
Definition Recover (sys : Sys) : result Sys :=
  let w := sys_fs sys in
  let dir := set_dirname (sys_set sys) in
  let* content := ReadFileToString w (CurrentFileName dir) in
  let* name := current_manifest content in
  let* records := read_log w (dir +:+ "/" +:+ name_of_bytes name) in
  let* (n, (cfs, sh)) := replay records (column_families (sys_set sys)) (sys_shared sys) in
  let vs := with_next n (sys_set sys) in
  let '(cfs, sh) := MarkAllFilesForGC cfs sh in
  let cfs := compute_scores (sh_heap sh) cfs in
  let '(manifest_number, vs) := NewFileNumber (with_cfs cfs vs) in
  let '(s, sys) := OpenManifest manifest_number (MkSys vs sh w) in
  if negb (status_ok s) then Err s
  else
    let '(cfs, sh) := collect_all (column_families (sys_set sys)) (sys_shared sys) in
    let alive := alive_numbers manifest_number cfs (sh_heap sh) in
    let w := foldl (fun w f => if purged alive f then (env_DeleteFile (dir +:+ "/" +:+ f) w).2 else w)
               (sys_fs sys) (GetChildren (sys_fs sys) dir) in
    Ok (MkSys (with_cfs cfs (sys_set sys)) sh w).

Definition BlobFileSet_Open (cfs : gmap Z TitanCFOptions) (sys : Sys) : result Sys :=
  let sys := MkSys (AddColumnFamilies cfs (sys_set sys)) (sys_shared sys) (sys_fs sys) in
  let s := FileExists (sys_fs sys) (CurrentFileName (set_dirname (sys_set sys))) in
  if status_ok s then Recover sys
  else if negb (IsNotFound s) then Err s
  else
    let '(n, vs) := NewFileNumber (sys_set sys) in
    let '(s, sys) := OpenManifest n (MkSys vs (sys_shared sys) (sys_fs sys)) in
    if status_ok s then Ok sys else Err s.
End set.

(** ** A directory in memory *)

(** In a log every byte of a record has a one in front, and a zero ends the
    record. *)
Section mem_manifest.
#[local] Existing Instances leb128_coding mem_env.

Definition mem_log_record (record : bytes) : bytes :=
  foldr (fun b rest => Byte.x01 :: b :: rest) [Byte.x00] record.

Fixpoint mem_log_records (acc content : bytes) : list (bytes * Status) :=
  match content with
  | Byte.x00 :: content => (acc, OK) :: mem_log_records [] content
  | Byte.x01 :: b :: content => mem_log_records (acc ++ [b]) content
  | _ => []
  end.

(** The number a name of decimal digits stands for. *)
Definition mem_digit (a : Ascii.ascii) : option N :=
  let d := Ascii.N_of_ascii a in
  if ((48 <=? d) && (d <=? 57))%N then Some (d - 48)%N else None.

Fixpoint mem_number (s : string) (acc : N) : option N :=
  match s with
  | String.EmptyString => Some acc
  | String.String a s => d ← mem_digit a; mem_number s (10 * acc + d)%N
  end.

(** What follows a prefix. *)
Fixpoint strip_prefix (p s : string) : option string :=
  match p, s with
  | String.EmptyString, s => Some s
  | String.String a p, String.String b s => if Ascii.eqb a b then strip_prefix p s else None
  | _, _ => None
  end.

Definition mem_parse (name : string) : option (Z * FileType) :=
  match strip_prefix "MANIFEST-" name with
  | Some n => (fun n => (Z.of_N n, kDescriptorFile)) <$> mem_number n 0
  | None => (fun n => (Z.of_N n, kBlobFile)) <$> mem_number name 0
  end.

Definition mem_name (name : string) : bytes := String.list_byte_of_string name.
Definition mem_descriptor (n : Z) : string := "MANIFEST-" +:+ pretty n.

Definition mem_manifest : @ManifestIO mem_env :=
  let dir (w : @fs mem_env) : gmap string bytes := w in
  @Build_ManifestIO mem_env
  (* CurrentFileName *) (fun d => d +:+ "/CURRENT")
  (* DescriptorFileName *) (fun d n => d +:+ "/" +:+ mem_descriptor n)
  (* FileExists *) (fun w name => match dir w !! name with Some _ => OK | None => NotFound name end)
  (* ReadFileToString *)
  (fun w name => match dir w !! name with Some c => Ok c | None => Err (IOError name) end)
  (* name_of_bytes *) String.string_of_list_byte
  (* read_log *)
  (fun w name => match dir w !! name with
                 | Some c => Ok (mem_log_records [] c)
                 | None => Err (IOError name)
                 end)
  (* NewWritableFile *) (fun name w => (OK, <[name := []]> (dir w)))
  (* log_AddRecord *)
  (fun name record w =>
     (OK, <[name := default [] (dir w !! name) ++ mem_log_record record]> (dir w)))
  (* SyncTitanManifest *) (fun _ w => (OK, w))
  (* SetCurrentFile *)
  (fun d n w => (OK, <[d +:+ "/CURRENT" := mem_name (mem_descriptor n) ++ [Byte.x0a]]> (dir w)))
  (* GetChildren *) (fun w d => omap (strip_prefix (d +:+ "/")) (map_to_list (dir w)).*1)
  (* ParseFileName *) mem_parse
  (* DeleteFile *) (fun name w => (OK, delete name (dir w))).
End mem_manifest.
