(* ===== verification/ApplyInv.v ===== *)
(** * Applying sealed edits

    What [CFEditCollector::Apply] does to a storage after [Seal] accepted the
    batch: it cannot fail, keeps the bookkeeping invariant, and changes the live
    files as the edits say. *)

From S2P Require Import Prelude Rocks Options Stats Util BlobFormat Env BlobFileBuilder BlobFileReader VersionEdit BlobStorage StorageInv EditCollector.

(** ** Live files: the abstract view of a storage *)

Section live.
Context `{Coding} `{Compressors} `{Env} `{BC : Cache bytes} `{FC : !Cache BlobFileReader}
        `{UnorderedIter}.

(** The live files of a table with their persistent metadata. *)
Definition live_of (h : heap) (fm : gmap Z loc) : gmap Z BlobFileMeta :=
  omap (fun l => if is_obsolete (deref h l) then None else Some (persistent (deref h l))) fm.

Definition live_files (bs : BlobStorage) (sh : Shared) : gmap Z BlobFileMeta :=
  live_of (sh_heap sh) (files bs).

(** The specification of an edit: the added files join, the deleted ones leave. *)
Definition spec_edit (added : gmap Z BlobFileMeta) (deleted : gset Z)
    (live : gmap Z BlobFileMeta) : gmap Z BlobFileMeta :=
  filter (fun e => e.1 ∉ deleted) (added ∪ live).

Lemma lookup_live_of h fm n :
  live_of h fm !! n =
  match fm !! n with
  | Some l => if is_obsolete (deref h l) then None else Some (persistent (deref h l))
  | None => None
  end.
Proof. unfold live_of. rewrite lookup_omap. by destruct (fm !! n). Qed.

Lemma lookup_spec_edit added deleted live n :
  spec_edit added deleted live !! n =
  if decide (n ∈ deleted) then None
  else match added !! n with Some m => Some m | None => live !! n end.
Proof.
  unfold spec_edit. destruct (decide (n ∈ deleted)) as [Hd|Hd].
  - apply map_lookup_filter_None. right. intros m _. simpl. tauto.
  - rewrite map_lookup_filter. rewrite lookup_union.
    destruct (added !! n) eqn:Ea; destruct (live !! n) eqn:El; simpl; try done;
      rewrite option_guard_True by done; done.
Qed.

(** What an operation on one storage leaves alone: objects outside its table,
    and the statistics of other column families. *)
Definition frame (bs : BlobStorage) (sh sh' : Shared) : Prop :=
  (forall l, (forall n, files bs !! n <> Some l) -> sh_heap sh' !! l = sh_heap sh !! l) /\
  (forall cf t, cf <> bs_cf_id bs -> stat (sh_stats sh') cf t = stat (sh_stats sh) cf t).

Lemma frame_refl bs sh : frame bs sh sh.
Proof. done. Qed.

Lemma frame_trans bs sh1 sh2 sh3 : frame bs sh1 sh2 -> frame bs sh2 sh3 -> frame bs sh1 sh3.
Proof.
  intros [Hh1 Hs1] [Hh2 Hs2]. split.
  - intros l Hl. by rewrite Hh2, Hh1.
  - intros cf t Hne. by rewrite Hs2, Hs1.
Qed.

(** The parts of a storage an [Apply] does not change. *)
Definition same_config (bs bs' : BlobStorage) : Prop :=
  bs_db_options bs' = bs_db_options bs /\ bs_cf_options bs' = bs_cf_options bs /\
  bs_cf_id bs' = bs_cf_id bs /\ destroyed bs' = destroyed bs.

(** ** The loop over added files *)

(** A file that can be added to [bs]. *)
Definition addable (bs : BlobStorage) (h : heap) (file : Z * loc) : Prop :=
  exists m, h !! file.2 = Some m /\ file_number m = file.1 /\ is_obsolete m = false /\
    0 <= level_index bs m <= bs_num_levels bs.

Lemma apply_added_loop c L obs bs sh :
  ComparatorOk (bs_comparator bs) -> storage_inv obs bs sh -> obsolete_files bs = obs ->
  NoDup L.*1 -> Forall (addable bs (sh_heap sh)) L -> Forall (fun f => files bs !! f.1 = None) L ->
  let '(bs', sh') := foldl (fun st file => apply_added c file st) (bs, sh) L in
  storage_inv obs bs' sh' /\ same_config bs bs' /\ obsolete_files bs' = obs /\
  sh_heap sh' = sh_heap sh /\
  (forall cf t, cf <> bs_cf_id bs -> stat (sh_stats sh') cf t = stat (sh_stats sh) cf t) /\
  forall n, files bs' !! n =
    match files bs !! n with
    | Some l => Some l
    | None => if decide (n ∈ dom (cfc_deleted_files c)) then None else (list_to_map L : gmap Z loc) !! n
    end.
Proof.
  revert bs sh; induction L as [|[n0 l0] L IH]; intros bs sh Hcmp Hinv Hobs Hnd Hadd Hnew;
    cbn [foldl].
  { split_and!; try done. intros n. cbn [list_to_map foldr]. rewrite lookup_empty.
    destruct (files bs !! n); [done|]. by case_decide. }
  cbn [fmap list_fmap fst] in Hnd. apply NoDup_cons in Hnd as [Hni Hnd].
  inversion Hadd as [|? ? (m & Hm & Hnum & Hlive & Hlev) Hadd']; subst.
  inversion Hnew as [|? ? Hn0 Hnew']; subst. simpl in Hm, Hn0, Hnum. subst n0.
  unfold apply_added at 2. cbn [fst snd].
  assert (Hlt : forall n, (list_to_map (((file_number m), l0) :: L) : gmap Z loc) !! n =
    if decide (n = file_number m) then Some l0 else (list_to_map L : gmap Z loc) !! n).
  { intros n. simpl. case_decide; [subst; by rewrite lookup_insert_eq|by rewrite lookup_insert_ne]. }
  simpl fst in *. destruct (cfc_deleted_files c !! file_number m) as [s|] eqn:Hdel.
  - specialize (IH bs sh Hcmp Hinv eq_refl Hnd Hadd' Hnew').
    destruct (foldl _ (bs, sh) L) as [bs' sh'].
    destruct IH as (H1' & H2' & H3' & H4' & H5' & H6'). split_and!; try done.
    intros n. rewrite H6', Hlt. destruct (files bs !! n); [done|].
    case_decide as Hd; [done|]. rewrite decide_False; [done|]. intros ->.
    apply Hd. by apply elem_of_dom_2 in Hdel.
  - assert (Hd : deref (sh_heap sh) l0 = m) by (unfold deref; by rewrite Hm).
    assert (HA := AddBlobFile_inv (obsolete_files bs) bs sh l0 m Hcmp Hinv Hm Hn0 Hlive Hlev).
    unfold bs_AddBlobFile in *. cbn [fst snd] in *. rewrite Hd in *.
    unfold emplace in HA. rewrite Hn0 in HA. unfold emplace at 1. rewrite Hn0.
    match type of HA with storage_inv _ ?b ?s => set (bs1 := b) in *; set (sh1 := s) in * end.
    specialize (IH bs1 sh1 Hcmp HA eq_refl Hnd Hadd').
    destruct (foldl _ (bs1, sh1) L) as [bs' sh'].
    destruct IH as (H1' & H2' & H3' & H4' & H5' & H6').
    { rewrite Forall_forall in *. intros [n l] Hin. simpl.
      rewrite lookup_insert_ne; [by apply (Hnew' _ Hin)|]. intros <-. apply Hni.
      apply list_elem_of_fmap. by exists (file_number m, l). }
    split_and!; try done.
    + intros cf t Hne. rewrite H5' by done. unfold sh1. cbn [sh_stats set_stats].
      rewrite !stat_AddStats, !decide_False by naive_solver. done.
    + intros n. rewrite H6', Hlt. unfold bs1. cbn [files].
      destruct (decide (n = file_number m)) as [->|Hne].
      * rewrite lookup_insert_eq, Hn0. rewrite decide_False; [done|].
        by apply not_elem_of_dom.
      * rewrite lookup_insert_ne by done. done.
Qed.

(** ** The loop over deleted files *)

(** The file [n] of the table is marked by the loop over [L]. *)
Definition marked (c : CFEditCollector) (L : list (Z * Z)) (n : Z) : Prop :=
  n ∈ L.*1 /\ cfc_added_files c !! n = None.

#[global] Instance marked_dec c L n : Decision (marked c L n).
Proof. unfold marked. apply _. Defined.

Lemma apply_deleted_loop c L bs sh :
  storage_inv (obsolete_files bs) bs sh -> NoDup L.*1 ->
  Forall (fun f => cfc_added_files c !! f.1 = None ->
            exists l, files bs !! f.1 = Some l /\ is_obsolete (deref (sh_heap sh) l) = false) L ->
  exists bs' sh', for_each (apply_deleted c) L (bs, sh) = (OK, (bs', sh')) /\
    storage_inv (obsolete_files bs') bs' sh' /\ same_config bs bs' /\ files bs' = files bs /\
    frame bs sh sh' /\
    (forall n l, files bs !! n = Some l -> deref (sh_heap sh') l =
       if decide (marked c L n) then FileStateTransit FileEvent.kDelete (deref (sh_heap sh) l)
       else deref (sh_heap sh) l).
Proof.
  revert bs sh; induction L as [|[n0 seq] L IH]; intros bs sh Hinv Hnd Hall; cbn [for_each].
  { exists bs, sh. by split_and!. }
  cbn [fmap list_fmap fst] in Hnd. apply NoDup_cons in Hnd as [Hni Hnd].
  inversion Hall as [|? ? Hn0 Hall']; subst. simpl in Hn0.
  unfold apply_deleted at 1. cbn [fst snd].
  destruct (cfc_added_files c !! n0) as [la|] eqn:Ha.
  - cbn [status_ok]. destruct (IH bs sh Hinv Hnd Hall') as (bs' & sh' & Hrun & H1' & H2' & H3' & H4' & H5').
    exists bs', sh'. split_and!; try done. intros n l Hl. rewrite (H5' n l Hl).
    apply decide_ext. unfold marked. cbn [fmap list_fmap fst]. rewrite elem_of_cons. naive_solver.
  - destruct (Hn0 eq_refl) as (l0 & Hl0 & Hlive0).
    assert (Hstep := step_obsolete bs sh n0 seq l0 Hl0 Hlive0).
    assert (Hmark := MarkFileObsolete_inv _ _ _ n0 seq l0 Hinv Hl0 Hlive0).
    pose proof (inv_number _ _ _ _ _ Hinv Hl0) as Hnum.
    assert (Hsome : is_Some (sh_heap sh !! l0)).
    { destruct (inv_files _ _ _ Hinv _ _ Hl0) as (m & Hm & _). by eexists. }
    unfold MarkFileObsolete, MarkFileObsoleteLocked in *. cbn [fst snd] in *. rewrite Hl0 in *.
    cbn [fst snd status_ok] in *. rewrite Hnum in *.
    match type of Hmark with storage_inv _ ?b ?s => set (bs1 := b) in *; set (sh1 := s) in * end.
    assert (Hd1 : forall n l, files bs !! n = Some l -> deref (sh_heap sh1) l =
      if decide (n = n0) then FileStateTransit FileEvent.kDelete (deref (sh_heap sh) l)
      else deref (sh_heap sh) l).
    { intros n l Hl. unfold sh1. cbn [sh_heap set_heap set_stats]. rewrite deref_heap_call by done.
      destruct (decide (l0 = l)) as [<-|Hne].
      - rewrite decide_True; [done|]. by eapply inv_loc_inj.
      - rewrite decide_False; [done|]. congruence. }
    destruct (IH bs1 sh1 Hmark Hnd) as (bs' & sh' & Hrun & H1' & H2' & H3' & H4' & H5').
    { rewrite Forall_forall in *. intros [n s] Hin Hna. cbn [fst] in *.
      destruct (Hall' _ Hin Hna) as (l & Hl & Hlive). exists l. split; [done|].
      rewrite (Hd1 n l Hl), decide_False; [done|]. intros ->. apply Hni.
      apply list_elem_of_fmap. by exists (n0, s). }
    exists bs', sh'. split_and!; try done.
    + eapply frame_trans; [|exact H4']. split.
      * intros l Hl. unfold sh1. cbn [sh_heap set_heap set_stats]. unfold heap_call.
        rewrite lookup_alter_ne; [done|]. intros ->. by apply (Hl n0).
      * intros cf t Hne. unfold sh1. cbn [sh_stats set_heap set_stats].
        rewrite !stat_AddStats, !decide_False by naive_solver.
        rewrite !stat_SubStats, !decide_False by naive_solver. done.
    + intros n l Hl. rewrite (H5' n l Hl), (Hd1 n l Hl).
      destruct (decide (n = n0)) as [->|Hne].
      * rewrite decide_False by (intros [? _]; done). rewrite decide_True; [done|].
        split; [left|done].
      * apply decide_ext. unfold marked. cbn [fmap list_fmap fst]. rewrite elem_of_cons. naive_solver.
Qed.

(** ** The loop over discardable sizes *)

Lemma apply_updated_loop L obs bs sh :
  storage_inv obs bs sh ->
  let st' := foldl (fun st d => apply_updated d st) (bs, sh) L in
  st'.1 = bs /\ storage_inv obs bs st'.2 /\ frame bs sh st'.2 /\
  forall n l, files bs !! n = Some l ->
    persistent (deref (sh_heap st'.2) l) = persistent (deref (sh_heap sh) l) /\
    is_obsolete (deref (sh_heap st'.2) l) = is_obsolete (deref (sh_heap sh) l).
Proof.
  revert sh; induction L as [|d L IH]; intros sh Hinv; cbn [foldl]; [by split_and!|].
  assert (Hau : apply_updated d (bs, sh) = (bs, match bs_FindFile d.1 bs with
    | None => sh
    | Some file => set_heap (heap_call (AddDiscardableSize d.2) file (sh_heap sh)) sh end))
    by (unfold apply_updated; cbn [fst snd]; by destruct (bs_FindFile d.1 bs)).
  rewrite Hau. clear Hau.
  destruct (bs_FindFile d.1 bs) as [l0|] eqn:Hf; [|by apply IH].
  set (sh1 := set_heap _ sh).
  assert (Hd : forall n l, files bs !! n = Some l ->
    deref (sh_heap sh1) l = if decide (l0 = l) then AddDiscardableSize d.2 (deref (sh_heap sh) l)
                            else deref (sh_heap sh) l).
  { intros n l _. unfold sh1. cbn [sh_heap set_heap]. apply deref_heap_call.
    destruct (inv_files _ _ _ Hinv _ _ Hf) as (m & Hm & _). by eexists. }
  assert (Hrely : rely bs sh sh1).
  { split; [|done]. intros n l m Hn Hm. unfold sh1. cbn [sh_heap set_heap]. unfold heap_call.
    rewrite lookup_alter. case_decide; subst; rewrite Hm; eexists; (split; [done|]); by repeat split. }
  destruct (IH sh1 (storage_inv_rely _ _ _ _ Hinv Hrely)) as (H1' & H2' & H3' & H4').
  split_and!; try done.
  - eapply frame_trans; [|exact H3']. split; [|done]. intros l Hl. unfold sh1. cbn [sh_heap set_heap].
    unfold heap_call. rewrite lookup_alter_ne; [done|]. intros ->. by apply (Hl d.1).
  - intros n l Hl. destruct (H4' n l Hl) as [-> ->]. rewrite (Hd n l Hl). by case_decide.
Qed.

(** ** [Seal], then [Apply] *)

Lemma first_error_OK l : first_error l = OK <-> Forall (fun s => s = OK) l.
Proof.
  induction l as [|s l IH]; simpl; [by split; [constructor|]|]. rewrite Forall_cons, <- IH.
  destruct s; simpl; naive_solver.
Qed.

(** What [CFEditCollector::Seal] accepts. *)
Definition seal_accepts (h : heap) (bs : BlobStorage) (c : CFEditCollector) : Prop :=
  (forall n l, cfc_added_files c !! n = Some l -> files bs !! n = None) /\
  (forall n seq, cfc_deleted_files c !! n = Some seq -> cfc_added_files c !! n = None ->
     exists l, files bs !! n = Some l /\ is_obsolete (deref h l) = false).

Lemma CF_Seal_OK h bs c : CF_Seal h bs c = OK <-> seal_accepts h bs c.
Proof.
  unfold CF_Seal.
  assert (Hadd : first_error ((fun file => seal_added h bs file.1) <$> unordered_iter (cfc_added_files c))
                 = OK <-> (forall n l, cfc_added_files c !! n = Some l -> files bs !! n = None)).
  { rewrite first_error_OK, Forall_fmap, Forall_forall. unfold seal_added, bs_FindFile, compose. split.
    - intros Hall n l Hn. specialize (Hall (n, l)). rewrite elem_of_unordered_iter in Hall.
      specialize (Hall Hn). simpl in Hall. destruct (files bs !! n); [|done]. by case_match.
    - intros Hall [n l] Hin. apply elem_of_unordered_iter in Hin. simpl. by rewrite (Hall n l Hin). }
  assert (Hdel : first_error ((fun file => seal_deleted h bs c file.1) <$> unordered_iter (cfc_deleted_files c))
                 = OK <-> (forall n seq, cfc_deleted_files c !! n = Some seq ->
                     cfc_added_files c !! n = None ->
                     exists l, files bs !! n = Some l /\ is_obsolete (deref h l) = false)).
  { rewrite first_error_OK, Forall_fmap, Forall_forall. unfold seal_deleted, bs_FindFile, compose. split.
    - intros Hall n s Hn Hna. specialize (Hall (n, s)). rewrite elem_of_unordered_iter in Hall.
      specialize (Hall Hn). simpl in Hall. rewrite Hna in Hall.
      destruct (files bs !! n) as [l|]; [|done]. exists l. split; [done|].
      by destruct (is_obsolete (deref h l)).
    - intros Hall [n s] Hin. apply elem_of_unordered_iter in Hin. simpl.
      destruct (cfc_added_files c !! n) eqn:Ha; [done|].
      destruct (Hall n s Hin Ha) as (l & -> & ->). done. }
  unfold seal_accepts. destruct (first_error _) eqn:Hs; cbn [status_ok];
    [rewrite Hdel; naive_solver|..];
    (split; [done|]; intros [Ha _]; apply Hadd in Ha; congruence).
Qed.

(** After a successful [Seal] the batch applies: [Apply] returns OK, the
    invariant is kept, and the live files change as specified. *)
Lemma CF_Apply_ok c bs sh :
  ComparatorOk (bs_comparator bs) -> storage_inv (obsolete_files bs) bs sh ->
  seal_accepts (sh_heap sh) bs c ->
  map_Forall (fun n l => addable bs (sh_heap sh) (n, l)) (cfc_added_files c) ->
  exists bs' sh', CF_Apply c (bs, sh) = (OK, (bs', sh')) /\
    storage_inv (obsolete_files bs') bs' sh' /\ same_config bs bs' /\ frame bs' sh sh' /\
    (forall n l, files bs' !! n = Some l -> files bs !! n = Some l \/
       cfc_added_files c !! n = Some l /\ n ∉ dom (cfc_deleted_files c)) /\
    live_files bs' sh' =
      spec_edit ((fun l => persistent (deref (sh_heap sh) l)) <$> cfc_added_files c)
        (dom (cfc_deleted_files c)) (live_files bs sh).
Proof.
  intros Hcmp Hinv [Hsa Hsd] Hadd. unfold CF_Apply.
  pose proof (apply_added_loop c (unordered_iter (cfc_added_files c)) _ bs sh Hcmp Hinv eq_refl
    (NoDup_unordered_iter _)) as H1'.
  destruct (foldl _ (bs, sh) _) as [bs1 sh1].
  destruct H1' as (Hinv1 & Hcfg1 & Hobs1 & Hh1 & Hst1 & Hf1).
  { apply Forall_forall. intros [n l] Hin%elem_of_unordered_iter. by apply Hadd. }
  { apply Forall_forall. intros [n l] Hin%elem_of_unordered_iter. by eapply Hsa. }
  rewrite unordered_iter_to_map in Hf1. rewrite <- Hobs1 in Hinv1.
  destruct (apply_deleted_loop c (unordered_iter (cfc_deleted_files c)) bs1 sh1 Hinv1
    (NoDup_unordered_iter _)) as (bs2 & sh2 & -> & Hinv2 & Hcfg2 & Hf2 & Hfr2 & Hd2).
  { apply Forall_forall. intros [n s] Hin%elem_of_unordered_iter Hna. simpl in *.
    destruct (Hsd n s Hin Hna) as (l & Hl & Hlive). exists l. rewrite Hf1, Hl, Hh1. done. }
  cbn [status_ok].
  pose proof (apply_updated_loop (unordered_iter (cfc_updated_discardable_size c)) _ bs2 sh2 Hinv2) as H3'.
  destruct (foldl _ (bs2, sh2) _) as [bs3 sh3]. cbn [fst snd] in H3'.
  destruct H3' as (-> & Hinv3 & Hfr3 & Hd3).
  eexists _, sh3. split; [done|]. unfold ComputeGCScore. cbn [snd].
  split; [destruct Hinv3; by split|].
  split. { destruct Hcfg1 as (?&?&?&?), Hcfg2 as (?&?&?&?). split_and!; simpl; congruence. }
  assert (Hid : bs_cf_id bs2 = bs_cf_id bs1) by apply Hcfg2.
  assert (Hid1 : bs_cf_id bs1 = bs_cf_id bs) by apply Hcfg1.
  split.
  { eapply (frame_trans _ _ sh1); [|eapply (frame_trans _ _ sh2)].
    - split; [by intros; rewrite Hh1|]. simpl. intros cf t Hne. apply Hst1. congruence.
    - destruct Hfr2 as [Ha Hb]. split; simpl.
      + intros l Hl. apply Ha. by rewrite Hf2 in Hl.
      + intros cf t Hne. apply Hb. congruence.
    - exact Hfr3. }
  split.
  { simpl. intros n l. rewrite Hf2, Hf1. destruct (files bs !! n); [by left|].
    case_decide; [done|by right]. }
  apply map_eq. intros n. rewrite lookup_spec_edit, lookup_fmap. unfold live_files.
  rewrite !lookup_live_of. cbn [files]. rewrite Hf2.
  assert (Hmark : marked c (unordered_iter (cfc_deleted_files c)) n <->
                  n ∈ dom (cfc_deleted_files c) /\ cfc_added_files c !! n = None).
  { unfold marked. rewrite elem_of_dom, list_elem_of_fmap. split; (intros [Hx Ha]; split; [|done]).
    - destruct Hx as ([n' s] & -> & Hin). apply elem_of_unordered_iter in Hin. by exists s.
    - destruct Hx as [s Hs]. exists (n, s). split; [done|]. by apply elem_of_unordered_iter. }
  destruct (files bs1 !! n) as [l|] eqn:Hn1.
  - assert (Hl2 : files bs2 !! n = Some l) by by rewrite Hf2.
    destruct (Hd3 n l Hl2) as [-> ->]. rewrite (Hd2 n l Hn1), Hh1.
    pose proof Hn1 as Hn1'. rewrite Hf1 in Hn1. destruct (files bs !! n) as [l0|] eqn:Hn.
    + simplify_eq. assert (Hna : cfc_added_files c !! n = None).
      { destruct (cfc_added_files c !! n) eqn:Ha; [|done]. apply Hsa in Ha. congruence. }
      rewrite Hna. cbn [fmap option_fmap option_map].
      destruct (decide (n ∈ dom (cfc_deleted_files c))).
      * rewrite decide_True by by apply Hmark. done.
      * rewrite decide_False by (rewrite Hmark; tauto). done.
    + case_decide as Hdel; [done|]. rewrite Hn1. cbn [fmap option_fmap option_map].
      rewrite decide_False by (rewrite Hmark; tauto).
      destruct (Hadd n l Hn1) as (m & Hm & _ & Hlive & _). cbn [snd] in Hm.
      unfold deref. rewrite Hm. simpl. by rewrite Hlive.
  - rewrite Hf1 in Hn1. destruct (files bs !! n); [done|]. case_decide; [done|]. by rewrite Hn1.
Qed.
End live.

(** ** All column families *)

Section set_inv.
Context `{Coding} `{Compressors} `{Env} `{BC : Cache bytes} `{FC : !Cache BlobFileReader}
        `{UnorderedIter}.

(** The invariant of the storages of a blob file set: each keeps its own, and no
    metadata object belongs to two of them. *)
Record set_inv (cfs : gmap Z BlobStorage) (sh : Shared) : Prop := {
  set_ids : map_Forall (fun id bs => bs_cf_id bs = id) cfs;
  set_cmp : map_Forall (fun _ bs => ComparatorOk (bs_comparator bs)) cfs;
  set_storage : map_Forall (fun _ bs => storage_inv (obsolete_files bs) bs sh) cfs;
  set_disjoint : forall id1 bs1 n1 id2 bs2 n2 l,
    cfs !! id1 = Some bs1 -> files bs1 !! n1 = Some l ->
    cfs !! id2 = Some bs2 -> files bs2 !! n2 = Some l -> id1 = id2
}.

(** The live files of every column family. *)
Definition lives (cfs : gmap Z BlobStorage) (sh : Shared) : gmap Z (gmap Z BlobFileMeta) :=
  (fun bs => live_files bs sh) <$> cfs.

(** No storage has an obsolete file. *)
Definition all_live (cfs : gmap Z BlobStorage) (sh : Shared) : Prop :=
  map_Forall (fun _ bs => no_obsolete bs (sh_heap sh)) cfs.

(** An object no storage owns. *)
Definition unowned (cfs : gmap Z BlobStorage) (l : loc) : Prop :=
  forall id bs n, cfs !! id = Some bs -> files bs !! n <> Some l.

(** What a batch needs beyond [Seal]: its files are fresh objects of their own. *)
Record batch_ok (cfs : gmap Z BlobStorage) (h : heap) (L : list (Z * CFEditCollector)) : Prop := {
  batch_nodup : NoDup L.*1;
  batch_sealed : forall id c bs, (id, c) ∈ L -> cfs !! id = Some bs -> seal_accepts h bs c;
  batch_addable : forall id c bs n l, (id, c) ∈ L -> cfs !! id = Some bs ->
    cfc_added_files c !! n = Some l -> addable bs h (n, l);
  batch_unowned : forall id c n l, (id, c) ∈ L -> cfc_added_files c !! n = Some l -> unowned cfs l;
  batch_disjoint : forall id1 c1 n1 id2 c2 n2 l, (id1, c1) ∈ L -> (id2, c2) ∈ L ->
    cfc_added_files c1 !! n1 = Some l -> cfc_added_files c2 !! n2 = Some l -> id1 = id2
}.

(** The same column families with the same options. *)
Definition same_configs (cfs cfs' : gmap Z BlobStorage) : Prop :=
  dom cfs' = dom cfs /\
  forall id bs', cfs' !! id = Some bs' -> exists bs, cfs !! id = Some bs /\ same_config bs bs'.

Lemma same_configs_refl cfs : same_configs cfs cfs.
Proof. split; [done|]. intros id bs Hbs. by exists bs. Qed.

Lemma same_configs_trans c1 c2 c3 : same_configs c1 c2 -> same_configs c2 c3 -> same_configs c1 c3.
Proof.
  intros [Hd1 Hc1] [Hd2 Hc2]. split; [congruence|]. intros id bs3 Hbs3.
  destruct (Hc2 id bs3 Hbs3) as (bs2 & Hbs2 & (?&?&?&?)).
  destruct (Hc1 id bs2 Hbs2) as (bs1 & Hbs1 & (?&?&?&?)). exists bs1. split; [done|].
  split_and!; congruence.
Qed.

Lemma no_obsolete_live bs sh :
  no_obsolete bs (sh_heap sh) <-> forall n l, files bs !! n = Some l -> live_files bs sh !! n <> None.
Proof.
  unfold no_obsolete. split; intros Hall n l Hl; specialize (Hall n l Hl);
    unfold live_files in *; rewrite lookup_live_of, Hl in *; by destruct (is_obsolete _).
Qed.

Lemma frame_other bs sh sh' bs2 obs2 :
  frame bs sh sh' -> storage_inv obs2 bs2 sh -> bs_cf_id bs2 <> bs_cf_id bs ->
  (forall n l, files bs2 !! n = Some l -> forall n', files bs !! n' <> Some l) ->
  storage_inv obs2 bs2 sh' /\ live_files bs2 sh' = live_files bs2 sh.
Proof.
  intros [Hh Hs] Hinv Hne Hdisj. split.
  - eapply storage_inv_rely; [done|]. split; [|intros t _; by apply Hs].
    intros n l m Hn Hm. exists m. split; [|apply same_file_refl].
    rewrite Hh; [done|]. by eapply Hdisj.
  - apply map_eq. intros n. unfold live_files. rewrite !lookup_live_of.
    destruct (files bs2 !! n) as [l|] eqn:Hn; [|done]. unfold deref.
    by rewrite (Hh l (Hdisj n l Hn)).
Qed.

Lemma batch_ok_tail cfs h x L : batch_ok cfs h (x :: L) -> batch_ok cfs h L.
Proof.
  intros [Hnd Hseal Hadd Hun Hbd]. split.
  - by apply NoDup_cons in Hnd as [_ ?].
  - intros id c bs Hin. apply Hseal. by right.
  - intros id c bs n l Hin. apply (Hadd id). by right.
  - intros id c n l Hin. apply (Hun id). by right.
  - intros id1 c1 n1 id2 c2 n2 l Hin1 Hin2. apply Hbd; by right.
Qed.

Lemma apply_cf_ok cfs sh id c L :
  set_inv cfs sh -> batch_ok cfs (sh_heap sh) ((id, c) :: L) ->
  exists cfs' sh', apply_cf (id, c) (cfs, sh) = (OK, (cfs', sh')) /\ set_inv cfs' sh' /\
    batch_ok cfs' (sh_heap sh') L /\ same_configs cfs cfs' /\
    (forall id2 c2 n l, (id2, c2) ∈ L -> cfc_added_files c2 !! n = Some l ->
       deref (sh_heap sh') l = deref (sh_heap sh) l) /\
    (forall id2, lives cfs' sh' !! id2 =
       if decide (id2 = id)
       then spec_edit ((fun l => persistent (deref (sh_heap sh) l)) <$> cfc_added_files c)
              (dom (cfc_deleted_files c)) <$> lives cfs sh !! id2
       else lives cfs sh !! id2) /\
    (dom (cfc_deleted_files c) ⊆ dom (cfc_added_files c) -> all_live cfs sh -> all_live cfs' sh').
Proof.
  intros [Hids Hcmps Hinvs Hdisj] Hb. pose proof Hb as [Hnd Hseal Hadd Hun Hbd].
  cbn [fmap list_fmap fst] in Hnd. apply NoDup_cons in Hnd as [Hni Hnd].
  assert (Hne : forall id2 c2, (id2, c2) ∈ L -> id2 <> id).
  { intros id2 c2 Hin ->. apply Hni, list_elem_of_fmap. by exists (id, c2). }
  unfold apply_cf. cbn [fst snd]. destruct (cfs !! id) as [bs|] eqn:Hid.
  2: { exists cfs, sh. split_and!; try done; [by eapply batch_ok_tail|apply same_configs_refl|].
       intros id2. case_decide as Heq; [subst|done]. unfold lives. by rewrite lookup_fmap, Hid. }
  pose proof (Hseal id c bs ltac:(left) Hid) as Hsealc.
  destruct (CF_Apply_ok c bs sh (Hcmps _ _ Hid) (Hinvs _ _ Hid) Hsealc) as
    (bs' & sh' & -> & Hinv' & Hcfg & Hfr & Hfiles & Hlive).
  { intros n l Hn. eapply Hadd; [left|done|done]. }
  pose proof Hcfg as (Hdb & Hcf & Hcid & Hdes).
  assert (Hother : forall id2 bs2 n l, id2 <> id -> cfs !! id2 = Some bs2 ->
            files bs2 !! n = Some l -> forall n', files bs' !! n' <> Some l).
  { intros id2 bs2 n l Hne2 Hid2 Hl n' [Hn'|[Hn' _]]%Hfiles.
    - by eapply Hne2, Hdisj.
    - by eapply (Hun id c n' l ltac:(left) Hn' id2 bs2 n). }
  assert (Hrest : forall id2 bs2, id2 <> id -> cfs !! id2 = Some bs2 ->
            storage_inv (obsolete_files bs2) bs2 sh' /\ live_files bs2 sh' = live_files bs2 sh).
  { intros id2 bs2 Hne2 Hid2. apply (frame_other bs'); [done|by eapply Hinvs| |].
    - rewrite Hcid, (Hids _ _ Hid2), (Hids _ _ Hid). done.
    - intros n l. by eapply Hother. }
  assert (Hkeep : forall id2 c2 n l, (id2, c2) ∈ L -> cfc_added_files c2 !! n = Some l ->
            sh_heap sh' !! l = sh_heap sh !! l).
  { intros id2 c2 n l Hin Hl. apply Hfr. intros n' [Hn'|[Hn' _]]%Hfiles.
    - by eapply (Hun id2 c2 n l ltac:(by right) Hl id bs n').
    - eapply (Hne id2 c2 Hin). eapply Hbd; [by right|left|done|done]. }
  exists (<[id := bs']> cfs), sh'. split_and!; [done| | | | | |].
  - split.
    + intros id2 bs2 [[<- <-]|[_ Hid2]]%lookup_insert_Some; [|by apply Hids].
      rewrite Hcid. by apply Hids.
    + intros id2 bs2 [[<- <-]|[_ Hid2]]%lookup_insert_Some; [|by eapply Hcmps].
      unfold bs_comparator. rewrite Hcf. by eapply Hcmps.
    + intros id2 bs2 [[<- <-]|[Hne2 Hid2]]%lookup_insert_Some; [done|]. by apply (Hrest id2 bs2).
    + intros id1 bs1 n1 id2 bs2 n2 l [[<- <-]|[Hne1 Hid1]]%lookup_insert_Some Hn1
        [[<- <-]|[Hne2 Hid2]]%lookup_insert_Some Hn2; [done|..].
      * exfalso. by eapply (Hother id2 bs2 n2 l).
      * exfalso. by eapply (Hother id1 bs1 n1 l).
      * by eapply Hdisj.
  - split; [done|..].
    + intros id2 c2 bs2 Hin [[<- <-]|[Hne2 Hid2]]%lookup_insert_Some; [by destruct (Hne id c2 Hin)|].
      destruct (Hseal id2 c2 bs2 ltac:(by right) Hid2) as [H1' H2']. split; [done|].
      intros n s Hdel Hna. destruct (H2' n s Hdel Hna) as (l & Hl & Hlv). exists l. split; [done|].
      unfold deref. rewrite (proj1 Hfr l); [done|]. by eapply Hother.
    + intros id2 c2 bs2 n l Hin [[<- <-]|[Hne2 Hid2]]%lookup_insert_Some Hl;
        [by destruct (Hne id c2 Hin)|].
      destruct (Hadd id2 c2 bs2 n l ltac:(by right) Hid2 Hl) as (m & Hm & Hrest').
      exists m. split; [|done]. cbn [snd]. by rewrite (Hkeep id2 c2 n l Hin Hl).
    + intros id2 c2 n l Hin Hl id3 bs3 n3 [[<- <-]|[Hne3 Hid3]]%lookup_insert_Some.
      * intros [Hn'|[Hn' _]]%Hfiles.
        -- by eapply (Hun id2 c2 n l ltac:(by right) Hl id bs n3).
        -- eapply (Hne id2 c2 Hin). eapply Hbd; [by right|left|done|done].
      * eapply (Hun id2 c2 n l); [by right|done|done].
    + intros id1 c1 n1 id2 c2 n2 l Hin1 Hin2. eapply Hbd; by right.
  - split; [rewrite dom_insert_L; apply elem_of_dom_2 in Hid; set_solver|].
    intros id2 bs2 [[<- <-]|[_ Hid2]]%lookup_insert_Some; [by exists bs|by exists bs2].
  - intros id2 c2 n l Hin Hl. unfold deref. by rewrite (Hkeep id2 c2 n l Hin Hl).
  - intros id2. unfold lives. rewrite !lookup_fmap. destruct (decide (id2 = id)) as [->|Hne2].
    + rewrite lookup_insert_eq, Hid. simpl. by rewrite Hlive.
    + rewrite lookup_insert_ne by done. destruct (cfs !! id2) as [bs2|] eqn:Hid2; [|done]. simpl.
      f_equal. by apply (Hrest id2 bs2).
  - intros Hsub Hall id2 bs2 [[<- <-]|[Hne2 Hid2]]%lookup_insert_Some; apply no_obsolete_live.
    + intros n l Hl. rewrite Hlive, lookup_spec_edit, lookup_fmap. destruct (Hfiles n l Hl) as [Hold|[-> Hnd']].
      * rewrite decide_False.
        -- destruct (cfc_added_files c !! n); [done|]. cbn [fmap option_fmap option_map].
           by apply (proj1 (no_obsolete_live bs sh) (Hall _ _ Hid) n l).
        -- intros Hd%Hsub%elem_of_dom. destruct Hd as [l' Hl']. apply (proj1 Hsealc) in Hl'. congruence.
      * by rewrite decide_False.
    + destruct (Hrest id2 bs2 (not_eq_sym Hne2) Hid2) as [_ ->]. by apply no_obsolete_live, (Hall id2).
Qed.

(** The loop of [EditCollector::Apply]. *)
Lemma apply_list_ok L cfs sh :
  set_inv cfs sh -> batch_ok cfs (sh_heap sh) L ->
  exists cfs' sh', for_each apply_cf L (cfs, sh) = (OK, (cfs', sh')) /\ set_inv cfs' sh' /\
    same_configs cfs cfs' /\
    (forall id, lives cfs' sh' !! id =
      match (list_to_map L : gmap Z CFEditCollector) !! id with
      | Some c => spec_edit ((fun l => persistent (deref (sh_heap sh) l)) <$> cfc_added_files c)
                    (dom (cfc_deleted_files c)) <$> lives cfs sh !! id
      | None => lives cfs sh !! id
      end) /\
    (Forall (fun e => dom (cfc_deleted_files e.2) ⊆ dom (cfc_added_files e.2)) L ->
     all_live cfs sh -> all_live cfs' sh').
Proof.
  revert cfs sh; induction L as [|[id c] L IH]; intros cfs sh Hinv Hb; cbn [for_each].
  { exists cfs, sh. split_and!; try done. apply same_configs_refl. }
  destruct (apply_cf_ok cfs sh id c L Hinv Hb) as (cfs1 & sh1 & -> & Hinv1 & Hb1 & Hdom1 & Hk & Hl1 & Ha1).
  cbn [status_ok]. destruct (IH cfs1 sh1 Hinv1 Hb1) as (cfs2 & sh2 & -> & Hinv2 & Hdom2 & Hl2 & Ha2).
  exists cfs2, sh2. split_and!; [done|done|by eapply same_configs_trans| |].
  2: { intros [Hc HL]%Forall_cons Hall. by apply Ha2, Ha1. }
  intros id2. rewrite Hl2.
  pose proof (batch_nodup _ _ _ Hb) as Hnd. cbn [fmap list_fmap fst] in Hnd.
  apply NoDup_cons in Hnd as [Hni Hnd]. cbn [list_to_map foldr fst snd].
  destruct (decide (id2 = id)) as [->|Hne].
  - rewrite lookup_insert_eq, Hl1, decide_True by done.
    rewrite (not_elem_of_list_to_map_1 (M := gmap Z)) by done. done.
  - rewrite lookup_insert_ne by done. rewrite Hl1, decide_False by done.
    destruct ((list_to_map L : gmap Z CFEditCollector) !! id2) as [c2|] eqn:Hc2; [|done].
    apply (elem_of_list_to_map_2 (M := gmap Z)) in Hc2.
    assert (Heq : (fun l => persistent (deref (sh_heap sh1) l)) <$> cfc_added_files c2
                  = (fun l => persistent (deref (sh_heap sh) l)) <$> cfc_added_files c2).
    { apply map_fmap_ext. intros n l Hl. by rewrite (Hk id2 c2 n l Hc2 Hl). }
    by rewrite Heq.
Qed.
End set_inv.
