(* ===== verification/ManifestReplay.v ===== *)
(** * Logging edits and replaying the manifest

    [LogAndApply] refines an abstract edit of the live files, and recovery from
    the manifest rebuilds exactly the live files the logged edits describe. *)

From S2P Require Import Prelude Rocks Options Stats Util BlobFormat Env BlobFileBuilder BlobFileReader VersionEdit BlobStorage StorageInv EditCollector BlobFileSet ApplyInv.

(** ** Adding an edit to a collector *)

(** The files of an edit by number. *)
Definition numbered (h : heap) (ls : list loc) : list (Z * loc) :=
  (fun l => (file_number (deref h l), l)) <$> ls.

Definition added_map (h : heap) (e : VersionEdit) : gmap Z loc :=
  list_to_map (numbered h (added_files e)).

Definition deleted_set (e : VersionEdit) : gset Z := list_to_set (deleted_files e).*1.

Section add_edit.
Context `{UnorderedIter}.

Lemma CF_AddFiles_ok h ls cc :
  NoDup (numbered h ls).*1 ->
  (forall n, n ∈ (numbered h ls).*1 -> cfc_added_files cc !! n = None) ->
  for_each (CF_AddFile h) ls cc =
  (OK, MkCFEditCollector (list_to_map (numbered h ls) ∪ cfc_added_files cc)
         (cfc_deleted_files cc) (cfc_updated_discardable_size cc)).
Proof.
  revert cc; induction ls as [|l ls IH]; intros cc Hnd Hnew; cbn [for_each].
  { cbn [numbered fmap list_fmap list_to_map foldr]. rewrite (left_id_L ∅ (∪)). by destruct cc. }
  cbn [numbered fmap list_fmap fst] in *. apply NoDup_cons in Hnd as [Hni Hnd].
  unfold CF_AddFile at 1. rewrite (Hnew _ ltac:(left)). cbn [status_ok].
  unfold emplace. rewrite (Hnew _ ltac:(left)). rewrite IH; [|done|].
  - cbn [cfc_added_files cfc_deleted_files cfc_updated_discardable_size list_to_map foldr fst snd].
    do 2 f_equal. rewrite <- insert_union_l. symmetry. apply insert_union_r.
    by apply (not_elem_of_list_to_map_1 (M := gmap Z)).
  - intros n Hn. cbn [cfc_added_files]. rewrite lookup_insert_ne by (intros <-; done).
    apply Hnew. by right.
Qed.

Lemma CF_AddFiles_inv h ls cc cc' :
  for_each (CF_AddFile h) ls cc = (OK, cc') ->
  NoDup (numbered h ls).*1 /\
  (forall n, n ∈ (numbered h ls).*1 -> cfc_added_files cc !! n = None).
Proof.
  revert cc; induction ls as [|l ls IH]; intros cc; cbn [for_each numbered fmap list_fmap fst].
  { intros _. split; [constructor|]. by intros n ?%not_elem_of_nil. }
  unfold CF_AddFile at 1. destruct (cfc_added_files cc !! _) eqn:E; [done|]. cbn [status_ok].
  unfold emplace. rewrite E. intros Hrun. destruct (IH _ Hrun) as [Hnd Hnew].
  cbn [cfc_added_files] in Hnew. split.
  - constructor; [|done]. intros Hin. specialize (Hnew _ Hin). by rewrite lookup_insert_eq in Hnew.
  - intros n [->|Hin]%elem_of_cons; [done|]. specialize (Hnew _ Hin).
    apply lookup_insert_None in Hnew. naive_solver.
Qed.

Lemma CF_DeleteFiles_ok ds cc :
  NoDup ds.*1 -> (forall n, n ∈ ds.*1 -> cfc_deleted_files cc !! n = None) ->
  for_each (fun file => CF_DeleteFile file.1 file.2) ds cc =
  (OK, MkCFEditCollector (cfc_added_files cc) (list_to_map ds ∪ cfc_deleted_files cc)
         (cfc_updated_discardable_size cc)).
Proof.
  revert cc; induction ds as [|d ds IH]; intros cc Hnd Hnew; cbn [for_each].
  { cbn [list_to_map foldr]. rewrite (left_id_L ∅ (∪)). by destruct cc. }
  cbn [fmap list_fmap] in *. apply NoDup_cons in Hnd as [Hni Hnd].
  unfold CF_DeleteFile at 1. rewrite (Hnew _ ltac:(left)). cbn [status_ok].
  unfold emplace. rewrite (Hnew _ ltac:(left)). rewrite IH; [|done|].
  - cbn [cfc_added_files cfc_deleted_files cfc_updated_discardable_size list_to_map foldr].
    do 2 f_equal. rewrite <- insert_union_l. symmetry. apply insert_union_r.
    by apply (not_elem_of_list_to_map_1 (M := gmap Z)).
  - intros n Hn. cbn [cfc_deleted_files]. rewrite lookup_insert_ne by (intros <-; done).
    apply Hnew. by right.
Qed.

Lemma CF_DeleteFiles_inv ds cc cc' :
  for_each (fun file => CF_DeleteFile file.1 file.2) ds cc = (OK, cc') ->
  NoDup ds.*1 /\ (forall n, n ∈ ds.*1 -> cfc_deleted_files cc !! n = None).
Proof.
  revert cc; induction ds as [|d ds IH]; intros cc; cbn [for_each fmap list_fmap].
  { intros _. split; [constructor|]. by intros n ?%not_elem_of_nil. }
  unfold CF_DeleteFile at 1. destruct (cfc_deleted_files cc !! _) eqn:E; [done|]. cbn [status_ok].
  unfold emplace. rewrite E. intros Hrun. destruct (IH _ Hrun) as [Hnd Hnew].
  cbn [cfc_deleted_files] in Hnew. split.
  - constructor; [|done]. intros Hin. specialize (Hnew _ Hin). by rewrite lookup_insert_eq in Hnew.
  - intros n [->|Hin]%elem_of_cons; [done|]. specialize (Hnew _ Hin).
    apply lookup_insert_None in Hnew. naive_solver.
Qed.

Lemma foldl_CF_UpdateFile us cc :
  cfc_added_files (foldl (fun cc d => CF_UpdateFile d.1 d.2 cc) cc us) = cfc_added_files cc /\
  cfc_deleted_files (foldl (fun cc d => CF_UpdateFile d.1 d.2 cc) cc us) = cfc_deleted_files cc.
Proof. revert cc; induction us as [|u us IH]; intros cc; [done|]. apply (IH (CF_UpdateFile u.1 u.2 cc)). Qed.

(** What an edit must satisfy to be accepted by a collector. *)
Record edit_accepted (h : heap) (e : VersionEdit) (c : EditCollector) : Prop := {
  acc_open : sealed c = false;
  acc_added_nodup : NoDup (numbered h (added_files e)).*1;
  acc_added_new : forall n, n ∈ (numbered h (added_files e)).*1 ->
    cfc_added_files (default CFEditCollector_default (ec_column_families c !! column_family_id e)) !! n
    = None;
  acc_deleted_nodup : NoDup (deleted_files e).*1;
  acc_deleted_new : forall n, n ∈ (deleted_files e).*1 ->
    cfc_deleted_files (default CFEditCollector_default (ec_column_families c !! column_family_id e)) !! n
    = None;
  acc_next : has_next_file_number e = true -> ec_next_file_number c <= next_file_number e
}.

(** The collector after an accepted edit. *)
Record edit_collected (h : heap) (e : VersionEdit) (c c' : EditCollector) : Prop := {
  col_open : sealed c' = false;
  col_status : ec_status c = OK -> ec_status c' = OK;
  col_has_next : ec_has_next_file_number c' = has_next_file_number e || ec_has_next_file_number c;
  col_next : ec_next_file_number c' =
    if has_next_file_number e then next_file_number e else ec_next_file_number c;
  col_cfs : exists cc', ec_column_families c' = <[column_family_id e := cc']> (ec_column_families c) /\
    cfc_added_files cc' = added_map h e ∪
      cfc_added_files (default CFEditCollector_default (ec_column_families c !! column_family_id e)) /\
    cfc_deleted_files cc' = list_to_map (deleted_files e) ∪
      cfc_deleted_files (default CFEditCollector_default (ec_column_families c !! column_family_id e))
}.

Lemma AddEdit_ok h e c :
  edit_accepted h e c -> exists c', AddEdit h e c = (OK, c') /\ edit_collected h e c c'.
Proof.
  intros [Hs Hnd1 Hnew1 Hnd2 Hnew2 Hnext]. unfold AddEdit. rewrite Hs.
  rewrite CF_AddFiles_ok by done. cbn [status_ok].
  rewrite CF_DeleteFiles_ok by done. cbn [status_ok cfc_added_files cfc_deleted_files
    cfc_updated_discardable_size].
  match goal with |- context [foldl ?f ?cc ?us] =>
    destruct (foldl_CF_UpdateFile us cc) as [Ha Hd]; set (cc' := foldl f cc us) in * end.
  cbn [cfc_added_files cfc_deleted_files] in Ha, Hd.
  assert (Hst : forall b : bool, ec_status c = OK -> (if b then ec_status c else OK) = OK) by by intros [].
  destruct (has_next_file_number e) eqn:Hh.
  - rewrite (proj2 (Z.ltb_ge _ _)) by by apply Hnext. eexists. split; [done|].
    split; simpl; try rewrite Hh; try done; [by apply Hst|by exists cc'].
  - eexists. split; [done|]. split; simpl; try rewrite Hh; try done; [by apply Hst|by exists cc'].
Qed.

(** [AddEdit] accepts nothing else. *)
Lemma AddEdit_accepts h e c c' : AddEdit h e c = (OK, c') -> edit_accepted h e c.
Proof.
  unfold AddEdit. destruct (sealed c) eqn:Hs; [done|].
  destruct (for_each (CF_AddFile h) _ _) as [s1 cc1] eqn:H1.
  destruct s1; cbn [status_ok]; try done.
  destruct (for_each _ (deleted_files e) cc1) as [s2 cc2] eqn:H2.
  destruct s2; cbn [status_ok]; try done.
  destruct (CF_AddFiles_inv _ _ _ _ H1) as [Hnd1 Hnew1].
  rewrite CF_AddFiles_ok in H1 by done. injection H1 as <-.
  destruct (CF_DeleteFiles_inv _ _ _ H2) as [Hnd2 Hnew2]. cbn [cfc_deleted_files] in Hnew2.
  destruct (has_next_file_number e) eqn:Hh.
  - destruct (Z.ltb_spec (next_file_number e) (ec_next_file_number c)); [done|]. by split.
  - split; try done. by rewrite Hh.
Qed.
End add_edit.

(** ** [LogAndApply] *)

Section log_and_apply.
Context `{Coding} `{Compressors} `{E : Env} `{BC : Cache bytes} `{FC : !Cache BlobFileReader}
        `{UnorderedIter} `{!ManifestIO}.

(** The persistent metadata of the files an edit adds. *)
Definition edit_metas (h : heap) (e : VersionEdit) : gmap Z BlobFileMeta :=
  (fun l => persistent (deref h l)) <$> added_map h e.

(** The files of an edit are new objects, fit for their column family. *)
Definition edit_fresh (cfs : gmap Z BlobStorage) (h : heap) (e : VersionEdit) : Prop :=
  forall l, l ∈ added_files e -> exists m, h !! l = Some m /\ is_obsolete m = false /\
    unowned cfs l /\
    (forall bs, cfs !! column_family_id e = Some bs -> 0 <= level_index bs m <= bs_num_levels bs).

Lemma elem_of_added_map h e n l :
  NoDup (numbered h (added_files e)).*1 ->
  added_map h e !! n = Some l <-> l ∈ added_files e /\ file_number (deref h l) = n.
Proof.
  intros Hnd. unfold added_map. rewrite <- (elem_of_list_to_map (M := gmap Z)) by done.
  unfold numbered. rewrite list_elem_of_fmap. split.
  - intros (l' & [= -> ->] & Hin). done.
  - intros [Hin <-]. by exists l.
Qed.

Lemma dom_deleted_list (ds : list (Z * Z)) : dom (list_to_map ds : gmap Z Z) = list_to_set ds.*1.
Proof.
  induction ds as [|d ds IH]; [done|]. cbn [list_to_map foldr fmap list_fmap list_to_set].
  by rewrite dom_insert_L, IH.
Qed.

(** A collector with one accepted edit, sealed, is a batch that applies. *)
Lemma single_batch_ok cfs h e cc :
  edit_fresh cfs h e -> NoDup (numbered h (added_files e)).*1 ->
  cfc_added_files cc = added_map h e ->
  (forall bs, cfs !! column_family_id e = Some bs -> seal_accepts h bs cc) ->
  batch_ok cfs h [(column_family_id e, cc)].
Proof.
  intros Hfresh Hnd Hadd Hseal. split.
  - apply NoDup_singleton.
  - intros id c bs [= -> ->]%list_elem_of_singleton. by apply Hseal.
  - intros id c bs n l [= -> ->]%list_elem_of_singleton Hbs Hl.
    rewrite Hadd in Hl. apply elem_of_added_map in Hl as [Hin Hnum]; [|done].
    destruct (Hfresh l Hin) as (m & Hm & Hlive & _ & Hlev). exists m. simpl.
    unfold deref in Hnum. rewrite Hm in Hnum. split_and!; [done|done|done|apply (Hlev bs Hbs)..].
  - intros id c n l [= -> ->]%list_elem_of_singleton Hl.
    rewrite Hadd in Hl. apply elem_of_added_map in Hl as [Hin _]; [|done].
    by destruct (Hfresh l Hin) as (m & _ & _ & Hun & _).
  - intros id1 c1 n1 id2 c2 n2 l [= -> ->]%list_elem_of_singleton [= -> ->]%list_elem_of_singleton.
    done.
Qed.

(** [Seal] accepts exactly when every column family with a storage does. *)
Lemma Seal_OK cfs h c c' :
  EditCollector_Seal cfs h c = (OK, c') ->
  c' = MkEditCollector OK true (ec_has_next_file_number c) (ec_next_file_number c)
         (ec_column_families c) /\
  forall id cc bs, ec_column_families c !! id = Some cc -> cfs !! id = Some bs -> seal_accepts h bs cc.
Proof.
  unfold EditCollector_Seal. destruct (status_ok (ec_status c)) eqn:Hst; cbn [negb].
  2: { intros [= Hs <-]. by rewrite Hs in Hst. }
  destruct (first_error _) eqn:Hs; cbn [status_ok]; try done. intros [= <-].
  split; [done|]. intros id cc bs Hcc Hbs. apply CF_Seal_OK.
  apply first_error_OK in Hs. rewrite Forall_fmap, Forall_forall in Hs.
  specialize (Hs (id, cc)). rewrite elem_of_unordered_iter in Hs. specialize (Hs Hcc).
  unfold compose in Hs. cbn [fst snd] in Hs. by rewrite Hbs in Hs.
Qed.

Lemma list_to_map_unordered_iter {V} (m : gmap Z V) L :
  L = unordered_iter m -> (list_to_map L : gmap Z V) = m.
Proof. intros ->. apply unordered_iter_to_map. Qed.

Lemma unordered_iter_singleton {V} k (v : V) : unordered_iter (<[k := v]> ∅ : gmap Z V) = [(k, v)].
Proof.
  apply Permutation_singleton_r. rewrite unordered_iter_perm, map_to_list_insert by done.
  by rewrite map_to_list_empty.
Qed.

(** What [AddEdit], [Seal] and [Apply] do to a fresh collector and the set. *)
Lemma apply_single cfs sh e c c' :
  set_inv cfs sh -> edit_fresh cfs (sh_heap sh) e ->
  AddEdit (sh_heap sh) e EditCollector_default = (OK, c) ->
  EditCollector_Seal cfs (sh_heap sh) c = (OK, c') ->
  exists cfs' sh', (EditCollector_Apply c' (cfs, sh)).1.1 = OK /\
    (EditCollector_Apply c' (cfs, sh)).2 = (cfs', sh') /\ set_inv cfs' sh' /\ same_configs cfs cfs' /\
    lives cfs' sh' = alter (spec_edit (edit_metas (sh_heap sh) e) (deleted_set e))
                       (column_family_id e) (lives cfs sh).
Proof.
  intros Hinv Hfresh HA HS. pose proof (AddEdit_accepts _ _ _ _ HA) as Hacc.
  destruct (AddEdit_ok _ _ _ Hacc) as (c1 & HA' & Hcol). rewrite HA in HA'. injection HA' as <-.
  destruct (col_cfs _ _ _ _ Hcol) as (cc & Hcfs & Hadd & Hdel). cbn [ec_column_families
    EditCollector_default] in Hcfs, Hadd, Hdel. rewrite lookup_empty in Hadd, Hdel.
  cbn [default cfc_added_files cfc_deleted_files CFEditCollector_default] in Hadd, Hdel.
  rewrite (right_id_L ∅ (∪)) in Hadd. rewrite (right_id_L ∅ (∪)) in Hdel.
  destruct (Seal_OK _ _ _ _ HS) as [-> Hseal].
  unfold EditCollector_Apply. cbn [ec_status sealed status_ok negb ec_column_families].
  rewrite Hcfs, unordered_iter_singleton.
  destruct (apply_list_ok [(column_family_id e, cc)] cfs sh Hinv) as (cfs' & sh' & -> & Hinv' & Hdom & Hl & _).
  { apply single_batch_ok; [done|apply (acc_added_nodup _ _ _ Hacc)|done|].
    intros bs Hbs. eapply Hseal; [|done]. rewrite Hcfs. apply lookup_insert_eq. }
  exists cfs', sh'. split_and!; try done. apply map_eq. intros id. rewrite Hl.
  cbn [list_to_map foldr fst snd]. destruct (decide (id = column_family_id e)) as [->|Hne].
  - rewrite lookup_insert_eq, lookup_alter_eq, Hadd, Hdel, dom_deleted_list. done.
  - rewrite lookup_insert_ne, lookup_empty, lookup_alter_ne by done. done.
Qed.

(** [LogAndApply] from storages that satisfy the invariant; the numbers of an edit
    it accepts are different, and the storages keep their options. *)
Lemma LogAndApply_spec (edit : VersionEdit) (sys : Sys) :
  set_inv (column_families (sys_set sys)) (sys_shared sys) ->
  edit_fresh (column_families (sys_set sys)) (sh_heap (sys_shared sys)) edit ->
  manifest (sys_set sys) <> None ->
  exists s sys', LogAndApply edit sys = Ok (s, sys') /\
    if status_ok s then
      set_inv (column_families (sys_set sys')) (sys_shared sys') /\
      lives (column_families (sys_set sys')) (sys_shared sys') =
        alter (spec_edit (edit_metas (sh_heap (sys_shared sys)) edit) (deleted_set edit))
          (column_family_id edit) (lives (column_families (sys_set sys)) (sys_shared sys)) /\
      same_configs (column_families (sys_set sys)) (column_families (sys_set sys')) /\
      NoDup (numbered (sh_heap (sys_shared sys)) (added_files edit)).*1
    else sys_set sys' = sys_set sys /\ sys_shared sys' = sys_shared sys.
Proof.
  intros Hinv Hfresh Hman. unfold LogAndApply.
  set (edit' := SetNextFileNumber (set_next_file_number (sys_set sys)) edit).
  destruct (AddEdit _ edit' EditCollector_default) as [s1 c1] eqn:HA.
  destruct (status_ok s1) eqn:Hs1; cbn [negb]; [|exists s1, sys; by rewrite Hs1].
  apply status_ok_true in Hs1 as ->.
  destruct (EditCollector_Seal _ _ c1) as [s2 c2] eqn:HS.
  destruct (status_ok s2) eqn:Hs2; cbn [negb]; [|exists s2, sys; by rewrite Hs2].
  apply status_ok_true in Hs2 as ->.
  destruct (manifest (sys_set sys)) as [log|]; [|done].
  destruct (log_AddRecord log _ (sys_fs sys)) as [s3 w3].
  destruct (status_ok s3) eqn:Hs3; cbn [negb]; [|eexists s3, _; split; [done|]; by rewrite Hs3].
  destruct (SyncTitanManifest log w3) as [s4 w4].
  destruct (status_ok s4) eqn:Hs4; cbn [negb]; [|eexists s4, _; split; [done|]; by rewrite Hs4].
  destruct (apply_single _ _ edit' c1 c2 Hinv Hfresh HA HS) as (cfs' & sh' & Hok & Hst & Hinv' & Hsame & Hl).
  destruct (EditCollector_Apply c2 _) as [[s5 c5] st5]. cbn [fst snd] in Hok, Hst. subst.
  eexists OK, _. split; [done|]. cbn [status_ok sys_set sys_shared column_families with_cfs].
  split_and!; [done..|]. exact (acc_added_nodup _ _ _ (AddEdit_accepts _ _ _ _ HA)).
Qed.

Lemma LogAndApply_refines (edit : VersionEdit) (sys : Sys) :
  set_inv (column_families (sys_set sys)) (sys_shared sys) ->
  edit_fresh (column_families (sys_set sys)) (sh_heap (sys_shared sys)) edit ->
  manifest (sys_set sys) <> None ->
  exists s sys', LogAndApply edit sys = Ok (s, sys') /\
    if status_ok s then
      set_inv (column_families (sys_set sys')) (sys_shared sys') /\
      lives (column_families (sys_set sys')) (sys_shared sys') =
        alter (spec_edit (edit_metas (sh_heap (sys_shared sys)) edit) (deleted_set edit))
          (column_family_id edit) (lives (column_families (sys_set sys)) (sys_shared sys))
    else sys_set sys' = sys_set sys /\ sys_shared sys' = sys_shared sys.
Proof.
  intros Hinv Hfresh Hman. destruct (LogAndApply_spec edit sys Hinv Hfresh Hman) as (s & sys' & Hrun & Hs).
  exists s, sys'. split; [done|]. destruct (status_ok s); [|done]. by destruct Hs as (? & ? & _).
Qed.

(** C7: [LogAndApply] implements an abstract edit, all or nothing. From
    storages that satisfy the bookkeeping invariant, with an open manifest and
    an edit whose added files are new objects: it does not fault; if it returns
    OK, the invariant holds again and the live files of the edit's column family
    are the old ones plus the added ones minus the deleted ones, the other
    column families' being unchanged; if it returns an error, whichever of the
    checks or writes failed, the storages and all that they share are exactly
    as before. In particular applying cannot fail once the edit has been
    sealed. *)
Theorem log_and_apply_refines (edit : VersionEdit) (sys : Sys) :
  set_inv (column_families (sys_set sys)) (sys_shared sys) ->
  edit_fresh (column_families (sys_set sys)) (sh_heap (sys_shared sys)) edit ->
  manifest (sys_set sys) <> None ->
  exists s sys', LogAndApply edit sys = Ok (s, sys') /\
    if status_ok s then
      set_inv (column_families (sys_set sys')) (sys_shared sys') /\
      lives (column_families (sys_set sys')) (sys_shared sys') =
        alter (spec_edit (edit_metas (sh_heap (sys_shared sys)) edit) (deleted_set edit))
          (column_family_id edit) (lives (column_families (sys_set sys)) (sys_shared sys))
    else sys_set sys' = sys_set sys /\ sys_shared sys' = sys_shared sys.
Proof. apply LogAndApply_refines. Qed.
End log_and_apply.

(** ** Histories of edits *)

(** What the records of a manifest say, read in order: the live files of each
    column family, the numbers it ever used, and the next file number. *)
Record HState := MkHState {
  hs_live : Z -> gmap Z BlobFileMeta;
  hs_known : Z -> gset Z;
  hs_next : Z;
  hs_has_next : bool
}.

Definition hs_init : HState := MkHState (fun _ => ∅) (fun _ => ∅) 0 false.

Definition upd {V} (k : Z) (f : V -> V) (M : Z -> V) : Z -> V :=
  fun k' => if decide (k' = k) then f (M k') else M k'.

Definition hs_step (st : HState) (h : heap) (e : VersionEdit) : HState :=
  MkHState (upd (column_family_id e) (spec_edit (edit_metas h e) (deleted_set e)) (hs_live st))
    (upd (column_family_id e) (fun K => dom (edit_metas h e) ∪ K) (hs_known st))
    (if has_next_file_number e then next_file_number e else hs_next st)
    (has_next_file_number e || hs_has_next st).

(** An edit the code may log next: its fields fit their widths, it adds files
    with new numbers, deletes live files or files it adds, each once, and does not
    move the next file number back. *)
Record valid_edit (st : HState) (h : heap) (e : VersionEdit) : Prop := {
  ve_wf : edit_wf h e;
  ve_added_nodup : NoDup (numbered h (added_files e)).*1;
  ve_deleted_nodup : NoDup (deleted_files e).*1;
  ve_added_new : dom (edit_metas h e) ## hs_known st (column_family_id e);
  ve_deleted_live :
    deleted_set e ⊆ dom (hs_live st (column_family_id e)) ∪ dom (edit_metas h e);
  ve_next : has_next_file_number e = true -> hs_next st <= next_file_number e
}.

Inductive history : HState -> list (heap * VersionEdit) -> HState -> Prop :=
| history_nil st : history st [] st
| history_cons st h e es st' :
    valid_edit st h e -> history (hs_step st h e) es st' -> history st ((h, e) :: es) st'.

Section replay.
Context `{Coding} `{!CodingOk _} `{Compressors} `{E : Env} `{BC : Cache bytes}
        `{FC : !Cache BlobFileReader} `{UnorderedIter} `{!ManifestIO}.

(** The records of a history, as the log reader returns them from an intact log. *)
Definition records_of (es : list (heap * VersionEdit)) : list (bytes * Status) :=
  (fun he => (VersionEdit_EncodeTo he.1 he.2, OK)) <$> es.

Definition coll (c : EditCollector) (cf : Z) : CFEditCollector :=
  default CFEditCollector_default (ec_column_families c !! cf).

(** Files of an edit fit a set of storages. *)
Definition levels_ok (cfs : gmap Z BlobStorage) (cf : Z) (m : BlobFileMeta) : Prop :=
  forall bs, cfs !! cf = Some bs -> 0 <= level_index bs m <= bs_num_levels bs.

Section invariant.
Context (cfs : gmap Z BlobStorage) (h0 : heap).

(** The collector holds what the history says. *)
Record coll_inv (st : HState) (c : EditCollector) (h : heap) : Prop := {
  ci_status : ec_status c = OK;
  ci_open : sealed c = false;
  ci_has_next : ec_has_next_file_number c = hs_has_next st;
  ci_next : ec_next_file_number c = hs_next st;
  ci_ext : h0 ⊆ h;
  ci_live : forall cf, hs_live st cf =
    spec_edit ((fun l => persistent (deref h l)) <$> cfc_added_files (coll c cf))
      (dom (cfc_deleted_files (coll c cf))) ∅;
  ci_known : forall cf, dom (cfc_added_files (coll c cf)) = hs_known st cf;
  ci_deleted : forall cf, dom (cfc_deleted_files (coll c cf)) ⊆ dom (cfc_added_files (coll c cf));
  ci_files : forall cf n l, cfc_added_files (coll c cf) !! n = Some l ->
    exists m, h !! l = Some m /\ file_number m = n /\ is_obsolete m = false /\ h0 !! l = None /\
      levels_ok cfs cf m;
  ci_disjoint : forall cf1 n1 cf2 n2 l, cfc_added_files (coll c cf1) !! n1 = Some l ->
    cfc_added_files (coll c cf2) !! n2 = Some l -> cf1 = cf2
}.

Lemma coll_inv_init h : h0 ⊆ h -> coll_inv hs_init EditCollector_default h.
Proof.
  intros Hsub.
  assert (Hc : forall cf, coll EditCollector_default cf = CFEditCollector_default).
  { intros cf. unfold coll. simpl. by rewrite lookup_empty. }
  by split; try done; intros cf; rewrite ?Hc; simpl; rewrite ?fmap_empty, ?dom_empty_L.
Qed.

(** The decoded edit has the same view as the one that was encoded. *)
Lemma decoded_numbers h e h' ls :
  deref h' <$> ls = (fun l => persistent (deref h l)) <$> added_files e ->
  (numbered h' ls).*1 = (numbered h (added_files e)).*1.
Proof.
  intros Heq. unfold numbered. rewrite <- !list_fmap_compose. unfold compose. simpl.
  transitivity (file_number <$> (deref h' <$> ls)); [by rewrite <- list_fmap_compose|].
  rewrite Heq, <- list_fmap_compose. done.
Qed.

Lemma decoded_metas h e h' ls :
  deref h' <$> ls = (fun l => persistent (deref h l)) <$> added_files e ->
  (fun l => persistent (deref h' l)) <$> (list_to_map (numbered h' ls) : gmap Z loc) = edit_metas h e.
Proof.
  intros Heq. unfold edit_metas, added_map.
  revert ls Heq; induction (added_files e) as [|l0 l1 IH]; intros [|l ls] Heq; try done.
  cbn [fmap list_fmap] in Heq. injection Heq as Hl Hls.
  cbn [numbered fmap list_fmap list_to_map foldr fst snd]. rewrite !fmap_insert, Hl.
  unfold numbered in IH. rewrite (IH ls Hls). done.
Qed.

Lemma dom_edit_metas h e : dom (edit_metas h e) = list_to_set (numbered h (added_files e)).*1.
Proof.
  unfold edit_metas, added_map. rewrite dom_fmap_L. generalize (numbered h (added_files e)) as l.
  intros l. induction l as [|x l IH]; [done|].
  cbn [list_to_map foldr fmap list_fmap list_to_set]. by rewrite dom_insert_L, IH.
Qed.

(** A number that may be deleted was not deleted before. *)
Lemma deletable_new st c h he e n :
  coll_inv st c h -> valid_edit st he e -> n ∈ deleted_set e ->
  n ∉ dom (cfc_deleted_files (coll c (column_family_id e))).
Proof.
  intros Hc Hv Hn Hd. apply (ve_deleted_live _ _ _ Hv) in Hn as [Hn|Hn]%elem_of_union.
  - apply elem_of_dom in Hn as [m Hm]. rewrite (ci_live _ _ _ Hc), lookup_spec_edit in Hm.
    by rewrite decide_True in Hm.
  - apply (ve_added_new _ _ _ Hv n Hn). rewrite <- (ci_known _ _ _ Hc).
    by apply (ci_deleted _ _ _ Hc).
Qed.

(** The edit decoded from a valid record is accepted. *)
Lemma decoded_accepted st c h he e h' ls us :
  coll_inv st c h -> valid_edit st he e ->
  deref h' <$> ls = (fun l => persistent (deref he l)) <$> added_files e ->
  edit_accepted h'
    (MkVersionEdit (has_next_file_number e) (next_file_number e) (column_family_id e) ls
       ((fun d => (d.1, 0)) <$> deleted_files e) us) c.
Proof.
  intros Hc Hv Hderef. pose proof (decoded_numbers he e h' ls Hderef) as Hnums.
  assert (Hdels : ((fun d : Z * Z => (d.1, 0)) <$> deleted_files e).*1 = (deleted_files e).*1)
    by (rewrite <- list_fmap_compose; done).
  split; cbn [added_files deleted_files column_family_id has_next_file_number next_file_number].
  - apply (ci_open _ _ _ Hc).
  - rewrite Hnums. apply (ve_added_nodup _ _ _ Hv).
  - intros n. rewrite Hnums. intros Hin. apply not_elem_of_dom.
    fold (coll c (column_family_id e)). rewrite (ci_known _ _ _ Hc). intros Hk.
    apply (ve_added_new _ _ _ Hv n); [|done]. rewrite dom_edit_metas. by apply elem_of_list_to_set.
  - rewrite Hdels. apply (ve_deleted_nodup _ _ _ Hv).
  - intros n. rewrite Hdels. intros Hin. apply not_elem_of_dom.
    fold (coll c (column_family_id e)). eapply deletable_new; [done|done|].
    by apply elem_of_list_to_set.
  - intros Hh. rewrite (ci_next _ _ _ Hc). by apply (ve_next _ _ _ Hv).
Qed.

Lemma coll_insert c c' cf cc cf' :
  ec_column_families c' = <[cf := cc]> (ec_column_families c) ->
  coll c' cf' = if decide (cf' = cf) then cc else coll c cf'.
Proof.
  intros Heq. unfold coll. rewrite Heq. case_decide; [subst; by rewrite lookup_insert_eq|].
  by rewrite lookup_insert_ne.
Qed.

(** The live files after the record, in the collector's terms. *)
Lemma collected_live (live metas : gmap Z BlobFileMeta) (A0 A1 : gmap Z loc) (D0 : gset Z)
    (D : gset Z) (h h' : heap) :
  live = spec_edit ((fun l => persistent (deref h l)) <$> A0) D0 ∅ ->
  (fun l => persistent (deref h' l)) <$> A1 = metas ->
  (forall n l, A0 !! n = Some l -> deref h' l = deref h l) ->
  dom metas ## D0 ->
  spec_edit metas D live = spec_edit ((fun l => persistent (deref h' l)) <$> (A1 ∪ A0)) (D ∪ D0) ∅.
Proof.
  intros -> <- Hsame Hdisj. apply map_eq. intros n.
  rewrite !lookup_spec_edit, !lookup_fmap, lookup_union, lookup_empty.
  destruct (decide (n ∈ D)) as [|HnD]; [by rewrite decide_True by set_solver|].
  destruct (A1 !! n) as [l|] eqn:Hl; cbn [fmap option_fmap option_map].
  - rewrite decide_False; [by destruct (A0 !! n)|]. intros [|Hd]%elem_of_union; [done|].
    apply (Hdisj n); [|done]. apply elem_of_dom. rewrite lookup_fmap, Hl. by eexists.
  - destruct (decide (n ∈ D0)); [by rewrite decide_True by set_solver|].
    rewrite decide_False by set_solver.
    destruct (A0 !! n) as [l|] eqn:Hl0; [|done]. simpl. by rewrite (Hsame n l Hl0).
Qed.

(** One record. *)
Lemma collect_step st c h he e :
  coll_inv st c h -> valid_edit st he e ->
  (forall l, l ∈ added_files e -> levels_ok cfs (column_family_id e) (deref he l)) ->
  exists e' h' c', DecodeInto VersionEdit_DecodeFrom (VersionEdit_EncodeTo he e)
                     (VersionEdit_default, h) = Ok (e', h') /\
    AddEdit h' e' c = (OK, c') /\ coll_inv (hs_step st he e) c' h'.
Proof.
  intros Hc Hv Hlev.
  destruct (VersionEdit_roundtrip he h e (ve_wf _ _ _ Hv)) as (ls & h' & Hdec & Hal).
  pose proof (alloc_deref _ _ _ _ Hal) as Hderef.
  pose proof (decoded_accepted st c h he e h' ls (updated_discardable_size e) Hc Hv Hderef) as Hacc.
  eexists _, h'. rewrite Hdec. set (e' := MkVersionEdit _ _ _ _ _ _) in *.
  destruct (AddEdit_ok h' e' c Hacc) as (c' & HA & Hcol). exists c'. split_and!; [done|done|].
  destruct (col_cfs _ _ _ _ Hcol) as (cc & Hcfs & Hadd & Hdel).
  change (column_family_id e') with (column_family_id e) in *.
  fold (coll c (column_family_id e)) in Hadd, Hdel.
  set (cf0 := column_family_id e) in *.
  pose proof (fun cf => coll_insert c c' cf0 cc cf Hcfs) as Hcoll.
  assert (Hdels : dom (list_to_map (deleted_files e') : gmap Z Z) = deleted_set e).
  { rewrite dom_deleted_list. unfold e', deleted_set. cbn [deleted_files].
    by rewrite <- list_fmap_compose. }
  assert (Hmetas : (fun l => persistent (deref h' l)) <$> added_map h' e' = edit_metas he e)
    by by apply decoded_metas.
  assert (HdomA : dom (added_map h' e') = dom (edit_metas he e))
    by (by rewrite <- Hmetas, dom_fmap_L).
  assert (Hold : forall cf n l, cfc_added_files (coll c cf) !! n = Some l ->
            deref h' l = deref h l /\ h' !! l = h !! l /\ l ∉ ls).
  { intros cf n l Hl. destruct (ci_files _ _ _ Hc cf n l Hl) as (m & Hm & _).
    assert (Hm' : h' !! l = Some m) by (by eapply lookup_weaken; [|apply (alloc_extends _ _ _ _ Hal)]).
    split_and!; [unfold deref; by rewrite Hm, Hm'|congruence|]. intros Hin.
    pose proof (alloc_fresh _ _ _ _ Hal) as Hf. rewrite Forall_forall in Hf.
    specialize (Hf l Hin). congruence. }
  assert (Hin : forall n l, added_map h' e' !! n = Some l -> l ∈ ls /\ file_number (deref h' l) = n).
  { intros n l. apply elem_of_added_map. apply (acc_added_nodup _ _ _ Hacc). }
  assert (Hdisj0 : dom (edit_metas he e) ## dom (cfc_added_files (coll c cf0))).
  { rewrite (ci_known _ _ _ Hc). apply (ve_added_new _ _ _ Hv). }
  split.
  - apply (col_status _ _ _ _ Hcol), (ci_status _ _ _ Hc).
  - apply (col_open _ _ _ _ Hcol).
  - rewrite (col_has_next _ _ _ _ Hcol), (ci_has_next _ _ _ Hc). done.
  - rewrite (col_next _ _ _ _ Hcol), (ci_next _ _ _ Hc). done.
  - etrans; [apply (ci_ext _ _ _ Hc)|apply (alloc_extends _ _ _ _ Hal)].
  - intros cf. rewrite Hcoll. cbn [hs_live hs_step]. unfold upd. fold cf0.
    destruct (decide (cf = cf0)) as [->|Hne].
    + rewrite Hadd, Hdel, dom_union_L, Hdels. apply collected_live with (h := h).
      * apply (ci_live _ _ _ Hc).
      * done.
      * intros n l Hl. by apply (Hold cf0 n l).
      * pose proof (ci_deleted _ _ _ Hc cf0). set_solver.
    + rewrite (ci_live _ _ _ Hc cf). f_equal. apply map_fmap_ext. intros n l Hl.
      by rewrite (proj1 (Hold cf n l Hl)).
  - intros cf. rewrite Hcoll. cbn [hs_known hs_step]. unfold upd. fold cf0.
    destruct (decide (cf = cf0)) as [->|Hne]; [|apply (ci_known _ _ _ Hc)].
    rewrite Hadd, dom_union_L, HdomA, (ci_known _ _ _ Hc). done.
  - intros cf. rewrite Hcoll. destruct (decide (cf = cf0)) as [->|Hne]; [|apply (ci_deleted _ _ _ Hc)].
    rewrite Hadd, Hdel, !dom_union_L, Hdels, HdomA.
    pose proof (ve_deleted_live _ _ _ Hv) as Hdl. fold cf0 in Hdl.
    assert (dom (hs_live st cf0) ⊆ dom (cfc_added_files (coll c cf0))).
    { rewrite (ci_live _ _ _ Hc). intros n [m Hm]%elem_of_dom. rewrite lookup_spec_edit in Hm.
      case_decide; [done|]. rewrite lookup_fmap in Hm. apply elem_of_dom.
      destruct (cfc_added_files (coll c cf0) !! n); [by eexists|]. by rewrite lookup_empty in Hm. }
    pose proof (ci_deleted _ _ _ Hc cf0). set_solver.
  - intros cf n l. rewrite Hcoll. destruct (decide (cf = cf0)) as [->|Hne].
    + rewrite Hadd. intros [Hl|[_ Hl]]%lookup_union_Some_raw.
      * destruct (Hin n l Hl) as [Hls Hnum].
        pose proof (alloc_live _ _ _ _ Hal) as Halive. rewrite Forall_forall in Halive.
        destruct (Halive l Hls) as [m Hm]. exists m.
        assert (Hdm : deref h' l = m) by (unfold deref; by rewrite Hm).
        assert (Hmm : exists l0, l0 ∈ added_files e /\ m = persistent (deref he l0)).
        { rewrite <- Hdm. assert (Hf : deref h' l ∈ deref h' <$> ls) by (apply list_elem_of_fmap; eauto).
          rewrite Hderef in Hf. apply list_elem_of_fmap in Hf as (l0 & -> & Hl0). eauto. }
        destruct Hmm as (l0 & Hl0 & ->). split_and!; [done|congruence|done| |].
        -- pose proof (alloc_fresh _ _ _ _ Hal) as Hf. rewrite Forall_forall in Hf.
           specialize (Hf l Hls). eapply lookup_weaken_None; [exact Hf|apply (ci_ext _ _ _ Hc)].
        -- intros bs Hbs. exact (Hlev l0 Hl0 bs Hbs).
      * destruct (ci_files _ _ _ Hc cf0 n l Hl) as (m & Hm & Hrest). exists m.
        split; [|done]. destruct (Hold cf0 n l Hl) as (_ & -> & _). done.
    + intros Hl. destruct (ci_files _ _ _ Hc cf n l Hl) as (m & Hm & Hrest). exists m.
      split; [|done]. destruct (Hold cf n l Hl) as (_ & -> & _). done.
  - intros cf1 n1 cf2 n2 l. rewrite !Hcoll.
    destruct (decide (cf1 = cf0)) as [->|Hne1], (decide (cf2 = cf0)) as [->|Hne2]; try done.
    + rewrite Hadd. intros [Hl|[_ Hl]]%lookup_union_Some_raw Hl2.
      * exfalso. apply (Hold cf2 n2 l Hl2). by apply (Hin n1).
      * by eapply (ci_disjoint _ _ _ Hc).
    + rewrite Hadd. intros Hl2 [Hl|[_ Hl]]%lookup_union_Some_raw.
      * exfalso. apply (Hold cf1 n1 l Hl2). by apply (Hin n2).
      * by eapply (ci_disjoint _ _ _ Hc).
    + by eapply (ci_disjoint _ _ _ Hc).
Qed.

(** All records. *)
Lemma collect_history st es st' c h :
  history st es st' -> coll_inv st c h ->
  Forall (fun he => forall l, l ∈ added_files he.2 ->
            levels_ok cfs (column_family_id he.2) (deref he.1 l)) es ->
  exists c' h', collect_edits (records_of es) c h = Ok (c', h') /\ coll_inv st' c' h'.
Proof.
  intros Hh. revert c h; induction Hh as [st|st he e es st' Hv _ IH]; intros c h Hc Hlev.
  - by exists c, h.
  - inversion Hlev as [|? ? Hl Hlev']; subst.
    destruct (collect_step st c h he e Hc Hv Hl) as (e' & h' & c' & Hdec & HA & Hc').
    cbn [records_of fmap list_fmap collect_edits status_ok negb fst snd].
    rewrite Hdec. cbn [result_bind]. rewrite HA. cbn [status_ok]. by apply IH.
Qed.

(** The batch of a complete history is sealed by storages without files. *)
Lemma collected_batch st c h :
  coll_inv st c h -> map_Forall (fun _ bs => files bs = ∅) cfs ->
  batch_ok cfs h (unordered_iter (ec_column_families c)).
Proof.
  intros Hc Hempty.
  assert (Hcoll : forall id cc, (id, cc) ∈ unordered_iter (ec_column_families c) -> cc = coll c id).
  { intros id cc Hin. apply elem_of_unordered_iter in Hin. unfold coll. by rewrite Hin. }
  split.
  - apply NoDup_unordered_iter.
  - intros id cc bs ->%Hcoll Hbs. rewrite (Hempty _ _ Hbs) || idtac. split.
    + intros n l _. by rewrite (Hempty _ _ Hbs), lookup_empty.
    + intros n seq Hdel Hna. exfalso. apply elem_of_dom_2 in Hdel.
      apply (ci_deleted _ _ _ Hc) in Hdel. by apply not_elem_of_dom in Hna.
  - intros id cc bs n l ->%Hcoll Hbs Hl.
    destruct (ci_files _ _ _ Hc id n l Hl) as (m & Hm & Hnum & Hlive & _ & Hlev).
    exists m. split_and!; try done; by apply (Hlev bs Hbs).
  - intros id cc n l _ _ id2 bs2 n2 Hbs2. by rewrite (Hempty _ _ Hbs2), lookup_empty.
  - intros id1 c1 n1 id2 c2 n2 l ->%Hcoll ->%Hcoll. apply (ci_disjoint _ _ _ Hc).
Qed.

Lemma Seal_accepts h c :
  ec_status c = OK ->
  (forall id cc bs, ec_column_families c !! id = Some cc -> cfs !! id = Some bs -> seal_accepts h bs cc) ->
  EditCollector_Seal cfs h c =
    (OK, MkEditCollector OK true (ec_has_next_file_number c) (ec_next_file_number c)
           (ec_column_families c)).
Proof.
  intros Hst Hall. unfold EditCollector_Seal. rewrite Hst. cbn [status_ok negb].
  match goal with |- context [first_error ?l] => assert (Hok : first_error l = OK) end.
  { apply first_error_OK. rewrite Forall_fmap, Forall_forall. intros [id cc] Hin.
    apply elem_of_unordered_iter in Hin. unfold compose. cbn [fst snd].
    destruct (cfs !! id) as [bs|] eqn:Hbs; [|done]. apply CF_Seal_OK. by eapply Hall. }
  by rewrite Hok.
Qed.
End invariant.

(** Storages without files do not depend on the heap. *)
Lemma set_inv_heap cfs sh h :
  map_Forall (fun _ bs => files bs = ∅) cfs -> set_inv cfs sh -> set_inv cfs (set_heap h sh).
Proof.
  intros Hempty [Hids Hcmps Hinvs Hdisj]. split; try done.
  intros id bs Hbs. eapply storage_inv_rely; [by eapply Hinvs|]. split; [|done].
  intros n l m. by rewrite (Hempty _ _ Hbs), lookup_empty.
Qed.

Lemma replay_spec cfs sh es st :
  set_inv cfs sh -> map_Forall (fun _ bs => files bs = ∅) cfs ->
  history hs_init es st -> hs_has_next st = true ->
  Forall (fun he => forall l, l ∈ added_files he.2 ->
            levels_ok cfs (column_family_id he.2) (deref he.1 l)) es ->
  exists cfs' sh', replay (records_of es) cfs sh = Ok (hs_next st, (cfs', sh')) /\
    set_inv cfs' sh' /\ same_configs cfs cfs' /\ all_live cfs' sh' /\
    forall id, id ∈ dom cfs -> lives cfs' sh' !! id = Some (hs_live st id).
Proof.
  intros Hinv Hempty Hhist Hhas Hlev. unfold replay.
  destruct (collect_history cfs (sh_heap sh) hs_init es st EditCollector_default (sh_heap sh) Hhist
    (coll_inv_init cfs _ _ (reflexivity _)) Hlev) as (c & h & -> & Hc). cbn [result_bind].
  pose proof (collected_batch cfs _ st c h Hc Hempty) as Hb.
  rewrite (Seal_accepts cfs h c (ci_status _ _ _ _ _ Hc)).
  2: { intros id cc bs Hcc Hbs. eapply (batch_sealed _ _ _ Hb); [|done]. by apply elem_of_unordered_iter. }
  cbn [status_ok negb]. unfold EditCollector_Apply.
  cbn [ec_status sealed status_ok negb ec_column_families].
  destruct (apply_list_ok (unordered_iter (ec_column_families c)) cfs (set_heap h sh)
    (set_inv_heap _ _ _ Hempty Hinv) Hb) as (cfs' & sh' & -> & Hinv' & Hcfg & Hl & Hlv).
  cbn [status_ok negb]. unfold GetNextFileNumber, ec_set_status.
  cbn [ec_status status_ok negb ec_has_next_file_number ec_next_file_number].
  rewrite (ci_has_next _ _ _ _ _ Hc), Hhas, (ci_next _ _ _ _ _ Hc). cbn [result_bind].
  exists cfs', sh'. split_and!; try done.
  { apply Hlv.
    - apply Forall_forall. intros [id cc] Hin%elem_of_unordered_iter. cbn [snd].
      pose proof (ci_deleted _ _ _ _ _ Hc id) as Hd. unfold coll in Hd. by rewrite Hin in Hd.
    - intros id bs Hbs n l. by rewrite (Hempty id bs Hbs), lookup_empty. }
  intros id Hid. rewrite Hl, unordered_iter_to_map.
  apply elem_of_dom in Hid as [bs Hbs].
  assert (Hempty_live : lives cfs (set_heap h sh) !! id = Some ∅).
  { unfold lives. rewrite lookup_fmap, Hbs. simpl. f_equal. unfold live_files, live_of.
    rewrite (Hempty _ _ Hbs). apply omap_empty. }
  rewrite Hempty_live, (ci_live _ _ _ _ _ Hc id). unfold coll.
  destruct (ec_column_families c !! id) as [cc|]; [done|]. simpl.
  by rewrite fmap_empty, dom_empty_L.
Qed.

(** ** The manifest and the storages agree *)

(** The records written so far, replayed, give the live files of the set. *)
Record consistent (sys : Sys) (es : list (heap * VersionEdit)) (st : HState) : Prop := {
  cons_history : history hs_init es st;
  cons_has_next : hs_has_next st = true;
  cons_next : hs_next st <= set_next_file_number (sys_set sys);
  cons_live : forall id bs, column_families (sys_set sys) !! id = Some bs ->
    hs_live st id = live_files bs (sys_shared sys);
  cons_levels : Forall (fun he => forall l, l ∈ added_files he.2 ->
    levels_ok (column_families (sys_set sys)) (column_family_id he.2) (deref he.1 l)) es
}.

Lemma history_snoc st es st' h e :
  history st es st' -> valid_edit st' h e -> history st (es ++ [(h, e)]) (hs_step st' h e).
Proof.
  induction 1 as [st|st h0 e0 es st' Hv0 _ IH]; intros Hv; simpl.
  - econstructor; [done|constructor].
  - econstructor; [done|by apply IH].
Qed.

Lemma levels_ok_same cfs cfs' cf m : same_configs cfs cfs' -> levels_ok cfs cf m -> levels_ok cfs' cf m.
Proof.
  intros [_ Hc] Hl bs' Hbs'. destruct (Hc _ _ Hbs') as (bs & Hbs & (_ & Hcf & _)).
  specialize (Hl bs Hbs). unfold level_index, bs_num_levels in *. by rewrite Hcf.
Qed.

(** A sealed edit is valid for the history that describes the storages. *)
Lemma sealed_valid cfs sh e bs c c' st :
  cfs !! column_family_id e = Some bs ->
  AddEdit (sh_heap sh) e EditCollector_default = (OK, c) ->
  EditCollector_Seal cfs (sh_heap sh) c = (OK, c') ->
  hs_live st (column_family_id e) = live_files bs sh -> edit_wf (sh_heap sh) e ->
  dom (edit_metas (sh_heap sh) e) ## hs_known st (column_family_id e) ->
  (has_next_file_number e = true -> hs_next st <= next_file_number e) ->
  valid_edit st (sh_heap sh) e.
Proof.
  intros Hbs HA HS Hlive Hwf Hnew Hnext. pose proof (AddEdit_accepts _ _ _ _ HA) as Hacc.
  destruct (AddEdit_ok _ _ _ Hacc) as (c1 & HA' & Hcol). rewrite HA in HA'. injection HA' as <-.
  destruct (col_cfs _ _ _ _ Hcol) as (cc & Hcfs & Hadd & Hdel).
  destruct (Seal_OK _ _ _ _ HS) as [_ Hseal].
  destruct (Hseal (column_family_id e) cc bs) as [_ Hsd]; [by rewrite Hcfs, lookup_insert_eq|done|].
  split; try done; [apply (acc_added_nodup _ _ _ Hacc)|apply (acc_deleted_nodup _ _ _ Hacc)|].
  intros n Hn. unfold deleted_set in Hn. rewrite <- (dom_deleted_list (deleted_files e)) in Hn.
  apply elem_of_dom in Hn as [s Hs].
  apply elem_of_union. destruct (added_map (sh_heap sh) e !! n) as [l|] eqn:Ha.
  - right. unfold edit_metas. rewrite dom_fmap_L. by apply elem_of_dom_2 in Ha.
  - left. destruct (Hsd n s) as (l & Hl & Hlv).
    + rewrite Hdel. by apply lookup_union_Some_l.
    + rewrite Hadd. cbn [EditCollector_default ec_column_families]. rewrite lookup_empty.
      cbn [default cfc_added_files CFEditCollector_default]. by rewrite (right_id_L ∅ (∪)).
    + rewrite Hlive. apply elem_of_dom. unfold live_files. rewrite lookup_live_of, Hl, Hlv. by eexists.
Qed.

(** After an edit the manifest describes the new storages. *)
Lemma LogAndApply_consistent (edit : VersionEdit) (sys sys' : Sys)
    (es : list (heap * VersionEdit)) (st : HState) :
  let h := sh_heap (sys_shared sys) in
  let logged := SetNextFileNumber (set_next_file_number (sys_set sys)) edit in
  set_inv (column_families (sys_set sys)) (sys_shared sys) ->
  consistent sys es st ->
  is_Some (column_families (sys_set sys) !! column_family_id edit) ->
  edit_fresh (column_families (sys_set sys)) h edit ->
  edit_wf h logged -> dom (edit_metas h edit) ## hs_known st (column_family_id edit) ->
  LogAndApply edit sys = Ok (OK, sys') ->
  consistent sys' (es ++ [(h, logged)]) (hs_step st h logged) /\
  set_inv (column_families (sys_set sys')) (sys_shared sys').
Proof.
  intros h logged Hinv [Hh Hhn Hnx Hlv Hlev] [bs Hbs] Hfresh Hwf Hnew HL.
  unfold LogAndApply in HL. fold h logged in HL.
  destruct (AddEdit h logged EditCollector_default) as [[] c1] eqn:HA; cbn [status_ok negb] in HL; try done.
  destruct (EditCollector_Seal _ _ c1) as [[] c2] eqn:HS; cbn [status_ok negb] in HL; try done.
  destruct (manifest (sys_set sys)) as [log|]; [|done].
  destruct (log_AddRecord log _ (sys_fs sys)) as [[] w3]; cbn [status_ok negb] in HL; try done.
  destruct (SyncTitanManifest log w3) as [[] w4]; cbn [status_ok negb] in HL; try done.
  destruct (apply_single _ _ logged c1 c2 Hinv Hfresh HA HS) as (cfs' & sh' & Hok & Hst & Hinv' & Hcfg & Hl).
  destruct (EditCollector_Apply c2 _) as [[s5 c5] st5]. cbn [fst snd] in Hok, Hst. subst.
  injection HL as <-. cbn [sys_set sys_shared column_families with_cfs]. split; [|done].
  assert (Hvalid : valid_edit st h logged).
  { eapply sealed_valid; try done; by apply Hlv. }
  split; cbn [sys_set sys_shared column_families with_cfs set_next_file_number].
  - by apply history_snoc.
  - done.
  - cbn [hs_step hs_next has_next_file_number logged SetNextFileNumber next_file_number]. lia.
  - intros id bs' Hbs'. assert (Hlid : lives cfs' sh' !! id = Some (live_files bs' sh')).
    { unfold lives. by rewrite lookup_fmap, Hbs'. }
    rewrite Hl in Hlid. cbn [hs_live hs_step]. unfold upd.
    change (column_family_id logged) with (column_family_id edit) in *.
    destruct (decide (id = column_family_id edit)) as [->|Hne].
    + rewrite lookup_alter_eq in Hlid. unfold lives in Hlid. rewrite lookup_fmap, Hbs in Hlid.
      injection Hlid as <-. rewrite (Hlv _ _ Hbs). done.
    + rewrite lookup_alter_ne in Hlid by done. unfold lives in Hlid. rewrite lookup_fmap in Hlid.
      destruct (column_families (sys_set sys) !! id) as [bs0|] eqn:Hbs0; [|done].
      injection Hlid as <-. by apply Hlv.
  - apply Forall_app. split.
    + eapply Forall_impl; [exact Hlev|]. intros he Hl' l Hin. eapply levels_ok_same; [done|by apply Hl'].
    + apply Forall_singleton. intros l Hin. eapply levels_ok_same; [done|].
      destruct (Hfresh l Hin) as (m & Hm & _ & _ & Hlevm). cbn [fst snd]. unfold deref. rewrite Hm. done.
Qed.
End replay.

(** ** Applications *)

Section witnesses.
#[local] Existing Instances leb128_coding rle_compressors mem_env map_to_list_iter mem_manifest
  blobs_map readers_map.

(** A column family without files, an open manifest, and an edit that adds file 12. *)
Definition example_cfs : gmap Z BlobStorage := {[ 5 := example_storage0.1 ]}.

Definition example_sys : Sys :=
  MkSys (MkBlobFileSet example_db_options 100 [] ∅ example_cfs (Some "/MANIFEST-000001") 15)
    example_shared (∅ : gmap string bytes).

Definition example_add : VersionEdit :=
  VersionEdit_AddBlobFile 1 (SetColumnFamilyID 5 VersionEdit_default).

Lemma example_cfs_lookup id bs : example_cfs !! id = Some bs -> 5 = id /\ example_storage0.1 = bs.
Proof. apply lookup_singleton_Some. Qed.

Lemma example_cfs_inv : set_inv example_cfs example_shared.
Proof.
  split.
  - by apply map_Forall_singleton.
  - apply map_Forall_singleton. exact bytewise_compare_ok.
  - apply map_Forall_singleton. apply (storage_new_inv example_db_options example_cf_options 5).
    + vm_compute. congruence.
    + exact example_counted_zero.
  - intros id1 bs1 n1 id2 bs2 n2 l [<- _]%example_cfs_lookup _ [<- _]%example_cfs_lookup _. done.
Qed.

Lemma example_add_fresh : edit_fresh example_cfs example_heap example_add.
Proof.
  intros l ->%list_elem_of_singleton. exists example_meta. split; [done|]. split; [done|]. split.
  - intros id bs n [<- <-]%example_cfs_lookup. vm_compute. congruence.
  - intros bs [_ <-]%example_cfs_lookup. vm_compute. intuition congruence.
Qed.

Lemma example_logged :
  match LogAndApply example_add example_sys with Ok (OK, _) => True | _ => False end.
Proof. vm_compute. exact I. Qed.

Lemma log_and_apply_refines_witness :
  exists sys', LogAndApply example_add example_sys = Ok (OK, sys') /\
    lives (column_families (sys_set sys')) (sys_shared sys') = {[ 5 := {[ 12 := persistent example_meta ]} ]}.
Proof.
  destruct (log_and_apply_refines example_add example_sys example_cfs_inv example_add_fresh)
    as (s & sys' & HL & Hs); [done|].
  pose proof example_logged as Hok. rewrite HL in Hok. destruct s; try done.
  exists sys'. split; [done|]. destruct Hs as [_ ->]. vm_compute. reflexivity.
Defined.
End witnesses.
