(* ===== verification/BlobGC.v ===== *)
(** * Garbage collections and their picker
    (src/blob_gc.h, src/blob_gc.cc, src/blob_gc_picker.h, src/blob_gc_picker.cc) *)

From S2P Require Import Prelude Rocks Options Stats Util BlobFormat Env BlobFileBuilder BlobFileReader VersionEdit BlobStorage StorageInv StorageQueries EditCollector ApplyInv.

(** [BlobGC]; the files are metadata objects. [gc_cf_id] is the id of the column
    family of [cfh_]. *)
Record BlobGC := MkBlobGC {
  gc_inputs : list loc;
  sampled_inputs : list loc;
  gc_outputs : list loc;
  titan_cf_options : TitanCFOptions;
  gc_cf_id : option Z;
  trigger_next : bool
}.

Definition MarkFilesBeingGC (inputs : list loc) (h : heap) : heap :=
  foldl (fun h f => heap_call (FileStateTransit FileEvent.kGCBegin) f h) h inputs.

Definition BlobGC_new (blob_files : list loc) (cf : TitanCFOptions) (need_trigger_next : bool)
    (h : heap) : BlobGC * heap :=
  (MkBlobGC blob_files [] [] cf None need_trigger_next, MarkFilesBeingGC blob_files h).

Definition SetColumnFamily (cf_id : Z) (gc : BlobGC) : BlobGC :=
  MkBlobGC (gc_inputs gc) (sampled_inputs gc) (gc_outputs gc) (titan_cf_options gc) (Some cf_id)
    (trigger_next gc).

Definition set_sampled_inputs (files : list loc) (gc : BlobGC) : BlobGC :=
  MkBlobGC (gc_inputs gc) files (gc_outputs gc) (titan_cf_options gc) (gc_cf_id gc)
    (trigger_next gc).

Definition AddOutputFile (blob_file : loc) (gc : BlobGC) : BlobGC :=
  MkBlobGC (gc_inputs gc) (sampled_inputs gc) (gc_outputs gc ++ [blob_file]) (titan_cf_options gc)
    (gc_cf_id gc) (trigger_next gc).

Definition ReleaseGcFiles (gc : BlobGC) (h : heap) : heap :=
  let h := foldl (fun h f =>
             heap_call (fun m => FileStateTransit FileEvent.kGCCompleted (set_gc_mark false m)) f h)
             h (gc_inputs gc) in
  foldl (fun h f => heap_call (FileStateTransit FileEvent.kGCCompleted) f h) h (gc_outputs gc).

(** ** The picker *)

Definition CheckBlobFile (blob_file : option BlobFileMeta) : bool :=
  match blob_file with
  | None => false
  | Some m => bool_decide (file_state m = FileState.kNormal)
  end.

(** The assertion of [CheckBlobFile]. *)
Definition CheckBlobFile_assert (blob_file : option BlobFileMeta) : bool :=
  match blob_file with
  | None => true
  | Some m => negb (bool_decide (file_state m = FileState.kInit))
  end.

(** The files picked so far, their size, and whether picking has stopped. *)
Record Picking := MkPicking { pk_files : list loc; batch_size : Z; stop_picking : bool }.

Section picker.
Context `{Coding} `{Compressors} `{Env} `{BC : Cache bytes} `{FC : !Cache BlobFileReader}
        `{UnorderedIter}.

Section loop.
Context (cf : TitanCFOptions) (bs : BlobStorage) (h : heap).

(** The loop of [PickBlobGC] over the scores; [cnt] counts the iterations
    before. The flag returned is [maybe_continue_next_time]. The message logged
    for a file that is skipped reads its number, also when there is no file. *)
Fixpoint pick_loop (cnt : Z) (scores : list GCScore) (p : Picking) : result (Picking * bool) :=
  match scores with
  | [] => Ok (p, false)
  | s :: scores =>
      let cnt := cnt + 1 in
      match bs_FindFile (gcs_file_number s) bs with
      | None => Fault
      | Some f =>
          let m := deref h f in
          if negb (CheckBlobFile (Some m)) || (level_merge cf && (file_type m =? kSorted))
          then pick_loop cnt scores p
          else if negb (stop_picking p) then
            let batch := batch_size p +u64 file_size m in
            pick_loop cnt scores
              (MkPicking (pk_files p ++ [f]) batch (max_gc_batch_size cf <=? batch))
          else
            let target := blob_file_target_size (bs_cf_options bs) in
            if target =? 0 then Fault
            else if Z.of_nat (length (gc_score bs)) -u64 cnt >? Z.shiftl 1 30 / target
            then Ok (p, true)
            else pick_loop cnt scores p
      end
  end.

(** Only one small file without a mark is not worth a collection. *)
Definition single_small (files : list loc) : bool :=
  match files with
  | [f] => (file_size (deref h f) <=? merge_small_file_threshold cf) && negb (gc_mark (deref h f))
  | _ => false
  end.

Definition PickBlobGC : result (option BlobGC * heap) :=
  let* (p, maybe_continue_next_time) := pick_loop 0 (gc_score bs) (MkPicking [] 0 false) in
  if bool_decide (pk_files p = []) || (batch_size p <? min_gc_batch_size cf) then Ok (None, h)
  else if single_small (pk_files p) then Ok (None, h)
  else let '(gc, h) := BlobGC_new (pk_files p) cf maybe_continue_next_time h in Ok (Some gc, h).
End loop.

(** ** What is picked *)

(** A file a collection may take. *)
Definition pickable (cf : TitanCFOptions) (m : BlobFileMeta) : Prop :=
  file_state m = FileState.kNormal /\ ~ (level_merge cf = true /\ file_type m = kSorted).

#[export] Instance pickable_dec cf m : Decision (pickable cf m).
Proof. unfold pickable. apply _. Defined.

(** The files of scores a collection may take, in order, and the size of files. *)
Definition candidates (cf : TitanCFOptions) (bs : BlobStorage) (h : heap) (scores : list GCScore)
    : list loc :=
  filter (fun f => pickable cf (deref h f)) (omap (fun s => bs_FindFile (gcs_file_number s) bs) scores).

Definition total_size (h : heap) (l : list loc) : Z :=
  foldr (fun f n => file_size (deref h f) + n) 0 l.

Lemma total_size_app h l l' : total_size h (l ++ l') = total_size h l + total_size h l'.
Proof. unfold total_size. induction l; simpl; lia. Qed.

Lemma total_size_nonneg h l : Forall (fun f => 0 <= file_size (deref h f)) l -> 0 <= total_size h l.
Proof. unfold total_size. induction 1; simpl; lia. Qed.

Lemma skip_test cf m :
  negb (CheckBlobFile (Some m)) || (level_merge cf && (file_type m =? kSorted)) =
  negb (bool_decide (pickable cf m)).
Proof.
  unfold CheckBlobFile, pickable. apply Bool.eq_true_iff_eq.
  rewrite orb_true_iff, andb_true_iff, !negb_true_iff, !bool_decide_eq_false, Z.eqb_eq.
  destruct (decide (file_state m = FileState.kNormal)); [|naive_solver].
  destruct (level_merge cf); destruct (decide (file_type m = kSorted)); naive_solver.
Qed.

Section pick_loop.
Context (cf : TitanCFOptions) (bs : BlobStorage) (h : heap).
Context (Htarget : 0 < blob_file_target_size (bs_cf_options bs)).

Abbreviation found := (Forall (fun s => is_Some (files bs !! gcs_file_number s))).

(** Once picking has stopped the picked files stay the same. *)
Lemma pick_loop_stopped scores cnt p :
  found scores -> stop_picking p = true ->
  exists b, pick_loop cf bs h cnt scores p = Ok (p, b) /\
    (b = true -> candidates cf bs h scores <> []).
Proof.
  intros Hf Hstop. revert cnt; induction Hf as [|s scores [f Hs] Hf IH]; intros cnt.
  { by exists false. }
  cbn [pick_loop]. unfold candidates, bs_FindFile in *. cbn [omap list_omap]. rewrite Hs.
  rewrite skip_test. destruct (bool_decide_reflect (pickable cf (deref h f))) as [Hp|Hp]; cbn [negb].
  - rewrite filter_cons_True by done. rewrite Hstop. cbn [negb].
    replace (blob_file_target_size (bs_cf_options bs) =? 0) with false by lia.
    case_match; [by exists true|]. destruct (IH (cnt + 1)) as (b & -> & _). by exists b.
  - rewrite filter_cons_False by done. apply IH.
Qed.

(** The files picked are the shortest prefix of the candidates that reaches the
    largest batch size, or all of them. *)
Definition batch_of (max from : Z) (cands picked : list loc) : Prop :=
  picked `prefix_of` cands /\
  (forall l, l <> [] -> l `prefix_of` picked -> l <> picked -> from + total_size h l < max) /\
  (picked = cands \/ max <= from + total_size h picked).

Lemma pick_loop_spec scores cnt p :
  found scores -> stop_picking p = false ->
  let cands := candidates cf bs h scores in
  Forall (fun f => 0 <= file_size (deref h f)) cands ->
  0 <= batch_size p -> batch_size p + total_size h cands < two64 ->
  exists picked stop b,
    pick_loop cf bs h cnt scores p =
      Ok (MkPicking (pk_files p ++ picked) (batch_size p + total_size h picked) stop, b) /\
    batch_of (max_gc_batch_size cf) (batch_size p) cands picked /\ (b = true -> picked <> cands).
Proof.
  intros Hf. revert cnt p; induction Hf as [|s scores [f Hs] Hf IH]; intros cnt p Hstop cands Hpos Hb0 Hmax.
  { exists [], false, false. destruct p as [fs b st]. simpl in *. subst. rewrite app_nil_r, Z.add_0_r.
    split_and!; try done. split_and!; [done| |by left]. intros l Hl Hp. by apply prefix_nil_inv in Hp. }
  cbn [pick_loop]. unfold cands, candidates, bs_FindFile in *. cbn [omap list_omap] in *.
  rewrite Hs in *. rewrite skip_test.
  destruct (bool_decide_reflect (pickable cf (deref h f))) as [Hp|Hp]; cbn [negb].
  2: { rewrite filter_cons_False in * by done. by apply IH. }
  rewrite filter_cons_True in * by done. rewrite Hstop. cbn [negb].
  set (rest := filter _ _) in *. apply Forall_cons in Hpos as [Hf0 Hpos].
  pose proof (total_size_nonneg _ _ Hpos) as Hr0. cbn [total_size foldr] in Hmax. fold (total_size h rest) in Hmax.
  assert (Hadd : batch_size p +u64 file_size (deref h f) = batch_size p + file_size (deref h f)).
  { apply wrap64_small. split; lia. }
  rewrite Hadd. destruct (max_gc_batch_size cf <=? batch_size p + file_size (deref h f)) eqn:Hfull.
  - destruct (pick_loop_stopped scores (cnt + 1)
      (MkPicking (pk_files p ++ [f]) (batch_size p + file_size (deref h f)) true) Hf eq_refl)
      as (b & -> & Hb).
    exists [f], true, b. split_and!; [by cbn [total_size foldr]; rewrite Z.add_0_r| |].
    + split_and!; [apply prefix_cons, prefix_nil| |right; simpl; lia].
      intros l Hl [k Hk] Hne. destruct l as [|x [|y l]]; simplify_eq/=. 
    + intros Hbt [= Heq]. by apply Hb in Hbt; rewrite Heq in Hbt.
  - destruct (IH (cnt + 1) (MkPicking (pk_files p ++ [f]) (batch_size p + file_size (deref h f)) false))
      as (picked & stop & b & -> & (Hpre & Hlt & Hall) & Hb); [done|done|simpl; lia|simpl in *; lia|].
    cbn [pk_files batch_size] in *. exists (f :: picked), stop, b. cbn [total_size foldr].
    fold (total_size h picked). rewrite <- app_assoc, Z.add_assoc. split_and!; [done| |].
    + split_and!; [by apply prefix_cons| |].
      * intros [|x l] Hl Hpl Hne; [done|]. pose proof (prefix_cons_inv_1 _ _ _ _ Hpl) as ->.
        apply prefix_cons_inv_2 in Hpl. cbn [total_size foldr]. fold (total_size h l).
        destruct l as [|y l]; [cbn [total_size foldr]; lia|]. rewrite Z.add_assoc. apply Hlt; [done|done|congruence].
      * destruct Hall as [->|Hall]; [by left|right; cbn [total_size foldr]; fold (total_size h picked); lia].
    + intros Hbt [= Heq]. by apply Hb.
Qed.
End pick_loop.

(** Whether picked files are worth a collection. *)
Definition worth_gc (cf : TitanCFOptions) (h : heap) (picked : list loc) : Prop :=
  picked <> [] /\ min_gc_batch_size cf <= total_size h picked /\
  ~ (exists f, picked = [f] /\ file_size (deref h f) <= merge_small_file_threshold cf /\
               gc_mark (deref h f) = false).

Lemma single_small_true cf h picked :
  single_small cf h picked = true <->
  exists f, picked = [f] /\ file_size (deref h f) <= merge_small_file_threshold cf /\
            gc_mark (deref h f) = false.
Proof.
  unfold single_small. destruct picked as [|f [|g l]]; [naive_solver| |naive_solver].
  rewrite andb_true_iff, Z.leb_le, negb_true_iff. naive_solver.
Qed.

(** C22: [PickBlobGC] takes the right files. When every scored file exists and
    the target file size is not zero, it returns: among the scored files that are
    in the normal state (and unsorted, under level merge), in the order of the
    scores, it takes the shortest prefix whose size reaches the largest batch
    size, or all of them. It makes a collection of them, marks exactly them as
    being collected, and asks for another one only if candidates are left; unless
    the batch is empty, below the smallest batch size, or a single small file
    without a mark, when it returns none and changes nothing. *)
Theorem pick_gc_correct (cf : TitanCFOptions) (bs : BlobStorage) (h : heap) :
  let cands := candidates cf bs h (gc_score bs) in
  Forall (fun s => is_Some (bs_FindFile (gcs_file_number s) bs)) (gc_score bs) ->
  0 < blob_file_target_size (bs_cf_options bs) ->
  Forall (fun f => 0 <= file_size (deref h f)) cands -> total_size h cands < two64 ->
  exists picked, batch_of h (max_gc_batch_size cf) 0 cands picked /\
    ((worth_gc cf h picked /\ exists again,
        PickBlobGC cf bs h =
          Ok (Some (MkBlobGC picked [] [] cf None again), MarkFilesBeingGC picked h) /\
        (again = true -> picked <> cands)) \/
     (~ worth_gc cf h picked /\ PickBlobGC cf bs h = Ok (None, h))).
Proof.
  intros cands Hf Ht Hpos Hmax.
  destruct (pick_loop_spec cf bs h Ht (gc_score bs) 0 (MkPicking [] 0 false) Hf eq_refl)
    as (picked & stop & b & Hloop & Hbatch & Hb); [done|done|done|].
  exists picked. split; [exact Hbatch|]. unfold PickBlobGC. rewrite Hloop.
  cbn [result_bind pk_files batch_size app]. rewrite Z.add_0_l. unfold worth_gc.
  destruct (bool_decide_reflect (picked = [])) as [->|Hne]; cbn [orb].
  { right. split; [tauto|done]. }
  destruct (total_size h picked <? min_gc_batch_size cf) eqn:Hmin.
  { right. split; [lia|done]. }
  pose proof (single_small_true cf h picked) as Hss.
  destruct (single_small cf h picked).
  - right. split; [|done]. intros (_ & _ & Hn). apply Hn. by apply Hss.
  - left. split; [|by exists b]. split_and!; [done|lia|]. intros Hx. by apply Hss in Hx.
Qed.

(** ** Collections do not share files *)

Lemma lookup_calls_other (f : BlobFileMeta -> BlobFileMeta) ls h l :
  l ∉ ls -> foldl (fun h x => heap_call f x h) h ls !! l = h !! l.
Proof.
  revert h; induction ls as [|x ls IH]; intros h; cbn [foldl]; [done|].
  rewrite not_elem_of_cons. intros [Hne Hin]. rewrite IH by done. unfold heap_call.
  by rewrite lookup_alter_ne.
Qed.

(** A call that moves the state to a fixed point, made once or more. *)
Lemma calls_state (f : BlobFileMeta -> BlobFileMeta) (s s' : FileState.t) ls h l :
  (forall m, file_state m = s -> file_state (f m) = s') ->
  (forall m, file_state m = s' -> file_state (f m) = s') ->
  is_Some (h !! l) ->
  (file_state (deref h l) = s /\ l ∈ ls) \/ file_state (deref h l) = s' ->
  let h' := foldl (fun h x => heap_call f x h) h ls in
  is_Some (h' !! l) /\ file_state (deref h' l) = s'.
Proof.
  intros Hs Hs'. revert h; induction ls as [|x ls IH]; intros h Hl Hst; cbn [foldl].
  { split; [done|]. destruct Hst as [[_ []%not_elem_of_nil]|]; done. }
  destruct Hl as [m Hm]. unfold deref in *. rewrite Hm in Hst. cbn [default from_option] in Hst.
  apply IH; unfold heap_call; rewrite lookup_alter; case_decide as Hx; subst; rewrite Hm.
  - by eexists.
  - by eexists.
  - right. cbn [fmap option_fmap option_map default from_option]. destruct Hst as [[? _]|?]; [by apply Hs|by apply Hs'].
  - cbn [default from_option]. destruct Hst as [[? Hin]|?]; [left|by right]. split; [done|].
    apply elem_of_cons in Hin as [->|?]; done.
Qed.

Lemma deref_state_Some h l : file_state (deref h l) <> FileState.kInit -> is_Some (h !! l).
Proof. unfold deref. destruct (h !! l); [by eexists|done]. Qed.

Lemma pick_loop_pickable cf bs h scores cnt p p' b :
  pick_loop cf bs h cnt scores p = Ok (p', b) ->
  Forall (fun f => pickable cf (deref h f)) (pk_files p) ->
  Forall (fun f => pickable cf (deref h f)) (pk_files p').
Proof.
  revert cnt p; induction scores as [|s scores IH]; intros cnt p; cbn [pick_loop].
  { by intros [= <- <-]. }
  destruct (bs_FindFile (gcs_file_number s) bs) as [f|]; [|done]. rewrite skip_test.
  destruct (bool_decide_reflect (pickable cf (deref h f))) as [Hp|Hp]; cbn [negb]; [|apply IH].
  destruct (stop_picking p); cbn [negb].
  - case_match; [done|]. case_match; [by intros [= <- <-]|apply IH].
  - intros Hl Hall. eapply IH; [exact Hl|]. cbn [pk_files]. apply Forall_app. split; [done|].
    by apply Forall_singleton.
Qed.

Lemma picked_inputs cf bs h gc h' :
  PickBlobGC cf bs h = Ok (Some gc, h') ->
  Forall (fun f => pickable cf (deref h f)) (gc_inputs gc) /\ h' = MarkFilesBeingGC (gc_inputs gc) h.
Proof.
  unfold PickBlobGC. destruct (pick_loop _ _ _ _ _ _) as [[p b]| |] eqn:Hl; cbn [result_bind]; try done.
  case_match; [done|]. case_match; [done|]. intros [= <- <-]. split; [|done].
  eapply pick_loop_pickable; [exact Hl|constructor].
Qed.

Lemma being_gc h ls l :
  file_state (deref h l) = FileState.kNormal -> l ∈ ls ->
  is_Some (MarkFilesBeingGC ls h !! l) /\
  file_state (deref (MarkFilesBeingGC ls h) l) = FileState.kBeingGC.
Proof.
  intros Hs Hin. apply (calls_state _ FileState.kNormal); try done; [|by left].
  apply deref_state_Some. by rewrite Hs.
Qed.

Lemma transit_to e m s s' :
  FileStateTransit_state s e = s' -> file_state m = s -> file_state (FileStateTransit e m) = s'.
Proof. by intros <- <-. Qed.

(** [ReleaseGcFiles] gives every file back that was not deleted meanwhile. *)
Lemma released gc h l :
  is_Some (h !! l) -> l ∈ gc_inputs gc ++ gc_outputs gc ->
  file_state (deref (ReleaseGcFiles gc h) l) =
  if is_obsolete (deref h l) then FileState.kObsolete else FileState.kNormal.
Proof.
  intros Hl Hin. unfold ReleaseGcFiles.
  set (s' := if is_obsolete (deref h l) then FileState.kObsolete else FileState.kNormal).
  assert (Hfix : FileStateTransit_state s' FileEvent.kGCCompleted = s').
  { unfold s'. by destruct (is_obsolete (deref h l)). }
  assert (Hst : FileStateTransit_state (file_state (deref h l)) FileEvent.kGCCompleted = s').
  { unfold s', is_obsolete. by destruct (file_state (deref h l)). }
  destruct (decide (l ∈ gc_inputs gc)) as [Hi|Hi].
  - destruct (calls_state (fun m => FileStateTransit FileEvent.kGCCompleted (set_gc_mark false m))
      (file_state (deref h l)) s' (gc_inputs gc) h l) as [Hl1 Hs1];
      [intros m Hm; by apply (transit_to _ _ _ _ Hst)|intros m Hm; by apply (transit_to _ _ _ _ Hfix)|done|by left|].
    apply (calls_state _ s' s' (gc_outputs gc)); [intros m Hm; by apply (transit_to _ _ _ _ Hfix)..|done|by right].
  - apply elem_of_app in Hin as [|Ho]; [done|].
    pose proof (lookup_calls_other
      (fun m => FileStateTransit FileEvent.kGCCompleted (set_gc_mark false m)) _ h _ Hi) as Heq.
    apply (calls_state _ (file_state (deref h l)) s'); [intros m Hm; by apply (transit_to _ _ _ _ Hst)|intros m Hm; by apply (transit_to _ _ _ _ Hfix)| |].
    + by rewrite Heq.
    + left. unfold deref. by rewrite Heq.
Qed.

(** C19: A file is collected by one collection at a time. The inputs of a
    collection were in the normal state and are being collected after it is
    picked; a collection picked later, from any storage, while they still are
    does not take any of them; and when the collection is released, each of its
    files is back in the normal state, unless it was deleted meanwhile, in which
    case it stays obsolete. *)
Theorem gc_inputs_exclusive (cf1 cf2 : TitanCFOptions) (bs1 bs2 : BlobStorage) (h h1 : heap)
    (gc1 : BlobGC) :
  PickBlobGC cf1 bs1 h = Ok (Some gc1, h1) ->
  (forall l, l ∈ gc_inputs gc1 -> file_state (deref h l) = FileState.kNormal /\
     file_state (deref h1 l) = FileState.kBeingGC) /\
  (forall h2 h3 gc2,
     (forall l, l ∈ gc_inputs gc1 -> file_state (deref h2 l) <> FileState.kNormal) ->
     PickBlobGC cf2 bs2 h2 = Ok (Some gc2, h3) ->
     forall l, l ∈ gc_inputs gc1 -> l ∉ gc_inputs gc2) /\
  (forall h2 l, is_Some (h2 !! l) -> l ∈ gc_inputs gc1 ++ gc_outputs gc1 ->
     file_state (deref (ReleaseGcFiles gc1 h2) l) =
     if is_obsolete (deref h2 l) then FileState.kObsolete else FileState.kNormal).
Proof.
  intros Hpick. apply picked_inputs in Hpick as [Hall ->]. rewrite Forall_forall in Hall. split_and!.
  - intros l Hl. destruct (Hall l Hl) as [Hs _]. split; [done|]. by apply being_gc.
  - intros h2 h3 gc2 Hbusy Hpick2 l Hl Hl2. apply picked_inputs in Hpick2 as [Hall2 _].
    rewrite Forall_forall in Hall2. destruct (Hall2 l Hl2) as [Hs _]. by apply (Hbusy l Hl).
  - intros h2 l. apply released.
Qed.
End picker.

(** ** The picker never reads a missing file *)

Section scores.
Context `{Coding} `{Compressors} `{Env} `{BC : Cache bytes} `{FC : !Cache BlobFileReader}
        `{UnorderedIter}.

(** The files in the scores exist and are live. *)
Definition scores_live (bs : BlobStorage) (h : heap) : Prop :=
  forall s, s ∈ gc_score bs -> exists f, files bs !! gcs_file_number s = Some f /\
    is_obsolete (deref h f) = false.

(** The operations of the other components on a storage: edits arrive only as
    sealed batches. *)
Inductive storage_life : BlobStorage * Shared -> BlobStorage * Shared -> Prop :=
| life_world bs sh sh' : rely bs sh sh' -> storage_life (bs, sh) (bs, sh')
| life_apply c bs sh st :
    seal_accepts (sh_heap sh) bs c ->
    map_Forall (fun n l => addable bs (sh_heap sh) (n, l)) (cfc_added_files c) ->
    CF_Apply c (bs, sh) = (OK, st) -> storage_life (bs, sh) st
| life_collect bs sh oldest : storage_life (bs, sh) (bs_GetObsoleteFiles oldest (bs, sh)).2
| life_score bs sh : storage_life (bs, sh) ((ComputeGCScore (sh_heap sh) bs).2, sh)
| life_building bs sh w n bs' :
    AddBuildingFile w n bs = Ok bs' -> storage_life (bs, sh) (bs', sh)
| life_destroyed bs sh : storage_life (bs, sh) (MarkDestroyed bs, sh)
| life_restart bs sh :
    no_obsolete bs (sh_heap sh) -> storage_life (bs, sh) (bs_MarkAllFilesForGC (bs, sh)).

Lemma ComputeGCScore_live h bs : scores_live (ComputeGCScore h bs).2 h.
Proof.
  intros s Hs. apply elem_of_gc_scores in Hs as (f & Hf & Hskip & _). exists f. split; [done|].
  unfold skip_gc in Hskip. by apply orb_false_iff in Hskip as [? _].
Qed.

Lemma scores_live_rely obs bs sh sh' :
  storage_inv obs bs sh -> rely bs sh sh' ->
  scores_live bs (sh_heap sh) -> scores_live bs (sh_heap sh').
Proof.
  intros Hinv Hrely Hl s Hs. destruct (Hl s Hs) as (f & Hf & Ho). exists f. split; [done|].
  rewrite <- Ho. by apply (rely_deref _ _ _ _ _ _ Hinv Hrely Hf).
Qed.

Lemma GetObsoleteFiles_loop_scores oldest l st :
  gc_score (GetObsoleteFiles_loop oldest l st).2.1 = gc_score st.1.
Proof.
  revert st; induction l as [|[n seq] l IH]; intros st; cbn [GetObsoleteFiles_loop]; [done|].
  case_match.
  - assert (Hr : gc_score (RemoveFile n st).2.1 = gc_score st.1).
    { destruct st as [bs sh]. unfold RemoveFile. by destruct (files bs !! n). }
    destruct (RemoveFile n st) as [b st1]. cbn [snd] in Hr. rewrite <- Hr, <- (IH st1).
    by destruct (GetObsoleteFiles_loop oldest l st1) as [[names kept] st2].
  - rewrite <- (IH st). by destruct (GetObsoleteFiles_loop oldest l st) as [[names kept] st2].
Qed.

(** Collecting removes obsolete files only. *)
Lemma collect_scores_live oldest bs sh :
  ComparatorOk (bs_comparator bs) -> storage_inv (obsolete_files bs) bs sh ->
  scores_live bs (sh_heap sh) ->
  let '(bs', sh') := (bs_GetObsoleteFiles oldest (bs, sh)).2 in scores_live bs' (sh_heap sh').
Proof.
  intros Hcmp Hinv Hl. unfold bs_GetObsoleteFiles. cbn [fst].
  pose proof (GetObsoleteFiles_loop_scores oldest (obsolete_files bs) (bs, sh)) as Hsc.
  destruct (GetObsoleteFiles_loop oldest (obsolete_files bs) (bs, sh)) as [[names kept] [bs' sh']] eqn:E.
  cbn [fst snd] in *. destruct (GetObsoleteFiles_loop_spec _ _ _ _ _ _ _ _ E) as (_ & _ & Hf & Hh & _).
  intros s Hs. cbn [gc_score set_obsolete_files] in Hs. rewrite Hsc in Hs.
  destruct (Hl s Hs) as (f & Hn & Ho). exists f. rewrite Hh. split; [|done].
  cbn [files set_obsolete_files]. rewrite Hf.
  assert (Hni : forall e, e ∈ filter (expired oldest) (obsolete_files bs) -> e.1 <> gcs_file_number s).
  { intros e [_ He]%list_elem_of_filter Heq.
    destruct (proj1 (inv_obsolete _ _ _ Hinv e.1)) as (f' & Hf' & Hob).
    - apply list_elem_of_fmap. by exists e.
    - rewrite Heq in Hf'. simplify_eq. congruence. }
  revert Hni. clear Hf E. generalize (filter (expired oldest) (obsolete_files bs)) as l.
  induction l as [|e l IH]; intros Hni; [done|].
  simpl. rewrite lookup_delete_ne by (apply Hni; left). apply IH. intros e' He'. apply Hni. by right.
Qed.

Lemma storage_life_inv st st' :
  ComparatorOk (bs_comparator st.1) -> storage_life st st' ->
  storage_inv (obsolete_files st.1) st.1 st.2 -> scores_live st.1 (sh_heap st.2) ->
  storage_inv (obsolete_files st'.1) st'.1 st'.2 /\ scores_live st'.1 (sh_heap st'.2) /\
  bs_cf_options st'.1 = bs_cf_options st.1.
Proof.
  intros Hcmp Hstep Hinv Hl.
  assert (Hold : storage_step st st' -> scores_live st'.1 (sh_heap st'.2) ->
    storage_inv (obsolete_files st'.1) st'.1 st'.2 /\ scores_live st'.1 (sh_heap st'.2) /\
    bs_cf_options st'.1 = bs_cf_options st.1).
  { intros Hs Hl'. by destruct (storage_step_inv _ _ Hcmp Hs Hinv) as [? ?]. }
  destruct Hstep as [bs sh sh' Hrely|c bs sh st Hseal Hadd Happ|bs sh oldest|bs sh|bs sh w n bs' Hb
    |bs sh|bs sh Hno]; cbn [fst snd] in *.
  - apply Hold; [by constructor|]. by eapply scores_live_rely.
  - destruct (CF_Apply_ok c bs sh Hcmp Hinv Hseal Hadd) as (bs' & sh' & Heq & Hinv' & Hcfg & _).
    rewrite Happ in Heq. injection Heq as ->. split_and!; [done| |apply Hcfg].
    unfold CF_Apply in Happ. destruct (foldl _ (bs, sh) _) as [bs1 sh1].
    destruct (for_each _ _ _) as [[] [bs2 sh2]]; try done.
    cbn [status_ok negb] in Happ. destruct (foldl _ (bs2, sh2) _) as [bs3 sh3].
    injection Happ as <- <-. apply ComputeGCScore_live.
  - apply Hold; [by constructor|]. pose proof (collect_scores_live oldest bs sh Hcmp Hinv Hl) as Hc.
    by destruct (bs_GetObsoleteFiles oldest (bs, sh)).2.
  - apply Hold; [by constructor|]. apply ComputeGCScore_live.
  - apply Hold; [by econstructor|]. unfold AddBuildingFile in Hb.
    apply result_bind_Ok in Hb as (rd & _ & [= <-]). exact Hl.
  - apply Hold; [by constructor|]. exact Hl.
  - apply Hold; [by constructor|]. eapply scores_live_rely; [exact Hinv|by eapply restart_rely|exact Hl].
Qed.

Lemma pick_loop_no_fault cf bs h scores cnt p :
  (forall s, s ∈ scores -> is_Some (files bs !! gcs_file_number s)) ->
  0 < blob_file_target_size (bs_cf_options bs) ->
  exists r, pick_loop cf bs h cnt scores p = Ok r.
Proof.
  intros Hf Ht. revert cnt p; induction scores as [|s scores IH]; intros cnt p; cbn [pick_loop];
    [by eexists|].
  unfold bs_FindFile. destruct (Hf s) as [f ->]; [left|].
  assert (IH' := fun cnt p => IH (fun s' Hs' => Hf s' (list_elem_of_further _ _ _ Hs')) cnt p).
  replace (blob_file_target_size (bs_cf_options bs) =? 0) with false by lia.
  repeat case_match; try apply IH'; by eexists.
Qed.

(** [PickBlobGC] does not read a file that is gone. In a storage reached
    from an empty one by applying sealed edits, collecting obsolete files,
    computing scores, restarting and outside activity, every scored file exists
    and is live, so picking, with any options and a target file size above zero,
    returns a result: the dereference of the file in its log message is safe. *)
Theorem pick_never_faults (db : TitanDBOptions) (cf : TitanCFOptions) (id : Z) (sh : Shared)
    (bs' : BlobStorage) (sh' : Shared) (picker_cf : TitanCFOptions) :
  ComparatorOk (comparator (cf_base cf)) -> 0 <= num_levels (cf_base cf) ->
  (forall t v, t ∈ counted -> stat (sh_stats sh) id t = Some v -> v = 0) ->
  rtc storage_life (BlobStorage_new db cf id, sh) (bs', sh') ->
  0 < blob_file_target_size cf ->
  exists r, PickBlobGC picker_cf bs' (sh_heap sh') = Ok r.
Proof.
  intros Hcmp Hlev Hzero Hsteps Ht.
  assert (Hgen : forall st st', rtc storage_life st st' -> bs_cf_options st.1 = cf ->
            storage_inv (obsolete_files st.1) st.1 st.2 -> scores_live st.1 (sh_heap st.2) ->
            scores_live st'.1 (sh_heap st'.2) /\ bs_cf_options st'.1 = cf).
  { induction 1 as [|st1 st2 st3 Hstep _ IH]; [done|]. intros Hcf Hinv Hl.
    destruct (storage_life_inv _ _ ltac:(unfold bs_comparator; by rewrite Hcf) Hstep Hinv Hl)
      as (Hinv' & Hl' & Hcf'). apply IH; congruence || done. }
  destruct (Hgen _ _ Hsteps eq_refl) as [Hl Hcf].
  { by apply storage_new_inv. }
  { intros s []%not_elem_of_nil. }
  cbn [fst snd] in *. unfold PickBlobGC.
  destruct (pick_loop_no_fault picker_cf bs' (sh_heap sh') (gc_score bs') 0 (MkPicking [] 0 false))
    as [[p b] ->]; [|by rewrite Hcf|].
  { intros s Hs. destruct (Hl s Hs) as (f & -> & _). done. }
  cbn [result_bind]. repeat case_match; by eexists.
Qed.
End scores.

(** ** Applications *)

Section witnesses.
#[local] Existing Instances leb128_coding rle_compressors mem_env map_to_list_iter blobs_map readers_map.

(** Batches of 1 to 4096 bytes. *)
Definition example_gc_options : TitanCFOptions :=
  let cf := example_cf_options in
  MkTitanCFOptions (cf_base cf) (min_blob_size cf) (mid_blob_size cf) (blob_file_compression cf)
    (blob_file_target_size cf) (blob_cache cf) 4096 1 (blob_file_discardable_ratio cf)
    (high_level_blob_discardable_ratio cf) (sample_file_size_ratio cf)
    (merge_small_file_threshold cf) (blob_run_mode cf) (lazy_merge cf) (level_merge cf)
    (range_merge cf) (max_sorted_runs cf).

(** File 12, recovered and scored. *)
Definition example_recovered : BlobStorage * Shared := bs_MarkAllFilesForGC example_storage1.
Definition example_scored : BlobStorage * Shared :=
  ((ComputeGCScore (sh_heap example_recovered.2) example_recovered.1).2, example_recovered.2).
Definition example_gc_heap : heap := sh_heap example_scored.2.

Lemma example_picked :
  PickBlobGC example_gc_options example_scored.1 example_gc_heap =
  Ok (Some (MkBlobGC [1%positive] [] [] example_gc_options None false),
      MarkFilesBeingGC [1%positive] example_gc_heap).
Proof. vm_compute. reflexivity. Qed.

Lemma pick_gc_correct_witness :
  exists picked, batch_of example_gc_heap 4096 0 [1%positive] picked /\
    ((worth_gc example_gc_options example_gc_heap picked /\ exists again,
        PickBlobGC example_gc_options example_scored.1 example_gc_heap =
          Ok (Some (MkBlobGC picked [] [] example_gc_options None again),
              MarkFilesBeingGC picked example_gc_heap) /\
        (again = true -> picked <> [1%positive])) \/
     (~ worth_gc example_gc_options example_gc_heap picked /\
      PickBlobGC example_gc_options example_scored.1 example_gc_heap = Ok (None, example_gc_heap))).
Proof.
  apply (pick_gc_correct example_gc_options example_scored.1 example_gc_heap).
  - constructor; [by eexists|constructor].
  - vm_compute. reflexivity.
  - constructor; [vm_compute; congruence|constructor].
  - vm_compute. reflexivity.
Defined.

Lemma gc_inputs_exclusive_witness :
  file_state (deref example_gc_heap 1) = FileState.kNormal /\
  file_state (deref (MarkFilesBeingGC [1%positive] example_gc_heap) 1) = FileState.kBeingGC.
Proof.
  destruct (gc_inputs_exclusive example_gc_options example_gc_options example_scored.1
              example_scored.1 _ _ _ example_picked) as [Hs _].
  apply (Hs 1%positive). left.
Defined.

Lemma pick_never_faults_witness :
  exists r, PickBlobGC example_gc_options example_storage0.1 (sh_heap example_storage0.2) = Ok r.
Proof.
  apply (pick_never_faults example_db_options example_cf_options 5 example_shared
           example_storage0.1 example_storage0.2 example_gc_options).
  - apply bytewise_compare_ok.
  - vm_compute. congruence.
  - exact example_counted_zero.
  - apply rtc_refl.
  - vm_compute. reflexivity.
Defined.
End witnesses.
