(* ===== verification/Scheduler.v ===== *)
(** * Scheduling of garbage collections
    (src/db_impl_gc.cc, src/db_impl.h, src/db_impl.cc)

    The counters and the queue that [MaybeScheduleGC], [BackgroundCallGC],
    [DropColumnFamilies] and [CloseImpl] share under the database mutex, and the
    threads that run them. A step is what a thread does between two points where
    it holds the mutex; the collection itself runs in between. A [Put] that is
    held back for the size of the database uses the queue and the counters
    without the mutex: each of its accesses is a step of its own. *)

From S2P Require Import Prelude Options.

Record Scheduler := MkScheduler {
  gc_queue : list Z;
  bg_gc_scheduled : Z;
  bg_gc_running : Z;
  unscheduled_gc : Z;
  drop_cf_requests : Z;
  shuting_down : bool
}.

Definition Scheduler_new : Scheduler := MkScheduler [] 0 0 0 0 false.

Definition AddToGCQueue (column_family_id : Z) (s : Scheduler) : Scheduler :=
  MkScheduler (gc_queue s ++ [column_family_id]) (bg_gc_scheduled s) (bg_gc_running s)
    (unscheduled_gc s + 1) (drop_cf_requests s) (shuting_down s).

(** [PopFirstFromGCQueue], called when the queue is not empty. *)
Definition PopFirstFromGCQueue (s : Scheduler) : option (Z * Scheduler) :=
  match gc_queue s with
  | [] => None
  | cf :: q => Some (cf, MkScheduler q (bg_gc_scheduled s) (bg_gc_running s) (unscheduled_gc s)
                           (drop_cf_requests s) (shuting_down s))
  end.

(** The loop of [MaybeScheduleGC] and how many times it calls [Env::Schedule].
    Every iteration takes one unscheduled request: their number is enough fuel. *)
Fixpoint schedule_loop (fuel : nat) (max_background_gc : Z) (s : Scheduler) : Scheduler * nat :=
  match fuel with
  | O => (s, O)
  | S fuel =>
      if (unscheduled_gc s >? 0) && (bg_gc_scheduled s <? max_background_gc) then
        let '(s, n) := schedule_loop fuel max_background_gc
          (MkScheduler (gc_queue s) (bg_gc_scheduled s + 1) (bg_gc_running s)
             (unscheduled_gc s - 1) (drop_cf_requests s) (shuting_down s)) in
        (s, S n)
      else (s, O)
  end.

Definition MaybeScheduleGC (db : TitanDBOptions) (s : Scheduler) : Scheduler * nat :=
  if disable_background_gc db then (s, O)
  else if shuting_down s then (s, O)
  else schedule_loop (Z.to_nat (unscheduled_gc s)) (max_background_gc db) s.

(** [BackgroundCallGC] after the wait: the column family to collect. *)
Definition gc_begin (s : Scheduler) : option Z * Scheduler :=
  let s := MkScheduler (gc_queue s) (bg_gc_scheduled s) (bg_gc_running s + 1) (unscheduled_gc s)
             (drop_cf_requests s) (shuting_down s) in
  match PopFirstFromGCQueue s with
  | Some (cf, s) => (Some cf, s)
  | None => (None, s)
  end.

(** [BackgroundCallGC] after [BackgroundGC]: the calls of [Env::Schedule] and
    whether it signals [bg_cv_]. *)
Definition gc_end (db : TitanDBOptions) (s : Scheduler) : Scheduler * nat * bool :=
  let s := MkScheduler (gc_queue s) (bg_gc_scheduled s - 1) (bg_gc_running s - 1)
             (unscheduled_gc s) (drop_cf_requests s) (shuting_down s) in
  let '(s, n) := MaybeScheduleGC db s in
  (s, n, (bg_gc_scheduled s =? 0) || (bg_gc_running s =? 0)).

(** [DropColumnFamilies] before its wait, and after the base database has dropped
    them. *)
Definition drop_begin (s : Scheduler) : Scheduler :=
  MkScheduler (gc_queue s) (bg_gc_scheduled s) (bg_gc_running s) (unscheduled_gc s)
    (drop_cf_requests s + 1) (shuting_down s).

Definition drop_end (s : Scheduler) : Scheduler * bool :=
  let s := MkScheduler (gc_queue s) (bg_gc_scheduled s) (bg_gc_running s) (unscheduled_gc s)
             (drop_cf_requests s - 1) (shuting_down s) in
  (s, drop_cf_requests s =? 0).

(** [CloseImpl]: the start, and after [Env::UnSchedule] has removed jobs. *)
Definition close_begin (s : Scheduler) : Scheduler :=
  MkScheduler (gc_queue s) (bg_gc_scheduled s) (bg_gc_running s) (unscheduled_gc s)
    (drop_cf_requests s) true.

Definition close_unscheduled (gc_unscheduled : nat) (s : Scheduler) : Scheduler :=
  MkScheduler (gc_queue s) (bg_gc_scheduled s - Z.of_nat gc_unscheduled) (bg_gc_running s)
    (unscheduled_gc s) (drop_cf_requests s) (shuting_down s).

Definition set_unscheduled (v : Z) (s : Scheduler) : Scheduler :=
  MkScheduler (gc_queue s) (bg_gc_scheduled s) (bg_gc_running s) v (drop_cf_requests s) (shuting_down s).

Definition set_scheduled (v : Z) (s : Scheduler) : Scheduler :=
  MkScheduler (gc_queue s) v (bg_gc_running s) (unscheduled_gc s) (drop_cf_requests s) (shuting_down s).

Definition set_queue (q : list Z) (s : Scheduler) : Scheduler :=
  MkScheduler q (bg_gc_scheduled s) (bg_gc_running s) (unscheduled_gc s) (drop_cf_requests s) (shuting_down s).

(** ** Threads *)

(** A background job: waiting for the drops to end, in [BackgroundGC], after it. *)
Inductive Job := JWaiting | JRunning (cf : option Z) | JFinishing.

(** A thread in [DropColumnFamilies]: waiting for the jobs, or dropping. *)
Inductive Drop := DWaiting | DDropping.

#[export] Instance Drop_eq_dec : EqDecision Drop.
Proof. solve_decision. Defined.

(** A thread in [Put] that is held back: its next access in [AddToGCQueue] and
    [MaybeScheduleGC], with the value of a counter it has loaded to change it. *)
Inductive Blocked :=
| PAdd (cf : Z) | PAddStore (cf v : Z) | PPush (cf : Z) | PCheck
| PTestUnscheduled | PTestScheduled
| PTake | PTakeStore (v : Z) | PCount | PCountStore (v : Z) | PSchedule.

(** One access: the fields, the calls of [Env::Schedule], where the thread is
    then; [None] when [MaybeScheduleGC] has returned. *)
Definition put_access (db : TitanDBOptions) (s : Scheduler) (p : Blocked) : Scheduler * nat * option Blocked :=
  match p with
  | PAdd cf => (s, O, Some (PAddStore cf (unscheduled_gc s)))
  | PAddStore cf v => (set_unscheduled (v + 1) s, O, Some (PPush cf))
  | PPush cf => (set_queue (gc_queue s ++ [cf]) s, O, Some PCheck)
  | PCheck => (s, O, if disable_background_gc db || shuting_down s then None else Some PTestUnscheduled)
  | PTestUnscheduled => (s, O, if unscheduled_gc s >? 0 then Some PTestScheduled else None)
  | PTestScheduled => (s, O, if bg_gc_scheduled s <? max_background_gc db then Some PTake else None)
  | PTake => (s, O, Some (PTakeStore (unscheduled_gc s)))
  | PTakeStore v => (set_unscheduled (v - 1) s, O, Some PCount)
  | PCount => (s, O, Some (PCountStore (bg_gc_scheduled s)))
  | PCountStore v => (set_scheduled (v + 1) s, O, Some PSchedule)
  | PSchedule => (s, 1%nat, Some PTestUnscheduled)
  end.

(** [w_env] jobs are in the queue of the thread pool; [w_unscheduled] were
    removed from it; [w_failed] drops failed in the base database; [w_closing]
    has, for each thread in [CloseImpl] between its two uses of the mutex, how
    many jobs it has removed; [w_puts] are the threads held back in [Put]. *)
Record World := MkWorld {
  w_sched : Scheduler;
  w_env : nat;
  w_jobs : list Job;
  w_drops : list Drop;
  w_failed : nat;
  w_unscheduled : nat;
  w_closing : list nat;
  w_puts : list Blocked
}.

Definition World_new : World := MkWorld Scheduler_new 0 [] [] 0 0 [] [].

Section steps.
Context (db : TitanDBOptions).

(** A step of a thread, and whether it signals [bg_cv_]. *)
Inductive step : World -> bool -> World -> Prop :=
| step_request cf s s' n e js ds f u c ps :
    MaybeScheduleGC db (AddToGCQueue cf s) = (s', n) ->
    step (MkWorld s e js ds f u c ps) false (MkWorld s' (e + n) js ds f u c ps)
| step_dispatch s e js ds f u c ps :
    step (MkWorld s (S e) js ds f u c ps) false (MkWorld s e (js ++ [JWaiting]) ds f u c ps)
| step_begin cf s s' e js1 js2 ds f u c ps :
    drop_cf_requests s <= 0 -> gc_begin s = (cf, s') ->
    step (MkWorld s e (js1 ++ JWaiting :: js2) ds f u c ps) false
         (MkWorld s' e (js1 ++ JRunning cf :: js2) ds f u c ps)
| step_collected (cf : option Z) s e js1 js2 ds f u c ps :
    step (MkWorld s e (js1 ++ JRunning cf :: js2) ds f u c ps) false
         (MkWorld s e (js1 ++ JFinishing :: js2) ds f u c ps)
| step_requeue cf s e js1 js2 ds f u c ps :
    step (MkWorld s e (js1 ++ JRunning (Some cf) :: js2) ds f u c ps) false
         (MkWorld (AddToGCQueue cf s) e (js1 ++ JFinishing :: js2) ds f u c ps)
| step_end s s' n b e js1 js2 ds f u c ps :
    gc_end db s = (s', n, b) ->
    step (MkWorld s e (js1 ++ JFinishing :: js2) ds f u c ps) b
         (MkWorld s' (e + n) (js1 ++ js2) ds f u c ps)
| step_drop s e js ds f u c ps :
    step (MkWorld s e js ds f u c ps) false (MkWorld (drop_begin s) e js (ds ++ [DWaiting]) f u c ps)
| step_dropping s e js ds1 ds2 f u c ps :
    bg_gc_running s <= 0 ->
    step (MkWorld s e js (ds1 ++ DWaiting :: ds2) f u c ps) false
         (MkWorld s e js (ds1 ++ DDropping :: ds2) f u c ps)
| step_dropped s s' b e js ds1 ds2 f u c ps :
    drop_end s = (s', b) ->
    step (MkWorld s e js (ds1 ++ DDropping :: ds2) f u c ps) b (MkWorld s' e js (ds1 ++ ds2) f u c ps)
| step_drop_failed s e js ds1 ds2 f u c ps :
    step (MkWorld s e js (ds1 ++ DDropping :: ds2) f u c ps) false
         (MkWorld s e js (ds1 ++ ds2) (S f) u c ps)
| step_close s e js ds f u c ps :
    step (MkWorld s e js ds f u c ps) false (MkWorld (close_begin s) e js ds f u c ps)
| step_unschedule s e js ds f u c ps :
    shuting_down s = true ->
    step (MkWorld s e js ds f u c ps) false (MkWorld s 0 js ds f (u + e) (c ++ [e]) ps)
| step_subtract n s e js ds f u c1 c2 ps :
    step (MkWorld s e js ds f u (c1 ++ n :: c2) ps) false
         (MkWorld (close_unscheduled n s) e js ds f u (c1 ++ c2) ps)
| step_put_blocked cf s e js ds f u c ps :
    0 < block_write_size db ->
    step (MkWorld s e js ds f u c ps) false (MkWorld s e js ds f u c (ps ++ [PAdd cf]))
| step_put s s' n p p' e js ds f u c ps1 ps2 :
    put_access db s p = (s', n, p') ->
    step (MkWorld s e js ds f u c (ps1 ++ p :: ps2)) false
         (MkWorld s' (e + n) js ds f u c (ps1 ++ option_list p' ++ ps2)).

Definition reachable (w : World) : Prop := rtc (fun w w' => exists b, step w b w') World_new w.
End steps.

(** ** Counting threads *)

Definition busy (j : Job) : nat := match j with JWaiting => 0 | _ => 1 end.
Definition n_busy (js : list Job) : nat := sum_list_with busy js.
Definition n_waiting (js : list Job) : nat := sum_list_with (fun j => 1 - busy j)%nat js.

Lemma n_jobs js : (n_busy js + n_waiting js)%nat = length js.
Proof.
  unfold n_busy, n_waiting. induction js as [|j js IH]; simpl; [done|]. destruct j; simpl; lia.
Qed.

Lemma n_busy_zero js j : n_busy js = 0%nat -> j ∈ js -> j = JWaiting.
Proof.
  unfold n_busy. intros Hz Hj. apply list_elem_of_split in Hj as (l1 & l2 & ->).
  rewrite sum_list_with_app in Hz. cbn [sum_list_with] in Hz. destruct j; simpl in Hz; done || lia.
Qed.

Lemma sum_list_app (l1 l2 : list nat) : sum_list (l1 ++ l2) = (sum_list l1 + sum_list l2)%nat.
Proof. induction l1 as [|x l1 IH]; cbn; [done|]. rewrite IH. lia. Qed.

(** Evaluates the fields of the world and of the scheduler, and counts threads. *)
Ltac world :=
  cbn [w_sched w_env w_jobs w_drops w_failed w_unscheduled w_closing w_puts] in *;
  unfold n_busy, n_waiting in *;
  rewrite ?sum_list_with_app, ?length_app, ?sum_list_app in *;
  cbn [length sum_list_with sum_list id busy AddToGCQueue drop_begin close_begin close_unscheduled set_unscheduled
       set_scheduled set_queue gc_queue bg_gc_scheduled bg_gc_running unscheduled_gc drop_cf_requests
       shuting_down] in *.

Section invariant.
Context (db : TitanDBOptions).

(** What holds whatever the threads in [Put] do: they leave alone the counters
    of running jobs and of drops. *)
Record drop_inv (w : World) : Prop := {
  (** the counters count the threads *)
  di_running : bg_gc_running (w_sched w) = Z.of_nat (n_busy (w_jobs w));
  di_requests : drop_cf_requests (w_sched w) = Z.of_nat (length (w_drops w) + w_failed w);
  (** column families are dropped while no collection runs *)
  di_exclusive : DDropping ∈ w_drops w -> n_busy (w_jobs w) = 0%nat
}.

(** What holds when no [Put] is held back. *)
Record sched_inv (w : World) : Prop := {
  si_base : drop_inv w;
  (** the jobs that are scheduled, and those removed but not yet subtracted *)
  si_scheduled : bg_gc_scheduled (w_sched w) =
    Z.of_nat (w_env w + length (w_jobs w) + sum_list (w_closing w));
  si_bound : bg_gc_scheduled (w_sched w) <= Z.max 0 (max_background_gc db);
  (** every request in the queue is counted once, as unscheduled or by a job *)
  si_unscheduled : 0 <= unscheduled_gc (w_sched w);
  si_queue : Z.of_nat (length (gc_queue (w_sched w))) =
    unscheduled_gc (w_sched w) + Z.of_nat (w_env w + n_waiting (w_jobs w) + w_unscheduled w);
  (** requests are left unscheduled only while all jobs are in use *)
  si_saturated : disable_background_gc db = false -> shuting_down (w_sched w) = false ->
    0 < unscheduled_gc (w_sched w) ->
    max_background_gc db <= bg_gc_scheduled (w_sched w) \/ JFinishing ∈ w_jobs w;
  (** jobs are removed only when the database closes; no [Put] is held back *)
  si_open : shuting_down (w_sched w) = false -> w_closing w = [] /\ w_unscheduled w = O;
  si_puts : w_puts w = []
}.

Lemma schedule_loop_spec fuel max s s' n :
  schedule_loop fuel max s = (s', n) -> 0 <= unscheduled_gc s <= Z.of_nat fuel ->
  gc_queue s' = gc_queue s /\ bg_gc_scheduled s' = bg_gc_scheduled s + Z.of_nat n /\
  bg_gc_running s' = bg_gc_running s /\ unscheduled_gc s' = unscheduled_gc s - Z.of_nat n /\
  drop_cf_requests s' = drop_cf_requests s /\ shuting_down s' = shuting_down s /\
  0 <= unscheduled_gc s' /\ (n <> O -> bg_gc_scheduled s' <= max) /\
  (unscheduled_gc s' = 0 \/ max <= bg_gc_scheduled s').
Proof.
  revert s s' n; induction fuel as [|fuel IH]; intros s s' n; cbn [schedule_loop].
  { intros [= <- <-] Hu. split_and!; try done; lia. }
  destruct ((unscheduled_gc s >? 0) && (bg_gc_scheduled s <? max)) eqn:Hc.
  - apply andb_true_iff in Hc as [Hc1 Hc2].
    destruct (schedule_loop _ _ _) as [s1 n1] eqn:Hl. intros [= <- <-] Hu.
    apply IH in Hl as (Hq & Hs & Hr & Hun & Hd & Hsh & H0 & Hb & Hend); [|simpl; lia].
    simpl in *. split_and!; try done; lia.
  - intros [= <- <-] Hu. apply andb_false_iff in Hc. split_and!; try done; lia.
Qed.

Lemma MaybeScheduleGC_spec s s' n :
  MaybeScheduleGC db s = (s', n) -> 0 <= unscheduled_gc s ->
  gc_queue s' = gc_queue s /\ bg_gc_scheduled s' = bg_gc_scheduled s + Z.of_nat n /\
  bg_gc_running s' = bg_gc_running s /\ unscheduled_gc s' = unscheduled_gc s - Z.of_nat n /\
  drop_cf_requests s' = drop_cf_requests s /\ shuting_down s' = shuting_down s /\
  0 <= unscheduled_gc s' /\ (n <> O -> bg_gc_scheduled s' <= max_background_gc db) /\
  (disable_background_gc db = false -> shuting_down s = false ->
     unscheduled_gc s' = 0 \/ max_background_gc db <= bg_gc_scheduled s').
Proof.
  unfold MaybeScheduleGC. intros Hm Hu.
  destruct (disable_background_gc db); [injection Hm as <- <-; split_and!; try done; lia|].
  destruct (shuting_down s) eqn:Hsd; [injection Hm as <- <-; split_and!; try done; lia|].
  apply schedule_loop_spec in Hm as (?&?&?&?&?&?&?&?&?); [|lia]. split_and!; try done. congruence.
Qed.

Lemma n_busy_app js1 js2 : n_busy (js1 ++ js2) = (n_busy js1 + n_busy js2)%nat.
Proof. apply sum_list_with_app. Qed.

Lemma n_waiting_app js1 js2 : n_waiting (js1 ++ js2) = (n_waiting js1 + n_waiting js2)%nat.
Proof. apply sum_list_with_app. Qed.

(** Replacing one entry of a list of threads. *)
Lemma elem_of_middle_ne {A} (x y : A) l1 l2 l1' :
  x ∈ l1 ++ y :: l2 -> x <> y -> x ∈ l1 ++ l1' ++ l2.
Proof. rewrite !elem_of_app, elem_of_cons. tauto. Qed.

Lemma put_access_keeps s p s' n p' :
  put_access db s p = (s', n, p') ->
  bg_gc_running s' = bg_gc_running s /\ drop_cf_requests s' = drop_cf_requests s.
Proof. destruct p; cbn; by intros [= <- <- <-]. Qed.

Lemma MaybeScheduleGC_keeps s s' n :
  MaybeScheduleGC db s = (s', n) ->
  bg_gc_running s' = bg_gc_running s /\ drop_cf_requests s' = drop_cf_requests s.
Proof.
  unfold MaybeScheduleGC. destruct (disable_background_gc db); [by intros [= <- <-]|].
  destruct (shuting_down s); [by intros [= <- <-]|]. generalize (Z.to_nat (unscheduled_gc s)) as fuel.
  intros fuel. revert s n. induction fuel as [|fuel IH]; intros s n; cbn [schedule_loop]; [by intros [= <- <-]|].
  destruct (_ && _); [|by intros [= <- <-]]. destruct (schedule_loop _ _ _) as [s1 n1] eqn:Hl. intros [= <- <-].
  by apply IH in Hl.
Qed.

Lemma drop_inv_step w b w' : drop_inv w -> step db w b w' -> drop_inv w'.
Proof.
  intros [Hrun Hreq Hex] Hstep.
  destruct Hstep as [cf s s' n e js ds f u c ps Hm|s e js ds f u c ps|cf s s' e js1 js2 ds f u c ps Hd Hb
    |cf s e js1 js2 ds f u c ps|cf s e js1 js2 ds f u c ps|s s' n b e js1 js2 ds f u c ps He|s e js ds f u c ps
    |s e js ds1 ds2 f u c ps Hr|s s' b e js ds1 ds2 f u c ps Hd|s e js ds1 ds2 f u c ps|s e js ds f u c ps
    |s e js ds f u c ps Hsd|n s e js ds f u c1 c2 ps|cf s e js ds f u c ps Hbw|s s' n q q' e js ds f u c ps1 ps2 Hacc]; world.
  - apply MaybeScheduleGC_keeps in Hm as [??]. world. split; world; try done; lia.
  - split; world; [lia|done|]. intros Hin. specialize (Hex Hin). lia.
  - assert (Hds : ds = [] /\ f = O). { destruct ds; simpl in *; [|lia]. split; [done|lia]. }
    destruct Hds as [-> ->]. unfold gc_begin, PopFirstFromGCQueue in Hb. cbn [gc_queue] in Hb.
    destruct (gc_queue s); injection Hb as <- <-; (split; world; [lia|done|by intros ?%not_elem_of_nil]).
  - split; world; [lia|done|]. intros Hin. specialize (Hex Hin). lia.
  - split; world; [lia|done|]. intros Hin. specialize (Hex Hin). lia.
  - unfold gc_end in He. destruct (MaybeScheduleGC db _) as [s1 n1] eqn:Hm. injection He as <- <- <-.
    apply MaybeScheduleGC_keeps in Hm as [??]. world. split; world; [lia|lia|]. intros Hin. specialize (Hex Hin). lia.
  - split; world; [done|lia|]. intros [Hin|[=]%list_elem_of_singleton]%elem_of_app. by apply Hex.
  - split; world; [done|lia|]. intros _. lia.
  - unfold drop_end in Hd. injection Hd as <- <-. split; world; [done|lia|]. intros _. apply Hex, elem_of_app.
    right. left.
  - split; world; [done|lia|]. intros _. apply Hex, elem_of_app. right. left.
  - by split.
  - by split.
  - by split.
  - by split.
  - apply put_access_keeps in Hacc as [??]. split; world; try done; lia.
Qed.

Lemma drop_inv_new : drop_inv World_new.
Proof. split; cbn; [done|done|]. by intros ?%not_elem_of_nil. Qed.

Lemma drop_inv_steps w w' : drop_inv w -> rtc (fun w w' => exists b, step db w b w') w w' -> drop_inv w'.
Proof. intros Hi Hr. induction Hr as [|w1 w2 w3 [b Hs] _ IH]; [done|]. apply IH. by eapply drop_inv_step. Qed.

Context (Hblock : block_write_size db <= 0).

Lemma sched_inv_step w b w' : sched_inv w -> step db w b w' -> sched_inv w'.
Proof.
  intros [Hbase Hsch Hbnd Hun Hq Hsat Hopen Hputs] Hstep.
  assert (Hdi : drop_inv w') by (by eapply drop_inv_step). destruct Hbase as [Hrun Hreq Hex].
  destruct Hstep as [cf s s' n e js ds f u c ps Hm|s e js ds f u c ps|cf s s' e js1 js2 ds f u c ps Hd Hb
    |cf s e js1 js2 ds f u c ps|cf s e js1 js2 ds f u c ps|s s' n b e js1 js2 ds f u c ps He|s e js ds f u c ps
    |s e js ds1 ds2 f u c ps Hr|s s' b e js ds1 ds2 f u c ps Hd|s e js ds1 ds2 f u c ps|s e js ds f u c ps
    |s e js ds f u c ps Hsd|n s e js ds f u c1 c2 ps|cf s e js ds f u c ps Hbw|s s' n q q' e js ds f u c ps1 ps2 Hacc].
  - apply MaybeScheduleGC_spec in Hm as (Hq' & Hs' & Hr' & Hu' & Hd' & Hsh & H0 & Hb & Hend); [|cbn in *; lia].
    (split; [exact Hdi|..]); clear Hdi; world; try done; try lia.
    + rewrite Hq', length_app. cbn [length]. lia.
    + intros Hdis Hnsd Hpos. rewrite Hsh in Hnsd. specialize (Hend Hdis Hnsd). lia.
    + by rewrite Hsh.
  - (split; [exact Hdi|..]); clear Hdi; world; try done; try lia.
    intros Hdis Hsd Hpos. destruct (Hsat Hdis Hsd Hpos); [by left|right]. apply elem_of_app. by left.
  - assert (length (gc_queue s) <> 0%nat) as Hne by (clear Hdi; world; lia).
    unfold gc_begin, PopFirstFromGCQueue in Hb. cbn [gc_queue] in Hb.
    destruct (gc_queue s) as [|c0 q] eqn:Hqq; [done|]. injection Hb as <- <-.
    (split; [exact Hdi|..]); clear Hdi; world; rewrite ?Hqq in *; try done; try lia; [cbn [length] in *; lia|].
    intros Hdis Hsd Hpos. destruct (Hsat Hdis Hsd Hpos) as [|Hin]; [by left|right].
    by apply (elem_of_middle_ne _ JWaiting _ _ [JRunning (Some c0)]).
  - (split; [exact Hdi|..]); clear Hdi; world; try done; try lia.
    intros _ _ _. right. apply elem_of_app. right. left.
  - (split; [exact Hdi|..]); clear Hdi; world; rewrite ?length_app; cbn [length]; try done; try lia.
    intros _ _ _. right. apply elem_of_app. right. left.
  - unfold gc_end in He. destruct (MaybeScheduleGC db _) as [s1 n1] eqn:Hm. injection He as <- <- <-.
    apply MaybeScheduleGC_spec in Hm as (Hq' & Hs' & Hr' & Hu' & Hd' & Hsh & H0 & Hb & Hend); [|cbn in *; lia].
    (split; [exact Hdi|..]); clear Hdi; world; try done; try lia.
    + rewrite Hq'. lia.
    + intros Hdis Hnsd Hpos. rewrite Hsh in Hnsd. specialize (Hend Hdis Hnsd). lia.
    + by rewrite Hsh.
  - (split; [exact Hdi|..]); clear Hdi; world; try done; lia.
  - (split; [exact Hdi|..]); clear Hdi; world; try done; lia.
  - unfold drop_end in Hd. injection Hd as <- <-. (split; [exact Hdi|..]); clear Hdi; world; try done; lia.
  - (split; [exact Hdi|..]); clear Hdi; world; try done; lia.
  - (split; [exact Hdi|..]); clear Hdi; world; try done; lia.
  - (split; [exact Hdi|..]); clear Hdi; world; try done; try lia; congruence.
  - assert (Hcl : shuting_down s = true).
    { destruct (shuting_down s) eqn:Hsd; [done|]. destruct (Hopen Hsd) as [Hc _]. by apply app_nil in Hc as [_ ?]. }
    (split; [exact Hdi|..]); clear Hdi; world; try done; try lia; congruence.
  - lia.
  - by apply app_nil in Hputs as [_ ?].
Qed.

Lemma sched_inv_reachable w : reachable db w -> sched_inv w.
Proof.
  intros Hr. assert (Hgen : forall w1 w2, rtc (fun w w' => exists b, step db w b w') w1 w2 ->
    sched_inv w1 -> sched_inv w2).
  { induction 1 as [|w1 w2 w3 [b Hs] _ IH]; [done|]. intros Hi. apply IH. by eapply sched_inv_step. }
  apply (Hgen _ _ Hr). split; cbn; try done; lia.
Qed.
End invariant.

(** ** What the scheduler guarantees *)

(** A thread that waits on [bg_cv_] goes on when its condition holds: a job when
    no drop is requested, a drop when no job runs, the closing thread when no job
    is scheduled. *)
Inductive Waiter := WJob | WDrop | WClose.

Definition may_proceed (k : Waiter) (s : Scheduler) : Prop :=
  match k with
  | WJob => drop_cf_requests s <= 0
  | WDrop => bg_gc_running s <= 0
  | WClose => bg_gc_scheduled s <= 0
  end.

Section theorems.
Context (db : TitanDBOptions).

(** C20: The scheduling counters are exact when no [Put] can be held back for the
    size of the database ([block_write_size] is 0, the default; a [Put] that is
    held back changes the counters without the mutex, see
    [unlocked_put_loses_request]). In every reachable state [bg_gc_scheduled_] is
    the number of jobs in the thread pool's queue and in [BackgroundCallGC], plus
    those that a closing thread has removed from the queue and not yet subtracted,
    [bg_gc_running_] the number of those past their wait, [drop_cf_requests_] the
    number of threads dropping column families plus the drops that failed; at most
    [max_background_gc] jobs are scheduled; and while column families are being
    dropped no collection runs. *)
Theorem scheduler_counters (w : World) :
  block_write_size db <= 0 -> reachable db w ->
  let s := w_sched w in
  bg_gc_scheduled s = Z.of_nat (w_env w + length (w_jobs w) + sum_list (w_closing w)) /\
  bg_gc_running s = Z.of_nat (n_busy (w_jobs w)) /\
  drop_cf_requests s = Z.of_nat (length (w_drops w) + w_failed w) /\
  0 <= bg_gc_running s <= bg_gc_scheduled s /\
  bg_gc_scheduled s <= Z.max 0 (max_background_gc db) /\
  (shuting_down s = false -> w_closing w = []) /\
  (DDropping ∈ w_drops w -> forall j, j ∈ w_jobs w -> j = JWaiting).
Proof.
  intros Hb Hr. destruct (sched_inv_reachable db Hb w Hr) as [[Hrun Hreq Hex] Hsch Hbnd _ _ _ Hopen _].
  pose proof (n_jobs (w_jobs w)). split_and!; try done; try lia.
  - by intros [? _]%Hopen.
  - intros Hd j Hj. by apply (n_busy_zero (w_jobs w)); [apply Hex|].
Qed.

(** C21: No request for a collection is lost when no [Put] can be held back for
    the size of the database ([block_write_size] is 0, the default). In every
    reachable state in which background collections are allowed and the database
    is not closing, if the queue holds requests then some job is scheduled; the
    requests that have no job yet wait only because all allowed jobs are in use or
    one is about to finish and will schedule them; and a job that starts always
    finds a request, the first one of the queue. *)
Theorem no_request_lost (w : World) :
  block_write_size db <= 0 ->
  reachable db w -> disable_background_gc db = false -> 0 < max_background_gc db ->
  let s := w_sched w in
  shuting_down s = false ->
  (gc_queue s <> [] -> (0 < w_env w + length (w_jobs w))%nat /\ 0 < bg_gc_scheduled s) /\
  (0 < unscheduled_gc s ->
     bg_gc_scheduled s = max_background_gc db \/ JFinishing ∈ w_jobs w) /\
  (JWaiting ∈ w_jobs w -> exists cf q, gc_queue s = cf :: q /\ (gc_begin s).1 = Some cf /\
     gc_queue (gc_begin s).2 = q).
Proof.
  intros Hb Hr Hdis Hmax s Hsd. destruct (sched_inv_reachable db Hb w Hr) as [_ Hsch Hbnd Hun Hq Hsat Hopen _].
  specialize (Hsat Hdis Hsd). fold s in Hsch, Hbnd, Hun, Hq, Hsat. destruct (Hopen Hsd) as [Hc Hu].
  rewrite Hc in Hsch. cbn [sum_list sum_list_with] in Hsch. pose proof (n_jobs (w_jobs w)) as Hn.
  assert (Hfin : JFinishing ∈ w_jobs w -> (0 < length (w_jobs w))%nat).
  { destruct (w_jobs w); [by intros ?%not_elem_of_nil|simpl; lia]. }
  split_and!.
  - intros Hne. destruct (gc_queue s) as [|c q]; [done|]. cbn [length] in Hq.
    destruct (decide (0 < unscheduled_gc s)) as [Hp|]; [|lia]. destruct (Hsat Hp) as [|?%Hfin]; lia.
  - intros Hp. destruct (Hsat Hp); [left; lia|by right].
  - intros Hw. assert (0 < n_waiting (w_jobs w))%nat as Hpos.
    { apply list_elem_of_split in Hw as (l1 & l2 & ->). rewrite n_waiting_app.
      change (n_waiting (JWaiting :: l2)) with (1 + n_waiting l2)%nat. lia. }
    unfold gc_begin, PopFirstFromGCQueue. cbn [gc_queue].
    destruct (gc_queue s) as [|c q]; [cbn [length] in Hq; lia|]. by exists c, q.
Qed.

(** No wake-up is lost. Whenever a step makes the condition of a waiting
    thread true (a job's, a drop's, or the closing thread's, which checks for
    itself after it has unscheduled jobs), the step signals [bg_cv_]. *)
Theorem no_lost_wakeup (w w' : World) (b : bool) (k : Waiter) :
  block_write_size db <= 0 -> reachable db w -> step db w b w' -> ~ may_proceed k (w_sched w) -> may_proceed k (w_sched w') ->
  b = true \/ (k = WClose /\ exists n, w_sched w' = close_unscheduled n (w_sched w)).
Proof.
  intros Hblock Hr Hstep Hno Hyes.
  destruct (sched_inv_reachable db Hblock w Hr) as [[Hrun Hreq _] Hsch _ Hun _ _ _ Hputs].
  destruct Hstep as [cf s s' n e js ds f u c ps Hm|s e js ds f u c ps|cf s s' e js1 js2 ds f u c ps Hd Hb
    |cf s e js1 js2 ds f u c ps|cf s e js1 js2 ds f u c ps|s s' n b e js1 js2 ds f u c ps He|s e js ds f u c ps
    |s e js ds1 ds2 f u c ps Hr'|s s' b e js ds1 ds2 f u c ps Hd|s e js ds1 ds2 f u c ps|s e js ds f u c ps
    |s e js ds f u c ps Hsd|n s e js ds f u c1 c2 ps|cf s e js ds f u c ps Hbw|s s' n q q' e js ds f u c ps1 ps2 Hacc];
    cbn [w_sched w_env w_jobs w_drops w_failed w_unscheduled w_closing w_puts] in *; try done.
  - exfalso. apply Hno. apply MaybeScheduleGC_spec in Hm as (_ & Hs' & Hr'' & _ & Hd' & _);
      cbn [AddToGCQueue unscheduled_gc gc_queue bg_gc_scheduled bg_gc_running drop_cf_requests
           shuting_down] in *; [|lia]. destruct k; cbn [may_proceed] in *; lia.
  - exfalso. apply Hno. unfold gc_begin, PopFirstFromGCQueue in Hb. cbn [gc_queue] in Hb.
    destruct (gc_queue s); injection Hb as <- <-; destruct k; cbn in *; lia.
  - left. unfold gc_end in He. destruct (MaybeScheduleGC db _) as [s1 n1] eqn:Hm. injection He as <- <- <-.
    apply MaybeScheduleGC_spec in Hm as (_ & Hs' & Hr'' & _ & Hd' & _);
      cbn [unscheduled_gc gc_queue bg_gc_scheduled bg_gc_running drop_cf_requests shuting_down] in *; [|lia].
    rewrite n_busy_app in Hrun. change (n_busy (JFinishing :: js2)) with (1 + n_busy js2)%nat in Hrun.
    rewrite length_app in Hsch. cbn [length] in Hsch. apply orb_true_iff.
    destruct k; cbn [may_proceed] in *; lia.
  - exfalso. apply Hno. destruct k; cbn in *; lia.
  - left. unfold drop_end in Hd. injection Hd as <- <-. rewrite length_app in Hreq. cbn [length] in Hreq.
    destruct k; cbn in *; lia.
  - destruct k; try done. right. split; [done|by exists n].
  - by apply app_nil in Hputs as [_ ?].
Qed.

Lemma failed_step w b w' :
  drop_inv w -> step db w b w' -> (0 < w_failed w)%nat ->
  (0 < w_failed w')%nat /\ (n_busy (w_jobs w') <= n_busy (w_jobs w))%nat.
Proof.
  intros [_ Hreq _] Hstep Hf. destruct Hstep; world; try (split; [lia|done]);
    try (split; [done|]; lia).
Qed.

Lemma failed_steps w w' :
  drop_inv w -> rtc (fun w w' => exists b, step db w b w') w w' -> (0 < w_failed w)%nat ->
  (0 < w_failed w')%nat /\ (n_busy (w_jobs w') <= n_busy (w_jobs w))%nat /\
  (JWaiting ∈ w_jobs w -> JWaiting ∈ w_jobs w').
Proof.
  intros Hi Hsteps Hf. induction Hsteps as [w|w1 w2 w3 [b Hs] _ IH]; [done|].
  destruct (failed_step _ _ _ Hi Hs Hf) as [Hf2 Hle].
  destruct (IH (drop_inv_step _ _ _ _ Hi Hs) Hf2) as (Hf3 & Hle3 & Hw3). split_and!; try done; [lia|].
  intros Hw. apply Hw3. destruct Hi as [_ Hreq _]. clear -Hs Hw Hreq Hf.
  destruct Hs; cbn [w_sched w_jobs w_drops w_failed] in *; try done;
    try (by eapply (elem_of_middle_ne _ _ _ _ [_]); [exact Hw|]);
    try (by eapply (elem_of_middle_ne _ _ _ _ []); [exact Hw|]).
  - apply elem_of_app. by left.
  - lia.
Qed.

(** C40: A failed drop blocks collections for good. When the base database
    refuses to drop column families, [DropColumnFamilies] returns without taking
    its request back: from then on, whatever happens, no job leaves its wait, the
    number of running collections never grows, and a waiting job waits forever;
    so does [CloseImpl] then, when no [Put] can be held back for the size of the
    database (which would spoil the count it waits for). *)
Theorem failed_drop_blocks_gc (w w' : World) :
  reachable db w -> (0 < w_failed w)%nat -> rtc (fun w w' => exists b, step db w b w') w w' ->
  ~ may_proceed WJob (w_sched w') /\ (n_busy (w_jobs w') <= n_busy (w_jobs w))%nat /\
  (JWaiting ∈ w_jobs w -> JWaiting ∈ w_jobs w' /\
     (block_write_size db <= 0 -> ~ may_proceed WClose (w_sched w'))).
Proof.
  intros Hr Hf Hsteps. pose proof (drop_inv_steps _ _ _ drop_inv_new Hr) as Hi.
  pose proof (drop_inv_steps _ _ _ Hi Hsteps) as Hi'.
  destruct (failed_steps w w' Hi Hsteps Hf) as (Hf' & Hle & Hw). split_and!; [|done|].
  - destruct Hi' as [_ Hreq _]. cbn [may_proceed]. lia.
  - intros Hj. specialize (Hw Hj). split; [done|]. intros Hb.
    assert (Hr' : reachable db w') by (unfold reachable in *; by etrans). destruct (sched_inv_reachable db Hb w' Hr') as [_ Hsch _ _ _ _ _ _].
    cbn [may_proceed]. destruct (w_jobs w'); [by apply not_elem_of_nil in Hw|]. cbn [length] in Hsch. lia.
Qed.

(** *** A [Put] that is held back *)

(** The next access of the thread between [ps1] and [ps2]. *)
Ltac put ps1 ps2 :=
  eapply rtc_l; [exists false; eapply (step_put _ _ _ _ _ _ _ _ _ _ _ _ ps1 ps2); cbn; reflexivity|cbn].

(** C32: Without the mutex a request is lost. When writes can be held back for the
    size of the database and collections are allowed, two calls of [Put] that are
    held back at the same time can leave one request uncounted: both load
    [unscheduled_gc_] before either stores it. The state then reached has no
    thread in [Put], no job scheduled, waiting or running, the database is open,
    and the queue still holds a request, which the counters do not show. *)
Theorem unlocked_put_loses_request (cf1 cf2 : Z) :
  0 < block_write_size db -> disable_background_gc db = false -> 0 < max_background_gc db ->
  exists w, reachable db w /\ gc_queue (w_sched w) = [cf2] /\ unscheduled_gc (w_sched w) = 0 /\
    bg_gc_scheduled (w_sched w) = 0 /\ shuting_down (w_sched w) = false /\ w_unscheduled w = O /\
    w_env w = O /\ w_jobs w = [] /\ w_puts w = [].
Proof.
  intros Hbw Hdis Hmax. exists (MkWorld (MkScheduler [cf2] 0 0 0 0 false) 0 [] [] 0 0 [] []). split; [|done].
  assert (Hlt : (0 <? max_background_gc db) = true) by by apply Z.ltb_lt.
  unfold reachable, World_new, Scheduler_new.
  eapply rtc_l; [exists false; by apply (step_put_blocked _ cf1)|].
  eapply rtc_l; [exists false; by apply (step_put_blocked _ cf2)|]. cbn [app].
  put (@nil Blocked) [PAdd cf2]. put [PAddStore cf1 0] (@nil Blocked).
  put (@nil Blocked) [PAddStore cf2 0]. put [PPush cf1] (@nil Blocked).
  put (@nil Blocked) [PPush cf2]. put [PCheck] (@nil Blocked).
  put (@nil Blocked) [PCheck]. rewrite Hdis. cbn. put (@nil Blocked) [PCheck]. put (@nil Blocked) [PCheck]. rewrite Hlt. cbn.
  put (@nil Blocked) [PCheck]. put (@nil Blocked) [PCheck]. put (@nil Blocked) [PCheck]. put (@nil Blocked) [PCheck].
  put (@nil Blocked) [PCheck]. put (@nil Blocked) [PCheck].
  put (@nil Blocked) (@nil Blocked). rewrite Hdis. cbn. put (@nil Blocked) (@nil Blocked).
  eapply rtc_l; [exists false; apply step_dispatch|]. cbn [app].
  eapply rtc_l; [exists false; by apply (step_begin _ (Some cf1) _ (MkScheduler [cf2] 1 1 0 0 false) 0 [] [])|].
  eapply rtc_l; [exists false; apply (step_collected _ (Some cf1) _ 0 [] [])|].
  eapply rtc_l; [exists true; eapply (step_end _ _ (MkScheduler [cf2] 0 0 0 0 false) 0 true 0 [] [])|apply rtc_refl].
  unfold gc_end, MaybeScheduleGC. cbn. by rewrite Hdis.
Qed.
End theorems.

(** ** Applications *)

Definition example_sched_options : TitanDBOptions := TitanDBOptions_of (MkDBOptions (-1) true).

(** A request, whose job is dispatched. *)
Definition example_world : World := MkWorld (MkScheduler [7] 1 0 0 0 false) 0 [JWaiting] [] 0 0 [] [].

(** Then a drop of column families that fails in the base database. *)
Definition example_failed : World := MkWorld (MkScheduler [7] 1 0 0 1 false) 0 [JWaiting] [] 1 0 [] [].

Lemma example_world_reachable : reachable example_sched_options example_world.
Proof.
  eapply rtc_l; [exists false; by apply (step_request _ 7)|].
  eapply rtc_l; [exists false; apply step_dispatch|]. apply rtc_refl.
Qed.

Lemma example_failed_reachable : reachable example_sched_options example_failed.
Proof.
  unfold reachable; etrans; [apply example_world_reachable|].
  eapply rtc_l; [exists false; apply step_drop|].
  eapply rtc_l; [exists false; by apply (step_dropping _ _ _ _ [] [])|].
  eapply rtc_l; [exists false; by apply (step_drop_failed _ _ _ _ [] [])|]. apply rtc_refl.
Qed.

Lemma scheduler_counters_witness :
  bg_gc_scheduled (w_sched example_world) = 1 /\ bg_gc_running (w_sched example_world) = 0.
Proof.
  destruct (scheduler_counters example_sched_options example_world)
    as (H1 & H2 & _); [done|exact example_world_reachable|]. split; [exact H1|exact H2].
Defined.

Lemma no_request_lost_witness :
  exists cf q, gc_queue (w_sched example_world) = cf :: q /\
    (gc_begin (w_sched example_world)).1 = Some cf /\
    gc_queue (gc_begin (w_sched example_world)).2 = q.
Proof.
  apply (no_request_lost example_sched_options example_world); [done|exact example_world_reachable|done|done|done|left].
Defined.

Lemma no_lost_wakeup_witness :
  exists b, step example_sched_options
      (MkWorld (MkScheduler [] 1 1 0 0 false) 0 [JFinishing] [] 0 0 [] []) b
      (MkWorld (MkScheduler [] 0 0 0 0 false) 0 [] [] 0 0 [] []) /\ b = true.
Proof.
  assert (Hs : step example_sched_options
    (MkWorld (MkScheduler [] 1 1 0 0 false) 0 [JFinishing] [] 0 0 [] []) true
    (MkWorld (MkScheduler [] 0 0 0 0 false) 0 [] [] 0 0 [] [])).
  { exact (step_end example_sched_options (MkScheduler [] 1 1 0 0 false) (MkScheduler [] 0 0 0 0 false)
             0 true 0 [] [] [] 0 0 [] [] eq_refl). }
  exists true. split; [exact Hs|].
  assert (Hr : reachable example_sched_options
    (MkWorld (MkScheduler [] 1 1 0 0 false) 0 [JFinishing] [] 0 0 [] [])).
  { unfold reachable; etrans; [apply example_world_reachable|].
    eapply rtc_l; [exists false; apply (step_begin _ (Some 7) _ (MkScheduler [] 1 1 0 0 false) 0 [] []); done|].
    eapply rtc_l; [exists false; apply (step_collected _ (Some 7) _ 0 [] [])|]. apply rtc_refl. }
  assert (Hb0 : block_write_size example_sched_options <= 0) by done.
  destruct (no_lost_wakeup example_sched_options _ _ true WDrop Hb0 Hr Hs) as [Hb|[[=] _]];
    [cbn; lia|cbn; lia|exact Hb].
Defined.

Lemma failed_drop_blocks_gc_witness :
  ~ may_proceed WJob (w_sched example_failed) /\ ~ may_proceed WClose (w_sched example_failed).
Proof.
  destruct (failed_drop_blocks_gc example_sched_options example_failed example_failed
              example_failed_reachable) as (Hj & _ & Hc); [simpl; lia|apply rtc_refl|].
  split; [exact Hj|]. apply Hc; [left|done].
Defined.

(** The default options with a limit on the size. *)
Definition example_block_options : TitanDBOptions :=
  {| db_base := MkDBOptions (-1) true; dirname := ""; disable_background_gc := false; max_background_gc := 1;
     purge_obsolete_files_period_sec := 10; titan_stats_dump_period_sec := 600; sep_before_flush := false;
     num_foreground_builders := 1; block_write_size := 1048576 |}.

Lemma unlocked_put_loses_request_witness :
  exists w, reachable example_block_options w /\ gc_queue (w_sched w) = [8] /\ unscheduled_gc (w_sched w) = 0 /\
    bg_gc_scheduled (w_sched w) = 0 /\ shuting_down (w_sched w) = false /\ w_unscheduled w = O /\
    w_env w = O /\ w_jobs w = [] /\ w_puts w = [].
Proof. by apply (unlocked_put_loses_request example_block_options 7 8). Defined.
