(* ===== verification/BlobFileSizeCollector.v ===== *)
(** * The table property with the blob sizes of an SST file
    (src/blob_file_size_collector.h, src/blob_file_size_collector.cc)

    While an SST file is written, the collector sums the sizes of the blobs its
    entries point to, by blob file, and stores them as a table property. *)

From S2P Require Import Prelude Rocks Options Stats Util BlobFormat.

(** [rocksdb::EntryType], of which the collector tells one apart. *)
Inductive EntryType := kEntryBlobIndex | kEntryOther.

(** [UserCollectedProperties]: a [std::map] from names to values. *)
Abbreviation UserCollectedProperties := (gmap string bytes).

Definition kPropertiesName : string := "TitanDB.blob_discardable_size".

Section collector.
Context `{Coding}.

(** [Encode]. *)
Definition encode_sizes (blob_files_size : gmap Z Z) : bytes :=
  PutVarint32 (wrap32 (Z.of_nat (size blob_files_size)))
  ++ concat ((fun bfs => PutVarint64 bfs.1 ++ PutVarint64 bfs.2) <$> ordered_iter blob_files_size).

(** The loop of [Decode]. Each iteration takes bytes of the slice, so its length
    is enough fuel. *)
Fixpoint decode_entries (fuel : nat) (num : Z) (slice : bytes) (blob_files_size : gmap Z Z)
    : bool * gmap Z Z :=
  if num <=? 0 then (true, blob_files_size)
  else
    match GetVarint64 slice with
    | None => (false, blob_files_size)
    | Some (file_number, slice) =>
        match GetVarint64 slice with
        | None => (false, blob_files_size)
        | Some (size, slice) =>
            match fuel with
            | O => (false, blob_files_size)
            | S fuel =>
                decode_entries fuel (num - 1) slice (<[file_number := size]> blob_files_size)
            end
        end
    end.

(** [Decode] fills the map, also when it fails half way. *)
Definition decode_sizes (slice : bytes) (blob_files_size : gmap Z Z) : bool * gmap Z Z :=
  match GetVarint32 slice with
  | None => (false, blob_files_size)
  | Some (num, slice) => decode_entries (length slice) num slice blob_files_size
  end.

(** [AddUserKey]. *)
Definition AddUserKey (value : bytes) (type : EntryType) (blob_files_size : gmap Z Z)
    : result (gmap Z Z) :=
  match type with
  | kEntryOther => Ok blob_files_size
  | kEntryBlobIndex =>
      let* (index, _) := BlobIndex_DecodeFrom BlobIndex_default value in
      let n := index_file_number index in
      let d := handle_size (blob_handle index) in
      Ok (match blob_files_size !! n with
          | None => <[n := d]> blob_files_size
          | Some v => <[n := v +u64 d]> blob_files_size
          end)
  end.

(** [Finish]. *)
Definition collector_Finish (blob_files_size : gmap Z Z) (properties : UserCollectedProperties)
    : UserCollectedProperties :=
  if bool_decide (blob_files_size = ∅) then properties
  else match properties !! kPropertiesName with
       | Some _ => properties
       | None => <[kPropertiesName := encode_sizes blob_files_size]> properties
       end.

(** ** The property reads back *)

Definition sizes_wf (m : gmap Z Z) : Prop := map_Forall (fun n v => is_u64 n /\ is_u64 v) m.

Lemma decode_entries_encoded `{!CodingOk _} l fuel rest m :
  Forall (fun e => is_u64 e.1 /\ is_u64 e.2) l ->
  (length l <= fuel)%nat ->
  decode_entries fuel (Z.of_nat (length l))
    (concat ((fun bfs => PutVarint64 bfs.1 ++ PutVarint64 bfs.2) <$> l) ++ rest) m =
  (true, foldl (fun m e => <[e.1 := e.2]> m) m l).
Proof.
  intros Hl. revert fuel m; induction Hl as [|[n v] l [Hn Hv] Hl IH]; intros fuel m Hf.
  { by destruct fuel. }
  destruct fuel as [|fuel]; cbn [length] in Hf; [lia|].
  cbn [fmap list_fmap concat foldl fst snd]. rewrite <- !app_assoc. cbn [decode_entries].
  replace (Z.of_nat (length ((n, v) :: l)) <=? 0) with false by (symmetry; apply Z.leb_gt; cbn [length]; lia).
  rewrite varint64_roundtrip by done. rewrite varint64_roundtrip by done.
  replace (Z.of_nat (length ((n, v) :: l)) - 1) with (Z.of_nat (length l)) by (cbn [length]; lia).
  apply IH. lia.
Qed.

Lemma foldl_insert_list_to_map {V} (l : list (Z * V)) (m : gmap Z V) :
  NoDup l.*1 -> foldl (fun m e => <[e.1 := e.2]> m) m l = list_to_map l ∪ m.
Proof.
  revert m; induction l as [|[k v] l IH]; intros m Hnd.
  { cbn [foldl]. rewrite list_to_map_nil. by rewrite (left_id_L ∅ (∪)). }
  cbn [foldl fst snd fmap list_fmap] in *. apply NoDup_cons in Hnd as [Hk Hnd].
  rewrite IH by done. rewrite list_to_map_cons, <- insert_union_l. symmetry.
  apply insert_union_r. by apply not_elem_of_list_to_map_1.
Qed.

Lemma encoded_entries_length `{!CodingOk _} l :
  Forall (fun e => is_u64 e.1 /\ is_u64 e.2) l ->
  (length l <= length (concat ((fun bfs => PutVarint64 bfs.1 ++ PutVarint64 bfs.2) <$> l)))%nat.
Proof.
  induction 1 as [|[n v] l [Hn Hv] Hl IH]; [done|]. cbn [fmap list_fmap concat length fst snd].
  rewrite !length_app. pose proof (get_varint64_shorter _ _ _ (varint64_roundtrip n [] Hn)) as Hs.
  rewrite app_nil_r in Hs. cbn [length] in Hs. lia.
Qed.

Lemma sizes_roundtrip `{!CodingOk _} m rest :
  sizes_wf m -> Z.of_nat (size m) < two32 ->
  decode_sizes (encode_sizes m ++ rest) ∅ = (true, m).
Proof.
  intros Hwf Hsz. unfold decode_sizes, encode_sizes. rewrite <- app_assoc.
  replace (wrap32 (Z.of_nat (size m))) with (Z.of_nat (size m)) by (unfold wrap32; rewrite Z.mod_small; lia). rewrite varint32_roundtrip by (split; lia).
  assert (Hall : Forall (fun e => is_u64 e.1 /\ is_u64 e.2) (ordered_iter m)).
  { rewrite ordered_iter_perm. apply Forall_forall. intros [k v] Hin%elem_of_map_to_list.
    by apply Hwf. }
  assert (Hlen : size m = length (ordered_iter m)).
  { rewrite ordered_iter_perm. by rewrite length_map_to_list. }
  rewrite Hlen. rewrite decode_entries_encoded; [|done|].
  - rewrite foldl_insert_list_to_map, (right_id_L ∅ (∪)).
    + f_equal. rewrite (list_to_map_proper (ordered_iter m) (map_to_list m)).
      * apply list_to_map_to_list.
      * rewrite ordered_iter_perm. apply NoDup_fst_map_to_list.
      * apply ordered_iter_perm.
    + rewrite ordered_iter_perm. apply NoDup_fst_map_to_list.
  - rewrite length_app. pose proof (encoded_entries_length _ Hall). lia.
Qed.

(** ** What is collected *)

(** The collector over the entries of an SST file. *)
Fixpoint add_entries (entries : list (bytes * EntryType)) (m : gmap Z Z) : result (gmap Z Z) :=
  match entries with
  | [] => Ok m
  | (value, type) :: entries => let* m := AddUserKey value type m in add_entries entries m
  end.

(** An entry is a blob index or something else. *)
Definition entry_of (x : BlobIndex + bytes) : bytes * EntryType :=
  match x with
  | inl i => (BlobIndex_EncodeTo i, kEntryBlobIndex)
  | inr v => (v, kEntryOther)
  end.

Definition entry_wf (x : BlobIndex + bytes) : Prop :=
  match x with inl i => index_wf i | inr _ => True end.

(** The bytes the entries refer to in a file. *)
Definition referred (n : Z) (x : BlobIndex + bytes) : Z :=
  match x with
  | inl i => if index_file_number i =? n then handle_size (blob_handle i) else 0
  | inr _ => 0
  end.

Definition refers_to (n : Z) (xs : list (BlobIndex + bytes)) : Prop :=
  exists i, inl i ∈ xs /\ index_file_number i = n.

Definition total_referred (n : Z) (xs : list (BlobIndex + bytes)) : Z :=
  foldr (fun x s => referred n x + s) 0 xs.

(** The map after [xs], starting from [m]. *)
Definition collected (m m' : gmap Z Z) (xs : list (BlobIndex + bytes)) : Prop :=
  forall n, (m' !! n = None <-> m !! n = None /\ ~ refers_to n xs) /\
    (forall v, m' !! n = Some v -> v = wrap64 (default 0 (m !! n) + total_referred n xs)).

Lemma refers_to_cons n x xs :
  refers_to n (x :: xs) <-> (exists i, x = inl i /\ index_file_number i = n) \/ refers_to n xs.
Proof.
  unfold refers_to. split.
  - intros (i & [<-|Hin]%elem_of_cons & Hi); [left; by exists i|right; by exists i].
  - intros [(i & -> & Hi)|(i & Hin & Hi)]; exists i; (split; [|done]); [left|by right].
Qed.

Lemma add_entries_collected `{!CodingOk _} xs m :
  Forall entry_wf xs -> sizes_wf m ->
  exists m', add_entries (entry_of <$> xs) m = Ok m' /\ sizes_wf m' /\ collected m m' xs.
Proof.
  intros Hxs. revert m; induction Hxs as [|x xs Hx Hxs IH]; intros m Hm.
  { exists m. split; [done|]. split; [done|]. intros n. split.
    - split; [|tauto]. intros Hn. split; [done|]. by intros (i & []%not_elem_of_nil & _).
    - intros v Hv. cbn [total_referred foldr]. rewrite Hv, Z.add_0_r. cbn [default from_option].
      symmetry. apply wrap64_small. by apply (Hm n v). }
  destruct x as [i|v]; cbn [fmap list_fmap entry_of add_entries AddUserKey].
  - destruct Hx as (Hn & Ho & Hs). rewrite <- (app_nil_r (BlobIndex_EncodeTo i)).
    rewrite BlobIndex_roundtrip by done. cbn [result_bind].
    set (n0 := index_file_number i) in *. set (d := handle_size (blob_handle i)) in *.
    set (m1 := match m !! n0 with None => _ | Some _ => _ end).
    assert (Hm1 : sizes_wf m1 /\ forall n, m1 !! n =
              if decide (n = n0) then Some (wrap64 (default 0 (m !! n) + d)) else m !! n).
    { unfold m1. destruct (m !! n0) as [v|] eqn:E.
      - split; [apply map_Forall_insert_2; [split; [done|apply wrap64_range]|done]|].
        intros n. rewrite lookup_insert. case_decide; case_decide; subst; try done. by rewrite E.
      - split; [by apply map_Forall_insert_2|]. intros n. rewrite lookup_insert.
        case_decide; case_decide; subst; try done. rewrite E. cbn [default from_option].
        rewrite Z.add_0_l, wrap64_small; done. }
    destruct Hm1 as [Hwf1 Hm1]. destruct (IH m1 Hwf1) as (m' & -> & Hwf' & Hcol). exists m'.
    split; [done|]. split; [done|]. intros n. destruct (Hcol n) as [Hnone Hval].
    rewrite Hm1 in Hnone, Hval. rewrite refers_to_cons. cbn [total_referred foldr].
    fold (total_referred n xs). unfold referred. fold n0. case_decide as Hd.
    + subst n. split.
      * split; [intros []%Hnone; done|]. intros [_ Hno]. exfalso. apply Hno. left. by exists i.
      * intros v Hv. rewrite (Hval v Hv), Z.eqb_refl. cbn [from_option id].
        rewrite wrap64_add_l. f_equal. unfold d. lia.
    + split.
      * rewrite Hnone. split; [|naive_solver]. intros [Hmn Hno]. split; [done|]. intros [(j & [= <-] & Hj)|]; done.
      * intros v Hv. rewrite (Hval v Hv). replace (n0 =? n) with false by lia. f_equal.
  - cbn [result_bind]. destruct (IH m Hm) as (m' & -> & Hwf' & Hcol). exists m'. split; [done|]. split; [done|].
    intros n. destruct (Hcol n) as [Hnone Hval]. rewrite refers_to_cons. split.
    + rewrite Hnone. split; [|naive_solver]. intros [Hmn Hno]. split; [done|]. by intros [(j & [=] & _)|].
    + intros v' Hv. by rewrite (Hval v' Hv).
Qed.

(** C29: The table property tells exactly what an SST file refers to. For any
    entries, blob indexes or others, the collector accepts them all; the property
    it stores reads back as a map that has a blob file exactly when some index
    points to it, with the sum of the sizes of those indexes (modulo 2^64), and no
    property is stored exactly when there is no blob index. *)
Theorem collected_sizes_read_back `{!CodingOk _} (xs : list (BlobIndex + bytes)) :
  Forall entry_wf xs ->
  exists m, add_entries (entry_of <$> xs) ∅ = Ok m /\
    (forall n, m !! n = None <-> ~ refers_to n xs) /\
    (forall n v, m !! n = Some v -> v = wrap64 (total_referred n xs)) /\
    (Z.of_nat (size m) < two32 ->
     match collector_Finish m ∅ !! kPropertiesName with
     | Some property => decode_sizes property ∅ = (true, m)
     | None => forall n, ~ refers_to n xs
     end).
Proof.
  intros Hxs. destruct (add_entries_collected xs ∅ Hxs) as (m & Hadd & Hwf & Hcol).
  { apply map_Forall_empty. }
  exists m. split; [done|]. split_and!.
  - intros n. destruct (Hcol n) as [Hnone _]. rewrite Hnone, lookup_empty. tauto.
  - intros n v Hv. destruct (Hcol n) as [_ Hval]. rewrite (Hval v Hv), lookup_empty. done.
  - intros Hsz. unfold collector_Finish. destruct (bool_decide_reflect (m = ∅)) as [->|Hne].
    + rewrite lookup_empty. intros n. destruct (Hcol n) as [Hnone _]. apply Hnone. apply lookup_empty.
    + rewrite lookup_empty, lookup_insert_eq. rewrite <- (app_nil_r (encode_sizes m)).
      by apply sizes_roundtrip.
Qed.
End collector.

Section witnesses.
#[local] Existing Instances leb128_coding leb128_coding_ok.

Definition example_entries : list (BlobIndex + bytes) :=
  [inl (MkBlobIndex 7 (MkBlobHandle 0 100)); inr [Byte.x61];
   inl (MkBlobIndex 7 (MkBlobHandle 100 30)); inl (MkBlobIndex 9 (MkBlobHandle 5 1))].

Lemma collected_sizes_read_back_witness :
  exists m, add_entries (entry_of <$> example_entries) ∅ = Ok m /\
    (forall n v, m !! n = Some v -> v = wrap64 (total_referred n example_entries)).
Proof.
  destruct (collected_sizes_read_back example_entries) as (m & Hm & _ & Hv & _).
  - repeat constructor; done.
  - by exists m.
Defined.
End witnesses.
