(* ===== verification/RangeMerge.v ===== *)
(** * Marking overlapping files for merge
    ([TitanDBImpl::MarkFileIfNeedMerge] of src/db_impl.cc)

    The ends of the files' key ranges are sorted and swept once; a file is marked
    when more than [max_sorted_runs] files, itself included, overlap it. *)

From S2P Require Import Prelude Rocks Options Stats Util BlobFormat Env VersionEdit.

Section mark.
Context (h0 : heap).

(** An end of a file: [true] for the smallest key. *)
Definition end_key (e : loc * bool) : bytes :=
  if e.2 then smallest_key (deref h0 e.1) else largest_key (deref h0 e.1).

Definition blob_ends_cmp (end1 end2 : loc * bool) : bool :=
  match bytes_compare (end_key end1) (end_key end2) with
  | Eq => if bool_decide (end1.1 = end2.1) then end1.2 else negb end1.2 && end2.2
  | Lt => true
  | Gt => false
  end.

Definition blob_ends (files : list loc) : list (loc * bool) :=
  concat ((fun f => [(f, true); (f, false)]) <$> files).

(** The states [MarkFileIfNeedMerge] leaves alone. *)
Definition markable (m : BlobFileMeta) : bool :=
  match file_state m with
  | FileState.kObsolete | FileState.kToMerge | FileState.kToGC => false
  | _ => true
  end.

(** The loop over the sorted ends: the heap and the number of files marked. *)
Fixpoint sweep (max_sorted_runs : Z) (ends : list (loc * bool)) (cur_add cur_remove : Z)
    (tmp : gmap loc Z) (marked : Z) (h : heap) : heap * Z :=
  match ends with
  | [] => (h, marked)
  | (f, true) :: ends =>
      sweep max_sorted_runs ends (cur_add + 1) cur_remove (<[f := cur_remove]> tmp) marked h
  | (f, false) :: ends =>
      let cur_remove := cur_remove + 1 in
      match tmp !! f with
      | None => sweep max_sorted_runs ends cur_add cur_remove tmp marked h
      | Some record =>
          if (cur_add - record >? max_sorted_runs) && markable (deref h f)
          then sweep max_sorted_runs ends cur_add cur_remove tmp (marked + 1)
                 (heap_call (FileStateTransit FileEvent.kNeedMerge) f h)
          else sweep max_sorted_runs ends cur_add cur_remove tmp marked h
      end
  end.
End mark.

Definition MarkFileIfNeedMerge (files : list loc) (max_sorted_runs : Z) (h : heap) : heap * Z :=
  match files with
  | [] => (h, 0)
  | _ => sweep max_sorted_runs (std_sort (blob_ends_cmp h) (blob_ends files)) 0 0 ∅ 0 h
  end.

(** ** Sorted ends *)

Section ends.
Context (h : heap) (files : list loc).
Context (Hfiles : NoDup files).
Context (Hrange : forall f, f ∈ files ->
  bytes_compare (smallest_key (deref h f)) (largest_key (deref h f)) = Lt).

Lemma elem_of_blob_ends f b : (f, b) ∈ blob_ends files <-> f ∈ files.
Proof.
  unfold blob_ends. rewrite elem_of_concat. split.
  - intros (l & Hl & Hin). apply list_elem_of_fmap in Hin as (g & -> & Hg).
    rewrite !elem_of_cons in Hl. destruct Hl as [[= -> ->]|[[= -> ->]|[]%not_elem_of_nil]]; done.
  - intros Hf. exists [(f, true); (f, false)]. split.
    + destruct b; [left|right; left].
    + apply list_elem_of_fmap. by exists f.
Qed.

Lemma NoDup_blob_ends : NoDup (blob_ends files).
Proof.
  clear Hrange. unfold blob_ends. induction Hfiles as [|f fs Hf Hnd IH]; simpl; [constructor|].
  assert (Hno : forall b, (f, b) ∉ concat ((fun f => [(f, true); (f, false)]) <$> fs)).
  { intros b (l & Hl & Hin)%elem_of_concat. apply list_elem_of_fmap in Hin as (g & -> & Hg).
    rewrite !elem_of_cons in Hl. destruct Hl as [[= -> ->]|[[= -> ->]|[]%not_elem_of_nil]]; done. }
  constructor; [|constructor; [apply Hno|by apply IH]].
  rewrite elem_of_cons. intros [[=]|Hin]. by apply (Hno true).
Qed.

(** On these ends the comparison is by key, with largest before smallest keys. *)
Lemma blob_ends_cmp_lex e1 e2 :
  e1 ∈ blob_ends files -> e2 ∈ blob_ends files -> e1 <> e2 ->
  blob_ends_cmp h e1 e2 =
  match bytes_compare (end_key h e1) (end_key h e2) with
  | Eq => negb e1.2 && e2.2 | Lt => true | Gt => false
  end.
Proof.
  destruct e1 as [f b1], e2 as [g b2]. intros H1 H2 Hne. apply elem_of_blob_ends in H1, H2.
  unfold blob_ends_cmp. destruct (bytes_compare _ _) eqn:E; try done. cbn [fst snd].
  rewrite bool_decide_eq_false_2; [done|]. intros ->. unfold end_key in E. cbn [fst snd] in E.
  pose proof (Hrange g H1) as Hlt. apply bytes_compare_eq in E.
  destruct b1, b2; try done; rewrite ?E in Hlt; try (rewrite <- E in Hlt);
    rewrite bytes_compare_refl in Hlt; done.
Qed.

Abbreviation sorted_ends := (std_sort (blob_ends_cmp h) (blob_ends files)).

Lemma sorted_ends_strongly : StronglySorted (fun x y => blob_ends_cmp h y x = false) sorted_ends.
Proof.
  apply Sorted_StronglySorted_in.
  - rewrite std_sort_perm. apply NoDup_blob_ends.
  - intros x y z. rewrite !std_sort_perm. intros Hx Hy Hz Hxy Hyz Hxz.
    rewrite !blob_ends_cmp_lex by (done || by apply not_eq_sym). 
    generalize (end_key h x) (end_key h y) (end_key h z). intros kx ky kz Hyx Hzy.
    rewrite (bytes_compare_antisym kx ky) in Hyx. rewrite (bytes_compare_antisym ky kz) in Hzy.
    rewrite (bytes_compare_antisym kx kz).
    destruct (bytes_compare kx ky) eqn:E1; simpl in Hyx; try done;
      destruct (bytes_compare ky kz) eqn:E2; simpl in Hzy; try done.
    + apply bytes_compare_eq in E1 as ->. apply bytes_compare_eq in E2 as ->.
      rewrite bytes_compare_refl. simpl. destruct x.2, y.2, z.2; done.
    + apply bytes_compare_eq in E1 as ->. by rewrite E2.
    + apply bytes_compare_eq in E2 as ->. by rewrite E1.
    + by rewrite (bytes_compare_trans_lt _ _ _ E1 E2).
  - apply std_sort_sorted_in; [apply NoDup_blob_ends|]. intros x y Hx Hy Hne.
    rewrite !blob_ends_cmp_lex by (done || by apply not_eq_sym).
    rewrite (bytes_compare_antisym (end_key h x) (end_key h y)).
    destruct (bytes_compare (end_key h x) (end_key h y)); simpl; try done. by destruct x.2, y.2.
Qed.

(** A smallest and a largest end are never tied. *)
Lemma ends_strict f g :
  f ∈ files -> g ∈ files -> blob_ends_cmp h (f, true) (g, false) = negb (blob_ends_cmp h (g, false) (f, true)).
Proof.
  intros Hf Hg. rewrite !blob_ends_cmp_lex by (done || by apply elem_of_blob_ends).
  rewrite (bytes_compare_antisym (end_key h (f, true)) (end_key h (g, false))).
  by destruct (bytes_compare _ _).
Qed.

(** Where the sorted ends are split, the ends of the other kind before are those
    that compare smaller. *)
Lemma ends_before pre f b g post :
  sorted_ends = pre ++ (f, b) :: post -> g ∈ files ->
  (g, negb b) ∈ pre <-> blob_ends_cmp h (g, negb b) (f, b) = true.
Proof.
  intros Hsplit Hg. pose proof sorted_ends_strongly as Hs. rewrite Hsplit in Hs.
  assert (Hf : f ∈ files).
  { apply (elem_of_blob_ends f b). rewrite <- (std_sort_perm (blob_ends_cmp h)), Hsplit.
    apply elem_of_app. right. left. }
  assert (Hopp : blob_ends_cmp h (g, negb b) (f, b) = negb (blob_ends_cmp h (f, b) (g, negb b))).
  { destruct b; cbn [negb]; rewrite ends_strict by done; by rewrite ?negb_involutive. }
  assert (Hin : (g, negb b) ∈ pre ++ (f, b) :: post).
  { rewrite <- Hsplit, std_sort_perm. by apply elem_of_blob_ends. }
  split.
  - intros Hpre. rewrite Hopp. apply negb_true_iff.
    by apply (StronglySorted_app_1_elem_of _ _ _ _ _ Hs Hpre); left.
  - intros Hlt. apply elem_of_app in Hin as [|Hin]; [done|]. exfalso.
    apply elem_of_cons in Hin as [[=]|Hin]; [by destruct b|].
    rewrite cons_middle, app_assoc in Hs.
    assert (Hc : blob_ends_cmp h (g, negb b) (f, b) = false).
    { apply (StronglySorted_app_1_elem_of _ _ _ (f, b) _ Hs); [|exact Hin].
      apply elem_of_app. right. left. }
    congruence.
Qed.

(** The files whose other end compares smaller than an end of [f]. *)
Definition smaller (b : bool) (f : loc) : list loc :=
  filter (fun g => blob_ends_cmp h (g, negb b) (f, b) = true) files.

Definition of_kind (b : bool) (l : list (loc * bool)) : list (loc * bool) :=
  filter (fun e => e.2 = b) l.

Lemma count_before pre f b post :
  sorted_ends = pre ++ (f, b) :: post -> length (of_kind (negb b) pre) = length (smaller b f).
Proof.
  intros Hsplit.
  assert (Hndp : NoDup pre).
  { pose proof NoDup_blob_ends as Hnd. rewrite <- (std_sort_perm (blob_ends_cmp h)), Hsplit in Hnd.
    by apply NoDup_app in Hnd as [? _]. }
  rewrite <- (length_fmap fst). apply Permutation_length, NoDup_Permutation.
  - assert (Hk : Forall (fun e => e.2 = negb b) (of_kind (negb b) pre)).
    { apply Forall_forall. by intros e [? _]%list_elem_of_filter. }
    assert (Hn : NoDup (of_kind (negb b) pre)) by by apply NoDup_filter.
    induction Hn as [|[g k] l Hg Hl IH]; [constructor|]. apply Forall_cons in Hk as [Hgk Hk].
    cbn [fmap list_fmap fst]. constructor; [|by apply IH]. intros ([g' k'] & Heq & Hin)%list_elem_of_fmap.
    rewrite Forall_forall in Hk. specialize (Hk _ Hin). simpl in *. by subst.
  - by apply NoDup_filter.
  - intros g. unfold smaller, of_kind. rewrite list_elem_of_filter, list_elem_of_fmap. split.
    + intros ([g' k] & -> & [Hk Hin]%list_elem_of_filter). simpl in *. subst k.
      assert (Hg : g' ∈ files).
      { apply (elem_of_blob_ends g' (negb b)). rewrite <- (std_sort_perm (blob_ends_cmp h)), Hsplit.
        apply elem_of_app. by left. }
      split; [|done]. by apply (ends_before pre f b g' post).
    + intros [Hlt Hg]. exists (g, negb b). split; [done|]. apply list_elem_of_filter. split; [done|].
      by apply (ends_before pre f b g post).
Qed.

(** ** Overlaps *)

Definition overlaps (f g : loc) : Prop :=
  f = g \/ (bytes_compare (smallest_key (deref h g)) (largest_key (deref h f)) = Lt /\
            bytes_compare (smallest_key (deref h f)) (largest_key (deref h g)) = Lt).

#[export] Instance overlaps_dec f g : Decision (overlaps f g).
Proof. unfold overlaps. apply _. Defined.

Definition overlap_count (f : loc) : Z := Z.of_nat (length (filter (overlaps f) files)).

Lemma smallest_before_largest f g :
  f ∈ files -> g ∈ files ->
  blob_ends_cmp h (g, true) (f, false) = true <->
  bytes_compare (smallest_key (deref h g)) (largest_key (deref h f)) = Lt.
Proof.
  intros Hf Hg. rewrite blob_ends_cmp_lex by (done || by apply elem_of_blob_ends).
  unfold end_key. cbn [fst snd]. by destruct (bytes_compare _ _).
Qed.

Lemma overlaps_iff f g :
  f ∈ files -> g ∈ files ->
  overlaps f g <-> blob_ends_cmp h (g, true) (f, false) = true /\
                   blob_ends_cmp h (g, false) (f, true) = false.
Proof.
  intros Hf Hg. pose proof (ends_strict f g Hf Hg) as Hst.
  assert (Hr : blob_ends_cmp h (g, false) (f, true) = false <->
               blob_ends_cmp h (f, true) (g, false) = true).
  { rewrite Hst. by rewrite negb_true_iff. }
  rewrite Hr, !smallest_before_largest by done. unfold overlaps. split; [|tauto].
  intros [->|?]; [|done]. split; by apply Hrange.
Qed.

Lemma filter_difference {A} (P Q : A -> Prop) `{forall x, Decision (P x)} `{forall x, Decision (Q x)}
    (l : list A) :
  (forall x, x ∈ l -> Q x -> P x) ->
  (length (filter P l) = length (filter Q l) + length (filter (fun x => P x /\ ~ Q x) l))%nat.
Proof.
  induction l as [|x l IH]; intros Hsub; [done|].
  specialize (IH (fun y Hy => Hsub y (list_elem_of_further _ _ _ Hy))).
  pose proof (Hsub x (list_elem_of_here _ _)) as Hx. rewrite !filter_cons.
  repeat case_decide; cbn [length]; rewrite ?IH; try lia; tauto.
Qed.

Lemma filter_iff_in {A} (P Q : A -> Prop) `{forall x, Decision (P x)} `{forall x, Decision (Q x)}
    (l : list A) : Forall (fun x => P x <-> Q x) l -> filter P l = filter Q l.
Proof.
  induction 1 as [|x l Hx _ IH]; [done|]. rewrite !filter_cons, IH. repeat case_decide; done || tauto.
Qed.

(** Files that start before the end of [f], less those that end before its start. *)
Lemma overlap_count_diff f :
  f ∈ files ->
  Z.of_nat (length (smaller false f)) - Z.of_nat (length (smaller true f)) = overlap_count f.
Proof.
  intros Hf. unfold smaller, overlap_count. cbn [negb].
  rewrite (filter_difference (fun g => blob_ends_cmp h (g, true) (f, false) = true)
             (fun g => blob_ends_cmp h (g, false) (f, true) = true) files).
  - rewrite (filter_iff_in (overlaps f) (fun g => blob_ends_cmp h (g, true) (f, false) = true /\
      ~ blob_ends_cmp h (g, false) (f, true) = true)); [lia|].
    apply Forall_forall. intros g Hg. rewrite overlaps_iff by done. by rewrite not_true_iff_false.
  - intros g Hg Hlt. apply smallest_before_largest; [done..|].
    assert (Hlt' : bytes_compare (largest_key (deref h g)) (smallest_key (deref h f)) <> Gt).
    { rewrite blob_ends_cmp_lex in Hlt by (done || by apply elem_of_blob_ends).
      unfold end_key in Hlt. cbn [fst snd] in Hlt. by destruct (bytes_compare _ _). }
    pose proof (Hrange g Hg) as Hg'. pose proof (Hrange f Hf) as Hf'.
    destruct (bytes_compare (largest_key (deref h g)) (smallest_key (deref h f))) eqn:E; [| |done].
    + apply bytes_compare_eq in E. rewrite E in Hg'. by eapply bytes_compare_trans_lt.
    + eapply bytes_compare_trans_lt; [exact Hg'|]. by eapply bytes_compare_trans_lt.
Qed.

(** ** The sweep *)

Context (max_sorted_runs : Z).

(** The files to mark. *)
Definition need_merge (f : loc) : Prop :=
  max_sorted_runs < overlap_count f /\ markable (deref h f) = true.

#[export] Instance need_merge_dec f : Decision (need_merge f).
Proof. unfold need_merge. apply _. Defined.

Definition marks (e : loc * bool) : Prop := e.2 = false /\ need_merge e.1.

#[local] Instance marks_dec e : Decision (marks e).
Proof. unfold marks. apply _. Defined.

(** What the sweep knows after the ends [pre]. *)
Record swept (pre : list (loc * bool)) (cur_add cur_remove : Z) (tmp : gmap loc Z) (marked : Z)
    (h' : heap) : Prop := {
  sw_add : cur_add = Z.of_nat (length (of_kind true pre));
  sw_remove : cur_remove = Z.of_nat (length (of_kind false pre));
  sw_tmp : forall f, f ∈ files ->
    tmp !! f = if decide ((f, true) ∈ pre) then Some (Z.of_nat (length (smaller true f))) else None;
  sw_marked : marked = Z.of_nat (length (filter marks pre));
  sw_heap : forall f, h' !! f = if decide ((f, false) ∈ pre /\ need_merge f)
                               then FileStateTransit FileEvent.kNeedMerge <$> h !! f else h !! f
}.

Lemma of_kind_app b pre e :
  length (of_kind b (pre ++ [e])) = (length (of_kind b pre) + if bool_decide (e.2 = b) then 1 else 0)%nat.
Proof.
  unfold of_kind. rewrite filter_app, length_app. f_equal. rewrite filter_cons.
  case_decide; [rewrite bool_decide_eq_true_2|rewrite bool_decide_eq_false_2]; done.
Qed.

Lemma marks_app pre e :
  length (filter marks (pre ++ [e])) = (length (filter marks pre) + if bool_decide (marks e) then 1 else 0)%nat.
Proof.
  rewrite filter_app, length_app. f_equal. rewrite filter_cons.
  case_decide; [rewrite bool_decide_eq_true_2|rewrite bool_decide_eq_false_2]; done.
Qed.

Lemma elem_of_snoc {A} (x y : A) l : x ∈ l ++ [y] <-> x ∈ l \/ x = y.
Proof. by rewrite elem_of_app, list_elem_of_singleton. Qed.

Lemma in_files pre f b post : sorted_ends = pre ++ (f, b) :: post -> f ∈ files.
Proof.
  intros Hsplit. apply (elem_of_blob_ends f b). rewrite <- (std_sort_perm (blob_ends_cmp h)), Hsplit.
  apply elem_of_app. right. left.
Qed.

Lemma fresh_end pre f b post : sorted_ends = pre ++ (f, b) :: post -> (f, b) ∉ pre.
Proof.
  intros Hsplit Hin. pose proof NoDup_blob_ends as Hnd.
  rewrite <- (std_sort_perm (blob_ends_cmp h)), Hsplit in Hnd.
  apply NoDup_app in Hnd as (_ & Hdisj & _). apply (Hdisj _ Hin). left.
Qed.

(** The step at a smallest end. *)
Lemma swept_add pre f post cur_add cur_remove tmp marked h' :
  sorted_ends = pre ++ (f, true) :: post -> swept pre cur_add cur_remove tmp marked h' ->
  swept (pre ++ [(f, true)]) (cur_add + 1) cur_remove (<[f := cur_remove]> tmp) marked h'.
Proof.
  intros Hsplit [Ha Hr Ht Hm Hh]. split; rewrite ?of_kind_app, ?marks_app; cbn [snd].
  - rewrite bool_decide_eq_true_2 by done. lia.
  - rewrite bool_decide_eq_false_2 by done. lia.
  - intros g Hg. rewrite lookup_insert. destruct (decide (f = g)) as [->|Hne].
    + rewrite decide_True by (rewrite elem_of_snoc; by right).
      pose proof (count_before pre g true post Hsplit) as Hc. cbn [negb] in Hc. by rewrite Hr, Hc.
    + rewrite Ht by done. destruct (decide ((g, true) ∈ pre)).
      * rewrite decide_True by (rewrite elem_of_snoc; by left). done.
      * rewrite decide_False by (rewrite elem_of_snoc; naive_solver). done.
  - rewrite bool_decide_eq_false_2 by (by intros [? _]). lia.
  - intros g. rewrite Hh. destruct (decide ((g, false) ∈ pre /\ need_merge g)) as [[? ?]|Hno].
    + rewrite decide_True by (rewrite elem_of_snoc; tauto). done.
    + rewrite decide_False; [done|]. rewrite elem_of_snoc. intros [[?|[=]] ?]. tauto.
Qed.

(** The step at a largest end. *)
Lemma swept_remove pre f post cur_add cur_remove tmp marked h' :
  sorted_ends = pre ++ (f, false) :: post -> swept pre cur_add cur_remove tmp marked h' ->
  exists record, tmp !! f = Some record /\
    (cur_add - record >? max_sorted_runs) && markable (deref h' f) = bool_decide (need_merge f) /\
    swept (pre ++ [(f, false)]) cur_add (cur_remove + 1) tmp
      (if bool_decide (need_merge f) then marked + 1 else marked)
      (if bool_decide (need_merge f) then heap_call (FileStateTransit FileEvent.kNeedMerge) f h' else h').
Proof.
  intros Hsplit [Ha Hr Ht Hm Hh]. pose proof (in_files _ _ _ _ Hsplit) as Hf.
  pose proof (fresh_end _ _ _ _ Hsplit) as Hfresh.
  assert (Hstart : (f, true) ∈ pre).
  { apply (ends_before pre f false f post Hsplit Hf). apply smallest_before_largest; [done..|].
    by apply Hrange. }
  exists (Z.of_nat (length (smaller true f))). split; [by rewrite Ht, decide_True|].
  assert (Hlook : h' !! f = h !! f) by (rewrite Hh, decide_False; tauto).
  split.
  - apply eq_bool_prop_intro. rewrite bool_decide_spec, andb_True, !Is_true_true. unfold need_merge.
    pose proof (count_before pre f false post Hsplit) as Hc. cbn [negb] in Hc. rewrite Z.gtb_lt, Ha, Hc.
    rewrite overlap_count_diff by done. unfold deref. by rewrite Hlook.
  - split; rewrite ?of_kind_app, ?marks_app; cbn [snd].
    + rewrite bool_decide_eq_false_2 by done. lia.
    + rewrite bool_decide_eq_true_2 by done. lia.
    + intros g Hg. rewrite Ht by done. destruct (decide ((g, true) ∈ pre)).
      * rewrite decide_True by (rewrite elem_of_snoc; by left). done.
      * rewrite decide_False by (rewrite elem_of_snoc; naive_solver). done.
    + rewrite (bool_decide_ext (marks (f, false)) (need_merge f)) by (unfold marks; naive_solver).
      destruct (bool_decide (need_merge f)); lia.
    + intros g. destruct (decide (f = g)) as [->|Hne].
      * destruct (decide (need_merge g)) as [Hn|Hn].
        -- rewrite bool_decide_eq_true_2 by done. unfold heap_call. rewrite lookup_alter_eq, Hlook.
           rewrite decide_True by (rewrite elem_of_snoc; tauto). done.
        -- rewrite bool_decide_eq_false_2 by done. rewrite decide_False by tauto. done.
      * transitivity (h' !! g).
        { destruct (bool_decide (need_merge f)); [|done]. unfold heap_call. by rewrite lookup_alter_ne. }
        rewrite Hh. destruct (decide ((g, false) ∈ pre /\ need_merge g)) as [[? ?]|Hno].
        -- rewrite decide_True by (rewrite elem_of_snoc; tauto). done.
        -- rewrite decide_False; [done|]. rewrite elem_of_snoc. naive_solver.
Qed.

Lemma sweep_spec ends : forall pre cur_add cur_remove tmp marked h',
  sorted_ends = pre ++ ends -> swept pre cur_add cur_remove tmp marked h' ->
  exists cur_add' cur_remove' tmp' marked' h'',
    sweep max_sorted_runs ends cur_add cur_remove tmp marked h' = (h'', marked') /\
    swept sorted_ends cur_add' cur_remove' tmp' marked' h''.
Proof.
  induction ends as [|[f b] ends IH]; intros pre cur_add cur_remove tmp marked h' Hsplit Hsw.
  { rewrite app_nil_r in Hsplit. rewrite Hsplit. cbn [sweep]. by do 5 eexists. }
  assert (Hsplit' : sorted_ends = (pre ++ [(f, b)]) ++ ends) by by rewrite <- app_assoc.
  destruct b; cbn [sweep].
  - apply (IH _ _ _ _ _ _ Hsplit'). by eapply swept_add.
  - destruct (swept_remove _ _ _ _ _ _ _ _ Hsplit Hsw) as (record & -> & -> & Hsw').
    destruct (bool_decide (need_merge f)); by apply (IH _ _ _ _ _ _ Hsplit').
Qed.
End ends.

Lemma filter_marks_ends h files max_sorted_runs l :
  length (filter (marks h files max_sorted_runs) (blob_ends l)) =
  length (filter (need_merge h files max_sorted_runs) l).
Proof.
  unfold blob_ends. induction l as [|f l IH]; [done|]. cbn [fmap list_fmap concat app].
  rewrite filter_cons_False by (by intros [[=] _]). rewrite !filter_cons.
  destruct (decide (need_merge h files max_sorted_runs f)) as [Hn|Hn].
  - rewrite decide_True by done. cbn [length]. by f_equal.
  - rewrite decide_False by (by intros [_ ?]). done.
Qed.

(** C25: The sweep marks exactly the files that too many others overlap. For
    different files whose smallest key is below their largest one,
    [MarkFileIfNeedMerge] moves a file to the state to be merged exactly when more
    than [max_sorted_runs] of the files overlap its key range, itself included,
    and it is not obsolete or marked already; it changes nothing else, and returns
    the number of files it marked. *)
Theorem mark_need_merge_correct (h : heap) (files : list loc) (max_sorted_runs : Z) :
  NoDup files ->
  (forall f, f ∈ files ->
     bytes_compare (smallest_key (deref h f)) (largest_key (deref h f)) = Lt) ->
  let '(h', marked) := MarkFileIfNeedMerge files max_sorted_runs h in
  (forall f, h' !! f = if decide (f ∈ files /\ need_merge h files max_sorted_runs f)
                      then FileStateTransit FileEvent.kNeedMerge <$> h !! f else h !! f) /\
  marked = Z.of_nat (length (filter (need_merge h files max_sorted_runs) files)).
Proof.
  intros Hnd Hrange. unfold MarkFileIfNeedMerge. destruct files as [|f0 fs] eqn:Hfs.
  { split; [|done]. intros f. rewrite decide_False; [done|]. by intros [[]%not_elem_of_nil _]. }
  rewrite <- Hfs in *. clear f0 fs Hfs.
  destruct (sweep_spec h files Hnd Hrange max_sorted_runs (std_sort (blob_ends_cmp h) (blob_ends files))
              [] 0 0 ∅ 0 h) as (ca & cr & tmp & marked & h' & -> & [_ _ _ Hm Hh]).
  - done.
  - by split.
  - split.
    + intros f. rewrite Hh. apply decide_ext. rewrite std_sort_perm, elem_of_blob_ends. done.
    + rewrite Hm. f_equal. rewrite (filter_Permutation _ _ _ (std_sort_perm _ _)). apply filter_marks_ends.
Qed.

(** ** Applications *)

(** Three files: the first two overlap, the third is apart. *)
Definition example_range (n : Z) (lo hi : Byte.byte) : BlobFileMeta :=
  MkBlobFileMeta n 100 1 kSorted 6 [lo] [hi] FileState.kNormal 0 false.

Definition example_ranges : heap :=
  {[ 1%positive := example_range 1 Byte.x61 Byte.x65;
     2%positive := example_range 2 Byte.x63 Byte.x68;
     3%positive := example_range 3 Byte.x68 Byte.x6a ]}.

Lemma mark_need_merge_correct_witness :
  let '(h', marked) := MarkFileIfNeedMerge [1; 2; 3]%positive 1 example_ranges in
  file_state (deref h' 1) = FileState.kToMerge /\ file_state (deref h' 3) = FileState.kNormal /\
  marked = 2.
Proof.
  pose proof (mark_need_merge_correct example_ranges [1; 2; 3]%positive 1) as Hm.
  destruct (MarkFileIfNeedMerge [1; 2; 3]%positive 1 example_ranges) as [h' marked].
  destruct Hm as [Hh ->].
  - repeat constructor; set_solver.
  - intros f. rewrite !elem_of_cons. intros [->|[->|[->|[]%not_elem_of_nil]]]; reflexivity.
  - unfold deref. rewrite !Hh. vm_compute. done.
Defined.

(** Two files with one and the same key: the comparison has a cycle, and it holds
    of a smallest end and itself, so it is not an order [std::sort] may be given. *)
Example blob_ends_cmp_cycle :
  let h := {[ 1%positive := example_range 1 Byte.x61 Byte.x61;
              2%positive := example_range 2 Byte.x61 Byte.x61 ]} in
  blob_ends_cmp h (1%positive, true) (1%positive, false) = true /\
  blob_ends_cmp h (1%positive, false) (2%positive, true) = true /\
  blob_ends_cmp h (2%positive, true) (2%positive, false) = true /\
  blob_ends_cmp h (2%positive, false) (1%positive, true) = true /\
  blob_ends_cmp h (1%positive, true) (1%positive, true) = true.
Proof. vm_compute. done. Qed.
