(* ===== verification/DbEvents.v ===== *)
(** * Events of the base database
    (src/base_db_listener.cc, and of src/db_impl.cc: [OnFlushCompleted],
    [OnCompactionCompleted], [GetIntProperty], [SetBGError])

    When the base database has flushed or compacted, Titan reads from the table
    properties how many blob bytes the written and the dropped SST files refer
    to, and updates the discardable sizes of the blob files with the difference.
    The handlers hold the database mutex while they change anything. *)

From S2P Require Import Prelude Rocks Options Stats Util BlobFormat Env BlobFileBuilder BlobFileReader VersionEdit BlobStorage StorageInv EditCollector BlobFileSet ApplyInv ManifestReplay Scheduler BlobFileSizeCollector RangeMerge.

(** Of [FlushJobInfo] and [CompactionJobInfo], what Titan reads. *)
Record FlushJobInfo := MkFlushJobInfo {
  fji_cf_id : Z;
  fji_properties : UserCollectedProperties
}.

Record CompactionJobInfo := MkCompactionJobInfo {
  cji_status : Status;
  cji_cf_id : Z;
  cji_input_files : list string;
  cji_output_files : list string;
  cji_table_properties : gmap string UserCollectedProperties;
  cji_output_level : Z
}.

(** ** The sizes of a compaction *)

Section calc.
Context `{Coding}.

(** The differences by blob file, and the blob files the outputs and the inputs
    refer to. *)
Record BlobSizes := MkBlobSizes {
  blob_files_size_diff : gmap Z Z;
  bz_outputs : gset Z;
  bz_inputs : gset Z
}.

(** One entry of a table property. The product is computed in [uint64_t] and
    stored in [int64_t]. *)
Definition calc_entry (coefficient : Z) (output : bool) (z : BlobSizes) (bfs : Z * Z) : BlobSizes :=
  MkBlobSizes
    (match blob_files_size_diff z !! bfs.1 with
     | None => <[bfs.1 := wrap_i64 (coefficient * bfs.2)]> (blob_files_size_diff z)
     | Some v => <[bfs.1 := wrap_i64 (v + coefficient * bfs.2)]> (blob_files_size_diff z)
     end)
    (if output then
       (if bool_decide (bfs.1 ∈ bz_inputs z) then bz_outputs z else {[bfs.1]} ∪ bz_outputs z)
     else bz_outputs z)
    (if output then bz_inputs z else {[bfs.1]} ∪ bz_inputs z).

(** One SST file; without a property, or with one that does not decode, it
    counts nothing. *)
Definition calc_file (props : gmap string UserCollectedProperties) (coefficient : Z) (output : bool)
    (z : BlobSizes) (file : string) : BlobSizes :=
  match props !! file ≫= (.!! kPropertiesName) with
  | None => z
  | Some property =>
      match decode_sizes property ∅ with
      | (false, _) => z
      | (true, sizes) => foldl (calc_entry coefficient output) z (ordered_iter sizes)
      end
  end.

Definition calc_bfs (props : gmap string UserCollectedProperties) (files : list string)
    (coefficient : Z) (output : bool) (z : BlobSizes) : BlobSizes :=
  foldl (calc_file props coefficient output) z files.

Definition calc_sizes (info : CompactionJobInfo) : BlobSizes :=
  calc_bfs (cji_table_properties info) (cji_output_files info) 1 true
    (calc_bfs (cji_table_properties info) (cji_input_files info) (-1) false
       (MkBlobSizes ∅ ∅ ∅)).
End calc.

Section events.
Context `{Coding} `{Compressors} `{E : Env} `{BC : Cache bytes} `{FC : !Cache BlobFileReader}
        `{UnorderedIter} `{!ManifestIO}.

(** The state of [TitanDBImpl] the events use; [t_jobs] counts the calls of
    [Env::Schedule], and [pending_outputs] has the blob files being written. *)
Record TitanDBImpl := MkTitanDBImpl {
  t_options : TitanDBOptions;
  t_sys : Sys;
  t_sched : Scheduler;
  t_jobs : nat;
  block_for_size : bool;
  bg_error : Status;
  has_bg_error : bool;
  pending_outputs : gset Z
}.

Definition with_sys (sys : Sys) (db : TitanDBImpl) : TitanDBImpl :=
  MkTitanDBImpl (t_options db) sys (t_sched db) (t_jobs db) (block_for_size db) (bg_error db)
    (has_bg_error db) (pending_outputs db).

Definition with_shared (sh : Shared) (sys : Sys) : Sys := MkSys (sys_set sys) sh (sys_fs sys).

(** [SetBGError]; [listeners] is what the listeners make of the error. *)
Definition SetBGError (listeners : Status -> Status) (s : Status) (db : TitanDBImpl)
    : Status * TitanDBImpl :=
  if status_ok s then (s, db)
  else
    let bg_err := listeners s in
    (bg_err,
     if status_ok bg_err then db
     else MkTitanDBImpl (t_options db) (t_sys db) (t_sched db) (t_jobs db) (block_for_size db)
            bg_err true (pending_outputs db)).

(** [GetIntProperty] of a column family; [base] is the base database's. *)
Definition GetIntProperty (base : string -> option Z) (cf_id : Z) (property : string)
    (db : TitanDBImpl) : option Z :=
  let s := stats ← sh_stats (sys_shared (t_sys db)); internal ← stats !! cf_id;
           TitanInternalStats_GetIntProperty property internal in
  match s with Some v => Some v | None => base property end.

(** [AddToGCQueue] followed by [MaybeScheduleGC]. *)
Definition request_gc (cf_id : Z) (db : TitanDBImpl) : TitanDBImpl :=
  let '(s, n) := MaybeScheduleGC (t_options db) (AddToGCQueue cf_id (t_sched db)) in
  MkTitanDBImpl (t_options db) (t_sys db) s (t_jobs db + n) (block_for_size db) (bg_error db)
    (has_bg_error db) (pending_outputs db).

(** ** Flush *)

(** The discardable bytes a flush adds to a file of which its SST file refers to
    [size] bytes; [uint64_t] arithmetic. *)
Definition flush_discardable (m : BlobFileMeta) (size : Z) : Z :=
  if discardable_size m =? 0
  then file_size m -u64 size -u64 kBlobHeaderSize -u64 kBlobFooterSize
  else wrap64 (- size).

(** The assertions of the loop's body about a file, which a debug build checks:
    those of [AddDiscardableSize], and that a sorted file has no discardable
    bytes. *)
Definition flush_asserts (m : BlobFileMeta) (size : Z) : bool :=
  let d := flush_discardable m size in
  AddDiscardableSize_assert d m
  && (if file_type m =? kSorted then discardable_size (AddDiscardableSize d m) =? 0 else true).

(** One blob file; the statistics lose the sum so far each time. As in a release
    build, the assertions are not checked. *)
Definition flush_file (cf_id : Z) (bs : BlobStorage) (st : Shared * Z) (f : Z * Z) : Shared * Z :=
  let '(sh, delta) := st in
  match bs_FindFile f.1 bs with
  | None => st
  | Some file =>
      let discardable := flush_discardable (deref (sh_heap sh) file) f.2 in
      let delta := delta +u64 discardable in
      let stats := SubStats (sh_stats sh) cf_id LIVE_BLOB_SIZE delta in
      let h := heap_call (fun m => FileStateTransit FileEvent.kFlushCompleted
                                     (AddDiscardableSize discardable m)) file (sh_heap sh) in
      (set_heap h (set_stats stats sh), delta)
  end.

(** [OnFlushCompleted]. A property that does not decode and a column family that
    is not there are logged and fail an assertion; in a release build the entries
    decoded so far are used in the first case, and the handler returns in the
    second. *)
Definition OnFlushCompleted (info : FlushJobInfo) (db : TitanDBImpl) : TitanDBImpl :=
  match fji_properties info !! kPropertiesName with
  | None => db
  | Some property =>
      let '(_, blob_files_size) := decode_sizes property ∅ in
      match GetBlobStorage (fji_cf_id info) (sys_set (t_sys db)) with
      | None => db
      | Some bs =>
          let '(sh, _) := foldl (flush_file (fji_cf_id info) bs) (sys_shared (t_sys db), 0)
                            (ordered_iter blob_files_size) in
          with_sys (with_shared sh (t_sys db)) db
      end
  end.

(** ** Compaction *)

(** The loop over the outputs; [false] when a file is missing. *)
Fixpoint complete_outputs (bs : BlobStorage) (outputs : list Z) (h : heap) : bool * heap :=
  match outputs with
  | [] => (true, h)
  | n :: outputs =>
      match bs_FindFile n bs with
      | None => (false, h)
      | Some file =>
          complete_outputs bs outputs
            (heap_call (FileStateTransit FileEvent.kCompactionCompleted) file h)
      end
  end.

(** What the loop over the differences builds. *)
Record Compacted := MkCompacted {
  co_shared : Shared;
  co_delta : Z;
  co_edit : VersionEdit;
  co_files : list loc;
  co_mark : Z
}.

(** A file whose sorted runs are counted. *)
Definition counts_in_runs (cf : TitanCFOptions) (m : BlobFileMeta) : bool :=
  (file_type m =? kSorted) && (num_levels (cf_base cf) - 2 <=? file_level m).

(** One difference of the loop of [OnCompactionCompleted]. [seq] is the base
    database's latest sequence number. *)
Definition compact_file (cf_id : Z) (cf : TitanCFOptions) (seq : Z) (count_sorted_run : bool)
    (bs : BlobStorage) (c : Compacted) (bfs : Z * Z) : Compacted :=
  let sh := co_shared c in
  match bs_FindFile bfs.1 bs with
  | None => c
  | Some file =>
      if 0 <=? bfs.2 then
        if count_sorted_run && counts_in_runs cf (deref (sh_heap sh) file)
        then MkCompacted sh (co_delta c) (co_edit c) (co_files c ++ [file]) (co_mark c)
        else c
      else
        let m0 := deref (sh_heap sh) file in
        let delta := if is_obsolete m0 then co_delta c else co_delta c +u64 - bfs.2 in
        let m := AddDiscardableSize (wrap64 (- bfs.2)) m0 in
        let before := GetDiscardableRatioLevel m0 in
        let after := GetDiscardableRatioLevel m in
        let stats :=
          if bool_decide (before = after) then sh_stats sh
          else SubStats (AddStats (sh_stats sh) cf_id after 1) cf_id before 1 in
        let h := heap_call (AddDiscardableSize (wrap64 (- bfs.2))) file (sh_heap sh) in
        let sh := set_heap h (set_stats stats sh) in
        if level_merge cf then
          if NoLiveData m && (file_type m =? kSorted) then
            MkCompacted sh delta (DeleteBlobFile (file_number m) seq (co_edit c)) (co_files c)
              (co_mark c)
          else
            let need_gc := (file_type m =? kSorted)
                           && double_ltb (blob_file_discardable_ratio cf) (GetDiscardableRatio m) in
            let mark := if need_gc && negb (bool_decide (file_state m = FileState.kToGC))
                        then co_mark c + 1 else co_mark c in
            let h := if need_gc then heap_call (FileStateTransit FileEvent.kNeedGC) file h else h in
            MkCompacted (set_heap h sh) delta (co_edit c)
              (if count_sorted_run && counts_in_runs cf m then co_files c ++ [file]
               else co_files c) mark
        else MkCompacted sh delta (co_edit c) (co_files c) (co_mark c)
  end.

(** [(uint64_t)(100 + 100 * blob_file_discardable_ratio) << 30]. *)
Definition wisc_gc_size (cf : TitanCFOptions) : Z :=
  wrap64 (Z.shiftl (double_trunc (double_add (double_of_Z 100)
            (double_mul (double_of_Z 100) (blob_file_discardable_ratio cf)))) 30).

(** The end of [OnCompactionCompleted]: block writers or let them go on, and ask
    for a collection. *)
Definition maybe_request_gc (base : string -> option Z) (cf_id : Z) (cf : TitanCFOptions)
    (db : TitanDBImpl) : result TitanDBImpl :=
  let total_size := default 0 (GetIntProperty base 0 "rocksdb.titandb.live-blob-file-size" db) in
  let wisc_gc := negb (level_merge cf) && (total_size >? wisc_gc_size cf) in
  let bg_gc := level_merge cf && sep_before_flush (t_options db) in
  let block := if block_write_size (t_options db) >? 0
               then total_size >? block_write_size (t_options db) else block_for_size db in
  let db := MkTitanDBImpl (t_options db) (t_sys db) (t_sched db) (t_jobs db) block (bg_error db)
              (has_bg_error db) (pending_outputs db) in
  if negb (wisc_gc || bg_gc) then Ok db
  else
    let sys := t_sys db in
    match GetBlobStorage cf_id (sys_set sys) with
    | None => Ok db
    | Some bs =>
        let '(n, bs) := ComputeGCScore (sh_heap (sys_shared sys)) bs in
        let vs := with_cfs (<[cf_id := bs]> (column_families (sys_set sys))) (sys_set sys) in
        let db := with_sys (MkSys vs (sys_shared sys) (sys_fs sys)) db in
        if blob_file_target_size cf =? 0 then Fault
        else if (n >? Z.shiftl 1 30 / blob_file_target_size cf) || block
        then Ok (request_gc cf_id db) else Ok db
    end.

(** [OnCompactionCompleted]. The edit keeps the default column family id. *)
Definition OnCompactionCompleted (base : string -> option Z) (seq : Z) (info : CompactionJobInfo)
    (db : TitanDBImpl) : result TitanDBImpl :=
  if negb (status_ok (cji_status info)) then Ok db
  else
    let z := calc_sizes info in
    let cf_id := cji_cf_id info in
    let sys := t_sys db in
    match GetBlobStorage cf_id (sys_set sys) with
    | None => Ok db
    | Some bs =>
        let cf := bs_cf_options bs in
        let '(found, h) :=
          complete_outputs bs (ordered_elements (bz_outputs z)) (sh_heap (sys_shared sys)) in
        let sh := set_heap h (sys_shared sys) in
        if negb found then Ok (with_sys (with_shared sh sys) db)
        else
          let count_sorted_run :=
            level_merge cf && range_merge cf
            && (num_levels (cf_base cf) - 2 <=? cji_output_level info) in
          let c := foldl (compact_file cf_id cf seq count_sorted_run bs)
                     (MkCompacted sh 0 VersionEdit_default [] 0)
                     (ordered_iter (blob_files_size_diff z)) in
          let sh := co_shared c in
          let sh := set_stats (SubStats (sh_stats sh) cf_id LIVE_BLOB_SIZE (co_delta c)) sh in
          let sys := with_shared sh sys in
          if level_merge cf then
            let* (_, sys) := LogAndApply (co_edit c) sys in
            let '(h, _) := MarkFileIfNeedMerge (co_files c) (max_sorted_runs cf)
                             (sh_heap (sys_shared sys)) in
            let sys := with_shared (set_heap h (sys_shared sys)) sys in
            maybe_request_gc base cf_id cf (with_sys sys db)
          else maybe_request_gc base cf_id cf (with_sys sys db)
    end.
End events.
