(* ===== verification/CompactionSizes.v ===== *)
(** * The sizes a compaction reports

    What [calc_sizes] makes of the table properties of the input and output SST
    files: for every blob file, how many more bytes the outputs refer to. *)

From S2P Require Import Prelude Rocks BlobFormat BlobFileSizeCollector DbEvents.

(** The sum of the values an association list gives to a key. *)
Definition total_at (n : Z) (L : list (Z * Z)) : Z :=
  foldr (fun e s => (if e.1 =? n then e.2 else 0) + s) 0 L.

Lemma total_at_app n L1 L2 : total_at n (L1 ++ L2) = total_at n L1 + total_at n L2.
Proof. unfold total_at. induction L1 as [|[k v] L1 IH]; cbn; [done|]. rewrite IH. lia. Qed.

Lemma total_at_absent n L : n ∉ L.*1 -> total_at n L = 0.
Proof.
  induction L as [|[k v] L IH]; [done|]. rewrite fmap_cons, not_elem_of_cons. cbn [fst]. intros [Hne Hn].
  cbn [total_at foldr fst snd]. fold (total_at n L). rewrite (IH Hn). replace (k =? n) with false by lia. done.
Qed.

Section sizes.
Context `{Coding}.

(** What the property of an SST file says. *)
Definition sst_sizes (props : gmap string UserCollectedProperties) (file : string) : gmap Z Z :=
  match props !! file ≫= (.!! kPropertiesName) with
  | None => ∅
  | Some property => let '(ok, sizes) := decode_sizes property ∅ in if ok : bool then sizes else ∅
  end.

Definition entries_of (props : gmap string UserCollectedProperties) (files : list string)
    : list (Z * Z) :=
  files ≫= (fun f => ordered_iter (sst_sizes props f)).

Lemma calc_bfs_entries props files c b z :
  calc_bfs props files c b z = foldl (calc_entry c b) z (entries_of props files).
Proof.
  revert z; induction files as [|f files IH]; intros z; [done|].
  unfold calc_bfs, entries_of in *. cbn [foldl mbind list_bind]. rewrite foldl_app, <- IH. f_equal.
  unfold calc_file, sst_sizes. destruct (props !! f ≫= _) as [property|]; [|done].
  by destruct (decode_sizes property ∅) as [[] sizes].
Qed.

Lemma calc_entry_loop c b L z :
  let z' := foldl (calc_entry c b) z L in
  (forall n, blob_files_size_diff z' !! n =
     if decide (n ∈ L.*1)
     then Some (wrap_i64 (default 0 (blob_files_size_diff z !! n) + c * total_at n L))
     else blob_files_size_diff z !! n) /\
  (forall n, n ∈ bz_inputs z' <-> n ∈ bz_inputs z \/ b = false /\ n ∈ L.*1) /\
  (forall n, n ∈ bz_outputs z' <-> n ∈ bz_outputs z \/ b = true /\ n ∈ L.*1 /\ n ∉ bz_inputs z).
Proof.
  revert L. refine (rev_ind _ _ _).
  { cbn. split_and!; [done|set_solver..]. }
  intros [k v] L (Hd & Hi & Ho). rewrite foldl_snoc. set (z1 := foldl (calc_entry c b) z L) in *.
  rewrite fmap_app. split_and!; intros n; unfold calc_entry; cbn [blob_files_size_diff bz_inputs bz_outputs fst snd fmap list_fmap].
  - rewrite total_at_app. cbn [total_at foldr fst snd]. rewrite Z.add_0_r.
    destruct (decide (k = n)) as [->|Hne].
    + rewrite decide_True by (apply elem_of_app; right; left). rewrite Z.eqb_refl.
      rewrite Hd. destruct (decide (n ∈ L.*1)) as [Hin|Hin].
      * rewrite lookup_insert_eq, wrap_i64_add_l. do 2 f_equal. lia.
      * rewrite (total_at_absent n L Hin). destruct (blob_files_size_diff z !! n) as [v0|].
        -- rewrite lookup_insert_eq. cbn [from_option]. do 2 f_equal; unfold id; lia.
        -- rewrite lookup_insert_eq. cbn [from_option]. do 2 f_equal; lia.
    + replace (k =? n) with false by lia. rewrite Z.add_0_r.
      transitivity (blob_files_size_diff z1 !! n); [by destruct (blob_files_size_diff z1 !! k); rewrite lookup_insert_ne|].
      rewrite Hd. apply decide_ext. rewrite elem_of_app, list_elem_of_singleton. naive_solver.
  - destruct b; [|rewrite elem_of_union, elem_of_singleton]; rewrite Hi, elem_of_app, list_elem_of_singleton; naive_solver.
  - rewrite elem_of_app, list_elem_of_singleton. destruct b.
    + case_bool_decide as Hin; rewrite Hi in Hin.
      * rewrite Ho. naive_solver.
      * rewrite elem_of_union, elem_of_singleton, Ho. naive_solver.
    + rewrite Ho. naive_solver.
Qed.

(** The blob bytes the SST files refer to, in blob file [n]. *)
Definition refer_bytes (props : gmap string UserCollectedProperties) (files : list string) (n : Z) : Z :=
  total_at n (entries_of props files).

Definition refer (props : gmap string UserCollectedProperties) (files : list string) (n : Z) : Prop :=
  n ∈ (entries_of props files).*1.

#[export] Instance refer_dec props files n : Decision (refer props files n).
Proof. unfold refer. apply _. Defined.

Lemma refer_spec props files n :
  refer props files n <-> exists f v, f ∈ files /\ sst_sizes props f !! n = Some v.
Proof.
  unfold refer, entries_of. rewrite list_elem_of_fmap. split.
  - intros ([n' v] & -> & Hin). apply list_elem_of_bind in Hin as (f & Hf & Hin).
    exists f, v. split; [done|]. rewrite ordered_iter_perm in Hf. by apply elem_of_map_to_list in Hf.
  - intros (f & v & Hin & Hv). exists (n, v). split; [done|]. apply list_elem_of_bind. exists f.
    split; [|done]. rewrite ordered_iter_perm. by apply elem_of_map_to_list.
Qed.

(** C28: The sizes of a compaction. For every blob file that a readable property
    of an input or an output SST file names, the difference is the bytes the
    outputs refer to minus the bytes the inputs refer to (in 64-bit two's
    complement), and other blob files have none; the outputs that become normal
    are the blob files that only output files refer to. *)
Theorem compaction_sizes_exact (info : CompactionJobInfo) (n : Z) :
  let z := calc_sizes info in
  let props := cji_table_properties info in
  let ins := cji_input_files info in
  let outs := cji_output_files info in
  blob_files_size_diff z !! n =
    (if decide (refer props ins n \/ refer props outs n)
     then Some (wrap_i64 (refer_bytes props outs n - refer_bytes props ins n)) else None) /\
  (n ∈ bz_inputs z <-> refer props ins n) /\
  (n ∈ bz_outputs z <-> refer props outs n /\ ~ refer props ins n).
Proof.
  intros z props ins outs. unfold z, calc_sizes. rewrite !calc_bfs_entries. fold props ins outs.
  destruct (calc_entry_loop (-1) false (entries_of props ins) (MkBlobSizes ∅ ∅ ∅)) as (Hd1 & Hi1 & Ho1).
  set (z1 := foldl _ _ (entries_of props ins)) in *.
  destruct (calc_entry_loop 1 true (entries_of props outs) z1) as (Hd2 & Hi2 & Ho2).
  cbn [blob_files_size_diff bz_inputs bz_outputs] in *. split_and!.
  - rewrite Hd2, Hd1, lookup_empty. unfold refer, refer_bytes. cbn [default from_option].
    destruct (decide (n ∈ (entries_of props outs).*1)) as [Ho|Ho],
             (decide (n ∈ (entries_of props ins).*1)) as [Hi|Hi].
    + rewrite decide_True by tauto. cbn [from_option]. unfold id. rewrite wrap_i64_add_l. do 2 f_equal. lia.
    + rewrite decide_True by tauto. cbn [from_option]. rewrite (total_at_absent n _ Hi). do 2 f_equal. lia.
    + rewrite decide_True by tauto. rewrite (total_at_absent n _ Ho). by do 2 f_equal.
    + rewrite decide_False by tauto. done.
  - rewrite Hi2, Hi1, elem_of_empty. unfold refer. clear. naive_solver.
  - rewrite Ho2, Ho1, Hi1, !elem_of_empty. unfold refer. clear. naive_solver.
Qed.
End sizes.
