(* ===== verification/DbEventsInv.v ===== *)
(** * What the event handlers guarantee

    The discardable sizes after a flush and a compaction, and which blob files a
    compaction deletes. *)

From S2P Require Import Prelude Rocks Options Stats Util BlobFormat Env BlobFileBuilder BlobFileReader VersionEdit BlobStorage StorageInv EditCollector BlobFileSet ApplyInv ManifestReplay Scheduler BlobFileSizeCollector RangeMerge DbEvents.

(** ** Changes that keep what a file is *)

Definition same_meta (m m' : BlobFileMeta) : Prop :=
  persistent m' = persistent m /\ is_obsolete m' = is_obsolete m.

Lemma same_meta_refl m : same_meta m m.
Proof. done. Qed.

Lemma same_meta_trans m1 m2 m3 : same_meta m1 m2 -> same_meta m2 m3 -> same_meta m1 m3.
Proof. intros [??] [??]. split; congruence. Qed.

Lemma same_meta_file m m' : same_meta m m' -> same_file m m'.
Proof. intros [Hp Ho]. unfold persistent, BlobFileMeta_new in Hp. injection Hp as ???????. by repeat split. Qed.

Lemma same_meta_discardable d m : same_meta m (AddDiscardableSize d m).
Proof. done. Qed.

Lemma same_meta_transit e m :
  (is_obsolete (FileStateTransit e m) = is_obsolete m) -> same_meta m (FileStateTransit e m).
Proof. intros Ho. split; [done|exact Ho]. Qed.

Definition evolve (h h' : heap) : Prop :=
  forall l, match h !! l with
            | Some m => exists m', h' !! l = Some m' /\ same_meta m m'
            | None => h' !! l = None
            end.

Lemma evolve_refl h : evolve h h.
Proof. intros l. destruct (h !! l) as [m|] eqn:E; [|done]. exists m. split; [done|apply same_meta_refl]. Qed.

Lemma evolve_trans h1 h2 h3 : evolve h1 h2 -> evolve h2 h3 -> evolve h1 h3.
Proof.
  intros H1 H2 l. specialize (H1 l). specialize (H2 l). destruct (h1 !! l) as [m|].
  - destruct H1 as (m2 & Hm2 & Hs2). rewrite Hm2 in H2. destruct H2 as (m3 & Hm3 & Hs3).
    exists m3. split; [done|]. by eapply same_meta_trans.
  - by rewrite H1 in H2.
Qed.

Lemma evolve_call f l h :
  (forall m, h !! l = Some m -> same_meta m (f m)) -> evolve h (heap_call f l h).
Proof.
  intros Hf l'. unfold heap_call. rewrite lookup_alter. destruct (h !! l') as [m|] eqn:E.
  - case_decide; [subst; rewrite E; exists (f m); split; [done|by apply Hf]|].
    exists m. split; [done|apply same_meta_refl].
  - case_decide; [subst; by rewrite E|done].
Qed.

Lemma evolve_deref h h' l : evolve h h' -> same_meta (deref h l) (deref h' l).
Proof.
  intros He. specialize (He l). unfold deref. destruct (h !! l) as [m|].
  - by destruct He as (m' & -> & ?).
  - rewrite He. apply same_meta_refl.
Qed.

Section evolve.
Context `{Coding} `{Compressors} `{E : Env} `{BC : Cache bytes} `{FC : !Cache BlobFileReader}
        `{UnorderedIter} `{!ManifestIO}.

(** The counters of the bookkeeping stay. *)
Definition same_counted (sh sh' : Shared) : Prop :=
  forall cf t, t ∈ counted -> stat (sh_stats sh') cf t = stat (sh_stats sh) cf t.

Definition mild (sh sh' : Shared) : Prop := evolve (sh_heap sh) (sh_heap sh') /\ same_counted sh sh'.

Lemma mild_refl sh : mild sh sh.
Proof. split; [apply evolve_refl|done]. Qed.

Lemma mild_trans sh1 sh2 sh3 : mild sh1 sh2 -> mild sh2 sh3 -> mild sh1 sh3.
Proof.
  intros [He1 Hs1] [He2 Hs2]. split; [by eapply evolve_trans|].
  intros cf t Ht. by rewrite (Hs2 cf t Ht), (Hs1 cf t Ht).
Qed.

Lemma mild_rely bs sh sh' : mild sh sh' -> rely bs sh sh'.
Proof.
  intros [He Hs]. split; [|intros t Ht; by apply Hs].
  intros n l m _ Hm. specialize (He l). rewrite Hm in He. destruct He as (m' & Hm' & Hsame).
  exists m'. split; [done|]. by apply same_meta_file.
Qed.

Lemma mild_set_inv cfs sh sh' : mild sh sh' -> set_inv cfs sh -> set_inv cfs sh'.
Proof.
  intros Hm [Hi Hc Hs Hd]. split; try done. intros id bs Hbs.
  eapply storage_inv_rely; [by apply (Hs id bs)|]. by apply mild_rely.
Qed.

Lemma mild_lives cfs sh sh' : mild sh sh' -> lives cfs sh' = lives cfs sh.
Proof.
  intros [He _]. unfold lives, live_files. apply map_fmap_ext. intros id bs _. apply map_eq. intros n.
  rewrite !lookup_live_of. destruct (files bs !! n) as [l|]; [|done].
  destruct (evolve_deref _ _ l He) as [-> ->]. done.
Qed.

(** ** Loops that update each file once *)

Definition file_step (g : Z -> BlobFileMeta -> BlobFileMeta) (fm : gmap Z loc) (h : heap) (f : Z * Z)
    : heap :=
  match fm !! f.1 with
  | None => h
  | Some l => heap_call (g f.2) l h
  end.

Lemma file_loop_other g fm L h l :
  (forall n, fm !! n <> Some l) -> foldl (file_step g fm) h L !! l = h !! l.
Proof.
  intros Hl. apply (foldl_invariant (fun h' => h' !! l = h !! l)); [done|].
  intros h' [n v] _ <-. unfold file_step. cbn [fst snd]. destruct (fm !! n) as [l'|] eqn:E'; [|done].
  unfold heap_call. rewrite lookup_alter_ne; [done|]. intros ->. by apply (Hl n).
Qed.

Lemma file_loop g (fm : gmap Z loc) (L : list (Z * Z)) h n l :
  (forall n n' l, fm !! n = Some l -> fm !! n' = Some l -> n = n') ->
  NoDup L.*1 -> fm !! n = Some l ->
  foldl (file_step g fm) h L !! l =
  match (list_to_map L : gmap Z Z) !! n with
  | Some v => g v <$> h !! l
  | None => h !! l
  end.
Proof.
  intros Hinj Hnd Hn. revert L Hnd. refine (rev_ind _ _ _); [done|]. intros [k v] L IH Hnd.
  rewrite fmap_app in Hnd. apply NoDup_app in Hnd as (Hnd & Hdis & _).
  assert (Hk : k ∉ L.*1) by (intros Hin; apply (Hdis _ Hin); left).
  rewrite foldl_snoc, list_to_map_snoc by done. unfold file_step at 1. cbn [fst snd].
  destruct (decide (k = n)) as [->|Hne].
  - rewrite Hn, lookup_insert_eq. unfold heap_call. rewrite lookup_alter_eq, IH by done.
    by rewrite not_elem_of_list_to_map_1.
  - rewrite lookup_insert_ne by done. rewrite <- IH by done.
    destruct (fm !! k) as [l'|] eqn:El; [|done]. unfold heap_call. rewrite lookup_alter_ne; [done|].
    intros ->. by apply Hne, (Hinj k n l).
Qed.

Lemma inv_inj cfs sh id bs :
  set_inv cfs sh -> cfs !! id = Some bs ->
  forall n n' l, files bs !! n = Some l -> files bs !! n' = Some l -> n = n'.
Proof.
  intros Hinv Hbs n n' l. eapply inv_loc_inj. by apply (set_storage _ _ Hinv id bs).
Qed.

(** The live files of the database, and its bookkeeping invariant. *)
Definition db_lives (db : TitanDBImpl) : gmap Z (gmap Z BlobFileMeta) :=
  lives (column_families (sys_set (t_sys db))) (sys_shared (t_sys db)).

Definition db_inv (db : TitanDBImpl) : Prop :=
  set_inv (column_families (sys_set (t_sys db))) (sys_shared (t_sys db)).

(** ** Flush *)

(** A file after a flush that refers to [v] of its bytes. *)
Definition flushed (v : Z) (m : BlobFileMeta) : BlobFileMeta :=
  FileStateTransit FileEvent.kFlushCompleted (AddDiscardableSize (flush_discardable m v) m).

Lemma flush_loop_heap cf_id bs L st :
  sh_heap (foldl (flush_file cf_id bs) st L).1 = foldl (file_step flushed (files bs)) (sh_heap st.1) L.
Proof.
  revert st; induction L as [|[n v] L IH]; intros st; [done|]. cbn [foldl]. rewrite IH. f_equal.
  destruct st as [sh delta]. unfold flush_file, file_step, bs_FindFile. cbn [fst snd].
  destruct (files bs !! n) as [l|]; [|done]. cbn [fst sh_heap set_heap]. unfold heap_call.
  apply map_eq. intros l'. rewrite !lookup_alter. case_decide; [|done]. subst l'.
  unfold deref. by destruct (sh_heap sh !! l).
Qed.

Lemma is_obsolete_state m : is_obsolete m = bool_decide (file_state m = FileState.kObsolete).
Proof. done. Qed.

Lemma flushed_same v m : same_meta m (flushed v m).
Proof.
  split; [done|]. unfold is_obsolete, flushed, FileStateTransit. cbn [file_state set_file_state].
  change (file_state (AddDiscardableSize (flush_discardable m v) m)) with (file_state m).
  by destruct (file_state m).
Qed.

Lemma same_counted_sub stats cf_id v sh :
  same_counted sh (set_stats (SubStats stats cf_id LIVE_BLOB_SIZE v) sh) <->
  same_counted sh (set_stats stats sh).
Proof.
  unfold same_counted. cbn [sh_stats set_stats].
  assert (Hne : forall t, t ∈ counted -> t <> LIVE_BLOB_SIZE).
  { intros t Ht ->. unfold counted in Ht. repeat (apply elem_of_cons in Ht as [[=]|Ht]).
    by apply not_elem_of_nil in Ht. }
  split; intros Hs cf t Ht; specialize (Hs cf t Ht); rewrite stat_SubStats_ne in * by (by apply Hne); done.
Qed.

Lemma flush_loop_mild cf_id bs L st :
  mild st.1 (foldl (flush_file cf_id bs) st L).1.
Proof.
  apply (foldl_invariant (fun st' => mild st.1 st'.1)); [apply mild_refl|].
  intros [sh delta] [n v] _ Hm. eapply mild_trans; [exact Hm|]. unfold flush_file. cbn [fst snd].
  destruct (bs_FindFile n bs) as [l|]; [|apply mild_refl]. cbn [fst]. split.
  - cbn [sh_heap set_heap]. apply evolve_call. intros m Hl.
    unfold deref. rewrite Hl. apply flushed_same.
  - apply (same_counted_sub (sh_stats sh) cf_id). done.
Qed.

(** *** The assertions *)

Lemma wrap64_turn z : wrap64 (z + two64) = wrap64 z.
Proof. unfold wrap64, two64. rewrite <- (Z.mul_1_l (2 ^ 64)) at 1. apply Z_mod_plus_full. Qed.

(** When the assertions about a file hold: a file without discardable bytes has
    room for the referred ones, all of its data if it is sorted; any other file
    must not be referred to at all. *)
Lemma flush_asserts_spec m v :
  0 <= v -> file_size m + v + kBlobHeaderSize + kBlobFooterSize < two64 -> is_u64 (discardable_size m) ->
  flush_asserts m v = true <->
    (discardable_size m = 0 /\ v + kBlobHeaderSize + kBlobFooterSize <= file_size m /\
     (file_type m = kSorted -> v + kBlobHeaderSize + kBlobFooterSize = file_size m)) \/
    (0 < discardable_size m < file_size m /\ v = 0 /\ file_type m <> kSorted).
Proof.
  intros Hv Hfs [Hd0 Hd1]. unfold flush_asserts, AddDiscardableSize_assert, flush_discardable.
  assert (Hk : 0 < kBlobHeaderSize + kBlobFooterSize) by reflexivity.
  change (discardable_size (AddDiscardableSize ?d m)) with (discardable_size m +u64 d).
  destruct (Z.eqb_spec (discardable_size m) 0) as [Hz|Hz].
  - rewrite Hz, (wrap64_sub_l (file_size m - v)), (wrap64_sub_l (file_size m - v - _)), wrap64_add_r, Z.add_0_l.
    set (k := file_size m - v - kBlobHeaderSize - kBlobFooterSize).
    assert (Hw : (wrap64 k <? file_size m) = true <-> 0 <= k).
    { rewrite Z.ltb_lt. destruct (Z.le_gt_cases 0 k) as [Hk0|Hk0].
      - rewrite wrap64_small by (unfold is_u64; lia). lia.
      - assert (Hkk : wrap64 k = k + two64 \/ file_size m <= 0).
        { destruct (Z.le_gt_cases (file_size m) 0); [by right|left].
          rewrite <- wrap64_turn. apply wrap64_small. unfold is_u64. lia. }
        pose proof (wrap64_range k) as [??]. lia. }
    rewrite !andb_true_iff, Hw. destruct (Z.eqb_spec (file_type m) kSorted) as [Ht|Ht]; rewrite ?Z.eqb_eq.
    + split.
      * intros [[Hk0 _] Hk1]. rewrite wrap64_small in Hk1 by (unfold is_u64; lia). left. lia.
      * intros [(_ & Hk0 & Hk1)|(? & _)]; [|lia]. specialize (Hk1 Ht). replace k with 0 by lia. done.
    + split; [intros [[Hk0 _] _]; left; lia|]. intros [(_ & Hk0 & _)|(? & _)]; [|lia]. split; [split; lia|done].
  - autorewrite with wrap. replace (discardable_size m + - v) with (discardable_size m - v) by lia.
    rewrite !andb_true_iff, !Z.ltb_lt. split.
    + intros [[Hk0 Hk1] Hk2]. right. destruct (Z.eq_dec v 0) as [->|Hv0].
      * rewrite Z.sub_0_r, wrap64_small in Hk1, Hk2 by done. split; [lia|]. split; [done|]. intros Ht.
        rewrite (proj2 (Z.eqb_eq _ _) Ht) in Hk2. by apply Z.eqb_eq in Hk2.
      * exfalso. assert (wrap64 (- v) = two64 - v); [|lia].
        destruct (Z.le_gt_cases (two64) v) as [Hbig|Hsmall]; [pose proof (wrap64_range (- v)) as [??]; lia|].
        rewrite <- wrap64_turn, wrap64_small by (unfold is_u64; lia). lia.
    + intros [(? & _)|(Hd & -> & Ht)]; [lia|]. rewrite Z.sub_0_r, (wrap64_small (discardable_size m)) by done.
      rewrite (proj2 (Z.eqb_neq _ _) Ht). change (wrap64 (- 0)) with 0. split; [lia|done].
Qed.

(** *** The statistics *)

(** The sum of the running sums. *)
Fixpoint running_loss (acc : Z) (ds : list Z) : Z :=
  match ds with
  | [] => 0
  | d :: ds => (acc + d) + running_loss (acc + d) ds
  end.

Lemma running_loss_snoc ds acc d :
  running_loss acc (ds ++ [d]) = running_loss acc ds + (foldl Z.add acc ds + d).
Proof. revert acc. induction ds as [|x ds IH]; intros acc; cbn [running_loss foldl app]; [lia|]. rewrite IH. lia. Qed.

(** What the flush adds to the files of the storage it finds, in order. *)
Definition flush_discardables (h : heap) (fm : gmap Z loc) (L : list (Z * Z)) : list Z :=
  omap (fun f : Z * Z => (fun l => flush_discardable (deref h l) f.2) <$> fm !! f.1) L.

Lemma flush_loop_stats cf_id bs L sh :
  (forall n n' l, files bs !! n = Some l -> files bs !! n' = Some l -> n = n') -> NoDup L.*1 ->
  let ds := flush_discardables (sh_heap sh) (files bs) L in
  let st := foldl (flush_file cf_id bs) (sh, 0) L in
  st.2 = wrap64 (foldl Z.add 0 ds) /\
  (forall cf t, ~ (cf = cf_id /\ t = LIVE_BLOB_SIZE) -> stat (sh_stats st.1) cf t = stat (sh_stats sh) cf t) /\
  (forall x, stat (sh_stats sh) cf_id LIVE_BLOB_SIZE = Some x -> is_u64 x ->
     stat (sh_stats st.1) cf_id LIVE_BLOB_SIZE = Some (wrap64 (x - running_loss 0 ds))).
Proof.
  intros Hinj. revert L. refine (rev_ind _ _ _).
  { intros _. cbn. split_and!; [done|done|]. intros x -> Hx. by rewrite Z.sub_0_r, wrap64_small. }
  intros [n v] L IH Hnd. rewrite fmap_app in Hnd. apply NoDup_app in Hnd as (Hnd & Hdis & _).
  assert (Hn : n ∉ L.*1) by (intros Hin; apply (Hdis _ Hin); left).
  specialize (IH Hnd). cbn zeta in IH. rewrite foldl_snoc. pose proof (flush_loop_heap cf_id bs L (sh, 0)) as Hheap.
  destruct (foldl (flush_file cf_id bs) (sh, 0) L) as [sh1 delta]. cbn [fst snd] in *. destruct IH as (-> & Ho & Hl).
  unfold flush_discardables in *. rewrite omap_app. cbn [omap list_omap fst snd].
  unfold flush_file, bs_FindFile. cbn [fst snd]. destruct (files bs !! n) as [l|] eqn:Hf; cbn [fmap option_fmap option_map].
  2: { rewrite app_nil_r. by split_and!. }
  assert (Hd : deref (sh_heap sh1) l = deref (sh_heap sh) l).
  { unfold deref. rewrite Hheap, (file_loop flushed (files bs) L (sh_heap sh) n l Hinj Hnd Hf).
    by rewrite not_elem_of_list_to_map_1. }
  rewrite Hd. set (d := flush_discardable (deref (sh_heap sh) l) v). set (ds := omap _ L) in *.
  rewrite foldl_app, running_loss_snoc. cbn [foldl fst snd sh_stats set_heap set_stats]. split_and!.
  - by autorewrite with wrap.
  - intros cf t Hne. rewrite stat_SubStats, decide_False by done. by apply Ho.
  - intros x Hx Hux. rewrite stat_SubStats_eq, (Hl x Hx Hux). cbn [fmap option_fmap option_map]. f_equal.
    rewrite wrap64_add_l. autorewrite with wrap. f_equal. lia.
Qed.

End evolve.

(** ** An application *)

Section witnesses.
#[local] Existing Instances leb128_coding rle_compressors mem_env map_to_list_iter mem_manifest
  blobs_map readers_map.

(** A database with one column family, [id], that merges levels and has the blob
    file 12 of 4096 bytes, 100 of them discardable. *)
Definition example_merge_options : TitanCFOptions :=
  {| cf_base := MkColumnFamilyOptions bytewise_compare 7; min_blob_size := 128;
     mid_blob_size := 4096; blob_file_compression := kNoCompression;
     blob_file_target_size := Z.shiftl 256 20; blob_cache := false;
     max_gc_batch_size := Z.shiftl 1 30; min_gc_batch_size := Z.shiftl 512 20;
     blob_file_discardable_ratio := d05; high_level_blob_discardable_ratio := d07;
     sample_file_size_ratio := d01; merge_small_file_threshold := Z.shiftl 1 20;
     blob_run_mode := kNormal; lazy_merge := true; level_merge := true; range_merge := true;
     max_sorted_runs := 10 |}.

Definition example_cfs_of (id : Z) : gmap Z BlobStorage :=
  {[ id := BlobStorage_new example_db_options example_merge_options id ]}.

Definition example_shared_with (h : heap) (id : Z) : Shared :=
  MkShared h (Some {[ id := TitanInternalStats_Clear ]})
    (MkCaches ((0, ∅) : cache BlobFileReader) ((0, ∅) : cache bytes)).

Definition example_empty_with (h : heap) (id : Z) : Sys :=
  MkSys (MkBlobFileSet example_db_options 100 [] ∅ (example_cfs_of id) (Some "/MANIFEST-000001") 15)
    (example_shared_with h id) (∅ : gmap string bytes).

Definition example_shared_of (id : Z) : Shared := example_shared_with example_heap id.
Definition example_empty (id : Z) : Sys := example_empty_with example_heap id.

Definition example_add_of (id : Z) : VersionEdit :=
  VersionEdit_AddBlobFile 1 (SetColumnFamilyID id VersionEdit_default).

Definition example_filled (id : Z) : Sys :=
  match LogAndApply (example_add_of id) (example_empty id) with
  | Ok (_, sys) => sys
  | _ => example_empty id
  end.

Definition example_db (id : Z) : TitanDBImpl :=
  MkTitanDBImpl example_db_options (example_filled id) Scheduler_new 0 false OK false ∅.

Lemma example_cfs_of_lookup id id' bs :
  example_cfs_of id !! id' = Some bs ->
  id = id' /\ BlobStorage_new example_db_options example_merge_options id = bs.
Proof. apply lookup_singleton_Some. Qed.

Lemma example_empty_inv_with h id : set_inv (example_cfs_of id) (example_shared_with h id).
Proof.
  split.
  - by apply map_Forall_singleton.
  - apply map_Forall_singleton. exact bytewise_compare_ok.
  - apply map_Forall_singleton. apply (storage_new_inv example_db_options example_merge_options id).
    + vm_compute. congruence.
    + intros t v Ht. unfold stat, example_shared_with. cbn [sh_stats]. rewrite lookup_singleton_eq.
      intros [= <-]. apply list_elem_of_In in Ht. by destruct Ht as [<-|[<-|[<-|[<-|[]]]]].
  - intros id1 bs1 n1 id2 bs2 n2 l [<- _]%example_cfs_of_lookup _ [<- _]%example_cfs_of_lookup _. done.
Qed.

Lemma example_empty_inv id : set_inv (example_cfs_of id) (example_shared_of id).
Proof. apply example_empty_inv_with. Qed.

Lemma example_add_of_fresh id : edit_fresh (example_cfs_of id) example_heap (example_add_of id).
Proof.
  intros l ->%list_elem_of_singleton. exists example_meta. split; [done|]. split; [done|]. split.
  - intros id' bs n [<- <-]%example_cfs_of_lookup. done.
  - intros bs [_ <-]%example_cfs_of_lookup. vm_compute. intuition congruence.
Qed.

(** Adding the file succeeds. *)
Definition example_opens (id : Z) : Prop :=
  match LogAndApply (example_add_of id) (example_empty id) with Ok (OK, _) => True | _ => False end.

Lemma example_db_inv id :
  example_opens id -> set_inv (column_families (sys_set (t_sys (example_db id)))) (sys_shared (t_sys (example_db id))).
Proof.
  intros Hok. destruct (LogAndApply_refines (example_add_of id) (example_empty id) (example_empty_inv id)
    (example_add_of_fresh id)) as (s & sys' & HL & Hs); [done|].
  unfold example_opens in Hok. cbn [t_sys example_db]. unfold example_filled. rewrite HL in Hok |- *.
  destruct s; try done. apply Hs.
Qed.

Lemma example_opens_0 : example_opens 0.
Proof. vm_compute. exact I. Qed.

Lemma example_opens_5 : example_opens 5.
Proof. vm_compute. exact I. Qed.

(** The flush of an SST file that refers to 60 bytes of file 12, which is new and
    unsorted. *)
Definition example_flush : FlushJobInfo :=
  MkFlushJobInfo 5 {[ kPropertiesName := encode_sizes {[ 12 := 60 ]} ]}.

Definition example_new_meta : BlobFileMeta := BlobFileMeta_new 12 4096 3 0 [Byte.x61] [Byte.x7a] kUnSorted.

Definition example_new_heap : heap := {[ 1%positive := example_new_meta ]}.

Definition example_new_db : TitanDBImpl :=
  MkTitanDBImpl example_db_options
    (match LogAndApply (example_add_of 5) (example_empty_with example_new_heap 5) with
     | Ok (_, sys) => sys
     | _ => example_empty_with example_new_heap 5
     end) Scheduler_new 0 false OK false ∅.

Lemma example_new_fresh : edit_fresh (example_cfs_of 5) example_new_heap (example_add_of 5).
Proof.
  intros l ->%list_elem_of_singleton. exists example_new_meta. split; [done|]. split; [done|]. split.
  - intros id' bs n [<- <-]%example_cfs_of_lookup. done.
  - intros bs [_ <-]%example_cfs_of_lookup. vm_compute. intuition congruence.
Qed.

Lemma example_new_adds :
  match LogAndApply (example_add_of 5) (example_empty_with example_new_heap 5) with Ok (OK, _) => True | _ => False end.
Proof. vm_compute. exact I. Qed.

Lemma example_new_inv :
  set_inv (column_families (sys_set (t_sys example_new_db))) (sys_shared (t_sys example_new_db)).
Proof.
  destruct (LogAndApply_refines (example_add_of 5) (example_empty_with example_new_heap 5)
    (example_empty_inv_with example_new_heap 5) example_new_fresh) as (s & sys' & HL & Hs); [done|].
  pose proof example_new_adds as Hok. cbn [t_sys example_new_db]. rewrite HL in Hok |- *.
  destruct s; try done. apply Hs.
Qed.

End witnesses.
