(* ===== verification/CompactionInv.v ===== *)
(** * What a compaction does to the blob files

    The discardable sizes a compaction leaves, and which blob files it deletes. *)

From S2P Require Import Prelude Rocks Options Stats Util BlobFormat Env BlobFileBuilder BlobFileReader VersionEdit BlobStorage StorageInv EditCollector BlobFileSet ApplyInv ManifestReplay Scheduler BlobFileSizeCollector RangeMerge DbEvents CompactionSizes DbEventsInv.

Section compaction.
Context `{Coding} `{Compressors} `{E : Env} `{BC : Cache bytes} `{FC : !Cache BlobFileReader}
        `{UnorderedIter} `{!ManifestIO}.

(** ** Edits that only delete *)

(** Writing the manifest does not fail. *)
Definition log_works (sys : Sys) : Prop :=
  match manifest (sys_set sys) with
  | None => False
  | Some log =>
      forall record, (log_AddRecord log record (sys_fs sys)).1 = OK /\
        (SyncTitanManifest log (log_AddRecord log record (sys_fs sys)).2).1 = OK
  end.

Lemma log_works_manifest sys : log_works sys -> manifest (sys_set sys) <> None.
Proof. unfold log_works. by destruct (manifest (sys_set sys)). Qed.

(** Such an edit is logged and applied when its files are live. *)
Lemma LogAndApply_deletes (edit : VersionEdit) (sys : Sys) :
  set_inv (column_families (sys_set sys)) (sys_shared sys) -> log_works sys ->
  0 <= set_next_file_number (sys_set sys) ->
  added_files edit = [] -> NoDup (deleted_files edit).*1 ->
  (forall bs n, column_families (sys_set sys) !! column_family_id edit = Some bs ->
     n ∈ (deleted_files edit).*1 ->
     exists l, files bs !! n = Some l /\ is_obsolete (deref (sh_heap (sys_shared sys)) l) = false) ->
  exists sys', LogAndApply edit sys = Ok (OK, sys').
Proof.
  intros Hinv Hlog Hnext Hadd Hnd Hlive.
  destruct (LogAndApply_refines edit sys Hinv) as (s & sys' & HL & Hs).
  { intros l Hl. rewrite Hadd in Hl. by apply not_elem_of_nil in Hl. }
  { by apply log_works_manifest. }
  exists sys'. rewrite HL. f_equal. f_equal. clear Hs. unfold LogAndApply in HL.
  set (edit' := SetNextFileNumber (set_next_file_number (sys_set sys)) edit) in *.
  set (h := sh_heap (sys_shared sys)) in *.
  assert (Hfresh : edit_fresh (column_families (sys_set sys)) h edit').
  { intros l Hl. cbn in Hl. rewrite Hadd in Hl. by apply not_elem_of_nil in Hl. }
  destruct (AddEdit_ok h edit' EditCollector_default) as (c & HA & Hcol).
  { split; try done. cbn [added_files edit' SetNextFileNumber]. rewrite Hadd. constructor. }
  rewrite HA in HL. cbn [status_ok negb] in HL.
  destruct (col_cfs _ _ _ _ Hcol) as (cc & Hcfs & Hca & Hcd).
  cbn [ec_column_families EditCollector_default default] in Hcfs, Hca, Hcd.
  rewrite lookup_empty in Hca, Hcd. cbn in Hca, Hcd.
  rewrite (right_id_L ∅ (∪)) in Hca. rewrite (right_id_L ∅ (∪)) in Hcd.
  assert (Hacc : forall id cc' bs, ec_column_families c !! id = Some cc' ->
            column_families (sys_set sys) !! id = Some bs -> seal_accepts h bs cc').
  { intros id cc' bs Hcc Hbs. rewrite Hcfs in Hcc.
    apply lookup_insert_Some in Hcc as [[<- <-]|[_ []%lookup_empty_Some]]. split.
    - rewrite Hca. unfold added_map. cbn [added_files edit' SetNextFileNumber]. by rewrite Hadd.
    - intros n seq Hn _. rewrite Hcd in Hn. apply elem_of_list_to_map_2 in Hn.
      apply (Hlive bs n Hbs). apply list_elem_of_fmap. by exists (n, seq). }
  pose proof (Seal_accepts _ h c (col_status _ _ _ _ Hcol eq_refl) Hacc) as HS.
  rewrite HS in HL.
  destruct (apply_single _ _ edit' c _ Hinv Hfresh HA HS) as (cfs' & sh' & Hok & _).
  cbn [status_ok negb] in HL. unfold log_works in Hlog.
  destruct (manifest (sys_set sys)) as [log|]; [|done].
  destruct (Hlog (VersionEdit_EncodeTo h edit')) as [Hw1 Hw2].
  destruct (log_AddRecord log _ (sys_fs sys)) as [s1 w1]. cbn [fst snd] in Hw1, Hw2. subst s1.
  cbn [status_ok negb] in HL. destruct (SyncTitanManifest log w1) as [s2 w2]. cbn [fst] in Hw2. subst s2.
  cbn [status_ok negb] in HL.
  destruct (EditCollector_Apply _ _) as [[s5 c5] [cfs5 sh5]]. cbn in Hok. by simplify_eq.
Qed.

(** ** The loop over the differences *)

(** A file of which [-v] more bytes are no longer referred to. *)
Definition compacted (cf : TitanCFOptions) (v : Z) (m : BlobFileMeta) : BlobFileMeta :=
  if 0 <=? v then m
  else
    let m := AddDiscardableSize (wrap64 (- v)) m in
    if level_merge cf && negb (NoLiveData m && (file_type m =? kSorted))
       && ((file_type m =? kSorted)
           && double_ltb (blob_file_discardable_ratio cf) (GetDiscardableRatio m))
    then FileStateTransit FileEvent.kNeedGC m else m.

(** A sorted file without live data. *)
Definition dies (fm : gmap Z loc) (h : heap) (f : Z * Z) : bool :=
  match fm !! f.1 with
  | None => false
  | Some l =>
      (f.2 <? 0) && (let m := AddDiscardableSize (wrap64 (- f.2)) (deref h l) in
                     NoLiveData m && (file_type m =? kSorted))
  end.

Lemma heap_call_comp f g l h : heap_call f l (heap_call g l h) = heap_call (f ∘ g) l h.
Proof.
  unfold heap_call. apply map_eq. intros l'. rewrite !lookup_alter. case_decide; [|done]. subst l'.
  rewrite decide_True by done. by destruct (h !! l).
Qed.

Lemma heap_call_deref f g l h :
  (forall m, h !! l = Some m -> f m = g m) -> heap_call f l h = heap_call g l h.
Proof.
  intros Hfg. unfold heap_call. apply map_eq. intros l'. rewrite !lookup_alter.
  case_decide; [|done]. subst l'. destruct (h !! l) as [m|]; [|done]. cbn. by rewrite Hfg.
Qed.

Lemma heap_call_id l h : heap_call (fun m => m) l h = h.
Proof.
  unfold heap_call. apply map_eq. intros l'. rewrite lookup_alter. case_decide; [|done]. subst l'.
  by destruct (h !! l).
Qed.

Lemma deref_Some h l m : h !! l = Some m -> deref h l = m.
Proof. intros Hm. unfold deref. by rewrite Hm. Qed.

Lemma compact_file_heap cf_id cf seq b bs c f :
  sh_heap (co_shared (compact_file cf_id cf seq b bs c f)) =
  file_step (compacted cf) (files bs) (sh_heap (co_shared c)) f.
Proof.
  destruct f as [n v]. unfold compact_file, file_step, bs_FindFile. cbn [fst snd].
  destruct (files bs !! n) as [l|]; [|done].
  set (h := sh_heap (co_shared c)). destruct (0 <=? v) eqn:Hv.
  - transitivity h; [by destruct (b && _)|]. rewrite <- (heap_call_id l h) at 1.
    apply heap_call_deref. intros m _. unfold compacted. by rewrite Hv.
  - destruct (level_merge cf) eqn:Hl; cbn [co_shared sh_heap set_heap].
    2: { apply heap_call_deref. intros m _. unfold compacted. by rewrite Hv, Hl. }
    destruct (NoLiveData _ && _) eqn:Hn; cbn [co_shared sh_heap set_heap].
    + apply heap_call_deref. intros m Hm. unfold compacted. rewrite Hv, Hl.
      rewrite (deref_Some _ _ _ Hm) in Hn. by rewrite Hn.
    + destruct (_ && double_ltb _ _) eqn:Hr.
      * rewrite heap_call_comp. apply heap_call_deref. intros m Hm. unfold compacted, compose.
        rewrite Hv, Hl. rewrite (deref_Some _ _ _ Hm) in Hn, Hr. by rewrite Hn, Hr.
      * apply heap_call_deref. intros m Hm. unfold compacted.
        rewrite Hv, Hl. rewrite (deref_Some _ _ _ Hm) in Hn, Hr. by rewrite Hn, Hr.
Qed.

Lemma compact_loop_heap cf_id cf seq b bs c L :
  sh_heap (co_shared (foldl (compact_file cf_id cf seq b bs) c L)) =
  foldl (file_step (compacted cf) (files bs)) (sh_heap (co_shared c)) L.
Proof.
  revert c; induction L as [|f L IH]; intros c; [done|]. cbn [foldl]. by rewrite IH, compact_file_heap.
Qed.

Lemma compacted_same cf v m : same_meta m (compacted cf v m).
Proof.
  unfold compacted. destruct (0 <=? v); [apply same_meta_refl|]. cbv zeta.
  destruct (_ && _); [|done]. split; [done|].
  unfold is_obsolete, FileStateTransit. cbn [file_state set_file_state].
  change (file_state (AddDiscardableSize (wrap64 (- v)) m)) with (file_state m).
  by destruct (file_state m).
Qed.

Lemma file_step_evolve g fm h f :
  (forall v m, same_meta m (g v m)) -> evolve h (file_step g fm h f).
Proof.
  intros Hg. unfold file_step. destruct (fm !! f.1) as [l|]; [|apply evolve_refl].
  apply evolve_call. intros m _. apply Hg.
Qed.

Lemma compact_file_mild cf_id cf seq b bs c f :
  mild (co_shared c) (co_shared (compact_file cf_id cf seq b bs c f)).
Proof.
  split.
  - rewrite compact_file_heap. apply file_step_evolve, compacted_same.
  - intros id t Ht. unfold compact_file. destruct (bs_FindFile f.1 bs) as [l|]; [|done].
    destruct (0 <=? f.2); [by destruct (b && _)|].
    transitivity (stat (if bool_decide (GetDiscardableRatioLevel (deref (sh_heap (co_shared c)) l) =
        GetDiscardableRatioLevel (AddDiscardableSize (wrap64 (- f.2)) (deref (sh_heap (co_shared c)) l)))
      then sh_stats (co_shared c)
      else SubStats (AddStats (sh_stats (co_shared c)) cf_id
        (GetDiscardableRatioLevel (AddDiscardableSize (wrap64 (- f.2)) (deref (sh_heap (co_shared c)) l))) 1)
        cf_id (GetDiscardableRatioLevel (deref (sh_heap (co_shared c)) l)) 1) id t).
    { destruct (level_merge cf); [|done]. by destruct (NoLiveData _ && _). }
    destruct (bool_decide _); [done|].
    rewrite stat_SubStats_ne, stat_AddStats_ne; [done|..]; intros ->; by apply ratio_level_uncounted in Ht.
Qed.

Lemma compact_loop_mild cf_id cf seq b bs c L :
  mild (co_shared c) (co_shared (foldl (compact_file cf_id cf seq b bs) c L)).
Proof.
  apply (foldl_invariant (fun c' => mild (co_shared c) (co_shared c'))); [apply mild_refl|].
  intros c' f _ Hm. eapply mild_trans; [exact Hm|]. apply compact_file_mild.
Qed.

(** ** The other parts *)

Lemma complete_outputs_evolve bs outs h :
  (forall n l, n ∈ outs -> files bs !! n = Some l -> is_obsolete (deref h l) = false) ->
  evolve h (complete_outputs bs outs h).2.
Proof.
  revert h; induction outs as [|n outs IH]; intros h Hlive; cbn [complete_outputs]; [apply evolve_refl|].
  unfold bs_FindFile. destruct (files bs !! n) as [l|] eqn:Hl; [|apply evolve_refl].
  assert (He : evolve h (heap_call (FileStateTransit FileEvent.kCompactionCompleted) l h)).
  { apply evolve_call. intros m Hm. apply same_meta_transit.
    specialize (Hlive n l (list_elem_of_here _ _) Hl). rewrite (deref_Some _ _ _ Hm) in Hlive.
    by rewrite Hlive. }
  eapply evolve_trans; [exact He|]. apply IH. intros n' l' Hn' Hl'.
  destruct (evolve_deref _ _ l' He) as [_ ->]. apply (Hlive n' l'); [by right|done].
Qed.

Lemma complete_outputs_found bs outs h :
  (complete_outputs bs outs h).1 = true <-> forall n, n ∈ outs -> is_Some (files bs !! n).
Proof.
  revert h; induction outs as [|n outs IH]; intros h; cbn [complete_outputs].
  { split; [intros _ n []%not_elem_of_nil|done]. }
  unfold bs_FindFile. destruct (files bs !! n) as [l|] eqn:Hl.
  - rewrite IH. split; [intros Hall n' [->|]%elem_of_cons; [by eexists|by apply Hall]|].
    intros Hall n' Hn'. apply Hall. by right.
  - split; [done|]. intros Hall. destruct (Hall n (list_elem_of_here _ _)) as [? ?]. congruence.
Qed.

Lemma need_merge_same m : same_meta m (FileStateTransit FileEvent.kNeedMerge m).
Proof.
  apply same_meta_transit. unfold is_obsolete, FileStateTransit. cbn [file_state set_file_state].
  by destruct (file_state m).
Qed.

Lemma sweep_evolve k ends a r tmp mk h : evolve h (sweep k ends a r tmp mk h).1.
Proof.
  revert a r tmp mk h; induction ends as [|[f []] ends IH]; intros a r tmp mk h; cbn [sweep];
    [apply evolve_refl|apply IH|]. cbv zeta.
  destruct (tmp !! f) as [record|]; [|apply IH]. destruct (_ && _); [|apply IH].
  eapply evolve_trans; [|apply IH]. apply evolve_call. intros m _. apply need_merge_same.
Qed.

Lemma MarkFileIfNeedMerge_evolve fs k h : evolve h (MarkFileIfNeedMerge fs k h).1.
Proof. destruct fs; [apply evolve_refl|apply sweep_evolve]. Qed.

(** Scoring changes neither the files nor the bookkeeping. *)
Lemma set_inv_score (cfs : gmap Z BlobStorage) sh (id : Z) bs h :
  cfs !! id = Some bs -> set_inv cfs sh ->
  set_inv (<[id := (ComputeGCScore h bs).2]> cfs) sh /\
  lives (<[id := (ComputeGCScore h bs).2]> cfs) sh = lives cfs sh.
Proof.
  intros Hbs [Hi Hc Hs Hd]. set (cfs' := <[id := (ComputeGCScore h bs).2]> cfs).
  assert (Hold : forall id' b, cfs' !! id' = Some b ->
            exists b0, cfs !! id' = Some b0 /\ files b = files b0).
  { intros id' b [[<- <-]|[Hne Hb]]%lookup_insert_Some; [by exists bs|by exists b]. }
  split.
  - split; try (apply map_Forall_insert_2; [|done]).
    + apply (Hi _ _ Hbs).
    + apply (Hc _ _ Hbs).
    + destruct (Hs _ _ Hbs). by split.
    + intros id1 bs1 n1 id2 bs2 n2 l (b1 & Hb1 & ->)%Hold Hl1 (b2 & Hb2 & ->)%Hold Hl2.
      by eapply (Hd id1 b1 n1 id2 b2 n2 l).
  - apply map_eq. intros id'. unfold lives, cfs'. rewrite !lookup_fmap, lookup_insert.
    case_decide; [subst|done]. by rewrite Hbs.
Qed.

Lemma request_gc_sys cf_id db : t_sys (request_gc cf_id db) = t_sys db.
Proof. unfold request_gc. by destruct (MaybeScheduleGC _ _). Qed.

Lemma maybe_request_gc_ok base cf_id cf (db : TitanDBImpl) :
  let sys := t_sys db in
  set_inv (column_families (sys_set sys)) (sys_shared sys) -> blob_file_target_size cf <> 0 ->
  exists db', maybe_request_gc base cf_id cf db = Ok db' /\
    sys_shared (t_sys db') = sys_shared sys /\
    set_inv (column_families (sys_set (t_sys db'))) (sys_shared sys) /\
    lives (column_families (sys_set (t_sys db'))) (sys_shared sys) =
      lives (column_families (sys_set sys)) (sys_shared sys).
Proof.
  intros sys Hinv Hz. unfold maybe_request_gc. fold sys. cbv zeta.
  destruct (negb _); [by eexists|]. cbn [t_sys].
  unfold GetBlobStorage. destruct (column_families (sys_set sys) !! cf_id) as [bs|] eqn:Hbs; [|by eexists].
  pose proof (set_inv_score _ (sys_shared sys) cf_id bs (sh_heap (sys_shared sys)) Hbs Hinv) as [Hi Hl].
  destruct (ComputeGCScore _ bs) as [n bs']. replace (blob_file_target_size cf =? 0) with false by lia.
  destruct (_ || _); (eexists; split; [done|]); rewrite ?request_gc_sys; done.
Qed.

(** ** The edit *)

Lemma deleted_files_DeleteBlobFile n seq e :
  deleted_files (DeleteBlobFile n seq e) = deleted_files e ++ [(n, seq)].
Proof. done. Qed.

Lemma compact_file_edit cf_id cf seq b bs c n v :
  level_merge cf = true ->
  (forall l, files bs !! n = Some l -> file_number (deref (sh_heap (co_shared c)) l) = n) ->
  co_edit (compact_file cf_id cf seq b bs c (n, v)) =
  if dies (files bs) (sh_heap (co_shared c)) (n, v) then DeleteBlobFile n seq (co_edit c) else co_edit c.
Proof.
  intros Hlm Hnum. unfold compact_file, dies, bs_FindFile. cbn [fst snd].
  destruct (files bs !! n) as [l|]; [|done]. specialize (Hnum l eq_refl).
  destruct (Z.leb_spec 0 v) as [Hv|Hv].
  - replace (v <? 0) with false by lia. by destruct (b && _).
  - replace (v <? 0) with true by lia. rewrite Hlm. cbn [andb].
    destruct (NoLiveData _ && _); [|done]. cbn [co_edit]. f_equal. exact Hnum.
Qed.

Lemma compact_loop_edit cf_id cf seq b bs c L :
  level_merge cf = true ->
  (forall n n' l, files bs !! n = Some l -> files bs !! n' = Some l -> n = n') ->
  (forall n l, files bs !! n = Some l -> file_number (deref (sh_heap (co_shared c)) l) = n) ->
  NoDup L.*1 ->
  co_edit (foldl (compact_file cf_id cf seq b bs) c L) =
  foldl (fun e f => DeleteBlobFile f.1 seq e) (co_edit c)
    (filter (fun f => dies (files bs) (sh_heap (co_shared c)) f = true) L).
Proof.
  intros Hlm Hinj Hnum. revert L. refine (rev_ind _ _ _); [done|]. intros [n v] L IH Hnd.
  rewrite fmap_app in Hnd. apply NoDup_app in Hnd as (Hnd & Hdis & _). specialize (IH Hnd).
  assert (Hn : n ∉ L.*1) by (intros Hin; apply (Hdis _ Hin); left).
  rewrite foldl_snoc, filter_app. set (c1 := foldl _ c L) in *.
  assert (Hh : forall l, files bs !! n = Some l ->
            sh_heap (co_shared c1) !! l = sh_heap (co_shared c) !! l).
  { intros l Hl. unfold c1. rewrite compact_loop_heap, (file_loop _ _ _ _ n l Hinj Hnd Hl).
    by rewrite not_elem_of_list_to_map_1. }
  rewrite compact_file_edit; [|done|].
  - rewrite foldl_app, IH.
    assert (Hd : dies (files bs) (sh_heap (co_shared c1)) (n, v) = dies (files bs) (sh_heap (co_shared c)) (n, v)).
    { unfold dies. cbn [fst snd]. destruct (files bs !! n) as [l|]; [|done]. unfold deref. by rewrite Hh. }
    rewrite filter_cons, filter_nil. rewrite Hd at 1.
    destruct (dies (files bs) (sh_heap (co_shared c)) (n, v)) eqn:Hdies.
    + rewrite decide_True; [done|]. cbv beta. congruence.
    + rewrite decide_False; [done|]. cbv beta. congruence.
  - intros l Hl. unfold deref. rewrite Hh by done. by apply Hnum.
Qed.

Lemma delete_all_edit seq (L : list (Z * Z)) e :
  let e' := foldl (fun e f => DeleteBlobFile f.1 seq e) e L in
  column_family_id e' = column_family_id e /\ added_files e' = added_files e /\
  (deleted_files e').*1 = (deleted_files e).*1 ++ L.*1.
Proof.
  revert e; induction L as [|f L IH]; intros e; cbn [foldl].
  { split_and!; [done..|]. by rewrite app_nil_r. }
  destruct (IH (DeleteBlobFile f.1 seq e)) as (Hc & Ha & Hd). split_and!; [done..|].
  rewrite Hd, deleted_files_DeleteBlobFile, fmap_app, <- app_assoc. done.
Qed.

(** ** Compactions *)

Lemma complete_outputs_discardable bs outs h l :
  discardable_size <$> ((complete_outputs bs outs h).2 !! l) = discardable_size <$> (h !! l).
Proof.
  revert h; induction outs as [|n outs IH]; intros h; cbn [complete_outputs]; [done|].
  destruct (bs_FindFile n bs) as [l'|]; [|done]. rewrite IH. unfold heap_call. rewrite lookup_alter.
  case_decide; [subst l'|done]. by destruct (h !! l).
Qed.

Lemma dies_ext fm h h' f :
  evolve h h' -> (forall l, discardable_size <$> (h' !! l) = discardable_size <$> (h !! l)) ->
  dies fm h' f = dies fm h f.
Proof.
  intros He Hd. unfold dies. destruct (fm !! f.1) as [l|]; [|done].
  destruct (evolve_deref _ _ l He) as [Hp _]. specialize (Hd l).
  assert (Hdl : discardable_size (deref h' l) = discardable_size (deref h l)).
  { specialize (He l). unfold deref. destruct (h !! l) as [m|]; [|by rewrite He].
    destruct He as (m' & Hm' & _). rewrite Hm' in Hd |- *. by injection Hd. }
  assert (Hs : file_size (deref h' l) = file_size (deref h l)) by by injection Hp.
  assert (Ht : file_type (deref h' l) = file_type (deref h l)) by by injection Hp.
  unfold NoLiveData. cbn. by rewrite Hdl, Hs, Ht.
Qed.

(** The blob files a compaction leaves without live data. *)
Definition left_dead (bs : BlobStorage) (h : heap) (diff : gmap Z Z) (n : Z) : Prop :=
  exists l v, files bs !! n = Some l /\ diff !! n = Some v /\ v < 0 /\
    let m := deref h l in
    file_type m = kSorted /\
    wrap64 (discardable_size m - v) = wrap64 (file_size m - (kBlobHeaderSize + kBlobFooterSize)).

Lemma dies_left_dead bs h (diff : gmap Z Z) n :
  n ∈ (filter (fun f => dies (files bs) h f = true) (ordered_iter diff)).*1 <-> left_dead bs h diff n.
Proof.
  rewrite list_elem_of_fmap. unfold left_dead, dies. split.
  - intros ([n' v] & -> & [Hd Hin]%list_elem_of_filter). cbn [fst snd] in *.
    rewrite ordered_iter_perm, elem_of_map_to_list in Hin.
    destruct (files bs !! n') as [l|]; [|done]. apply andb_true_iff in Hd as [Hv Hd].
    apply andb_true_iff in Hd as [Hn Ht]. exists l, v. unfold NoLiveData in Hn. cbn in Hn, Ht.
    split; [done|]. split; [done|]. split; [lia|]. split; [by apply Z.eqb_eq|].
    apply Z.eqb_eq in Hn. rewrite <- Hn, wrap64_add_r. f_equal.
  - intros (l & v & Hl & Hv & Hneg & Ht & Hw). exists (n, v). split; [done|].
    apply list_elem_of_filter. split; [|by rewrite ordered_iter_perm, elem_of_map_to_list].
    cbn [fst snd]. rewrite Hl. apply andb_true_iff. split; [lia|]. apply andb_true_iff.
    unfold NoLiveData. cbn. split; apply Z.eqb_eq; [|done]. rewrite wrap64_add_r. by rewrite <- Hw.
Qed.

(** The setting: a successful compaction of an open column family, whose outputs
    are files of it. *)
Record compaction_ok (info : CompactionJobInfo) (db : TitanDBImpl) (bs : BlobStorage) : Prop := {
  cok_status : cji_status info = OK;
  cok_inv : set_inv (column_families (sys_set (t_sys db))) (sys_shared (t_sys db));
  cok_cf : column_families (sys_set (t_sys db)) !! cji_cf_id info = Some bs;
  cok_target : blob_file_target_size (bs_cf_options bs) <> 0;
  cok_outputs : forall n, n ∈ bz_outputs (calc_sizes info) ->
    exists l, files bs !! n = Some l /\ is_obsolete (deref (sh_heap (sys_shared (t_sys db))) l) = false
}.

(** The state when the loop over the differences has ended. *)
Definition after_loop (seq : Z) (info : CompactionJobInfo) (db : TitanDBImpl) (bs : BlobStorage)
    : Compacted :=
  let cf := bs_cf_options bs in
  let sh := sys_shared (t_sys db) in
  let z := calc_sizes info in
  foldl (compact_file (cji_cf_id info) cf seq
           (level_merge cf && range_merge cf && (num_levels (cf_base cf) - 2 <=? cji_output_level info)) bs)
    (MkCompacted (set_heap (complete_outputs bs (ordered_elements (bz_outputs z)) (sh_heap sh)).2 sh)
       0 VersionEdit_default [] 0)
    (ordered_iter (blob_files_size_diff z)).

Lemma OnCompactionCompleted_loop base seq info db bs :
  compaction_ok info db bs ->
  let cf := bs_cf_options bs in
  let c := after_loop seq info db bs in
  let sh := set_stats (SubStats (sh_stats (co_shared c)) (cji_cf_id info) LIVE_BLOB_SIZE (co_delta c))
              (co_shared c) in
  let sys := with_shared sh (t_sys db) in
  OnCompactionCompleted base seq info db =
    (if level_merge cf then
       let* (_, sys) := LogAndApply (co_edit c) sys in
       let h := (MarkFileIfNeedMerge (co_files c) (max_sorted_runs cf) (sh_heap (sys_shared sys))).1 in
       maybe_request_gc base (cji_cf_id info) cf (with_sys (with_shared (set_heap h (sys_shared sys)) sys) db)
     else maybe_request_gc base (cji_cf_id info) cf (with_sys sys db)) /\
  mild (sys_shared (t_sys db)) sh.
Proof.
  intros [Hst Hinv Hcf Htgt Houts] cf c sh sys.
  set (h0 := sh_heap (sys_shared (t_sys db))).
  assert (Hfound : (complete_outputs bs (ordered_elements (bz_outputs (calc_sizes info))) h0).1 = true).
  { apply complete_outputs_found. intros n Hn%elem_of_ordered_elements.
    destruct (Houts n Hn) as (l & Hl & _). by exists l. }
  split.
  - unfold OnCompactionCompleted. rewrite Hst. cbn [status_ok negb]. unfold GetBlobStorage. rewrite Hcf.
    fold cf h0. unfold sys, sh, c, after_loop. fold cf h0.
    destruct (complete_outputs bs _ h0) as [found h1]. cbn [fst snd] in *. rewrite Hfound. cbn [negb].
    destruct (level_merge cf); [|done].
    match goal with |- context [LogAndApply ?e ?s] => destruct (LogAndApply e s) as [[s1 sys1]| |] end;
      cbn [result_bind]; [|done..].
    by destruct (MarkFileIfNeedMerge _ _ _).
  - assert (Hm : mild (sys_shared (t_sys db)) (co_shared c)).
    { eapply mild_trans; [|apply compact_loop_mild]. split; [|done].
      cbn [co_shared sh_heap set_heap]. apply complete_outputs_evolve.
      intros n l Hn%elem_of_ordered_elements Hl. destruct (Houts n Hn) as (l' & Hl' & Ho). congruence. }
    eapply mild_trans; [exact Hm|]. split; [apply evolve_refl|].
    apply (same_counted_sub (sh_stats (co_shared c)) (cji_cf_id info)). done.
Qed.

(** The edit deletes the files left dead, in the default column family. *)
Lemma after_loop_edit seq info db bs :
  compaction_ok info db bs -> level_merge (bs_cf_options bs) = true ->
  let e := co_edit (after_loop seq info db bs) in
  column_family_id e = 0 /\ added_files e = [] /\ NoDup (deleted_files e).*1 /\
  forall n, n ∈ (deleted_files e).*1 <->
    left_dead bs (sh_heap (sys_shared (t_sys db))) (blob_files_size_diff (calc_sizes info)) n.
Proof.
  intros [Hst Hinv Hcf Htgt Houts] Hlm e. set (h0 := sh_heap (sys_shared (t_sys db))).
  set (diff := blob_files_size_diff (calc_sizes info)).
  assert (Hnd : NoDup (ordered_iter diff).*1).
  { rewrite ordered_iter_perm. apply NoDup_fst_map_to_list. }
  assert (He1 : evolve h0 (complete_outputs bs (ordered_elements (bz_outputs (calc_sizes info))) h0).2).
  { apply complete_outputs_evolve. intros n l Hn%elem_of_ordered_elements Hl.
    destruct (Houts n Hn) as (l' & Hl' & Ho). rewrite Hl in Hl'. by injection Hl' as ->. }
  unfold e, after_loop. fold h0 diff. rewrite compact_loop_edit; [|done|by eapply inv_inj| |done].
  2: { intros n l Hl. cbn [co_shared sh_heap set_heap].
       destruct (evolve_deref _ _ l He1) as [Hp _].
       destruct (inv_files _ _ _ (set_storage _ _ Hinv _ _ Hcf) n l Hl) as (m & Hm & Hnum & _).
       rewrite <- Hnum, <- (deref_Some _ _ _ Hm). by injection Hp. }
  cbn [co_shared co_edit sh_heap set_heap].
  match goal with |- context [foldl ?f VersionEdit_default ?L] =>
    destruct (delete_all_edit seq L VersionEdit_default) as (Hc & Ha & Hd);
    set (e' := foldl f VersionEdit_default L) in * end.
  rewrite Hc, Ha, Hd. split; [done|]. split; [done|]. cbn [deleted_files VersionEdit_default fmap list_fmap app].
  split.
  - eapply sublist_NoDup; [exact Hnd|]. apply fmap_sublist. apply sublist_filter.
  - intros n. rewrite <- dies_left_dead.
    rewrite (list_filter_iff _ (fun f => dies (files bs) h0 f = true)); [done|].
    intros f. rewrite (dies_ext _ h0); [done|exact He1|]. intros l. apply complete_outputs_discardable.
Qed.

(** In the mode of merging levels: the handler ends, and its edit is applied to
    the default column family or refused. *)
Lemma compaction_edit base seq info db bs :
  compaction_ok info db bs -> level_merge (bs_cf_options bs) = true ->
  manifest (sys_set (t_sys db)) <> None ->
  let e := co_edit (after_loop seq info db bs) in
  exists db', OnCompactionCompleted base seq info db = Ok db' /\ db_inv db' /\
    (db_lives db' = alter (spec_edit ∅ (deleted_set e)) 0 (db_lives db) \/
     db_lives db' = db_lives db /\
     ~ (log_works (t_sys db) /\ 0 <= set_next_file_number (sys_set (t_sys db)) /\
        forall bs0 n, column_families (sys_set (t_sys db)) !! 0 = Some bs0 ->
          left_dead bs (sh_heap (sys_shared (t_sys db))) (blob_files_size_diff (calc_sizes info)) n ->
          exists l, files bs0 !! n = Some l /\ is_obsolete (deref (sh_heap (sys_shared (t_sys db))) l) = false)).
Proof.
  intros Hok Hlm Hman e. destruct (OnCompactionCompleted_loop base seq info db bs Hok) as [-> Hmild].
  destruct (after_loop_edit seq info db bs Hok Hlm) as (Hcf & Hadd & Hnd & Hdel).
  rewrite Hlm. fold e in Hcf, Hadd, Hnd, Hdel |- *.
  match goal with |- context [LogAndApply e ?s] => set (sys1 := s) in * end.
  assert (Hinv1 : set_inv (column_families (sys_set sys1)) (sys_shared sys1)).
  { eapply mild_set_inv; [exact Hmild|apply (cok_inv _ _ _ Hok)]. }
  assert (Hl1 : lives (column_families (sys_set sys1)) (sys_shared sys1) = db_lives db).
  { by apply mild_lives. }
  destruct (LogAndApply_refines e sys1 Hinv1) as (s & sys2 & HL & Hs).
  { intros l Hl. rewrite Hadd in Hl. by apply not_elem_of_nil in Hl. }
  { exact Hman. }
  rewrite HL. cbn [result_bind]. cbv zeta.
  assert (Hsys2 : set_inv (column_families (sys_set sys2)) (sys_shared sys2)).
  { destruct (status_ok s); [apply Hs|]. destruct Hs as [-> ->]. exact Hinv1. }
  set (h3 := (MarkFileIfNeedMerge _ _ _).1).
  assert (Hmild3 : mild (sys_shared sys2) (set_heap h3 (sys_shared sys2))).
  { split; [apply MarkFileIfNeedMerge_evolve|done]. }
  match goal with |- context [maybe_request_gc _ _ _ ?d] =>
    destruct (maybe_request_gc_ok base (cji_cf_id info) (bs_cf_options bs) d) as (db' & -> & Hsh & Hi & Hl) end.
  { cbn [t_sys with_sys sys_set sys_shared with_shared]. by eapply mild_set_inv. }
  { apply (cok_target _ _ _ Hok). }
  cbn [t_sys with_sys sys_set sys_shared with_shared] in Hsh, Hi, Hl.
  exists db'. split; [done|]. unfold db_inv. rewrite Hsh. split; [done|].
  unfold db_lives at 1 3. rewrite Hsh, Hl, (mild_lives _ _ _ Hmild3).
  destruct (status_ok s) eqn:Hst.
  - left. destruct Hs as [_ ->]. rewrite Hl1, Hcf. do 2 f_equal. unfold edit_metas, added_map. by rewrite Hadd.
  - right. destruct Hs as [Hset Hsh2]. rewrite Hset, Hsh2. split; [exact Hl1|].
    intros (Hlog & Hnext & Hdead). destruct (LogAndApply_deletes e sys1 Hinv1) as (sys' & HL'); try done.
    + intros bs0 n. rewrite Hcf. intros Hbs0 Hn%Hdel. destruct (Hdead bs0 n Hbs0 Hn) as (l & Hl0 & Hlive).
      exists l. split; [done|]. destruct (evolve_deref _ _ l (proj1 Hmild)) as [_ Ho]. etrans; [exact Ho|exact Hlive].
    + rewrite HL in HL'. by injection HL' as ->.
Qed.

(** C10: A compaction deletes the blob files it leaves without live data. In the
    mode of merging levels, when the compaction is of the default column family,
    the manifest can be written and those files have not been deleted before,
    the handler succeeds, keeps the bookkeeping invariant, and afterwards exactly
    the live files remain that are not left dead; a file is left dead when it is
    a sorted file, the compaction dropped references to it, and its discardable
    bytes now fill it. Other column families keep their files. *)
Theorem compaction_deletes_dead_files (base : string -> option Z) (seq : Z)
    (info : CompactionJobInfo) (db : TitanDBImpl) (bs : BlobStorage) :
  compaction_ok info db bs -> level_merge (bs_cf_options bs) = true -> cji_cf_id info = 0 ->
  log_works (t_sys db) -> 0 <= set_next_file_number (sys_set (t_sys db)) ->
  let h := sh_heap (sys_shared (t_sys db)) in
  let diff := blob_files_size_diff (calc_sizes info) in
  (forall n l, files bs !! n = Some l -> left_dead bs h diff n -> is_obsolete (deref h l) = false) ->
  exists db', OnCompactionCompleted base seq info db = Ok db' /\ db_inv db' /\
    (forall id, id <> 0 -> db_lives db' !! id = db_lives db !! id) /\
    (forall n m, (db_lives db' !! 0 ≫= (.!! n)) = Some m <->
       (db_lives db !! 0 ≫= (.!! n)) = Some m /\ ~ left_dead bs h diff n).
Proof.
  intros Hok Hlm Hcf Hlog Hnext h diff Hlive.
  destruct (after_loop_edit seq info db bs Hok Hlm) as (_ & _ & _ & Hdel).
  destruct (compaction_edit base seq info db bs Hok Hlm (log_works_manifest _ Hlog))
    as (db' & Hrun & Hinv & Hl).
  pose proof (cok_cf _ _ _ Hok) as Hbs. rewrite Hcf in Hbs.
  exists db'. split; [done|]. split; [done|]. destruct Hl as [Hl|[_ []]].
  - rewrite Hl. split; [intros id Hne; by apply lookup_alter_ne|]. intros n m.
    rewrite lookup_alter_eq. unfold db_lives, lives. rewrite lookup_fmap, Hbs. cbn.
    rewrite lookup_spec_edit, lookup_empty. unfold deleted_set.
    destruct (decide (n ∈ _)) as [Hin|Hin]; rewrite elem_of_list_to_set, Hdel in Hin; naive_solver.
  - split_and!; [done..|]. intros bs0 n Hbs0 Hdead. rewrite Hbs in Hbs0. injection Hbs0 as <-.
    pose proof Hdead as (l & v & Hl & _). exists l. split; [done|]. by eapply Hlive.
Qed.

(** C39: The files of other column families are never deleted. The edit of a
    compaction is always addressed to the default column family: when the
    compaction is of another one (whose files have other numbers), every column
    family keeps all its live files, also those left without live data. *)
Theorem compaction_keeps_other_cf_files (base : string -> option Z) (seq : Z)
    (info : CompactionJobInfo) (db : TitanDBImpl) (bs : BlobStorage) :
  compaction_ok info db bs -> level_merge (bs_cf_options bs) = true -> cji_cf_id info <> 0 ->
  manifest (sys_set (t_sys db)) <> None ->
  (forall bs0 n l, column_families (sys_set (t_sys db)) !! 0 = Some bs0 ->
     files bs !! n = Some l -> files bs0 !! n = None) ->
  exists db', OnCompactionCompleted base seq info db = Ok db' /\ db_inv db' /\
    db_lives db' = db_lives db.
Proof.
  intros Hok Hlm Hcf Hman Hdis.
  destruct (after_loop_edit seq info db bs Hok Hlm) as (_ & _ & _ & Hdel).
  destruct (compaction_edit base seq info db bs Hok Hlm Hman) as (db' & Hrun & Hinv & Hl).
  exists db'. split; [done|]. split; [done|]. destruct Hl as [Hl|[Hl _]]; [|done].
  rewrite Hl. apply map_eq. intros id. rewrite lookup_alter. case_decide as Hid; [subst id|done].
  unfold db_lives, lives. rewrite lookup_fmap.
  destruct (column_families (sys_set (t_sys db)) !! 0) as [bs0|] eqn:Hbs0; [|done]. cbn. f_equal.
  apply map_eq. intros n. rewrite lookup_spec_edit, lookup_empty. unfold deleted_set.
  destruct (decide (n ∈ _)) as [Hin|Hin]; [|by destruct (live_files bs0 _ !! n)].
  rewrite elem_of_list_to_set, Hdel in Hin. destruct Hin as (l & v & Hfl & _).
  unfold live_files. rewrite lookup_live_of. by rewrite (Hdis bs0 n l eq_refl Hfl).
Qed.
End compaction.

(** ** Applications *)

Section witnesses.
#[local] Existing Instances leb128_coding rle_compressors mem_env map_to_list_iter mem_manifest
  blobs_map readers_map.

(** A compaction of column family [id] drops an SST file that referred to the
    rest of blob file 12. *)
Definition example_compaction (id : Z) : CompactionJobInfo :=
  MkCompactionJobInfo OK id ["a.sst"] []
    {[ "a.sst" := {[ kPropertiesName := encode_sizes {[ 12 := 4096 - 100 - kBlobHeaderSize - kBlobFooterSize ]} ]} ]} 6.

Definition example_files (id : Z) : BlobStorage :=
  default example_storage0.1 (column_families (sys_set (t_sys (example_db id))) !! id).

Lemma example_compaction_ok id :
  example_opens id -> column_families (sys_set (t_sys (example_db id))) !! id = Some (example_files id) ->
  blob_file_target_size (bs_cf_options (example_files id)) <> 0 ->
  compaction_ok (example_compaction id) (example_db id) (example_files id).
Proof.
  intros Hopen Hcf Htgt. split; [done|by apply example_db_inv|done|done|].
  intros n Hn. exfalso. revert Hn. unfold example_compaction, calc_sizes.
  cbn [cji_output_files cji_table_properties cji_input_files]. unfold calc_bfs at 1. cbn [foldl].
  rewrite calc_bfs_entries.
  destruct (calc_entry_loop (-1) false (entries_of {["a.sst" := {[kPropertiesName := encode_sizes {[12 := 4096 - 100 - kBlobHeaderSize - kBlobFooterSize]}]}]} ["a.sst"]) (MkBlobSizes ∅ ∅ ∅)) as (_ & _ & Ho).
  rewrite Ho. cbn [bz_outputs]. intros [Hn|[? _]]; [by apply elem_of_empty in Hn|done].
Qed.

Lemma compaction_deletes_dead_files_witness :
  exists db', OnCompactionCompleted (fun _ => None) 200 (example_compaction 0) (example_db 0) = Ok db' /\
    (db_lives db' !! 0 ≫= (.!! 12)) = None.
Proof.
  destruct (compaction_deletes_dead_files (fun _ => None) 200 (example_compaction 0) (example_db 0)
    (example_files 0)) as (db' & Hrun & _ & _ & Hl).
  - apply example_compaction_ok; [exact example_opens_0|vm_compute; reflexivity|vm_compute; discriminate].
  - vm_compute. reflexivity.
  - reflexivity.
  - vm_compute. intros record. by split.
  - vm_compute. discriminate.
  - intros n l Hl _. apply elem_of_map_to_list in Hl. apply list_elem_of_singleton in Hl as [= -> ->].
    vm_compute. reflexivity.
  - exists db'. split; [exact Hrun|].
    destruct (db_lives db' !! 0 ≫= (.!! 12)) as [m|] eqn:Hm; [|done]. exfalso.
    apply Hl in Hm as [_ []]. exists 1%positive, (- (4096 - 100 - kBlobHeaderSize - kBlobFooterSize)).
    repeat split; vm_compute; reflexivity.
Defined.

Lemma compaction_keeps_other_cf_files_witness :
  left_dead (example_files 5) (sh_heap (sys_shared (t_sys (example_db 5))))
    (blob_files_size_diff (calc_sizes (example_compaction 5))) 12 /\
  exists db', OnCompactionCompleted (fun _ => None) 200 (example_compaction 5) (example_db 5) = Ok db' /\
    db_lives db' = db_lives (example_db 5).
Proof.
  split.
  - exists 1%positive, (- (4096 - 100 - kBlobHeaderSize - kBlobFooterSize)).
    repeat split; vm_compute; reflexivity.
  - destruct (compaction_keeps_other_cf_files (fun _ => None) 200 (example_compaction 5) (example_db 5)
      (example_files 5)) as (db' & Hrun & _ & Hl).
    + apply example_compaction_ok; [exact example_opens_5|vm_compute; reflexivity|vm_compute; discriminate].
    + vm_compute. reflexivity.
    + by apply Z.eqb_neq.
    + vm_compute. discriminate.
    + intros bs0 n l Hbs0. exfalso. vm_compute in Hbs0. discriminate.
    + exists db'. split; [exact Hrun|exact Hl].
Defined.
End witnesses.
