(* ===== verification/FileManager.v ===== *)
(** * Creating blob files ([TitanDBImpl::FileManager] of src/db_impl.cc,
    src/blob_file_manager.h)

    Every writer of blob files gets a new file from the manager, and hands it
    back when it is complete ([BatchFinishFiles]) or not wanted
    ([BatchDeleteFiles]). A handle's [WritableFileWriter] is kept by the builder
    that writes to it, so a handle here has only the number and the name. *)

From S2P Require Import Prelude Rocks Options Stats Util BlobFormat Env BlobFileBuilder BlobFileReader VersionEdit BlobStorage StorageInv EditCollector BlobFileSet ApplyInv ManifestReplay Scheduler DbEvents DbEventsInv.

(** What the manager calls of the file system. *)
Class WritableFiles `{Env} := {
  env_NewWritableFile : string -> fs -> result writer * fs;
  (** [Sync] and [Close] of the writer of the file with that name. *)
  w_Sync : string -> writer -> fs -> Status * fs;
  w_Close : string -> writer -> fs -> Status * fs
}.

(** A new file is empty; a failure has a status that says so. *)
Class WritableFilesOk `{WritableFiles} : Prop := {
  new_writable_empty : forall name w f w', env_NewWritableFile name w = (Ok f, w') -> w_contents f = [];
  new_writable_error : forall name w s w', env_NewWritableFile name w = (Err s, w') -> status_ok s = false;
  new_writable_total : forall name w w', env_NewWritableFile name w <> (Fault, w')
}.

Record FileHandle := MkFileHandle { GetNumber : Z; GetName : string }.

Section manager.
Context `{Coding} `{Compressors} `{E : Env} `{BC : Cache bytes} `{FC : !Cache BlobFileReader}
        `{UnorderedIter} `{!ManifestIO} `{!WritableFiles}.
(** What the listeners make of a background error. *)
Context (listeners : Status -> Status).

Definition with_pending (p : gset Z) (db : TitanDBImpl) : TitanDBImpl :=
  MkTitanDBImpl (t_options db) (t_sys db) (t_sched db) (t_jobs db) (block_for_size db) (bg_error db)
    (has_bg_error db) p.

(** [NewFile]; the number is used up even when the file cannot be created. *)
Definition NewFile (db : TitanDBImpl) : result (FileHandle * writer) * TitanDBImpl :=
  let sys := t_sys db in
  let '(number, vs) := NewFileNumber (sys_set sys) in
  let name := BlobFileName (dirname (t_options db)) number in
  let '(f, w) := env_NewWritableFile name (sys_fs sys) in
  let db := with_sys (MkSys vs (sys_shared sys) w) db in
  match f with
  | Ok f => (Ok (MkFileHandle number name, f), with_pending ({[number]} ∪ pending_outputs db) db)
  | Err s => (Err s, db)
  | Fault => (Fault, db)
  end.

(** A file to add: its metadata and its handle, with the writer. *)
Definition finished := (loc * (FileHandle * writer))%type.

(** The loop of [BatchFinishFiles] that syncs and closes the files. *)
Fixpoint close_files (files : list finished) (w : fs) : Status * fs :=
  match files with
  | [] => (OK, w)
  | (_, (handle, f)) :: files =>
      let '(s, w) := w_Sync (GetName handle) f w in
      let '(s, w) := if status_ok s then w_Close (GetName handle) f w else (s, w) in
      if status_ok s then close_files files w else (s, w)
  end.

Definition add_files_edit (cf_id : Z) (files : list finished) : VersionEdit :=
  foldl (fun e f => VersionEdit_AddBlobFile f.1 e) (SetColumnFamilyID cf_id VersionEdit_default) files.

Definition BatchFinishFiles (cf_id : Z) (files : list finished) (db : TitanDBImpl)
    : result (Status * TitanDBImpl) :=
  let sys := t_sys db in
  let '(s, w) := close_files files (sys_fs sys) in
  let sys := MkSys (sys_set sys) (sys_shared sys) w in
  if negb (status_ok s) then Ok (s, with_sys sys db)
  else
    let* (s, sys) := LogAndApply (add_files_edit cf_id files) sys in
    let db := with_sys sys db in
    let db := if status_ok s then db else (SetBGError listeners s db).2 in
    Ok (s, with_pending (pending_outputs db ∖ list_to_set ((fun f => GetNumber f.2.1) <$> files)) db).

(** [BatchDeleteFiles]: the status of the last deletion is returned. *)
Definition BatchDeleteFiles (handles : list FileHandle) (db : TitanDBImpl) : Status * TitanDBImpl :=
  let sys := t_sys db in
  let '(s, w) := foldl (fun st handle => env_DeleteFile (GetName handle) st.2) (OK, sys_fs sys) handles in
  let db := with_sys (MkSys (sys_set sys) (sys_shared sys) w) db in
  (s, with_pending (pending_outputs db ∖ list_to_set (GetNumber <$> handles)) db).

(** [DeleteFile] of one handle. *)
Definition DeleteFile (handle : FileHandle) (db : TitanDBImpl) : Status * TitanDBImpl :=
  BatchDeleteFiles [handle] db.

(** ** Adding the files *)

(** The files of a batch are fresh objects with different numbers, fit for their
    column family. *)
Record batch_fresh (cf_id : Z) (files : list finished) (db : TitanDBImpl) : Prop := {
  bf_fresh : edit_fresh (column_families (sys_set (t_sys db))) (sh_heap (sys_shared (t_sys db)))
               (add_files_edit cf_id files);
  bf_manifest : manifest (sys_set (t_sys db)) <> None
}.

Lemma add_files_edit_added cf_id files :
  added_files (add_files_edit cf_id files) = files.*1 /\
  deleted_files (add_files_edit cf_id files) = [] /\
  column_family_id (add_files_edit cf_id files) = cf_id.
Proof.
  unfold add_files_edit. revert files. refine (rev_ind _ _ _); [done|].
  intros f files (Ha & Hd & Hc). rewrite foldl_snoc. cbn. rewrite fmap_app, Ha. done.
Qed.

(** A batch is added as a whole or not at all; what is added is the metadata. *)
Lemma BatchFinishFiles_ok cf_id files db :
  db_inv db -> batch_fresh cf_id files db ->
  exists s db', BatchFinishFiles cf_id files db = Ok (s, db') /\
    if status_ok s then
      db_inv db' /\
      db_lives db' = alter (fun live => edit_metas (sh_heap (sys_shared (t_sys db))) (add_files_edit cf_id files) ∪ live)
                       cf_id (db_lives db) /\
      pending_outputs db' = pending_outputs db ∖ list_to_set ((fun f => GetNumber f.2.1) <$> files)
    else sys_set (t_sys db') = sys_set (t_sys db) /\ sys_shared (t_sys db') = sys_shared (t_sys db).
Proof.
  intros Hinv [Hfresh Hman]. unfold BatchFinishFiles.
  destruct (close_files files (sys_fs (t_sys db))) as [s w].
  destruct (status_ok s) eqn:Hs; cbn [negb]; [|by eexists _, _; rewrite Hs].
  destruct (add_files_edit_added cf_id files) as (Ha & Hd & Hc).
  set (edit := add_files_edit cf_id files) in *.
  destruct (LogAndApply_refines edit (MkSys (sys_set (t_sys db)) (sys_shared (t_sys db)) w))
    as (s' & sys' & -> & Hs'); [done..|].
  cbn [result_bind sys_set sys_shared] in *. eexists s', _. split; [done|].
  destruct (status_ok s') eqn:Hok.
  2: { unfold SetBGError. rewrite Hok. cbv zeta. destruct (status_ok (listeners s')); exact Hs'. }
  destruct Hs' as [Hinv' Hl]. split; [exact Hinv'|]. split; [|done].
  unfold db_lives. cbn [t_sys with_pending with_sys]. rewrite Hl, Hc. apply map_eq. intros id.
  rewrite !lookup_alter. case_decide; [|done].
  destruct (lives (column_families (sys_set (t_sys db))) (sys_shared (t_sys db)) !! cf_id) as [live|]; [|done].
  cbn. f_equal. apply map_eq. intros n. rewrite lookup_spec_edit. unfold deleted_set. rewrite Hd. cbn.
  rewrite lookup_union. by destruct (edit_metas _ _ !! n), (live !! n).
Qed.
End manager.

(** ** Files in memory *)

Section mem_files.
#[local] Existing Instance mem_env.

Definition mem_files : @WritableFiles mem_env :=
  @Build_WritableFiles mem_env
    (fun name (w : gmap string bytes) => (Ok (MkMemWriter [] 1000000), <[name := []]> w))
    (fun name f (w : gmap string bytes) => (OK, <[name := mem_data f]> w))
    (fun name f (w : gmap string bytes) => (OK, <[name := mem_data f]> w)).

#[export] Instance mem_files_ok : @WritableFilesOk mem_env mem_files.
Proof. split; [|done..]. intros name w f w' [= <- _]. done. Qed.
End mem_files.
