(* ===== verification/StoredFiles.v ===== *)
(** * What is on disk

    The laws of the file system the end-to-end properties need: what syncing and
    closing a file makes readable, and that an operation on one file leaves the
    others alone. *)

From S2P Require Import Prelude Rocks Options Stats Util BlobFormat Env BlobFileBuilder BlobFileReader VersionEdit BlobStorage StorageInv EditCollector BlobFileSet ApplyInv ManifestReplay Scheduler DbEvents DbEventsInv FileManager.

(** The file with that name can be opened and holds [c]. *)
Definition holds_file `{Env} (w : fs) (name : string) (c : bytes) : Prop :=
  exists f, NewRandomAccessFile w name = Ok f /\ readable w f c.

(** The operation [w -> w'] leaves every file but [name] alone. *)
Definition only_touches `{Env} (name : string) (w w' : fs) : Prop :=
  forall name' c, name' <> name -> holds_file w name' c -> holds_file w' name' c.

Class StoredFilesOk `{E : Env} `{M : !ManifestIO} `{W : !WritableFiles} : Prop := {
  (** A synced or closed file holds what was appended to it. *)
  sync_holds : forall name f w w', w_Sync name f w = (OK, w') -> holds_file w' name (w_contents f);
  close_holds : forall name f w w', w_Close name f w = (OK, w') -> holds_file w' name (w_contents f);
  sync_touches : forall name f w, only_touches name w (w_Sync name f w).2;
  close_touches : forall name f w, only_touches name w (w_Close name f w).2;
  create_touches : forall name w, only_touches name w (env_NewWritableFile name w).2;
  delete_touches : forall name w, only_touches name w (env_DeleteFile name w).2;
  (** The manifest is a file as well. *)
  log_touches : forall log record w, only_touches log w (log_AddRecord log record w).2;
  log_sync_touches : forall log w, only_touches log w (SyncTitanManifest log w).2
}.

(** What [Env::DeleteFile] does to the name it is given: after a success the file
    cannot be opened, and no call creates a file. *)
Class DeleteFileOk `{E : Env} `{M : !ManifestIO} `{W : !WritableFiles} : Prop := {
  delete_removes : forall name w w', env_DeleteFile name w = (OK, w') -> forall f, NewRandomAccessFile w' name <> Ok f;
  delete_creates_nothing : forall name name' w f,
    NewRandomAccessFile (env_DeleteFile name w).2 name' = Ok f -> exists f', NewRandomAccessFile w name' = Ok f'
}.

Section touches.
Context `{Env}.

Lemma only_touches_trans name w1 w2 w3 :
  only_touches name w1 w2 -> only_touches name w2 w3 -> only_touches name w1 w3.
Proof. intros H1 H2 name' c Hne Hh. by apply H2, H1. Qed.

Lemma only_touches_refl name w : only_touches name w w.
Proof. by intros name' c _. Qed.
End touches.

(** ** The files in memory *)

Section mem_stored.
#[local] Existing Instances mem_env mem_manifest mem_files.

Lemma mem_holds (w : gmap string bytes) name c :
  holds_file (w : @fs mem_env) name c <-> exists c', w !! name = Some c' /\
    forall off n, 0 <= off -> 0 <= n -> pread c' off n = pread c off n.
Proof.
  unfold holds_file, readable. cbn. split.
  - intros (f & Hf & Hr). destruct (w !! name) as [c'|] eqn:Hc; [|done]. injection Hf as <-.
    exists c'. split; [done|]. intros off n Ho Hn. specialize (Hr off n Ho Hn). rewrite Hc in Hr.
    by injection Hr.
  - intros (c' & Hc & Hr). exists name. rewrite Hc. split; [done|]. intros off n Ho Hn.
    by rewrite Hr.
Qed.

Lemma mem_insert_touches (w : gmap string bytes) name x :
  only_touches (H := mem_env) name w (<[name := x]> w).
Proof.
  intros name' c Hne. rewrite !mem_holds. intros (c' & Hc & Hr). exists c'.
  by rewrite lookup_insert_ne by congruence.
Qed.

Lemma mem_insert_holds (w : gmap string bytes) name x :
  holds_file (<[name := x]> w : @fs mem_env) name x.
Proof. apply mem_holds. exists x. by rewrite lookup_insert_eq. Qed.

#[export] Instance mem_stored_ok : @StoredFilesOk mem_env mem_manifest mem_files.
Proof.
  split; cbn.
  - intros name f w w' [= <-]. apply mem_insert_holds.
  - intros name f w w' [= <-]. apply mem_insert_holds.
  - intros name f w. apply mem_insert_touches.
  - intros name f w. apply mem_insert_touches.
  - intros name w. apply mem_insert_touches.
  - intros name w name' c Hne. rewrite !mem_holds. intros (c' & Hc & Hr). exists c'. split; [|done].
    by rewrite lookup_delete_ne by congruence.
  - intros log record w. apply mem_insert_touches.
  - intros log w. apply only_touches_refl.
Qed.

#[export] Instance mem_delete_ok : @DeleteFileOk mem_env mem_manifest mem_files.
Proof.
  split; cbn.
  - intros name w w' [= <-] f. by rewrite lookup_delete_eq.
  - intros name name' w f. destruct (decide (name' = name)) as [->|Hne].
    + by rewrite lookup_delete_eq.
    + rewrite lookup_delete_ne by done. by eauto.
Qed.
End mem_stored.
