(* ===== verification/Directory.v ===== *)
(** * The Titan directory

    The laws of the directory that opening a database relies on: a manifest log
    returns the records appended to it, "CURRENT" names the log it was set to,
    names can be told apart, and an operation on one file leaves the others
    alone. *)

From Stdlib Require Import Ascii.
From S2P Require Import Prelude Rocks Options Stats Util BlobFormat Env BlobFileBuilder BlobFileReader VersionEdit BlobStorage StorageInv EditCollector BlobFileSet ApplyInv ManifestReplay Scheduler DbEvents DbEventsInv FileManager StoredFiles.

(** A file of a directory. *)
Definition in_dir (dir f : string) : string := dir +:+ "/" +:+ f.

Class DirectoryLaws `{E : Env} `{M : !ManifestIO} := {
  (** The log of that name is intact and holds these records. *)
  is_log : fs -> string -> list bytes -> Prop;
  log_read : forall w log rs, is_log w log rs -> read_log w log = Ok ((fun r => (r, OK)) <$> rs);
  log_new : forall log w w', NewWritableFile log w = (OK, w') -> is_log w' log [];
  log_append : forall log r w w' rs, log_AddRecord log r w = (OK, w') -> is_log w log rs -> is_log w' log (rs ++ [r]);
  log_synced : forall log w w' rs, SyncTitanManifest log w = (OK, w') -> is_log w log rs -> is_log w' log rs;
  (** "CURRENT" has the name of a log and a newline. *)
  current_read : forall dir n w w', SetCurrentFile dir n w = (OK, w') ->
    exists name, ReadFileToString w' (CurrentFileName dir) = Ok (name ++ [Byte.x0a]) /\
      in_dir dir (name_of_bytes name) = DescriptorFileName dir n;
  current_log : forall dir n w w' rs, SetCurrentFile dir n w = (OK, w') ->
    is_log w (DescriptorFileName dir n) rs -> is_log w' (DescriptorFileName dir n) rs;
  read_exists : forall w name c, ReadFileToString w name = Ok c -> FileExists w name = OK;
  (** Names. *)
  blob_not_descriptor : forall dir n m, BlobFileName dir n <> DescriptorFileName dir m;
  parse_blob : forall dir f n, is_u64 n -> in_dir dir f = BlobFileName dir n -> ParseFileName f = Some (n, kBlobFile);
  parse_descriptor : forall dir f n, is_u64 n -> in_dir dir f = DescriptorFileName dir n ->
    ParseFileName f = Some (n, kDescriptorFile);
  parse_current : forall dir f n t, in_dir dir f = CurrentFileName dir -> ParseFileName f = Some (n, t) -> t = kOtherFile;
  (** Blob files stay as they are. *)
  new_log_touches : forall log w, only_touches log w (NewWritableFile log w).2;
  set_current_keeps : forall dir m w n c,
    holds_file w (BlobFileName dir n) c -> holds_file (SetCurrentFile dir m w).2 (BlobFileName dir n) c;
  (** So does what is not deleted, or not written to. *)
  delete_log : forall name log w rs, name <> log -> is_log w log rs -> is_log (env_DeleteFile name w).2 log rs;
  delete_read : forall name name' w c, name <> name' ->
    ReadFileToString w name' = Ok c -> ReadFileToString (env_DeleteFile name w).2 name' = Ok c;
  append_read : forall log r w dir n c, log = DescriptorFileName dir n ->
    ReadFileToString w (CurrentFileName dir) = Ok c ->
    ReadFileToString (log_AddRecord log r w).2 (CurrentFileName dir) = Ok c;
  sync_read : forall log w dir n c, log = DescriptorFileName dir n ->
    ReadFileToString w (CurrentFileName dir) = Ok c ->
    ReadFileToString (SyncTitanManifest log w).2 (CurrentFileName dir) = Ok c
}.

(** ** The directory in memory *)

Section mem_directory.
#[local] Existing Instances leb128_coding mem_env mem_manifest mem_files.

Lemma mem_log_records_one r acc c :
  mem_log_records acc (mem_log_record r ++ c) = (acc ++ r, OK) :: mem_log_records [] c.
Proof.
  revert acc. induction r as [|b r IH]; intros acc; cbn [mem_log_record foldr app mem_log_records].
  - by rewrite app_nil_r.
  - unfold mem_log_record in IH. rewrite IH. by rewrite <- app_assoc.
Qed.

Definition mem_log_of (rs : list bytes) : bytes := concat (mem_log_record <$> rs).

Lemma mem_log_records_of rs : mem_log_records [] (mem_log_of rs) = (fun r => (r, OK)) <$> rs.
Proof.
  induction rs as [|r rs IH]; [done|]. unfold mem_log_of in *. cbn [fmap list_fmap concat].
  by rewrite mem_log_records_one, IH.
Qed.

Lemma mem_log_of_snoc rs r : mem_log_of (rs ++ [r]) = mem_log_of rs ++ mem_log_record r.
Proof. unfold mem_log_of. rewrite fmap_app, concat_app. cbn. by rewrite app_nil_r. Qed.

(** A name of digits is read back as its number. *)
Lemma mem_digit_char x : (x < 10)%N -> mem_digit (pretty.pretty_N_char x) = Some x.
Proof.
  intros Hx. destruct (decide (x = 0 \/ x = 1 \/ x = 2 \/ x = 3 \/ x = 4 \/ x = 5 \/ x = 6 \/ x = 7 \/ x = 8 \/ x = 9)%N)
    as [[->|[->|[->|[->|[->|[->|[->|[->|[->| ->]]]]]]]]]|Hn]; [done..|]. lia.
Qed.

Lemma mem_number_go x s : mem_number (pretty.pretty_N_go x s) 0 = mem_number s x.
Proof.
  revert s. induction (N.lt_wf_0 x) as [x _ IH]; intros s.
  assert (x = 0 \/ 0 < x)%N as [->|Hx] by lia; [by rewrite pretty.pretty_N_go_0|].
  rewrite pretty.pretty_N_go_step by done. rewrite IH by (by apply N.div_lt).
  cbn [mem_number]. rewrite mem_digit_char by (by apply N.mod_lt). cbn [mbind option_bind].
  f_equal. rewrite (N.div_mod' x 10) at 3. lia.
Qed.

Lemma mem_number_pretty (n : Z) : 0 <= n -> mem_number (pretty n) 0 = Some (Z.to_N n).
Proof.
  intros Hn. unfold pretty, pretty.pretty_Z. destruct n as [|p|p]; [done| |lia].
  unfold pretty, pretty.pretty_positive, pretty, pretty.pretty_N. case_decide; [done|].
  by rewrite mem_number_go.
Qed.

(** Only a manifest's name starts like one. *)
Lemma strip_prefix_app p s : strip_prefix p (p +:+ s) = Some s.
Proof.
  induction p as [|a p IH]; [done|]. transitivity (strip_prefix p (p +:+ s)); [|exact IH].
  change (strip_prefix (String.String a p) (String.String a p +:+ s))
    with (if Ascii.eqb a a then strip_prefix p (p +:+ s) else None). by rewrite (proj2 (Ascii.eqb_eq a a) eq_refl).
Qed.

Lemma strip_prefix_number p s acc n : p <> "" -> mem_number s acc = Some n ->
  (forall a q, p = String.String a q -> mem_digit a = None) -> strip_prefix p s = None.
Proof.
  destruct p as [|a p]; [done|]. intros _ Hs Hp. specialize (Hp a p eq_refl).
  destruct s as [|b s]; [done|]. cbn [mem_number strip_prefix] in Hs |- *. destruct (Ascii.eqb a b) eqn:Hab; [|done].
  apply Ascii.eqb_eq in Hab as <-. by rewrite Hp in Hs.
Qed.

Lemma mem_parse_number s n : mem_number s 0 = Some n -> mem_parse s = Some (Z.of_N n, kBlobFile).
Proof.
  intros Hs. unfold mem_parse. rewrite (strip_prefix_number "MANIFEST-" s 0 n); [by rewrite Hs|done|done|].
  by intros a q [= <- <-].
Qed.

Lemma mem_parse_descriptor n : is_u64 n -> mem_parse (mem_descriptor n) = Some (n, kDescriptorFile).
Proof.
  intros [Hn _]. unfold mem_parse, mem_descriptor. rewrite strip_prefix_app, mem_number_pretty by done.
  cbn. by rewrite Z2N.id.
Qed.

Lemma in_dir_inj dir f g : in_dir dir f = in_dir dir g -> f = g.
Proof.
  unfold in_dir. induction dir as [|a dir IH]; intros Heq; injection Heq as Heq; [done|by apply IH].
Qed.

Lemma mem_name_of name : String.string_of_list_byte (mem_name name) = name.
Proof. apply String.string_of_list_byte_of_string. Qed.

(** The name of a blob file does not start with a letter. *)
Lemma mem_pretty_letter (n : Z) a s : mem_digit a = None -> a <> "-"%char -> pretty n <> String.String a s.
Proof.
  intros Ha Hm Heq. destruct (decide (0 <= n)) as [Hn|Hn].
  - apply mem_number_pretty in Hn. rewrite Heq in Hn. cbn [mem_number] in Hn. by rewrite Ha in Hn.
  - destruct n as [|p|p]; [by destruct Hn|by destruct Hn|]. apply Hm. by injection Heq.
Qed.

#[export] Instance mem_directory : @DirectoryLaws mem_env mem_manifest.
Proof.
  refine (@Build_DirectoryLaws mem_env mem_manifest
    (fun w log rs => (w : gmap string bytes) !! log = Some (mem_log_of rs)) _ _ _ _ _ _ _ _ _ _ _ _ _ _ _ _ _);
    cbn.
  - intros w log rs ->. by rewrite mem_log_records_of.
  - intros log w w' [= <-]. by rewrite lookup_insert_eq.
  - intros log r w w' rs [= <-] Hw. rewrite lookup_insert_eq, Hw. cbn. by rewrite mem_log_of_snoc.
  - by intros log w w' rs [= <-].
  - intros dir n w w' [= <-]. exists (mem_name (mem_descriptor n)). rewrite lookup_insert_eq, mem_name_of. done.
  - intros dir n w w' rs [= <-] Hw. rewrite lookup_insert_ne; [done|]. by intros ?%(in_dir_inj dir "CURRENT").
  - intros w name c. by destruct (w !! name).
  - intros dir n m Heq%(in_dir_inj dir (pretty n) (mem_descriptor m)).
    by apply (mem_pretty_letter n "M"%char ("ANIFEST-" +:+ pretty m)) in Heq.
  - intros dir f n [Hn _] ->%(in_dir_inj dir f (pretty n)).
    rewrite (mem_parse_number _ _ (mem_number_pretty n Hn)). by rewrite Z2N.id.
  - intros dir f n Hn ->%(in_dir_inj dir f (mem_descriptor n)). by apply mem_parse_descriptor.
  - by intros dir f n t ->%(in_dir_inj dir f "CURRENT").
  - intros log w. apply mem_insert_touches.
  - intros dir m w n c. rewrite !mem_holds. intros (c' & Hc & Hr). exists c'. split; [|done].
    rewrite lookup_insert_ne; [done|]. intros Heq%(in_dir_inj dir "CURRENT" (pretty n)).
    symmetry in Heq. by apply (mem_pretty_letter n "C"%char "URRENT") in Heq.
  - intros name log w rs Hne Hw. by rewrite lookup_delete_ne.
  - intros name name' w c Hne. by rewrite lookup_delete_ne.
  - intros log r w dir n c -> Hc. rewrite lookup_insert_ne; [done|]. by intros ?%(in_dir_inj dir (mem_descriptor n)).
  - done.
Defined.
End mem_directory.
