(* ===== verification/ForegroundBuilder.v ===== *)
(** * Separating values before they are written
    ([ForegroundBuilder] of src/table_builder.h, src/table_builder.cc)

    With [sep_before_flush] a large value goes to a blob file before the write
    reaches the base database. A builder has several slots, each with a thread of
    its own that serves the slot's queue in order and is the only one to touch
    the slot; a caller waits for the answer, so a call is one step of its slot. *)

From S2P Require Import Prelude Rocks Options Stats Util BlobFormat Env BaseDb BlobFileBuilder BlobFileReader VersionEdit BlobStorage StorageInv EditCollector BlobFileSet ApplyInv ManifestReplay Scheduler DbEvents DbEventsInv FileManager.

Section foreground.
Context `{Coding} `{Compressors} `{E : Env} `{BC : Cache bytes} `{FC : !Cache BlobFileReader}
        `{UnorderedIter} `{!ManifestIO} `{!WritableFiles} `{B : BaseDB}.
Context (listeners : Status -> Status).
(** [std::hash<std::string>], and the counter of written bytes a new builder
    starts with. *)
Context (hash : bytes -> Z) (bytes0 : Z).

(** [handle_[b]], [builder_[b]] and [finished_files_[b]]. *)
Record Slot := MkSlot {
  slot_handle : option FileHandle;
  slot_builder : option BlobFileBuilder;
  slot_finished : list finished
}.

Record ForegroundBuilder := MkForegroundBuilder {
  fb_cf_id : Z;
  fb_db_options : TitanDBOptions;
  fb_cf_options : TitanCFOptions;
  fb_slots : list Slot
}.

(** The constructor and [Init]. *)
Definition ForegroundBuilder_new (cf_id : Z) (db : TitanDBOptions) (cf : TitanCFOptions)
    : ForegroundBuilder :=
  MkForegroundBuilder cf_id db cf
    (replicate (Z.to_nat (num_foreground_builders db)) (MkSlot None None [])).

(** The metadata object of a completed file. *)
Definition add_meta (m : BlobFileMeta) (db : TitanDBImpl) : loc * TitanDBImpl :=
  let sh := sys_shared (t_sys db) in
  let '(l, h) := make_shared m (sh_heap sh) in
  (l, with_sys (with_shared (set_heap h sh) (t_sys db)) db).

(** [FinishBlob]: a file that cannot be finished ends the process. *)
Definition FinishBlob (slot : Slot) (db : TitanDBImpl) : result (Slot * TitanDBImpl) :=
  match slot_handle slot, slot_builder slot with
  | None, None => Ok (slot, db)
  | Some handle, Some b =>
      let '(s, b) := BlobFileBuilder_Finish b in
      if status_ok s then
        let m := BlobFileMeta_new (GetNumber handle) (w_GetFileSize (bfb_file b)) (num_entries b) 0
                   (bfb_smallest_key b) (bfb_largest_key b) kUnSorted in
        let '(file, db) := add_meta (FileStateTransit FileEvent.kReset m) db in
        Ok (MkSlot None None (slot_finished slot ++ [(file, (handle, bfb_file b))]), db)
      else Fault
  | _, _ => Fault
  end.

(** A request with an empty key, the one [Flush] makes. *)
Definition flush_request (cf_id : Z) (slot : Slot) (db : TitanDBImpl)
    : result (Slot * TitanDBImpl) :=
  let* (slot, db) := FinishBlob slot db in
  match slot_finished slot with
  | [] => Ok (slot, db)
  | files =>
      let* (_, db) := BatchFinishFiles listeners cf_id files db in
      Ok (MkSlot (slot_handle slot) (slot_builder slot) [], db)
  end.

(** The slot with a file to write to. *)
Definition open_slot (cf_id : Z) (cf : TitanCFOptions) (slot : Slot) (db : TitanDBImpl)
    : result (FileHandle * BlobFileBuilder) * TitanDBImpl :=
  match slot_handle slot, slot_builder slot with
  | None, None =>
      match NewFile db with
      | (Ok (handle, file), db) =>
          let b := BlobFileBuilder_new cf file bytes0 in
          match column_families (sys_set (t_sys db)) !! cf_id with
          | None => (Fault, db)
          | Some bs =>
              let bs := match AddBuildingFile (sys_fs (t_sys db)) (GetNumber handle) bs with
                        | Ok bs => bs
                        | _ => bs
                        end in
              let vs := with_cfs (<[cf_id := bs]> (column_families (sys_set (t_sys db))))
                          (sys_set (t_sys db)) in
              (Ok (handle, b), with_sys (MkSys vs (sys_shared (t_sys db)) (sys_fs (t_sys db))) db)
          end
      | (Err s, db) => (Err s, db)
      | (Fault, db) => (Fault, db)
      end
  | Some handle, Some b => (Ok (handle, b), db)
  | _, _ => (Fault, db)
  end.

(** One request of [handleRequest]: the answer, the batch, the slot. The status
    of the builder is not asked for. *)
Definition handle_request (cf_id : Z) (cf : TitanCFOptions) (key value : bytes) (wb : batch)
    (slot : Slot) (db : TitanDBImpl) : result (Status * batch * Slot * TitanDBImpl) :=
  if bool_decide (key = []) then
    let* (slot, db) := flush_request cf_id slot db in
    Ok (OK, wb, slot, db)
  else
    match open_slot cf_id cf slot db with
    | (Err s, db) => Ok (s, wb, slot, db)
    | (Fault, _) => Fault
    | (Ok (handle, b), db) =>
        let '(h, b) := BlobFileBuilder_Add (MkBlobRecord key value false) BlobHandle_default b in
        let sh := sys_shared (t_sys db) in
        let stats := AddStats (sh_stats sh) cf_id LIVE_BLOB_SIZE (Z.of_nat (length value)) in
        let db := with_sys (with_shared (set_stats stats sh) (t_sys db)) db in
        let slot := MkSlot (Some handle) (Some b) (slot_finished slot) in
        let* (slot, db) :=
          if blob_file_target_size cf <=? w_GetFileSize (bfb_file b) then FinishBlob slot db
          else Ok (slot, db) in
        let '(s, wb) := PutBlobIndex cf_id key
                          (BlobIndex_EncodeTo (MkBlobIndex (GetNumber handle) h)) wb in
        Ok (s, wb, slot, db)
    end.

(** The slot of a key. *)
Definition slot_of (fb : ForegroundBuilder) (key : bytes) : nat :=
  let n := num_foreground_builders (fb_db_options fb) in
  if n >? 1 then Z.to_nat (hash key mod n) else 0.

(** The values [Add] leaves to the base database. *)
Definition too_small (cf : TitanCFOptions) (value : bytes) : bool :=
  let size := Z.of_nat (length value) in
  (size <? min_blob_size cf) || (level_merge cf && (size <? mid_blob_size cf)).

Definition ForegroundBuilder_Add (key value : bytes) (wb : batch) (fb : ForegroundBuilder)
    (db : TitanDBImpl) : result (Status * batch * ForegroundBuilder * TitanDBImpl) :=
  if too_small (fb_cf_options fb) value then Ok (InvalidArgument "", wb, fb, db)
  else
    let b := slot_of fb key in
    match fb_slots fb !! b with
    | None => Fault
    | Some slot =>
        let* (s, wb, slot, db) := handle_request (fb_cf_id fb) (fb_cf_options fb) key value wb slot db in
        Ok (s, wb, MkForegroundBuilder (fb_cf_id fb) (fb_db_options fb) (fb_cf_options fb)
                     (<[b := slot]> (fb_slots fb)), db)
    end.

(** [Flush]: the empty request for every slot. *)
Fixpoint flush_slots (cf_id : Z) (slots : list Slot) (db : TitanDBImpl)
    : result (list Slot * TitanDBImpl) :=
  match slots with
  | [] => Ok ([], db)
  | slot :: slots =>
      let* (slot, db) := flush_request cf_id slot db in
      let* (slots, db) := flush_slots cf_id slots db in
      Ok (slot :: slots, db)
  end.

Definition ForegroundBuilder_Flush (fb : ForegroundBuilder) (db : TitanDBImpl)
    : result (ForegroundBuilder * TitanDBImpl) :=
  let* (slots, db) := flush_slots (fb_cf_id fb) (fb_slots fb) db in
  Ok (MkForegroundBuilder (fb_cf_id fb) (fb_db_options fb) (fb_cf_options fb) slots, db).
End foreground.
