(* ===== verification/TableBuilder.v ===== *)
(** * Separating values when tables are built
    ([TitanTableBuilder] of src/table_builder.h, src/table_builder.cc and
    src/table_factory.cc)

    Flushes and compactions write their tables through a [TitanTableBuilder],
    which hands the entries on to a RocksDB table builder. Large values go to blob
    files on the way, and in a compaction with [level_merge] values of blob files
    that are to be merged are copied to new ones. The clocks and the I/O counters
    of RocksDB are left out. *)

From S2P Require Import Prelude Rocks Options Stats Util BlobFormat Env BlobFileBuilder BlobFileReader VersionEdit BlobStorage StorageInv EditCollector BlobFileSet ApplyInv ManifestReplay Scheduler DbEvents DbEventsInv FileManager ForegroundBuilder.

(** [ParsedInternalKey] of db/dbformat.h; of its types the two the code names. *)
Record ParsedInternalKey := MkParsedInternalKey {
  user_key : bytes;
  sequence : Z;
  key_type : Z
}.

Definition kTypeValue : Z := 1.
Definition kTypeBlobIndex : Z := 17.

Definition set_key_type (t : Z) (k : ParsedInternalKey) : ParsedInternalKey :=
  MkParsedInternalKey (user_key k) (sequence k) t.

(** RocksDB's internal keys and its [TableBuilder]. *)
Class Tables := {
  ParseInternalKey : bytes -> option ParsedInternalKey;
  AppendInternalKey : ParsedInternalKey -> bytes;
  table : Type;
  table_Add : bytes -> bytes -> table -> table;
  table_status : table -> Status;
  table_Finish : table -> table;
  table_Abandon : table -> table;
  (** The entries of the table, in order. *)
  table_entries : table -> list (bytes * bytes)
}.

(** A builder that has failed stays as it is; a successful call adds the entry. *)
Class TablesOk (T : Tables) : Prop := {
  table_add_failed : forall k v t, table_status t <> OK -> table_Add k v t = t;
  table_add_ok : forall k v t, table_status (table_Add k v t) = OK ->
    table_entries (table_Add k v t) = table_entries t ++ [(k, v)];
  table_finish_ok : forall t, table_status (table_Finish t) = OK ->
    table_status t = OK /\ table_entries (table_Finish t) = table_entries t
}.

Section table_builder.
Context `{Coding} `{Compressors} `{E : Env} `{BC : Cache bytes} `{FC : !Cache BlobFileReader}
        `{UnorderedIter} `{!ManifestIO} `{!WritableFiles} `{T : Tables}.
Context (listeners : Status -> Status) (bytes0 : Z).

(** [encountered_files_] keeps the pointer [FindFile] gave, null or not. *)
Record TitanTableBuilder := MkTitanTableBuilder {
  tb_status_ : Status;
  tb_cf_id : Z;
  tb_cf_options : TitanCFOptions;
  tb_base : table;
  tb_handle : option FileHandle;
  tb_builder : option BlobFileBuilder;
  tb_finished : list finished;
  merging_files : gmap Z BlobFilePrefetcher;
  encountered_files : gmap Z (option loc);
  merge_low_level : bool;
  target_level : Z;
  merge_level : Z;
  tb_bytes_read : Z;
  tb_bytes_written : Z
}.

(** The constructor: the storage of the column family is asked at once. *)
Definition TitanTableBuilder_new (cf_id : Z) (cf : TitanCFOptions) (base_builder : table)
    (merge target : Z) (db : TitanDBImpl) : result TitanTableBuilder :=
  match column_families (sys_set (t_sys db)) !! cf_id with
  | None => Fault
  | Some bs =>
      Ok (MkTitanTableBuilder OK cf_id cf base_builder None None [] ∅ ∅ (ShouldGCLowLevel bs)
            target merge 0 0)
  end.

(** [TitanTableFactory::NewTableBuilder], with the run mode of the moment. *)
Definition NewTableBuilder (cf_options : TitanCFOptions) (run_mode : TitanBlobRunMode)
    (base_builder : table) (level cf_id : Z) (db : TitanDBImpl) : result TitanTableBuilder :=
  let cf := MkTitanCFOptions (cf_base cf_options) (min_blob_size cf_options) (mid_blob_size cf_options)
              (blob_file_compression cf_options) (blob_file_target_size cf_options) (blob_cache cf_options)
              (max_gc_batch_size cf_options) (min_gc_batch_size cf_options)
              (blob_file_discardable_ratio cf_options) (high_level_blob_discardable_ratio cf_options)
              (sample_file_size_ratio cf_options) (merge_small_file_threshold cf_options) run_mode
              (lazy_merge cf_options) (level_merge cf_options) (range_merge cf_options)
              (max_sorted_runs cf_options) in
  let merge := Z.max 1 (num_levels (cf_base cf) - 2) in
  let merge := if negb (lazy_merge cf) && negb (merge =? 1) then 0 else merge in
  TitanTableBuilder_new cf_id cf base_builder merge level db.

Definition tb_set_status (s : Status) (tb : TitanTableBuilder) : TitanTableBuilder :=
  MkTitanTableBuilder s (tb_cf_id tb) (tb_cf_options tb) (tb_base tb) (tb_handle tb) (tb_builder tb)
    (tb_finished tb) (merging_files tb) (encountered_files tb) (merge_low_level tb) (target_level tb)
    (merge_level tb) (tb_bytes_read tb) (tb_bytes_written tb).

Definition tb_set_base (b : table) (tb : TitanTableBuilder) : TitanTableBuilder :=
  MkTitanTableBuilder (tb_status_ tb) (tb_cf_id tb) (tb_cf_options tb) b (tb_handle tb) (tb_builder tb)
    (tb_finished tb) (merging_files tb) (encountered_files tb) (merge_low_level tb) (target_level tb)
    (merge_level tb) (tb_bytes_read tb) (tb_bytes_written tb).

(** [blob_handle_], [blob_builder_] and [finished_blobs_]. *)
Definition tb_set_out (h : option FileHandle) (b : option BlobFileBuilder) (fs : list finished)
    (tb : TitanTableBuilder) : TitanTableBuilder :=
  MkTitanTableBuilder (tb_status_ tb) (tb_cf_id tb) (tb_cf_options tb) (tb_base tb) h b fs
    (merging_files tb) (encountered_files tb) (merge_low_level tb) (target_level tb)
    (merge_level tb) (tb_bytes_read tb) (tb_bytes_written tb).

Definition tb_set_files (ms : gmap Z BlobFilePrefetcher) (es : gmap Z (option loc))
    (tb : TitanTableBuilder) : TitanTableBuilder :=
  MkTitanTableBuilder (tb_status_ tb) (tb_cf_id tb) (tb_cf_options tb) (tb_base tb) (tb_handle tb)
    (tb_builder tb) (tb_finished tb) ms es (merge_low_level tb) (target_level tb)
    (merge_level tb) (tb_bytes_read tb) (tb_bytes_written tb).

Definition tb_count (read written : Z) (tb : TitanTableBuilder) : TitanTableBuilder :=
  MkTitanTableBuilder (tb_status_ tb) (tb_cf_id tb) (tb_cf_options tb) (tb_base tb) (tb_handle tb)
    (tb_builder tb) (tb_finished tb) (merging_files tb) (encountered_files tb) (merge_low_level tb)
    (target_level tb) (merge_level tb) (tb_bytes_read tb +u64 read) (tb_bytes_written tb +u64 written).

Definition tb_put (k v : bytes) (tb : TitanTableBuilder) : TitanTableBuilder :=
  tb_set_base (table_Add k v (tb_base tb)) tb.

(** [status()] and [ok()]. *)
Definition tb_status (tb : TitanTableBuilder) : Status :=
  if status_ok (tb_status_ tb) then
    if status_ok (table_status (tb_base tb)) then
      match tb_builder tb with
      | Some b => bfb_status b
      | None => OK
      end
    else table_status (tb_base tb)
  else tb_status_ tb.

Definition tb_ok (tb : TitanTableBuilder) : bool := status_ok (tb_status tb).

Definition with_sh (sh : Shared) (db : TitanDBImpl) : TitanDBImpl :=
  with_sys (with_shared sh (t_sys db)) db.

(** [FinishBlobFile]; the handle is moved away in both branches, the builder is
    dropped only on success. *)
Definition FinishBlobFile (tb : TitanTableBuilder) (db : TitanDBImpl)
    : result (TitanTableBuilder * TitanDBImpl) :=
  match tb_builder tb with
  | None => Ok (tb, db)
  | Some b =>
      let '(_, b) := BlobFileBuilder_Finish b in
      let tb := tb_set_out (tb_handle tb) (Some b) (tb_finished tb) tb in
      match tb_handle tb with
      | None => Fault
      | Some handle =>
          if tb_ok tb then
            let m := BlobFileMeta_new (GetNumber handle) (w_GetFileSize (bfb_file b)) (num_entries b)
                       (wrap32 (target_level tb)) (bfb_smallest_key b) (bfb_largest_key b) kSorted in
            let '(file, db) := add_meta (FileStateTransit FileEvent.kFlushOrCompactionOutput m) db in
            Ok (tb_set_out None None (tb_finished tb ++ [(file, (handle, bfb_file b))]) tb, db)
          else
            let '(s, db) := DeleteFile handle db in
            Ok (tb_set_status s (tb_set_out None (Some b) (tb_finished tb) tb), db)
      end
  end.

(** The first lines of [AddBlob]: a file to write to. *)
Definition open_blob (tb : TitanTableBuilder) (db : TitanDBImpl)
    : result (TitanTableBuilder * TitanDBImpl) :=
  match tb_builder tb with
  | Some _ => Ok (tb, db)
  | None =>
      match NewFile db with
      | (Ok (handle, file), db) =>
          Ok (tb_set_out (Some handle) (Some (BlobFileBuilder_new (tb_cf_options tb) file bytes0))
                (tb_finished tb) tb, db)
      | (Err s, db) => Ok (tb_set_status s tb, db)
      | (Fault, _) => Fault
      end
  end.

(** [AddBlob]: the encoded index, when the status is ok. *)
Definition AddBlob (key value : bytes) (tb : TitanTableBuilder) (db : TitanDBImpl)
    : result (option bytes * TitanTableBuilder * TitanDBImpl) :=
  if negb (tb_ok tb) then Ok (None, tb, db)
  else
    let* (tb, db) := open_blob tb db in
    if negb (status_ok (tb_status_ tb)) then Ok (None, tb, db)
    else
      match tb_handle tb, tb_builder tb with
      | Some handle, Some b =>
          let size := Z.of_nat (length value) in
          let sh := sys_shared (t_sys db) in
          let db := with_sh (set_stats (AddStats (sh_stats sh) (tb_cf_id tb) LIVE_BLOB_SIZE size) sh) db in
          let record := MkBlobRecord key value (level_merge (tb_cf_options tb)) in
          let '(h, b) := BlobFileBuilder_Add record BlobHandle_default b in
          let tb := tb_count 0 (BlobRecord_size record)
                      (tb_count 0 (Z.of_nat (length key) + size)
                         (tb_set_out (Some handle) (Some b) (tb_finished tb) tb)) in
          if tb_ok tb then
            let* (tb, db) :=
              if blob_file_target_size (tb_cf_options tb) <=? w_GetFileSize (bfb_file b)
              then FinishBlobFile tb db else Ok (tb, db) in
            Ok (Some (BlobIndex_EncodeTo (MkBlobIndex (GetNumber handle) h)), tb, db)
          else Ok (None, tb, db)
      | _, _ => Fault
      end.

(** The branches of [Add] that write the value to a blob file. *)
Definition add_separated (ikey : ParsedInternalKey) (value : bytes) (tb : TitanTableBuilder)
    (db : TitanDBImpl) : result (TitanTableBuilder * TitanDBImpl) :=
  let* (index_value, tb, db) := AddBlob (user_key ikey) value tb db in
  if tb_ok tb then
    Ok (tb_put (AppendInternalKey (set_key_type kTypeBlobIndex ikey)) (default [] index_value) tb, db)
  else Ok (tb, db).

(** The branch of the mode [kFallback]: the value comes back into the table, or
    the index stays when the value cannot be read. *)
Definition add_fallback (key value : bytes) (ikey : ParsedInternalKey) (tb : TitanTableBuilder)
    (db : TitanDBImpl) : result (TitanTableBuilder * TitanDBImpl) :=
  match BlobIndex_DecodeFrom BlobIndex_default value with
  | Fault => Fault
  | Err s => Ok (tb_set_status s tb, db)
  | Ok (index, _) =>
      match column_families (sys_set (t_sys db)) !! tb_cf_id tb with
      | None => Fault
      | Some bs =>
          let '(r, sh) := bs_Get (sys_fs (t_sys db)) index BlobRecord_default
                            (bs, sys_shared (t_sys db)) in
          let db := with_sh sh db in
          match r with
          | Ok record =>
              Ok (tb_count (BlobRecord_size record) 0
                    (tb_put (AppendInternalKey (set_key_type kTypeValue ikey)) (record_value record) tb), db)
          | Err _ => Ok (tb_put key value tb, db)
          | Fault => Fault
          end
      end
  end.

(** [ShouldMerge] of the object behind the pointer. *)
Definition ShouldMerge (tb : TitanTableBuilder) (h : heap) (file : option loc) : bool :=
  match file with
  | None => false
  | Some l =>
      let m := deref h l in
      (file_type m =? kSorted) &&
      ((merge_level tb <=? target_level tb) && (wrap_i32 (file_level m) <? target_level tb)
       || bool_decide (file_state m = FileState.kToMerge)
       || bool_decide (file_state m = FileState.kToGC))
  end.

(** The lookup in [encountered_files_]; its first answer for a number is kept. *)
Definition encounter (bs : option BlobStorage) (number : Z) (tb : TitanTableBuilder)
    : result (option loc * TitanTableBuilder) :=
  match encountered_files tb !! number with
  | Some file => Ok (file, tb)
  | None =>
      match bs with
      | None => Fault
      | Some bs =>
          let file := bs_FindFile number bs in
          Ok (file, tb_set_files (merging_files tb) (<[number := file]> (encountered_files tb)) tb)
      end
  end.

(** The prefetcher of the file, made at the first use. *)
Definition merging_file (number : Z) (tb : TitanTableBuilder) (db : TitanDBImpl)
    : result BlobFilePrefetcher * TitanDBImpl :=
  match merging_files tb !! number with
  | Some p => (Ok p, db)
  | None =>
      match column_families (sys_set (t_sys db)) !! tb_cf_id tb with
      | None => (Fault, db)
      | Some bs =>
          let '(p, sh) := bs_NewPrefetcher (sys_fs (t_sys db)) number (bs, sys_shared (t_sys db)) in
          (p, with_sh sh db)
      end
  end.

(** Reads the record through the prefetcher, which it keeps. *)
Definition read_merging (index : BlobIndex) (p : BlobFilePrefetcher) (tb : TitanTableBuilder)
    (db : TitanDBImpl) : result BlobRecord * TitanTableBuilder * TitanDBImpl :=
  let sh := sys_shared (t_sys db) in
  let c := sh_caches sh in
  let '(r, bc, p, _) := BlobFilePrefetcher_Get (sys_fs (t_sys db)) p (blob_handle index)
                          BlobRecord_default (blobs c) in
  (let* (record, _) := r in Ok record,
   tb_set_files (<[index_file_number index := p]> (merging_files tb)) (encountered_files tb) tb,
   with_sh (set_caches (MkCaches (file_cache c) bc) sh) db).

(** The branch of [Add] that merges blob files. *)
Definition add_merging (key value : bytes) (ikey : ParsedInternalKey) (tb : TitanTableBuilder)
    (db : TitanDBImpl) : result (TitanTableBuilder * TitanDBImpl) :=
  match BlobIndex_DecodeFrom BlobIndex_default value with
  | Fault => Fault
  | Err s => Ok (tb_set_status s tb, db)
  | Ok (index, _) =>
      let* (file, tb) := encounter (column_families (sys_set (t_sys db)) !! tb_cf_id tb)
                           (index_file_number index) tb in
      if ShouldMerge tb (sh_heap (sys_shared (t_sys db))) file then
        match merging_file (index_file_number index) tb db with
        | (Fault, _) => Fault
        | (Err s, db) => Ok (tb_put key value (tb_set_status s tb), db)
        | (Ok p, db) =>
            let '(r, tb, db) := read_merging index p tb db in
            match r with
            | Fault => Fault
            | Err _ => Ok (tb_put key value tb, db)
            | Ok record =>
                let* (index_value, tb, db) := AddBlob (user_key ikey) (record_value record) tb db in
                if tb_ok tb then
                  Ok (tb_put (AppendInternalKey (set_key_type kTypeBlobIndex ikey))
                        (default [] index_value) tb, db)
                else Ok (tb_put key value tb, db)
            end
        end
      else Ok (tb_put key value tb, db)
  end.

(** The conditions of the branches of [Add]. *)
Definition falls_back (cf : TitanCFOptions) (ikey : ParsedInternalKey) : bool :=
  (key_type ikey =? kTypeBlobIndex) && bool_decide (blob_run_mode cf = kFallback).

Definition separates (cf : TitanCFOptions) (ikey : ParsedInternalKey) (value : bytes) : bool :=
  (key_type ikey =? kTypeValue) && (min_blob_size cf <=? Z.of_nat (length value))
  && bool_decide (blob_run_mode cf = kNormal).

Definition merges (tb : TitanTableBuilder) (ikey : ParsedInternalKey) : bool :=
  (key_type ikey =? kTypeBlobIndex) && level_merge (tb_cf_options tb)
  && ((merge_level tb <=? target_level tb) || merge_low_level tb)
  && bool_decide (blob_run_mode (tb_cf_options tb) = kNormal).

Definition TitanTableBuilder_Add (key value : bytes) (tb : TitanTableBuilder) (db : TitanDBImpl)
    : result (TitanTableBuilder * TitanDBImpl) :=
  if negb (tb_ok tb) then Ok (tb, db)
  else
    match ParseInternalKey key with
    | None => Ok (tb_set_status (Corruption "") tb, db)
    | Some ikey =>
        if falls_back (tb_cf_options tb) ikey then add_fallback key value ikey tb db
        else if separates (tb_cf_options tb) ikey value then add_separated ikey value tb db
        else if merges tb ikey then add_merging key value ikey tb db
        else Ok (tb_put key value tb, db)
    end.

(** [UpdateInternalOpStats]. *)
Definition tb_UpdateInternalOpStats (tb : TitanTableBuilder) (db : TitanDBImpl) : TitanDBImpl :=
  let op := if target_level tb =? 0 then FLUSH else COMPACTION in
  let update st :=
    let st := AddOpStats st op COUNT 1 in
    let st := AddOpStats st op BYTES_READ (tb_bytes_read tb) in
    let st := AddOpStats st op BYTES_WRITTEN (tb_bytes_written tb) in
    match tb_builder tb with
    | Some _ => AddOpStats st op OUTPUT_FILE_NUM 1
    | None => st
    end in
  let sh := sys_shared (t_sys db) in
  with_sh (set_stats (alter update (tb_cf_id tb) <$> sh_stats sh) sh) db.

(** [Finish] up to the files being complete. *)
Definition complete (tb : TitanTableBuilder) (db : TitanDBImpl)
    : result (TitanTableBuilder * TitanDBImpl) :=
  FinishBlobFile (tb_set_base (table_Finish (tb_base tb)) tb) db.

Definition TitanTableBuilder_Finish (tb : TitanTableBuilder) (db : TitanDBImpl)
    : result (Status * TitanTableBuilder * TitanDBImpl) :=
  let* (tb, db) := complete tb db in
  let* (s, db) := BatchFinishFiles listeners (tb_cf_id tb) (tb_finished tb) db in
  let tb := tb_set_status s tb in
  Ok (tb_status tb, tb, tb_UpdateInternalOpStats tb db).

Definition TitanTableBuilder_Abandon (tb : TitanTableBuilder) (db : TitanDBImpl)
    : result (TitanTableBuilder * TitanDBImpl) :=
  let tb := tb_set_base (table_Abandon (tb_base tb)) tb in
  match tb_builder tb with
  | None => Ok (tb, db)
  | Some b =>
      match tb_handle tb with
      | None => Fault
      | Some handle =>
          let '(s, db) := DeleteFile handle db in
          Ok (tb_set_status s (tb_set_out None (Some b) (tb_finished tb) tb), db)
      end
  end.

(** The calls of a flush or a compaction for one table. *)
Fixpoint add_entries (kvs : list (bytes * bytes)) (tb : TitanTableBuilder) (db : TitanDBImpl)
    : result (TitanTableBuilder * TitanDBImpl) :=
  match kvs with
  | [] => Ok (tb, db)
  | (k, v) :: kvs =>
      let* (tb, db) := TitanTableBuilder_Add k v tb db in
      add_entries kvs tb db
  end.
End table_builder.

(** ** Tables in memory *)

(** An internal key ends with eight bytes: the sequence number and the type. *)
Definition mem_parse (k : bytes) : option ParsedInternalKey :=
  let n := (length k - 8)%nat in
  match le_get 8 (drop n k) with
  | Some (packed, _) => Some (MkParsedInternalKey (take n k) (packed / 256) (packed mod 256))
  | None => None
  end.

Definition mem_ikey (k : ParsedInternalKey) : bytes :=
  user_key k ++ le_put 8 (sequence k * 256 + key_type k).

Definition mem_tables : Tables := {|
  ParseInternalKey := mem_parse;
  AppendInternalKey := mem_ikey;
  table := list (bytes * bytes);
  table_Add := fun k v t => t ++ [(k, v)];
  table_status := fun _ => OK;
  table_Finish := fun t => t;
  table_Abandon := fun _ => [];
  table_entries := fun t => t
|}.

#[export] Instance mem_tables_ok : TablesOk mem_tables.
Proof. by split. Qed.
