(* ===== verification/GCJob.v ===== *)
(** * The garbage collection job (src/blob_gc_job.h, src/blob_gc_job.cc)

    A job reads its input files in key order, keeps the records the base database
    still refers to, writes them to new blob files, and then, in this order, adds
    the new files, points the keys to them and deletes the inputs. The mutex is
    held only while the blob file set changes. The clock and the counters fed by
    it are left out. *)

From S2P Require Import Prelude Rocks Options Stats Util BlobFormat Env BaseDb BlobFileBuilder BlobFileReader BlobFileIterator MergeIterator VersionEdit BlobStorage StorageInv EditCollector BlobFileSet ApplyInv ManifestReplay BlobGC Scheduler DbEvents DbEventsInv FileManager ForegroundBuilder.

(** The counters of [metrics_] that do not measure time. *)
Inductive GCMetric :=
| m_bytes_read | m_bytes_written | gc_num_keys_overwritten | gc_bytes_overwritten
| gc_num_keys_relocated | gc_bytes_relocated | gc_num_new_files | gc_num_files
| gc_small_file | gc_discardable.

#[export] Instance GCMetric_eq_dec : EqDecision GCMetric.
Proof. solve_decision. Defined.

Definition Metrics := GCMetric -> Z.
Definition metric_add (k : GCMetric) (v : Z) (ms : Metrics) : Metrics :=
  fun k' => if decide (k' = k) then ms k +u64 v else ms k'.

Section job.
Context `{Coding} `{Compressors} `{E : Env} `{BC : Cache bytes} `{FC : !Cache BlobFileReader}
        `{UnorderedIter} `{!ManifestIO} `{!WritableFiles} `{B : BaseDB} `{PriorityQueue}.
Context (listeners : Status -> Status) (hash : bytes -> Z) (bytes0 : Z).
(** The value of a member no constructor sets. *)
Context (indeterminate : Z).

(** [GarbageCollectionWriteCallback]. *)
Record WriteCallback := MkWriteCallback {
  cb_cf_id : Z;
  cb_key : bytes;
  cb_blob_index : BlobIndex;
  cb_value : bytes;
  cb_read_bytes : Z
}.

Definition cb_read (n : Z) (cb : WriteCallback) : WriteCallback :=
  MkWriteCallback (cb_cf_id cb) (cb_key cb) (cb_blob_index cb) (cb_value cb) n.

(** [Callback]: whether the key still has the index the job read. *)
Definition Callback (cb : WriteCallback) (d : base) : result (Status * WriteCallback) :=
  let read n := cb_read (Z.of_nat (length (cb_key cb)) + n) cb in
  match base_GetImpl d (cb_cf_id cb) (cb_key cb) with
  | Fault => Fault
  | Err s => if IsNotFound s then Ok (Busy "key deleted", read 0) else Ok (s, cb)
  | Ok (index_entry, is_blob_index) =>
      let cb := read (Z.of_nat (length index_entry)) in
      if negb is_blob_index then Ok (Busy "key overwritten with other value", cb)
      else
        match BlobIndex_DecodeFrom BlobIndex_default index_entry with
        | Fault => Fault
        | Err s => Ok (s, cb)
        | Ok (other, _) =>
            Ok (if BlobIndex_eqb (cb_blob_index cb) other then OK
                else Busy "key overwritten with other blob", cb)
        end
  end.

(** The job; an output is kept with its builder. *)
Record BlobGCJob := MkBlobGCJob {
  blob_gc : BlobGC;
  metrics : Metrics;
  blob_file_builders : list (FileHandle * BlobFileBuilder);
  rewrite_batches : list (batch * WriteCallback)
}.

Definition BlobGCJob_new (gc : BlobGC) : BlobGCJob := MkBlobGCJob gc (fun _ => 0) [] [].

Definition job_metric (k : GCMetric) (v : Z) (job : BlobGCJob) : BlobGCJob :=
  MkBlobGCJob (blob_gc job) (metric_add k v (metrics job)) (blob_file_builders job)
    (rewrite_batches job).

Definition push_output (o : FileHandle * BlobFileBuilder) (job : BlobGCJob) : BlobGCJob :=
  MkBlobGCJob (blob_gc job) (metrics job) (blob_file_builders job ++ [o]) (rewrite_batches job).

Definition push_batch (wb : batch * WriteCallback) (job : BlobGCJob) : BlobGCJob :=
  MkBlobGCJob (blob_gc job) (metrics job) (blob_file_builders job) (rewrite_batches job ++ [wb]).

(** The id of the job's column family. *)
Definition job_cf (job : BlobGCJob) : Z := default 0 (gc_cf_id (blob_gc job)).

Definition SampleCandidateFiles (job : BlobGCJob) : BlobGCJob :=
  MkBlobGCJob (set_sampled_inputs (gc_inputs (blob_gc job)) (blob_gc job)) (metrics job)
    (blob_file_builders job) (rewrite_batches job).

(** [DoSample] up to its first return; the rest of its body is never reached. *)
Definition DoSample (m : BlobFileMeta) (selected : bool) (job : BlobGCJob) : bool * BlobGCJob :=
  let cf := titan_cf_options (blob_gc job) in
  if file_size m <=? merge_small_file_threshold cf then (true, job_metric gc_small_file 1 job)
  else if double_leb (blob_file_discardable_ratio cf) (GetDiscardableRatio m)
  then (true, job_metric gc_discardable 1 job)
  else (selected, job).

(** [BuildIterator]; [w] is the file system. *)
Fixpoint build_iterators (w : fs) (db : TitanDBOptions) (cf : TitanCFOptions) (h : heap)
    (inputs : list loc) : result (list BlobFileIterator) :=
  match inputs with
  | [] => Ok []
  | l :: inputs =>
      let m := deref h l in
      let* file := NewBlobFileReader w (file_number m) db in
      let* its := build_iterators w db cf h inputs in
      Ok (BlobFileIterator_new file (file_number m) (file_size m) cf :: its)
  end.

Definition BuildIterator (w : fs) (db : TitanDBOptions) (h : heap) (gc : BlobGC)
    : result BlobFileMergeIterator :=
  let* its := build_iterators w db (titan_cf_options gc) h (sampled_inputs gc) in
  Ok (BlobFileMergeIterator_new its (comparator (cf_base (titan_cf_options gc)))).

(** [DiscardEntry]: whether the base database no longer refers to the record, and
    the bytes counted as read. *)
Definition DiscardEntry (d : base) (cf_id : Z) (key : bytes) (blob_index : BlobIndex)
    : result bool * Z :=
  match base_GetImpl d cf_id key with
  | Fault => (Fault, 0)
  | Err s => if IsNotFound s then (Ok true, Z.of_nat (length key)) else (Err s, 0)
  | Ok (index_entry, is_blob_index) =>
      let size := Z.of_nat (length key) + Z.of_nat (length index_entry) in
      if negb is_blob_index then (Ok true, size)
      else
        (let* (other, _) := BlobIndex_DecodeFrom BlobIndex_default index_entry in
         Ok (negb (BlobIndex_eqb blob_index other)), size)
  end.

(** ** The run *)

(** The loop's state: the job, the file being written with the size of its
    records, and what the loop changes outside. *)
Record GCRun := MkGCRun {
  run_job : BlobGCJob;
  run_out : option (FileHandle * BlobFileBuilder);
  run_file_size : Z;
  run_db : TitanDBImpl;
  run_fb : ForegroundBuilder;
  run_base : base
}.

Definition run_with_job (job : BlobGCJob) (r : GCRun) : GCRun :=
  MkGCRun job (run_out r) (run_file_size r) (run_db r) (run_fb r) (run_base r).

(** The record is written in front of the memtable again. *)
Definition gc_foreground (key value : bytes) (r : GCRun) : result (Status * GCRun) :=
  let* (add_status, wb, fb, db) :=
    ForegroundBuilder_Add listeners hash bytes0 key value batch_empty (run_fb r) (run_db r) in
  if status_ok add_status then
    let '(s, d) := base_Write wb (run_base r) in
    Ok (s, MkGCRun (run_job r) (run_out r) (run_file_size r) db fb d)
  else Ok (OK, MkGCRun (run_job r) (run_out r) (run_file_size r) db fb (run_base r)).

(** A file for the next record: the current one, or a new one. With a target size
    of 0 the first turn keeps null pointers as an output. *)
Definition gc_output (r : GCRun) : result (FileHandle * BlobFileBuilder) * GCRun :=
  let cf := titan_cf_options (blob_gc (run_job r)) in
  let full := blob_file_target_size cf <=? run_file_size r in
  match run_out r, full with
  | Some o, false => (Ok o, r)
  | None, true => (Fault, r)
  | out, _ =>
      let job := match out with Some o => push_output o (run_job r) | None => run_job r end in
      let '(f, db) := NewFile (run_db r) in
      match f with
      | Ok (handle, file) =>
          let o := (handle, BlobFileBuilder_new cf file bytes0) in
          (Ok o, MkGCRun job (Some o) 0 db (run_fb r) (run_base r))
      | Err s => (Err s, MkGCRun job None (run_file_size r) db (run_fb r) (run_base r))
      | Fault => (Fault, MkGCRun job None (run_file_size r) db (run_fb r) (run_base r))
      end
  end.

(** Rewrites one record. *)
Definition gc_rewrite (key value : bytes) (blob_index : BlobIndex) (r : GCRun)
    : result (Status * bool * GCRun) :=
  match gc_output r with
  | (Fault, _) => Fault
  | (Err s, r) => Ok (s, false, r)
  | (Ok (handle, b), r) =>
      let record := MkBlobRecord key value false in
      let size := BlobRecord_size record in
      let job := job_metric m_bytes_written size (run_job r) in
      let '(h, b) := BlobFileBuilder_Add record BlobHandle_default b in
      let index_entry := BlobIndex_EncodeTo (MkBlobIndex (GetNumber handle) h) in
      let '(s, wb) := PutBlobIndex (job_cf job) key index_entry batch_empty in
      let job := push_batch (wb, MkWriteCallback (job_cf job) key blob_index index_entry indeterminate) job in
      Ok (s, status_ok s,
          MkGCRun job (Some (handle, b)) (run_file_size r +u64 size) (run_db r) (run_fb r) (run_base r))
  end.

(** One turn of the loop: the status, whether the loop goes on, the state. *)
Definition gc_entry (e : entry) (r : GCRun) : result (Status * bool * GCRun) :=
  let '(key, value, blob_index) := e in
  let size := handle_size (blob_handle blob_index) in
  let r := run_with_job (job_metric m_bytes_read size (run_job r)) r in
  let '(discard, bytes) := DiscardEntry (run_base r) (job_cf (run_job r)) key blob_index in
  let job := job_metric m_bytes_read bytes (run_job r) in
  match discard with
  | Fault => Fault
  | Err s => Ok (s, false, run_with_job job r)
  | Ok discardable =>
      if discardable then
        Ok (OK, true, run_with_job (job_metric gc_bytes_overwritten size
                                      (job_metric gc_num_keys_overwritten 1 job)) r)
      else if sep_before_flush (t_options (run_db r))
              && negb (level_merge (titan_cf_options (blob_gc job))) then
        let* (s, r) := gc_foreground key value (run_with_job job r) in
        Ok (s, true, r)
      else gc_rewrite key value blob_index (run_with_job job r)
  end.

(** The loop over the merging iterator. [stop i] is what [IsShutingDown] returns
    in turn [i], and [w] the file system the inputs are read from: they are
    complete, so nothing changes them while the job runs. *)
Fixpoint gc_loop (fuel : nat) (w : fs) (stop : nat -> bool) (i : nat) (mi : BlobFileMergeIterator)
    (s : Status) (r : GCRun) : result (Status * BlobFileMergeIterator * GCRun) :=
  if BlobFileMergeIterator_Valid mi then
    match fuel, BlobFileMergeIterator_entry mi with
    | S fuel, Some e =>
        if stop i then Ok (ShutdownInProgress, mi, r)
        else
          let* (s, go, r) := gc_entry e r in
          if go : bool then
            let* mi := BlobFileMergeIterator_Next w mi in
            gc_loop fuel w stop (S i) mi s r
          else Ok (s, mi, r)
    | _, _ => Fault
    end
  else Ok (s, mi, r).

(** Enough turns: a record takes at least one byte of its file. *)
Definition gc_fuel (h : heap) (inputs : list loc) : nat :=
  foldr (fun l n => (Z.to_nat (file_size (deref h l)) + n)%nat) O inputs.

Definition DoRunGC (stop : nat -> bool) (job : BlobGCJob) (db : TitanDBImpl) (fb : ForegroundBuilder)
    (d : base) : result (Status * GCRun) :=
  let h := sh_heap (sys_shared (t_sys db)) in
  let w := sys_fs (t_sys db) in
  let r := MkGCRun job None 0 db fb d in
  match BuildIterator w (t_options db) h (blob_gc job) with
  | Fault => Fault
  | Err s => Ok (s, r)
  | Ok mi =>
      let* mi := BlobFileMergeIterator_SeekToFirst w mi in
      let* (s, mi, r) := gc_loop (gc_fuel h (sampled_inputs (blob_gc job))) w stop 0 mi OK r in
      let si := BlobFileMergeIterator_status mi in
      if status_ok si then
        if status_ok s then
          Ok (s, match run_out r with
                 | Some o => MkGCRun (push_output o (run_job r)) None (run_file_size r) (run_db r)
                               (run_fb r) (run_base r)
                 | None => r
                 end)
        else Ok (s, r)
      else Ok (si, r)
  end.

Definition Run (stop : nat -> bool) (job : BlobGCJob) (db : TitanDBImpl) (fb : ForegroundBuilder)
    (d : base) : result (Status * GCRun) :=
  let job := SampleCandidateFiles job in
  match sampled_inputs (blob_gc job) with
  | [] => Ok (OK, MkGCRun job None 0 db fb d)
  | _ => DoRunGC stop job db fb d
  end.

(** ** The end *)

(** The first loop of [InstallOutputBlobFiles]: the builders up to a failure. *)
Fixpoint finish_builders (bs : list (FileHandle * BlobFileBuilder)) (n : Z)
    : Status * list (FileHandle * BlobFileBuilder) * Z :=
  match bs with
  | [] => (OK, [], n)
  | (handle, b) :: bs =>
      let '(s, b) := BlobFileBuilder_Finish b in
      if status_ok s then
        let '(s, bs, n) := finish_builders bs (n + 1) in (s, (handle, b) :: bs, n)
      else (s, (handle, b) :: bs, n)
  end.

(** The metadata of an output. *)
Definition output_meta (db : TitanDBImpl) (o : FileHandle * BlobFileBuilder) : BlobFileMeta :=
  FileStateTransit FileEvent.kGCOutput
    (BlobFileMeta_new (GetNumber o.1) (w_GetFileSize (bfb_file o.2)) 0 0
       (bfb_smallest_key o.2) (bfb_largest_key o.2)
       (if sep_before_flush (t_options db) then kUnSorted else kSorted)).

Fixpoint output_files (bs : list (FileHandle * BlobFileBuilder)) (db : TitanDBImpl)
    : list finished * TitanDBImpl :=
  match bs with
  | [] => ([], db)
  | o :: bs =>
      let '(file, db) := add_meta (output_meta db o) db in
      let '(files, db) := output_files bs db in
      ((file, (o.1, bfb_file o.2)) :: files, db)
  end.

(** [InstallOutputBlobFiles]; when a file cannot be finished, the status is that
    of deleting the files. *)
Definition InstallOutputBlobFiles (job : BlobGCJob) (db : TitanDBImpl)
    : result (Status * BlobGCJob * TitanDBImpl) :=
  let '(s, bs, n) := finish_builders (blob_file_builders job) 0 in
  let job := MkBlobGCJob (blob_gc job) (metric_add gc_num_new_files n (metrics job)) bs
               (rewrite_batches job) in
  if status_ok s then
    let '(files, db) := output_files bs db in
    let* (s, db) := BatchFinishFiles listeners (job_cf job) files db in
    let gc := if status_ok s then foldl (fun gc f => AddOutputFile f.1 gc) (blob_gc job) files
              else blob_gc job in
    Ok (s, MkBlobGCJob gc (metrics job) bs (rewrite_batches job), db)
  else
    let '(s, db) := BatchDeleteFiles bs.*1 db in
    Ok (s, job, db).

(** The loop of [RewriteValidKeyToLSM]. *)
Fixpoint rewrite_loop (stop : nat -> bool) (i : nat) (cf_id : Z) (wbs : list (batch * WriteCallback))
    (s : Status) (ms : Metrics) (d : base) : Status * Metrics * base :=
  match wbs with
  | [] => (s, ms, d)
  | (wb, cb) :: wbs =>
      if IsDropped d cf_id then (Aborted "Column family drop", ms, d)
      else if stop i then (ShutdownInProgress, ms, d)
      else
        let size := handle_size (blob_handle (cb_blob_index cb)) in
        let '(s, d) := base_Write wb d in
        match s with
        | OK =>
            rewrite_loop stop (S i) cf_id wbs s
              (metric_add m_bytes_read (cb_read_bytes cb)
                 (metric_add gc_bytes_relocated size
                    (metric_add gc_num_keys_relocated 1
                       (metric_add m_bytes_written (GetDataSize wb) ms)))) d
        | Busy _ =>
            rewrite_loop stop (S i) cf_id wbs s
              (metric_add m_bytes_read (cb_read_bytes cb)
                 (metric_add gc_bytes_overwritten size
                    (metric_add gc_num_keys_overwritten 1 ms))) d
        | _ => (s, ms, d)
        end
  end.

Definition IsBusy (s : Status) : bool := match s with Busy _ => true | _ => false end.

(** [RewriteValidKeyToLSM] writes the batches without their callbacks. *)
Definition RewriteValidKeyToLSM (stop : nat -> bool) (job : BlobGCJob) (d : base)
    : Status * BlobGCJob * base :=
  let '(s, ms, d) := rewrite_loop stop 0 (job_cf job) (rewrite_batches job) OK (metrics job) d in
  (if IsBusy s then OK else s,
   MkBlobGCJob (blob_gc job) ms (blob_file_builders job) (rewrite_batches job), d).

Definition delete_inputs_edit (cf_id seq : Z) (h : heap) (inputs : list loc) : VersionEdit :=
  foldl (fun e l => DeleteBlobFile (file_number (deref h l)) seq e)
    (SetColumnFamilyID cf_id VersionEdit_default) inputs.

Definition DeleteInputBlobFiles (job : BlobGCJob) (d : base) (db : TitanDBImpl)
    : result (Status * BlobGCJob * TitanDBImpl) :=
  let inputs := sampled_inputs (blob_gc job) in
  let edit := delete_inputs_edit (job_cf job) (GetLatestSequenceNumber d)
                (sh_heap (sys_shared (t_sys db))) inputs in
  let* (s, sys) := LogAndApply edit (t_sys db) in
  Ok (s, job_metric gc_num_files (Z.of_nat (length inputs)) job, with_sys sys db).

(** The counters [UpdateInternalOpStats] feeds, those that measure time or I/O
    apart. *)
Definition job_stats (ms : Metrics) (st : TitanInternalStats) : TitanInternalStats :=
  foldl (fun st '(t, v) => AddOpStats st GC t v) st
    [(COUNT, 1); (BYTES_READ, ms m_bytes_read); (BYTES_WRITTEN, ms m_bytes_written);
     (INPUT_FILE_NUM, ms gc_num_files); (OUTPUT_FILE_NUM, ms gc_num_new_files)].

Definition UpdateInternalOpStats (job : BlobGCJob) (db : TitanDBImpl) : TitanDBImpl :=
  let sh := sys_shared (t_sys db) in
  let stats := match sh_stats sh with
               | None => None
               | Some st => Some (alter (job_stats (metrics job)) (job_cf job) st)
               end in
  with_sys (with_shared (set_stats stats sh) (t_sys db)) db.

(** [Finish]. *)
Definition Finish (stop : nat -> bool) (job : BlobGCJob) (db : TitanDBImpl) (fb : ForegroundBuilder)
    (d : base) : result (Status * BlobGCJob * TitanDBImpl * base) :=
  let* (s, job, db, d) :=
    if sep_before_flush (t_options db) && negb (level_merge (fb_cf_options fb)) then Ok (OK, job, db, d)
    else
      let* (s, job, db) := InstallOutputBlobFiles job db in
      if status_ok s then
        let '(s, job, d) := RewriteValidKeyToLSM stop job d in Ok (s, job, db, d)
      else Ok (s, job, db, d) in
  let* (s, job, db) :=
    if status_ok s && negb (IsDropped d (job_cf job)) then DeleteInputBlobFiles job d db
    else Ok (s, job, db) in
  Ok (s, job, if status_ok s then UpdateInternalOpStats job db else db, d).

(** ** [BackgroundGC] of src/db_impl_gc.cc *)

(** Picks a collection for the column family and marks its inputs. *)
Definition pick_for (cf_id : Z) (db : TitanDBImpl) : result (option BlobGC * TitanDBImpl) :=
  let sys := t_sys db in
  let storage := if IsColumnFamilyObsolete cf_id (sys_set sys) then None
                 else GetBlobStorage cf_id (sys_set sys) in
  match storage with
  | None => Ok (None, db)
  | Some bs =>
      let* (gc, h) := PickBlobGC (bs_cf_options bs) bs (sh_heap (sys_shared sys)) in
      Ok (SetColumnFamily cf_id <$> gc, with_sys (with_shared (set_heap h (sys_shared sys)) sys) db)
  end.

(** Whether another collection is asked for at once. *)
Definition gc_again (base_property : string -> option Z) (cf : TitanCFOptions) (gc : BlobGC)
    (db : TitanDBImpl) : bool :=
  let total_size :=
    default 0 (GetIntProperty base_property 0 "rocksdb.titandb.live-blob-file-size" db) in
  let wisc_gc := negb (level_merge cf) && (total_size >? wisc_gc_size cf) in
  let s := t_sched db in
  let bg_gc := (bg_gc_scheduled s - 1 +u64 Z.of_nat (length (gc_queue s))
                <? wrap32 (2 * max_background_gc (t_options db)))
               && (block_for_size db || trigger_next gc) in
  bg_gc || wisc_gc.

(** Writers blocked by the size are let go when it has shrunk. *)
Definition unblock (base_property : string -> option Z) (db : TitanDBImpl) : TitanDBImpl :=
  let total_size :=
    default 0 (GetIntProperty base_property 0 "rocksdb.titandb.live-blob-file-size" db) in
  if block_for_size db && (total_size <? block_write_size (t_options db))
  then MkTitanDBImpl (t_options db) (t_sys db) (t_sched db) (t_jobs db) false (bg_error db)
         (has_bg_error db) (pending_outputs db)
  else db.

Definition with_sched (s : Scheduler) (db : TitanDBImpl) : TitanDBImpl :=
  MkTitanDBImpl (t_options db) (t_sys db) s (t_jobs db) (block_for_size db) (bg_error db)
    (has_bg_error db) (pending_outputs db).

Definition BackgroundGC (base_property : string -> option Z) (stop stop' : nat -> bool) (cf_id : Z)
    (fb : ForegroundBuilder) (db : TitanDBImpl) (d : base)
    : result (Status * ForegroundBuilder * TitanDBImpl * base) :=
  let* (picked, db) := pick_for cf_id db in
  match picked with
  | None => Ok (OK, fb, db, d)
  | Some gc =>
      let* (s, r) := Run stop (BlobGCJob_new gc) db fb d in
      let* (s, job, db, d) :=
        if status_ok s then Finish stop' (run_job r) (run_db r) (run_fb r) (run_base r)
        else Ok (s, run_job r, run_db r, run_base r) in
      let sh := sys_shared (t_sys db) in
      let db := with_sys (with_shared (set_heap (ReleaseGcFiles (blob_gc job) (sh_heap sh)) sh) (t_sys db)) db in
      let db := unblock base_property db in
      let db := if gc_again base_property (titan_cf_options (blob_gc job)) (blob_gc job) db
                then with_sched (AddToGCQueue cf_id (t_sched db)) db else db in
      Ok (s, run_fb r, if status_ok s then db else (SetBGError listeners s db).2, d)
  end.
End job.
