(* ===== verification/GCJobInv.v ===== *)
(** * What a garbage collection guarantees

    The keys of the base database keep their values, and the input files are
    deleted only when nothing refers to them. *)

From S2P Require Import Prelude Rocks Options Stats Util BlobFormat Env BaseDb BlobFileBuilder BlobFileReader BlobFileIterator MergeIterator VersionEdit BlobStorage StorageInv EditCollector BlobFileSet ApplyInv ManifestReplay BlobGC Scheduler DbEvents DbEventsInv FileManager ForegroundBuilder GCJob.

(** ** Building a file step by step *)

Section builder.
Context `{Coding} `{Compressors} `{E : Env}.

Lemma AddAll_snoc rs r b0 :
  BlobFileBuilder_AddAll (rs ++ [r]) b0 =
  let '(hs, b) := BlobFileBuilder_AddAll rs b0 in
  let '(h, b) := BlobFileBuilder_Add r BlobHandle_default b in
  (hs ++ [h], b).
Proof.
  revert b0; induction rs as [|r' rs IH]; intros b0; cbn [BlobFileBuilder_AddAll app].
  - by destruct (BlobFileBuilder_Add r BlobHandle_default b0).
  - destruct (BlobFileBuilder_Add r' BlobHandle_default b0) as [h b1]. rewrite IH.
    destruct (BlobFileBuilder_AddAll rs b1) as [hs b2].
    by destruct (BlobFileBuilder_Add r BlobHandle_default b2).
Qed.

Lemma AddAll_length rs b0 : length (BlobFileBuilder_AddAll rs b0).1 = length rs.
Proof.
  revert b0; induction rs as [|r rs IH]; intros b0; cbn [BlobFileBuilder_AddAll]; [done|].
  destruct (BlobFileBuilder_Add r BlobHandle_default b0) as [h b1]. specialize (IH b1).
  destruct (BlobFileBuilder_AddAll rs b1) as [hs b2]. cbn in *. by rewrite IH.
Qed.
End builder.

(** Decoding an index fails with a status that says so. *)
Lemma BlobIndex_DecodeFrom_fails `{Coding} self src :
  match BlobIndex_DecodeFrom self src with
  | Ok _ => True
  | Err s => status_ok s = false
  | Fault => False
  end.
Proof.
  unfold BlobIndex_DecodeFrom, BlobHandle_DecodeFrom, or_err.
  destruct (GetChar src) as [[t src1]|]; cbn [result_bind]; [|done]. destruct (negb _); [done|].
  destruct (GetVarint64 src1) as [[n src2]|]; cbn [result_bind]; [|done].
  destruct (GetVarint64 src2) as [[o src3]|]; cbn [result_bind map_err]; [|done].
  by destruct (GetVarint64 src3) as [[z src4]|].
Qed.

Section run.
Context `{Coding} `{Compressors} `{E : Env} `{BC : Cache bytes} `{FC : !Cache BlobFileReader}
        `{UnorderedIter} `{!ManifestIO} `{!WritableFiles} `{!WritableFilesOk} `{B : BaseDB} `{!BaseDBOk B} `{PriorityQueue}.
Context (listeners : Status -> Status) (hash : bytes -> Z) (bytes0 indeterminate : Z).

Definition record_of (e : entry) : BlobRecord := MkBlobRecord e.1.1 e.1.2 false.

(** An output was built from these entries, stored with these handles. *)
Definition built (cf : TitanCFOptions) (o : FileHandle * BlobFileBuilder)
    (g : list entry * list BlobHandle) : Prop :=
  exists file, w_contents file = [] /\
    BlobFileBuilder_AddAll (record_of <$> g.1) (BlobFileBuilder_new cf file bytes0) = (g.2, o.2).

(** Where an output keeps its entries. *)
Definition moves_of (o : FileHandle * BlobFileBuilder) (g : list entry * list BlobHandle)
    : list (entry * BlobIndex) :=
  zip_with (fun e h => (e, MkBlobIndex (GetNumber o.1) h)) g.1 g.2.

Definition moves (os : list (FileHandle * BlobFileBuilder)) (gs : list (list entry * list BlobHandle))
    : list (entry * BlobIndex) := concat (zip_with moves_of os gs).

Lemma moves_app os1 gs1 os2 gs2 :
  length os1 = length gs1 -> moves (os1 ++ os2) (gs1 ++ gs2) = moves os1 gs1 ++ moves os2 gs2.
Proof. intros Hl. unfold moves. by rewrite zip_with_app, concat_app. Qed.

Lemma moves_single o g : moves [o] [g] = moves_of o g.
Proof. unfold moves. cbn. apply app_nil_r. Qed.

(** The base database refers to the record. *)
Definition still_refers (d : base) (cf_id : Z) (e : entry) : bool :=
  match (DiscardEntry d cf_id e.1.1 e.2).1 with Ok b => negb b | _ => false end.

Definition outs (r : GCRun) : list (FileHandle * BlobFileBuilder) :=
  blob_file_builders (run_job r) ++ option_list (run_out r).

(** The state after the entries [P], nothing else having been done. *)
Record gc_inv (gc : BlobGC) (cf_id : Z) (d : base) (P : list entry) (r : GCRun)
    (gs : list (list entry * list BlobHandle)) : Prop := {
  gi_gc : blob_gc (run_job r) = gc;
  gi_base : run_base r = d;
  gi_options : sep_before_flush (t_options (run_db r)) && negb (level_merge (titan_cf_options gc)) = false;
  gi_built : Forall2 (built (titan_cf_options gc)) (outs r) gs;
  gi_moves : (moves (outs r) gs).*1 = filter (fun e => still_refers d cf_id e = true) P;
  gi_batches : Forall2 (fun wb mv => batch_puts wb.1 = [(cf_id, mv.1.1.1, BlobIndex_EncodeTo mv.2)])
                 (rewrite_batches (run_job r)) (moves (outs r) gs);
  gi_size : run_out r = None -> run_file_size r = 0
}.

Lemma NewFile_options db : t_options (NewFile db).2 = t_options db.
Proof.
  unfold NewFile. destruct (NewFileNumber _) as [n vs]. destruct (env_NewWritableFile _ _) as [[]]; done.
Qed.

(** The invariant speaks of the outputs only as a whole. *)
Lemma gc_inv_new gc cf_id d P r gs handle file db :
  gc_inv gc cf_id d P r gs -> w_contents file = [] -> t_options db = t_options (run_db r) ->
  let o := (handle, BlobFileBuilder_new (titan_cf_options gc) file bytes0) in
  let job := match run_out r with Some o => push_output o (run_job r) | None => run_job r end in
  gc_inv gc cf_id d P (MkGCRun job (Some o) 0 db (run_fb r) (run_base r)) (gs ++ [([], [])]).
Proof.
  intros [Hgc Hb Hopt Hbuilt Hmv Hba Hsz] Hfile Hdb o job.
  assert (Hjob : blob_gc job = gc /\ rewrite_batches job = rewrite_batches (run_job r) /\
                 blob_file_builders job = outs r).
  { unfold job, outs. destruct (run_out r) as [o'|]; [done|]. cbn [option_list]. by rewrite app_nil_r. }
  destruct Hjob as (Hj1 & Hj2 & Hj3).
  set (r' := MkGCRun job (Some o) 0 db (run_fb r) (run_base r)).
  assert (Ho : outs r' = outs r ++ [o]) by (unfold outs at 1; cbn; by rewrite Hj3).
  assert (Hm : moves (outs r') (gs ++ [([], [])]) = moves (outs r) gs).
  { rewrite Ho, moves_app by by eapply Forall2_length. rewrite moves_single. apply app_nil_r. }
  split; cbn [run_job run_base run_db run_out r']; try done.
  - by rewrite Hdb.
  - rewrite Ho. apply Forall2_app; [done|]. constructor; [|constructor]. by exists file.
  - by rewrite Hm.
  - by rewrite Hm, Hj2.
Qed.

(** Getting a file for the next record. *)
Lemma gc_output_inv gc cf_id d P r gs :
  gc_inv gc cf_id d P r gs -> 0 < blob_file_target_size (titan_cf_options gc) ->
  match gc_output bytes0 r with
  | (Ok o, r') => run_out r' = Some o /\ exists gs', gc_inv gc cf_id d P r' gs'
  | (Err s, _) => status_ok s = false
  | (Fault, _) => False
  end.
Proof.
  intros Hinv Htgt. pose proof (gi_gc _ _ _ _ _ _ Hinv) as Hgc. unfold gc_output. rewrite Hgc.
  assert (Hnew : match NewFile (run_db r) with
                 | (Ok (handle, file), db) => w_contents file = [] /\ t_options db = t_options (run_db r)
                 | (Err s, _) => status_ok s = false
                 | (Fault, _) => False
                 end).
  { pose proof (NewFile_options (run_db r)) as Hopt. revert Hopt. unfold NewFile.
    destruct (NewFileNumber _) as [n vs].
    destruct (env_NewWritableFile _ _) as [[file|s|] w] eqn:Hf; cbn [snd]; intros Hopt.
    - split; [by eapply new_writable_empty|done].
    - by eapply new_writable_error.
    - by eapply new_writable_total. }
  destruct (run_out r) as [o|] eqn:Ho; destruct (blob_file_target_size _ <=? run_file_size r) eqn:Hf.
  - pose proof (fun handle file db => gc_inv_new gc cf_id d P r gs handle file db Hinv) as Hstep.
    rewrite Ho in Hstep. destruct (NewFile (run_db r)) as [[[handle file]|s|] db]; [|done..].
    destruct Hnew as [Hc Hopt]. split; [done|]. eexists. by apply Hstep.
  - split; [done|]. by exists gs.
  - rewrite (gi_size _ _ _ _ _ _ Hinv Ho) in Hf. lia.
  - pose proof (fun handle file db => gc_inv_new gc cf_id d P r gs handle file db Hinv) as Hstep.
    rewrite Ho in Hstep. destruct (NewFile (run_db r)) as [[[handle file]|s|] db]; [|done..].
    destruct Hnew as [Hc Hopt]. split; [done|]. eexists. by apply Hstep.
Qed.

(** Changing the counters only. *)
Lemma gc_inv_metric gc cf_id d P r gs ms :
  gc_inv gc cf_id d P r gs ->
  gc_inv gc cf_id d P
    (run_with_job (MkBlobGCJob (blob_gc (run_job r)) ms (blob_file_builders (run_job r))
                     (rewrite_batches (run_job r))) r) gs.
Proof. by intros [Hgc Hb Hopt Hbuilt Hmv Hba Hsz]. Qed.

Lemma outs_snoc r o : run_out r = Some o -> outs r = blob_file_builders (run_job r) ++ [o].
Proof. intros Ho. unfold outs. by rewrite Ho. Qed.

(** Rewriting a record the base database refers to. *)
Lemma gc_rewrite_inv gc cf_id d P r gs key value index :
  gc_inv gc cf_id d P r gs -> 0 < blob_file_target_size (titan_cf_options gc) ->
  default 0 (gc_cf_id gc) = cf_id -> still_refers d cf_id (key, value, index) = true ->
  match gc_rewrite bytes0 indeterminate key value index r with
  | Ok (s, go, r') =>
      go = status_ok s /\
      (status_ok s = true -> exists gs', gc_inv gc cf_id d (P ++ [(key, value, index)]) r' gs')
  | _ => False
  end.
Proof.
  intros Hinv0 Htgt Hcf Hlive. unfold gc_rewrite.
  pose proof (gc_output_inv _ _ _ _ _ _ Hinv0 Htgt) as Hout.
  destruct (gc_output bytes0 r) as [[[handle b]|s|] r1]; [|by rewrite Hout|done].
  destruct Hout as (Ho & gs1 & [Hgc Hb Hopt Hbuilt Hmv Hba Hsz]). clear Hinv0 gs r.
  destruct (BlobFileBuilder_Add _ _ b) as [h b'] eqn:Hadd.
  unfold job_cf at 1. cbn [blob_gc job_metric]. rewrite Hgc, Hcf.
  destruct (PutBlobIndex cf_id key _ batch_empty) as [s wb] eqn:Hput.
  cbn [fst snd]. split; [done|]. intros Hs. destruct s; try done. clear Hs.
  rewrite (outs_snoc _ _ Ho) in Hbuilt, Hmv, Hba.
  apply Forall2_app_inv_l in Hbuilt as (gs2 & gsl & Hbuilt2 & Hlast & ->).
  inversion Hlast as [|o' g os' gs' Hg Hnil]; subst. inversion Hnil; subst. clear Hlast Hnil.
  destruct g as [es hs]. destruct Hg as (file & Hfile & Hall). cbn [fst snd] in Hall.
  exists (gs2 ++ [(es ++ [(key, value, index)], hs ++ [h])]).
  match goal with |- gc_inv _ _ _ _ ?r' _ => set (r2 := r') end.
  assert (Hl : length es = length hs).
  { pose proof (AddAll_length (record_of <$> es) (BlobFileBuilder_new (titan_cf_options (blob_gc (run_job r1))) file bytes0)) as Hlen.
    rewrite Hall in Hlen. cbn in Hlen. by rewrite length_fmap in Hlen. }
  assert (Hlen2 : length (blob_file_builders (run_job r1)) = length gs2) by by eapply Forall2_length.
  assert (Hmoves : moves (outs r2) (gs2 ++ [(es ++ [(key, value, index)], hs ++ [h])]) =
            moves (blob_file_builders (run_job r1) ++ [(handle, b)]) (gs2 ++ [(es, hs)])
            ++ [(key, value, index, MkBlobIndex (GetNumber handle) h)]).
  { unfold outs. cbn [r2 run_job run_out push_batch job_metric blob_file_builders].
    change (option_list (Some (handle, b'))) with [(handle, b')]. rewrite !moves_app, !moves_single by done. unfold moves_of. cbn [fst snd].
    rewrite zip_with_app by done. cbn. by rewrite app_assoc. }
  split; cbn [r2 run_job run_base run_db run_out push_batch job_metric blob_gc rewrite_batches]; try done.
  - unfold outs. cbn [r2 run_job run_out push_batch job_metric blob_file_builders].
    change (option_list (Some (handle, b'))) with [(handle, b')]. apply Forall2_app; [done|]. constructor; [|constructor]. exists file. split; [done|]. cbn [fst snd].
    rewrite fmap_app. cbn [fmap list_fmap]. rewrite AddAll_snoc, Hall.
    change (record_of (key, value, index)) with (MkBlobRecord key value false). by rewrite Hadd.
  - rewrite Hmoves, fmap_app, filter_app, Hmv. f_equal. rewrite filter_cons, decide_True by done. done.
  - rewrite Hmoves. apply Forall2_app; [done|]. constructor; [|constructor]. cbn [fst snd].
    by rewrite (batch_puts_put _ _ _ _ _ Hput), batch_puts_empty.
Qed.

Lemma DiscardEntry_fails d cf_id key index :
  match (DiscardEntry d cf_id key index).1 with
  | Ok _ => True
  | Err s => status_ok s = false
  | Fault => False
  end.
Proof.
  unfold DiscardEntry. pose proof (get_total d cf_id key) as Ht.
  destruct (base_GetImpl d cf_id key) as [[e b]|s|] eqn:Hget; [|..|done].
  - destruct b; cbn [negb fst]; [|done].
    pose proof (BlobIndex_DecodeFrom_fails BlobIndex_default e) as Hd.
    by destruct (BlobIndex_DecodeFrom _ e) as [[o rest]|s|].
  - destruct (IsNotFound s); cbn [fst]; [done|]. by eapply get_error.
Qed.

(** One turn: it goes on exactly when the status is ok, and then the entry has
    been kept if the base database refers to it, and dropped otherwise. *)
Lemma gc_entry_inv gc cf_id d P r gs e :
  gc_inv gc cf_id d P r gs -> 0 < blob_file_target_size (titan_cf_options gc) ->
  default 0 (gc_cf_id gc) = cf_id ->
  match gc_entry listeners hash bytes0 indeterminate e r with
  | Ok (s, go, r') => go = status_ok s /\ (status_ok s = true -> exists gs', gc_inv gc cf_id d (P ++ [e]) r' gs')
  | _ => False
  end.
Proof.
  intros Hinv Htgt Hcf. destruct e as [[key value] index]. unfold gc_entry.
  match goal with |- context [job_metric m_bytes_read ?n (run_job r)] =>
    pose proof (gc_inv_metric gc cf_id d P r gs (metric_add m_bytes_read n (metrics (run_job r))) Hinv) as Hinv1;
    change (run_with_job _ r) with (run_with_job (job_metric m_bytes_read n (run_job r)) r) in Hinv1;
    set (r1 := run_with_job (job_metric m_bytes_read n (run_job r)) r) in * end.
  assert (Hgc1 : blob_gc (run_job r1) = gc) by apply Hinv1.
  unfold job_cf at 1. rewrite Hgc1, Hcf, (gi_base _ _ _ _ _ _ Hinv1).
  assert (Hrefers : still_refers d cf_id (key, value, index) =
            match (DiscardEntry d cf_id key index).1 with Ok b => negb b | _ => false end) by done.
  pose proof (DiscardEntry_fails d cf_id key index) as Hfail.
  destruct (DiscardEntry d cf_id key index) as [[discardable|s|] n]; cbn [fst] in *; [|by rewrite Hfail|done].
  destruct discardable.
  - split; [done|]. intros _. exists gs.
    match goal with |- gc_inv _ _ _ _ ?r' _ => set (r2 := r') end.
    assert (Hinv2 : gc_inv gc cf_id d P r2 gs) by exact (gc_inv_metric gc cf_id d P r1 gs (metrics (run_job r2)) Hinv1).
    destruct Hinv2 as [? ? ? ? Hmv ? ?]. split; try done.
    rewrite Hmv, filter_app, filter_cons, decide_False, filter_nil, app_nil_r; [done|]. by rewrite Hrefers.
  - change (blob_gc (job_metric m_bytes_read n (run_job r1))) with (blob_gc (run_job r1)). rewrite Hgc1.
    rewrite (gi_options _ _ _ _ _ _ Hinv1). apply gc_rewrite_inv with gs; [|done..].
    exact (gc_inv_metric gc cf_id d P r1 gs (metric_add m_bytes_read n (metrics (run_job r1))) Hinv1).
Qed.

(** The loop over the whole iterator. *)
Lemma gc_loop_inv gc cf_id d w stop fuel i mi L mi' P r gs :
  0 < blob_file_target_size (titan_cf_options gc) -> default 0 (gc_cf_id gc) = cf_id ->
  merge_iterate fuel w mi = Ok (L, mi') -> gc_inv gc cf_id d P r gs ->
  exists s mi'' r', gc_loop listeners hash bytes0 indeterminate fuel w stop i mi OK r = Ok (s, mi'', r') /\
    (status_ok s = true -> mi'' = mi' /\ exists gs', gc_inv gc cf_id d (P ++ L) r' gs').
Proof.
  intros Htgt Hcf. revert i mi L P r gs. induction fuel as [|fuel IH]; intros i mi L P r gs Hm Hinv;
    cbn [merge_iterate gc_loop] in *; (destruct (BlobFileMergeIterator_Valid mi);
      [|injection Hm as <- <-; eexists _, _, _; split; [done|]; intros _; split; [done|];
        exists gs; by rewrite app_nil_r]); [done|].
  destruct (BlobFileMergeIterator_entry mi) as [e|]; [|done].
  destruct (stop i). { eexists _, _, _. by split. }
  pose proof (gc_entry_inv gc cf_id d P r gs e Hinv Htgt Hcf) as Hstep.
  destruct (gc_entry _ _ _ _ e r) as [[[s go] r1]| |]; [|done..]. destruct Hstep as [-> Hnext].
  cbn [result_bind]. destruct (status_ok s) eqn:Hs.
  - destruct (BlobFileMergeIterator_Next w mi) as [mi1| |]; [|done..]. cbn [result_bind] in *.
    destruct (merge_iterate fuel w mi1) as [[L1 mi2]| |] eqn:Hm1; cbn [result_bind] in Hm; [|done..].
    injection Hm as <- <-. destruct (Hnext eq_refl) as (gs1 & Hinv1).
    apply status_ok_true in Hs as ->.
    destruct (IH (S i) mi1 L1 (P ++ [e]) r1 gs1 Hm1 Hinv1) as (s' & mi'' & r' & HL & Hok).
    exists s', mi'', r'. split; [exact HL|]. by rewrite <- app_assoc in Hok.
  - eexists _, _, _. split; [done|]. by rewrite Hs.
Qed.
End run.

(** ** The inputs *)

Lemma merge_iterate_more `{Coding} `{Compressors} `{E : Env} `{PriorityQueue} n m w mi x :
  (n <= m)%nat -> merge_iterate n w mi = Ok x -> merge_iterate m w mi = Ok x.
Proof.
  revert m mi x; induction n as [|n IH]; intros m mi x Hle; cbn [merge_iterate].
  - destruct (BlobFileMergeIterator_Valid mi) eqn:Hv; [done|]. intros <-.
    destruct m; cbn [merge_iterate]; by rewrite Hv.
  - destruct m as [|m]; [lia|]. cbn [merge_iterate]. destruct (BlobFileMergeIterator_Valid mi); [|done].
    destruct (BlobFileMergeIterator_entry mi) as [e|]; [|done].
    destruct (BlobFileMergeIterator_Next w mi) as [mi1| |]; cbn [result_bind]; [|done..].
    destruct (merge_iterate n w mi1) as [[l mi2]| |] eqn:Hm; cbn [result_bind]; [|done..].
    by rewrite (IH m mi1 _ (le_S_n _ _ Hle) Hm).
Qed.

Section inputs.
Context `{Coding} `{!CodingOk _} `{Compressors} `{!CompressorsOk _} `{E : Env} `{!EnvOk E}
        `{BC : Cache bytes} `{FC : !Cache BlobFileReader} `{PriorityQueue}.

(** An input file in the file system was built from records with these entries. *)
Definition input_file (w : fs) (db : TitanDBOptions) (cf : TitanCFOptions) (h : heap) (l : loc)
    (es : list entry) : Prop :=
  exists f file written rs hs b b',
    NewBlobFileReader w (file_number (deref h l)) db = Ok f /\
    built_file cf file written rs hs b b' w f /\
    file_size (deref h l) = w_GetFileSize (bfb_file b') /\
    es = (fun '(r, h') => (record_key r, record_value r, MkBlobIndex (file_number (deref h l)) h')) <$> zip rs hs.

Lemma records_bytes_count t rs : Z.of_nat (length rs) <= Z.of_nat (length (records_bytes t rs)).
Proof.
  induction rs as [|r rs IH]; [done|]. unfold records_bytes in *. cbn [fmap list_fmap concat].
  rewrite length_app. pose proof (record_bytes_length t r) as Hr. unfold GetEncodedSize, kRecordHeaderSize in Hr.
  cbn [length]. lia.
Qed.

Lemma input_fuel w db cf h l es :
  input_file w db cf h l es -> (length es <= Z.to_nat (file_size (deref h l)))%nat.
Proof.
  intros (f & file & written & rs & hs & b & b' & _ & [He HA HF _ _ _ _ _] & -> & ->).
  destruct (build_ok _ _ _ _ _ _ _ He HA HF) as [Hc _]. rewrite file_size_contents, Hc, Nat2Z.id.
  rewrite length_fmap, length_zip_with. unfold blob_file_bytes. rewrite !length_app.
  pose proof (records_bytes_count (blob_file_compression cf) rs). lia.
Qed.

Lemma build_iterators_ok w db cf h inputs ess :
  Forall2 (input_file w db cf h) inputs ess ->
  exists its its', build_iterators w db cf h inputs = Ok its /\
    Forall2 (fun it it' => BlobFileIterator_SeekToFirst w it = Ok it') its its' /\
    Forall2 (fun it' l => exists fuel it'', iterate fuel w it' = Ok (l, it'')) its' ess.
Proof.
  induction 1 as [|l es inputs ess Hin _ IH]; [by exists [], []|].
  destruct IH as (its & its' & Hb & Hs & Hi).
  destruct Hin as (f & file & written & rs & hs & b & b' & Hf & Hbuilt & Hsz & ->).
  destruct (iterator_visits cf file written rs hs b b' w f (file_number (deref h l)) Hbuilt)
    as (it & it' & Hseek & Hiter & _).
  eexists (_ :: its), (it :: its'). split; [|split].
  - cbn [build_iterators]. rewrite Hf. cbn [result_bind]. rewrite Hb. done.
  - constructor; [by rewrite Hsz|done].
  - constructor; [by eexists _, _|done].
Qed.

Lemma gc_fuel_enough w db cf h inputs ess :
  Forall2 (input_file w db cf h) inputs ess -> (length (concat ess) <= gc_fuel h inputs)%nat.
Proof.
  induction 1 as [|l es inputs ess Hin _ IH]; [done|]. cbn [concat gc_fuel foldr]. rewrite length_app.
  apply input_fuel in Hin. unfold gc_fuel in IH. lia.
Qed.
End inputs.

Lemma puts_of_app l1 l2 cf k :
  puts_of (l1 ++ l2) cf k = match puts_of l2 cf k with Some v => Some v | None => puts_of l1 cf k end.
Proof.
  unfold puts_of. rewrite filter_app, last_app.
  by destruct (last (filter (fun p : Z * bytes * bytes => p.1 = (cf, k)) l2)).
Qed.

Lemma puts_of_Some l cf k v : puts_of l cf k = Some v -> (cf, k, v) ∈ l.
Proof.
  unfold puts_of. intros Hv. apply fmap_Some in Hv as ([p v'] & Hl & ->).
  apply last_Some_elem_of, list_elem_of_filter in Hl as [Hp Hin]. cbn in Hp. by subst p.
Qed.

Lemma puts_of_None l cf k : puts_of l cf k = None -> forall v, (cf, k, v) ∉ l.
Proof.
  unfold puts_of. intros Hn v Hin. apply fmap_None, last_None in Hn.
  assert (Hf : (cf, k, v) ∈ filter (fun p : Z * bytes * bytes => p.1 = (cf, k)) l) by by apply list_elem_of_filter.
  rewrite Hn in Hf. by apply not_elem_of_nil in Hf.
Qed.

Section keeps.
Context `{Coding} `{!CodingOk _} `{Compressors} `{!CompressorsOk _} `{E : Env} `{!EnvOk E}
        `{BC : Cache bytes} `{FC : !Cache BlobFileReader} `{UnorderedIter} `{!ManifestIO}
        `{!WritableFiles} `{!WritableFilesOk} `{B : BaseDB} `{!BaseDBOk B} `{PriorityQueue}.
Context (listeners : Status -> Status) (hash : bytes -> Z) (bytes0 indeterminate : Z).

(** What a successful run leaves: the outputs and the batches. *)
Record gc_done (gc : BlobGC) (cf_id : Z) (d : base) (L : list entry) (job : BlobGCJob)
    (gs : list (list entry * list BlobHandle)) : Prop := {
  gd_gc : blob_gc job = gc;
  gd_built : Forall2 (built bytes0 (titan_cf_options gc)) (blob_file_builders job) gs;
  gd_moves : (moves (blob_file_builders job) gs).*1 = filter (fun e => still_refers d cf_id e = true) L;
  gd_batches : Forall2 (fun wb mv => batch_puts wb.1 = [(cf_id, mv.1.1.1, BlobIndex_EncodeTo mv.2)])
                 (rewrite_batches job) (moves (blob_file_builders job) gs)
}.

(** A run that may take its inputs. *)
Record run_ready (gc : BlobGC) (db : TitanDBImpl) (cf_id : Z) (ess : list (list entry)) : Prop := {
  rr_cmp : ComparatorOk (comparator (cf_base (titan_cf_options gc)));
  rr_inputs : Forall2 (input_file (sys_fs (t_sys db)) (t_options db) (titan_cf_options gc)
                         (sh_heap (sys_shared (t_sys db)))) (gc_inputs gc) ess;
  rr_nonempty : concat ess <> [];
  rr_target : 0 < blob_file_target_size (titan_cf_options gc);
  rr_mode : sep_before_flush (t_options db) && negb (level_merge (titan_cf_options gc)) = false;
  rr_cf : gc_cf_id gc = Some cf_id
}.

Lemma Run_ok stop gc db fb d cf_id ess :
  run_ready gc db cf_id ess ->
  exists s r, Run listeners hash bytes0 indeterminate stop (BlobGCJob_new gc) db fb d = Ok (s, r) /\
    (status_ok s = true -> run_base r = d /\ exists L gs, L ≡ₚ concat ess /\
       gc_done (set_sampled_inputs (gc_inputs gc) gc) cf_id d L (run_job r) gs).
Proof.
  intros [Hcmp Hin Hne Htgt Hmode Hcf].
  set (job := SampleCandidateFiles (BlobGCJob_new gc)). set (gc' := set_sampled_inputs (gc_inputs gc) gc).
  assert (Hrun : Run listeners hash bytes0 indeterminate stop (BlobGCJob_new gc) db fb d =
                 DoRunGC listeners hash bytes0 indeterminate stop job db fb d).
  { unfold Run. fold job. change (sampled_inputs (blob_gc job)) with (gc_inputs gc).
    destruct (gc_inputs gc); [|done]. by inversion Hin; subst. }
  rewrite Hrun. unfold DoRunGC.
  destruct (build_iterators_ok _ _ _ _ _ _ Hin) as (its & its' & Hb & Hs & Hi).
  unfold BuildIterator. change (blob_gc job) with gc'. change (sampled_inputs gc') with (gc_inputs gc).
  change (titan_cf_options gc') with (titan_cf_options gc). rewrite Hb. cbn [result_bind].
  destruct (merge_visits _ _ Hcmp its its' ess Hs Hi Hne) as (mi & L & mi' & Hseek & Hm & HL & _ & _ & Hst).
  rewrite Hseek. cbn [result_bind].
  apply (merge_iterate_more _ (gc_fuel (sh_heap (sys_shared (t_sys db))) (gc_inputs gc))) in Hm;
    [|by eapply gc_fuel_enough].
  destruct (gc_loop_inv listeners hash bytes0 indeterminate gc' cf_id d (sys_fs (t_sys db)) stop
              (gc_fuel (sh_heap (sys_shared (t_sys db))) (gc_inputs gc)) 0%nat mi L mi' []
              (MkGCRun job None 0 db fb d) [] Htgt) as (s & mi'' & r & HL' & Hok); try done.
  { cbn. by rewrite Hcf. }
  rewrite HL'. cbn [result_bind]. destruct (status_ok s) eqn:Hok'.
  - destruct (Hok eq_refl) as (-> & gs & [Hgc Hbase _ Hbuilt Hmv Hba _]). rewrite Hst. cbn [status_ok].
    eexists _, _. split; [done|]. intros _. cbn [app] in *. split; [by destruct (run_out r)|].
    exists L, gs. split; [done|]. unfold outs in *.
    destruct (run_out r) as [o|]; cbn [option_list] in *; [by split|]. rewrite app_nil_r in *. by split.
  - destruct (status_ok (BlobFileMergeIterator_status mi'')) eqn:Hsi.
    + eexists _, _. split; [done|]. by rewrite Hok'.
    + eexists _, _. split; [done|]. by rewrite Hsi.
Qed.

(** What rewriting makes of the base database. *)
Lemma rewrite_loop_ok stop i cf_id wbs ms d s ms' d' :
  rewrite_loop stop i cf_id wbs OK ms d = (s, ms', d') -> status_ok s = true \/ IsBusy s = true ->
  forall cf k, base_GetImpl d' cf k =
    match puts_of (concat (batch_puts <$> wbs.*1)) cf k with
    | Some v => Ok (v, true)
    | None => base_GetImpl d cf k
    end.
Proof.
  revert i ms d; induction wbs as [|[wb cb] wbs IH]; intros i ms d; cbn [rewrite_loop].
  - intros [= <- <- <-] _ cf k. done.
  - destruct (IsDropped d cf_id); [intros [= <- <- <-] [?|?]; done|].
    destruct (stop i); [intros [= <- <- <-] [?|?]; done|].
    destruct (base_Write wb d) as [s1 d1] eqn:Hw. destruct s1; try (intros [= <- <- <-] [?|?]; done).
    + intros Hrun Hs cf k. rewrite (IH _ _ _ Hrun Hs cf k). cbn [fmap list_fmap concat].
      rewrite puts_of_app. destruct (puts_of (concat (batch_puts <$> wbs.*1)) cf k); [done|].
      by apply write_get.
    + by apply write_not_busy in Hw.
Qed.

Lemma BlobIndex_eqb_true i j : BlobIndex_eqb i j = true <-> i = j.
Proof.
  destruct i as [ni [oi si]], j as [nj [oj sj]]. unfold BlobIndex_eqb, BlobHandle_eqb. cbn.
  rewrite !andb_true_iff, !Z.eqb_eq. naive_solver.
Qed.

(** The index the base database has for a key. *)
Definition base_index (d : base) (cf_id : Z) (k : bytes) (i : BlobIndex) : Prop :=
  exists e rest, base_GetImpl d cf_id k = Ok (e, true) /\
    BlobIndex_DecodeFrom BlobIndex_default e = Ok (i, rest).

Lemma base_index_unique d cf_id k i j : base_index d cf_id k i -> base_index d cf_id k j -> i = j.
Proof. intros (e & rest & Hg & Hd) (e' & rest' & Hg' & Hd'). congruence. Qed.

Lemma still_refers_index d cf_id e : still_refers d cf_id e = true <-> base_index d cf_id e.1.1 e.2.
Proof.
  unfold still_refers, DiscardEntry, base_index. split.
  - destruct (base_GetImpl d cf_id e.1.1) as [[ent b]|s|]; [|by destruct (IsNotFound s)|done].
    destruct b; cbn [negb fst]; [|done].
    destruct (BlobIndex_DecodeFrom _ ent) as [[i rest]| |] eqn:Hd; cbn [result_bind]; [|done..].
    rewrite negb_involutive. intros ->%BlobIndex_eqb_true. by exists ent, rest.
  - intros (ent & rest & -> & Hd). cbn [negb fst]. rewrite Hd. cbn [result_bind].
    by rewrite negb_involutive, (proj2 (BlobIndex_eqb_true e.2 e.2)).
Qed.

(** An output holds the record at that index. *)
Definition stored_at (cf : TitanCFOptions) (os : list (FileHandle * BlobFileBuilder))
    (i : BlobIndex) (key value : bytes) : Prop :=
  exists o rs hs j file, o ∈ os /\ GetNumber o.1 = index_file_number i /\ w_contents file = [] /\
    BlobFileBuilder_AddAll rs (BlobFileBuilder_new cf file bytes0) = (hs, o.2) /\
    rs !! j = Some (MkBlobRecord key value false) /\ hs !! j = Some (blob_handle i).

Lemma moves_stored cf os gs e i :
  Forall2 (built bytes0 cf) os gs -> (e, i) ∈ moves os gs -> stored_at cf os i e.1.1 e.1.2.
Proof.
  intros Hb Hin. unfold moves in Hin. apply list_elem_of_In, in_concat in Hin as (l & Hl & Hei).
  apply list_elem_of_In in Hl. apply list_elem_of_In in Hei.
  apply list_elem_of_lookup in Hl as [n Hn]. rewrite lookup_zip_with in Hn.
  apply bind_Some in Hn as (o & Ho & Hn). apply bind_Some in Hn as (g & Hg & [= <-]).
  destruct (Forall2_lookup_lr _ _ _ _ _ _ Hb Ho Hg) as (file & Hfile & Hall).
  unfold moves_of in Hei. apply list_elem_of_lookup in Hei as [j Hj]. rewrite lookup_zip_with in Hj.
  apply bind_Some in Hj as (e' & He & Hj). apply bind_Some in Hj as (h & Hh & [= -> <-]).
  exists o, (record_of <$> g.1), g.2, j, file. split; [by eapply list_elem_of_lookup_2|].
  split; [done|]. split; [done|]. split; [done|]. split; [|done].
  rewrite list_lookup_fmap, He. done.
Qed.

Lemma batches_puts wbs (mvs : list (entry * BlobIndex)) cf_id :
  Forall2 (fun wb mv => batch_puts wb.1 = [(cf_id, mv.1.1.1, BlobIndex_EncodeTo mv.2)]) wbs mvs ->
  concat (batch_puts <$> (wbs : list (batch * WriteCallback)).*1) =
  (fun mv => (cf_id, mv.1.1.1, BlobIndex_EncodeTo mv.2)) <$> mvs.
Proof. induction 1 as [|wb mv wbs mvs Hb _ IH]; [done|]. cbn [fmap list_fmap concat]. by rewrite Hb, IH. Qed.

(** What the base database refers to once the keys of a run are rewritten. *)
Lemma rewrite_keeps stop gc cf_id d L ess job gs job' d' :
  gc_done gc cf_id d L job gs -> gc_cf_id gc = Some cf_id -> L ≡ₚ concat ess -> NoDup (concat ess).*2 ->
  RewriteValidKeyToLSM stop job d = (OK, job', d') ->
  (forall k v i, base_index d cf_id k i -> (k, v, i) ∈ concat ess ->
     exists i', base_GetImpl d' cf_id k = Ok (BlobIndex_EncodeTo i', true) /\
       stored_at (titan_cf_options gc) (blob_file_builders job) i' k v) /\
  (forall cf k, (cf = cf_id -> forall v i, base_index d cf_id k i -> (k, v, i) ∉ concat ess) ->
     base_GetImpl d' cf k = base_GetImpl d cf k).
Proof.
  intros [Hgc Hb Hmv Hba] Hcfid HL Hnd Hrw. unfold RewriteValidKeyToLSM in Hrw.
  destruct (rewrite_loop _ _ _ _ _ _ _) as [[s1 ms1] d1] eqn:Hloop. injection Hrw as Hs1 _ <-.
  pose proof (rewrite_loop_ok _ _ _ _ _ _ _ _ _ Hloop) as Hget.
  specialize (Hget ltac:(by destruct s1; auto)).
  assert (Hcf : job_cf job = cf_id) by (unfold job_cf; rewrite Hgc; cbn; by rewrite Hcfid).
  rewrite (batches_puts _ _ _ Hba) in Hget.
  set (mvs := moves (blob_file_builders job) gs) in *.
  assert (Hmoved : forall e i, (e, i) ∈ mvs -> e ∈ concat ess /\ base_index d cf_id e.1.1 e.2).
  { intros e i Hin. assert (He : e ∈ mvs.*1) by (apply list_elem_of_fmap; by exists (e, i)).
    rewrite Hmv in He. apply list_elem_of_filter in He as [Hr He]. rewrite <- HL. split; [done|].
    by apply still_refers_index. }
  split.
  - intros k v i Hi Hin. rewrite Hget.
    destruct (puts_of _ cf_id k) as [x|] eqn:Hp.
    + apply puts_of_Some, list_elem_of_fmap in Hp as ([[[k' v'] j] i'] & [= -> ->] & Hmove).
      exists i'. split; [done|]. destruct (Hmoved _ i' Hmove) as [He Hei].
      assert (j = i) as -> by by eapply base_index_unique.
      assert (v' = v) as ->; [|by apply (moves_stored _ _ _ _ _ Hb) in Hmove].
      apply list_elem_of_lookup in He as [n Hn]. apply list_elem_of_lookup in Hin as [n' Hn'].
      assert (n = n'); [|by simplify_eq].
      eapply NoDup_lookup; [exact Hnd|..]; rewrite list_lookup_fmap; [by rewrite Hn|by rewrite Hn'].
    + exfalso. assert (Hmem : (k, v, i) ∈ mvs.*1).
      { rewrite Hmv. apply list_elem_of_filter. split; [by apply still_refers_index|by rewrite HL]. }
      apply list_elem_of_fmap in Hmem as ([e i'] & He & Hmove). cbn in He. subst e.
      eapply (puts_of_None _ _ _ Hp). apply list_elem_of_fmap. by exists (k, v, i, i').
  - intros cf k Hno. rewrite Hget. destruct (puts_of _ cf k) as [x|] eqn:Hp; [|done]. exfalso.
    apply puts_of_Some, list_elem_of_fmap in Hp as ([[[k' v'] j] i'] & [= -> -> ->] & Hmove).
    destruct (Hmoved _ _ Hmove) as [He Hei]. by apply (Hno eq_refl v' j).
Qed.

(** A garbage collection keeps the value of every key. Take input files built
    from records, no two at the same index. The run always ends with a status;
    when it is ok and rewriting the keys succeeds too (the base database not
    having changed in between), then every key whose index pointed to a record of
    an input now has the index of a record with the same key and value in an
    output, and every other key, of this or another column family, is as before. *)
Theorem gc_keeps_values (stop : nat -> bool) (gc : BlobGC) (db : TitanDBImpl) (fb : ForegroundBuilder)
    (d : base) (cf_id : Z) (ess : list (list entry)) :
  run_ready gc db cf_id ess -> NoDup (concat ess).*2 ->
  exists s r, Run listeners hash bytes0 indeterminate stop (BlobGCJob_new gc) db fb d = Ok (s, r) /\
    (status_ok s = true -> run_base r = d /\
     forall stop' job d', RewriteValidKeyToLSM stop' (run_job r) d = (OK, job, d') ->
       (forall k v i, base_index d cf_id k i -> (k, v, i) ∈ concat ess ->
          exists i', base_GetImpl d' cf_id k = Ok (BlobIndex_EncodeTo i', true) /\
            stored_at (titan_cf_options gc) (blob_file_builders (run_job r)) i' k v) /\
       (forall cf k, (cf = cf_id -> forall v i, base_index d cf_id k i -> (k, v, i) ∉ concat ess) ->
          base_GetImpl d' cf k = base_GetImpl d cf k)).
Proof.
  intros Hready Hnd. destruct (Run_ok stop gc db fb d cf_id ess Hready) as (s & r & Hrun & Hok).
  exists s, r. split; [done|]. intros Hs. destruct (Hok Hs) as (Hbase & L & gs & HL & Hdone).
  split; [done|]. intros stop' job d' Hrw. exact (rewrite_keeps stop' _ cf_id d L ess (run_job r) gs job d' Hdone (rr_cf _ _ _ _ Hready) HL Hnd Hrw).
Qed.
End keeps.

(** ** An application *)

Section witnesses.
#[local] Existing Instances leb128_coding leb128_coding_ok rle_compressors rle_compressors_ok mem_env mem_env_ok
  map_to_list_iter mem_manifest blobs_map readers_map mem_files mem_basedb list_pq.

(** File 1 holds the example's three records; the base database refers to the
    second of them. *)
Definition example_gc_fs : @fs mem_env := {[ "/1"%string := mem_data (bfb_file example_finish.2) ]}.

Definition example_gc_heap : heap :=
  {[ 1%positive := BlobFileMeta_new 1 (w_GetFileSize (bfb_file example_finish.2)) 3 0
                     [Byte.x6b; Byte.x31] [Byte.x6b; Byte.x33] kUnSorted ]}.

Definition example_gc_db : TitanDBImpl :=
  MkTitanDBImpl example_db_options
    (MkSys (MkBlobFileSet example_db_options 100 [] ∅ ∅ None 15)
       (MkShared example_gc_heap None (MkCaches ((0, ∅) : cache BlobFileReader) ((0, ∅) : cache bytes)))
       example_gc_fs)
    Scheduler_new 0 false OK false ∅.

Definition example_gc : BlobGC := MkBlobGC [1%positive] [] [] example_cf_options (Some 5) false.

Definition example_gc_entries : list (list entry) :=
  [(fun '(r, h) => (record_key r, record_value r, MkBlobIndex 1 h)) <$> zip example_records example_build.1].

Definition example_index : BlobIndex := MkBlobIndex 1 (MkBlobHandle 23 16).

Definition example_base : @base mem_basedb :=
  MkMemBase {[ (5, [Byte.x6b; Byte.x31]) := (BlobIndex_EncodeTo example_index, true) ]} 7.

Definition example_fb : ForegroundBuilder := ForegroundBuilder_new 5 example_db_options example_cf_options.

Definition example_gc_run : result (Status * GCRun) :=
  Run (fun s => s) (fun _ => 0) 0 0 (fun _ => false) (BlobGCJob_new example_gc) example_gc_db example_fb example_base.

Lemma example_gc_built :
  built_file example_cf_options example_file 0 example_records example_build.1 example_build.2
    example_finish.2 example_gc_fs "/1"%string.
Proof.
  split; try reflexivity.
  - intros off n _ _. reflexivity.
  - repeat constructor; unfold slice_wf, two32; vm_compute; congruence.
  - repeat constructor.
  - vm_compute. intuition congruence.
Qed.

Lemma example_gc_ready : run_ready example_gc example_gc_db 5 example_gc_entries.
Proof.
  split.
  - exact bytewise_compare_ok.
  - constructor; [|constructor]. exists "/1"%string, example_file, 0, example_records, example_build.1,
      example_build.2, example_finish.2. split_and!; [reflexivity|exact example_gc_built|reflexivity..].
  - vm_compute. discriminate.
  - vm_compute. reflexivity.
  - reflexivity.
  - reflexivity.
Qed.

Lemma example_gc_run_ok :
  match example_gc_run with
  | Ok (OK, r) => (RewriteValidKeyToLSM (fun _ => false) (run_job r) example_base).1.1 = OK
  | _ => False
  end.
Proof. vm_compute. reflexivity. Qed.

Lemma gc_keeps_values_witness :
  exists r job d' i', example_gc_run = Ok (OK, r) /\
    RewriteValidKeyToLSM (fun _ => false) (run_job r) example_base = (OK, job, d') /\
    base_GetImpl d' 5 [Byte.x6b; Byte.x31] = Ok (BlobIndex_EncodeTo i', true) /\
    stored_at 0 example_cf_options (blob_file_builders (run_job r)) i'
      [Byte.x6b; Byte.x31] [Byte.x76; Byte.x62; Byte.x63].
Proof.
  destruct (gc_keeps_values (fun s => s) (fun _ => 0) 0 0 (fun _ => false) example_gc example_gc_db example_fb
    example_base 5 example_gc_entries example_gc_ready) as (s & r & Hrun & Hok).
  - apply (NoDup_fmap_1 (fun i => handle_offset (blob_handle i))). apply (bool_decide_unpack _). vm_compute. exact I.
  - pose proof example_gc_run_ok as Hst. unfold example_gc_run in Hst |- *. rewrite Hrun in Hst.
    destruct s; try (exact (False_ind _ Hst)). destruct (Hok eq_refl) as (_ & Hrw).
    destruct (RewriteValidKeyToLSM (fun _ => false) (run_job r) example_base) as [[s' job] d'] eqn:HR.
    cbn [fst] in Hst. subst s'. destruct (Hrw _ _ _ HR) as [Hmoved _].
    destruct (Hmoved [Byte.x6b; Byte.x31] [Byte.x76; Byte.x62; Byte.x63] example_index) as (i' & Hi' & Hstored).
    + exists (BlobIndex_EncodeTo example_index), []. split; vm_compute; reflexivity.
    + right. left.
    + exists r, job, d', i'. exact (conj Hrun (conj HR (conj Hi' Hstored))).
Defined.
End witnesses.
