(* ===== verification/GCFinish.v ===== *)
(** * The end of a garbage collection

    In which order [Finish] changes the live files and the keys, and what happens
    when an output file cannot be completed. *)

From S2P Require Import Prelude Rocks Options Stats Util BlobFormat Env BaseDb BlobFileBuilder BlobFileReader BlobFileIterator MergeIterator VersionEdit BlobStorage StorageInv EditCollector BlobFileSet ApplyInv ManifestReplay BlobGC Scheduler DbEvents DbEventsInv CompactionInv FileManager ForegroundBuilder GCJob GCJobInv.

Section finish.
Context `{Coding} `{Compressors} `{E : Env} `{BC : Cache bytes} `{FC : !Cache BlobFileReader}
        `{UnorderedIter} `{!ManifestIO} `{!WritableFiles} `{B : BaseDB}.
Context (listeners : Status -> Status).

(** ** Edits change no persistent metadata *)

Definition same_persistent (h h' : heap) : Prop :=
  forall l, persistent <$> (h' !! l) = persistent <$> (h !! l).

Lemma same_persistent_trans h1 h2 h3 :
  same_persistent h1 h2 -> same_persistent h2 h3 -> same_persistent h1 h3.
Proof. intros H12 H23 l. by rewrite (H23 l), (H12 l). Qed.

Lemma same_persistent_call f l h :
  (forall m, persistent (f m) = persistent m) -> same_persistent h (heap_call f l h).
Proof.
  intros Hf l'. unfold heap_call. rewrite lookup_alter. case_decide; [subst l'|done].
  destruct (h !! l) as [m|]; [|done]. cbn. by rewrite Hf.
Qed.

Lemma same_persistent_number h h' l :
  same_persistent h h' -> is_Some (h !! l) -> file_number (deref h' l) = file_number (deref h l).
Proof.
  intros Hs [m Hm]. specialize (Hs l). rewrite Hm in Hs. cbn in Hs.
  apply fmap_Some in Hs as (m' & Hm' & Hp). rewrite (deref_Some _ _ _ Hm), (deref_Some _ _ _ Hm').
  by injection Hp.
Qed.

Lemma for_each_rel {A S} (R : S -> S -> Prop) (f : A -> S -> Status * S) L st :
  (forall st, R st st) -> (forall a b c, R a b -> R b c -> R a c) ->
  (forall x st, R st (f x st).2) -> R st (for_each f L st).2.
Proof.
  intros Hrefl Htrans Hf. revert st; induction L as [|x L IH]; intros st; cbn [for_each]; [apply Hrefl|].
  specialize (Hf x st). destruct (f x st) as [s st1]. cbn [snd] in Hf. destruct (status_ok s); [|exact Hf].
  eapply Htrans; [exact Hf|apply IH].
Qed.

Definition keeps_persistent (sh sh' : Shared) : Prop := same_persistent (sh_heap sh) (sh_heap sh').

Lemma CF_Apply_persistent c st : keeps_persistent st.2 (CF_Apply c st).2.2.
Proof.
  unfold CF_Apply.
  assert (Hadd : forall L st0, keeps_persistent st0.2 (foldl (fun st file => apply_added c file st) st0 L).2).
  { intros L. induction L as [|f L IH]; intros st0; [done|]. cbn [foldl].
    eapply same_persistent_trans; [|apply IH]. unfold apply_added. by destruct (cfc_deleted_files c !! f.1), st0. }
  assert (Hupd : forall L st0, keeps_persistent st0.2 (foldl (fun st d => apply_updated d st) st0 L).2).
  { intros L. induction L as [|f L IH]; intros st0; [done|]. cbn [foldl].
    eapply same_persistent_trans; [|apply IH]. unfold apply_updated. destruct (bs_FindFile f.1 st0.1); [|done].
    by apply same_persistent_call. }
  pose proof (Hadd (unordered_iter (cfc_added_files c)) st) as Hk1. set (st1 := foldl _ st _) in *.
  assert (Hk2 : keeps_persistent st1.2 (for_each (apply_deleted c) (unordered_iter (cfc_deleted_files c)) st1).2.2).
  { apply (for_each_rel (fun a b => keeps_persistent a.2 b.2)); [done|intros a b c'; apply same_persistent_trans|].
    intros [n seq] [bs sh]. unfold apply_deleted. destruct (cfc_added_files c !! _); [done|].
    unfold MarkFileObsolete. cbn [fst]. destruct (files bs !! n) as [l|]; [|done]. by apply same_persistent_call. }
  destruct (for_each _ _ st1) as [s st2]. cbn [snd] in Hk2. destruct (status_ok s).
  - pose proof (Hupd (unordered_iter (cfc_updated_discardable_size c)) st2) as Hk3.
    destruct (foldl _ st2 _) as [bs sh]. cbn [snd] in *.
    eapply same_persistent_trans; [exact Hk1|]. eapply same_persistent_trans; [exact Hk2|exact Hk3].
  - eapply same_persistent_trans; [exact Hk1|exact Hk2].
Qed.

Lemma LogAndApply_persistent edit sys s sys' :
  LogAndApply edit sys = Ok (s, sys') ->
  keeps_persistent (sys_shared sys) (sys_shared sys') /\
  manifest (sys_set sys') = manifest (sys_set sys).
Proof.
  unfold LogAndApply. destruct (AddEdit _ _ _) as [s1 c1].
  destruct (negb (status_ok s1)); [by intros [= <- <-]|].
  destruct (EditCollector_Seal _ _ c1) as [s2 c2]. destruct (negb (status_ok s2)); [by intros [= <- <-]|].
  destruct (manifest (sys_set sys)) as [log|] eqn:Hman; [|done].
  destruct (log_AddRecord _ _ _) as [s3 w3]. destruct (negb (status_ok s3)); [by intros [= <- <-]|].
  destruct (SyncTitanManifest _ _) as [s4 w4]. destruct (negb (status_ok s4)); [by intros [= <- <-]|].
  unfold EditCollector_Apply. destruct (negb (status_ok (ec_status c2))); [by intros [= <- <-]|].
  destruct (negb (sealed c2)); [by intros [= <- <-]|].
  pose proof (for_each_rel (fun a b : gmap Z BlobStorage * Shared => keeps_persistent a.2 b.2) apply_cf
    (unordered_iter (ec_column_families c2)) (column_families (sys_set sys), sys_shared sys)) as Hall.
  destruct (for_each _ _ _) as [s5 [cfs5 sh5]]. intros [= <- <-]. cbn [sys_shared sys_set snd] in *.
  split; [|done]. apply Hall; [done|intros a b c; apply same_persistent_trans|].
  intros [id c] st. unfold apply_cf. cbn [fst snd]. destruct (st.1 !! id) as [bs|]; [|done].
  pose proof (CF_Apply_persistent c (bs, st.2)) as Hc. by destruct (CF_Apply c (bs, st.2)) as [s [bs' sh']].
Qed.

(** ** Adding the outputs *)

(** New objects do not disturb what the storages own. *)
Definition heap_grows (db db' : TitanDBImpl) : Prop :=
  sys_set (t_sys db') = sys_set (t_sys db) /\ t_options db' = t_options db /\
  sh_stats (sys_shared (t_sys db')) = sh_stats (sys_shared (t_sys db)) /\
  sh_heap (sys_shared (t_sys db)) ⊆ sh_heap (sys_shared (t_sys db')).

Lemma heap_grows_inv db db' : heap_grows db db' -> db_inv db -> db_inv db'.
Proof.
  intros (Hset & _ & Hst & Hsub) [Hi Hc Hs Hd]. unfold db_inv. rewrite Hset. split; try done.
  intros id bs Hbs. eapply storage_inv_rely; [by apply (Hs id bs)|]. split; [|by intros; rewrite Hst].
  intros n l m _ Hm. exists m. split; [by eapply lookup_weaken|apply same_file_refl].
Qed.

Lemma heap_grows_lives db db' : heap_grows db db' -> db_inv db -> db_lives db' = db_lives db.
Proof.
  intros (Hset & _ & _ & Hsub) Hinv. unfold db_lives, lives. rewrite Hset. apply map_fmap_ext.
  intros id bs Hbs. apply map_eq. intros n. unfold live_files. rewrite !lookup_live_of.
  destruct (files bs !! n) as [l|] eqn:Hl; [|done].
  destruct (inv_files _ _ _ (set_storage _ _ Hinv id bs Hbs) n l Hl) as (m & Hm & _).
  by rewrite (deref_subseteq _ _ l Hsub) by by eexists.
Qed.

Lemma output_files_ok bs db :
  let '(files, db') := output_files bs db in
  heap_grows db db' /\ length files = length bs /\
  Forall2 (fun f o => f.2 = (o.1, bfb_file o.2) /\
             sh_heap (sys_shared (t_sys db)) !! f.1 = None /\
             sh_heap (sys_shared (t_sys db')) !! f.1 = Some (output_meta db o)) files bs.
Proof.
  revert db; induction bs as [|o bs IH]; intros db; cbn [output_files]; [by split_and!|].
  unfold add_meta. set (m := output_meta db o). set (h := sh_heap (sys_shared (t_sys db))).
  pose proof (make_shared_fresh m h) as Hfresh. pose proof (make_shared_subseteq m h) as Hsub.
  assert (Hm : (make_shared m h).2 !! (make_shared m h).1 = Some m) by apply lookup_insert_eq.
  destruct (make_shared m h) as [l h']. cbn [fst snd] in *.
  set (db1 := with_sys (with_shared (set_heap h' (sys_shared (t_sys db))) (t_sys db)) db).
  specialize (IH db1). destruct (output_files bs db1) as [files db'].
  destruct IH as ((Hset & Hopt & Hst & Hsub') & Hlen & Hall).
  split; [|split; [by cbn; rewrite Hlen|]].
  - split_and!; [done..|]. etrans; [exact Hsub|exact Hsub'].
  - constructor; [split_and!; [done|done|by eapply lookup_weaken]|].
    eapply Forall2_impl; [exact Hall|]. intros f o' (Hf & Hn & Hs). split_and!; [done| |].
    + change (h' !! f.1 = None) in Hn. destruct (h !! f.1) eqn:Hh; [|done]. by rewrite (lookup_weaken _ _ _ _ Hh Hsub) in Hn.
    + exact Hs.
Qed.

Lemma output_batch_fresh cf_id bs db :
  db_inv db -> manifest (sys_set (t_sys db)) <> None ->
  let '(files, db') := output_files bs db in batch_fresh cf_id files db'.
Proof.
  intros Hinv Hman. pose proof (output_files_ok bs db) as Hof.
  destruct (output_files bs db) as [files db']. destruct Hof as (Hg & _ & Hall).
  pose proof Hg as (Hset & _ & _ & Hsub). split; [|by rewrite Hset].
  intros l Hl. destruct (add_files_edit_added cf_id files) as (Ha & _ & Hc). rewrite Ha in Hl.
  apply list_elem_of_fmap in Hl as (f & -> & Hf). apply list_elem_of_lookup in Hf as [i Hi].
  destruct (Forall2_lookup_l _ _ _ _ _ Hall Hi) as (o & _ & _ & Hn & Hs).
  exists (output_meta db o). split; [done|]. split; [done|]. rewrite Hset. split.
  - intros id b n Hb Hfl. destruct (inv_files _ _ _ (set_storage _ _ Hinv id b Hb) n _ Hfl) as (m & Hm & _).
    congruence.
  - intros b Hb. rewrite Hc in Hb.
    pose proof (inv_levels_pos _ _ _ (set_storage _ _ Hinv cf_id b Hb)) as Hpos.
    unfold level_index, output_meta. cbn.
    destruct (sep_before_flush (t_options db)); cbn; lia.
Qed.

(** The metadata the outputs have once they are added. *)
Definition outputs_meta (db : TitanDBImpl) (bs : list (FileHandle * BlobFileBuilder)) : gmap Z BlobFileMeta :=
  list_to_map ((fun o => (GetNumber o.1, persistent (output_meta db o))) <$> bs).

Lemma output_metas cf_id bs db :
  let '(files, db') := output_files bs db in
  edit_metas (sh_heap (sys_shared (t_sys db'))) (add_files_edit cf_id files) = outputs_meta db bs.
Proof.
  pose proof (output_files_ok bs db) as Hof. destruct (output_files bs db) as [files db'].
  destruct Hof as (_ & _ & Hall). destruct (add_files_edit_added cf_id files) as (Ha & _ & _).
  unfold edit_metas, added_map, outputs_meta, numbered. rewrite Ha, <- list_to_map_fmap. f_equal.
  rewrite <- !list_fmap_compose. clear Ha.
  induction Hall as [|f o files bs (_ & _ & Hm) _ IH]; [done|]. cbn [fmap list_fmap]. f_equal; [|exact IH].
  unfold compose. unfold prod_map. cbn [fst snd]. by rewrite (deref_Some _ _ _ Hm).
Qed.

Lemma BatchFinishFiles_persistent cf_id files db s db' :
  BatchFinishFiles listeners cf_id files db = Ok (s, db') ->
  keeps_persistent (sys_shared (t_sys db)) (sys_shared (t_sys db')) /\
  manifest (sys_set (t_sys db')) = manifest (sys_set (t_sys db)).
Proof.
  unfold BatchFinishFiles. destruct (close_files _ _) as [s1 w]. destruct (negb _); [by intros [= <- <-]|].
  destruct (LogAndApply _ _) as [[s2 sys2]| |] eqn:HL; cbn [result_bind]; [|done..].
  intros [= <- <-]. apply LogAndApply_persistent in HL. cbn [with_pending t_sys].
  destruct (status_ok s2) eqn:Hs; [exact HL|]. unfold SetBGError. rewrite Hs. cbv zeta.
  destruct (status_ok (listeners s2)); exact HL.
Qed.

Lemma add_outputs gc files :
  sampled_inputs (foldl (fun gc f => AddOutputFile (f : finished).1 gc) gc files) = sampled_inputs gc /\
  gc_cf_id (foldl (fun gc f => AddOutputFile (f : finished).1 gc) gc files) = gc_cf_id gc.
Proof. revert gc; induction files as [|f files IH]; intros gc; [done|]. cbn [foldl].
  destruct (IH (AddOutputFile f.1 gc)) as [-> ->]. done.
Qed.

(** What the steps of [Finish] keep of a job. *)
Definition same_job (job job' : BlobGCJob) : Prop :=
  rewrite_batches job' = rewrite_batches job /\
  sampled_inputs (blob_gc job') = sampled_inputs (blob_gc job) /\ job_cf job' = job_cf job.

(** Numbers of objects in use stay. *)
Definition numbers_stay (db db' : TitanDBImpl) : Prop :=
  forall l, is_Some (sh_heap (sys_shared (t_sys db)) !! l) ->
    is_Some (sh_heap (sys_shared (t_sys db')) !! l) /\
    file_number (deref (sh_heap (sys_shared (t_sys db'))) l) =
    file_number (deref (sh_heap (sys_shared (t_sys db))) l).

(** Installing the outputs: all of them or none. *)
Lemma Install_ok job db bs n :
  finish_builders (blob_file_builders job) 0 = (OK, bs, n) ->
  db_inv db -> manifest (sys_set (t_sys db)) <> None ->
  exists s job' db', InstallOutputBlobFiles listeners job db = Ok (s, job', db') /\
    same_job job job' /\ numbers_stay db db' /\
    manifest (sys_set (t_sys db')) = manifest (sys_set (t_sys db)) /\ db_inv db' /\
    db_lives db' = (if status_ok s
                    then alter (fun live => outputs_meta db bs ∪ live) (job_cf job) (db_lives db)
                    else db_lives db).
Proof.
  intros Hfin Hinv Hman. unfold InstallOutputBlobFiles. rewrite Hfin. cbn [status_ok].
  pose proof (output_files_ok bs db) as Hof. pose proof (output_metas (job_cf job) bs db) as Hmetas.
  pose proof (output_batch_fresh (job_cf job) bs db Hinv Hman) as Hfresh.
  destruct (output_files bs db) as [files db1]. destruct Hof as (Hg & _ & _).
  pose proof Hg as (Hset & _ & _ & Hsub).
  set (job1 := MkBlobGCJob _ _ bs _). change (job_cf job1) with (job_cf job).
  destruct (BatchFinishFiles_ok listeners (job_cf job) files db1 (heap_grows_inv _ _ Hg Hinv) Hfresh)
    as (s & db2 & Hrun & Hs).
  rewrite Hrun. cbn [result_bind]. apply BatchFinishFiles_persistent in Hrun as [Hp Hm].
  eexists s, _, db2. split; [done|]. split; [|split; [|split; [by rewrite Hm, Hset|]]].
  - destruct (add_outputs (blob_gc job) files) as [Hsi Hid]. unfold same_job, job_cf.
    cbn [rewrite_batches blob_gc job1]. destruct (status_ok s); [|done].
    split_and!; [done|exact Hsi|exact (f_equal (default 0) Hid)].
  - intros l [m Hl]. pose proof (lookup_weaken _ _ _ _ Hl Hsub) as Hl1. split.
    + specialize (Hp l). rewrite Hl1 in Hp. by apply fmap_Some in Hp as (m' & -> & _).
    + rewrite (same_persistent_number _ _ _ Hp) by by eexists.
      by rewrite (deref_Some _ _ _ Hl), (deref_Some _ _ _ Hl1).
  - destruct (status_ok s).
    + destruct Hs as (Hinv2 & Hl2 & _). split; [done|]. by rewrite Hl2, Hmetas, (heap_grows_lives _ _ Hg Hinv).
    + destruct Hs as (Hset2 & Hsh2). unfold db_inv, db_lives. rewrite Hset2, Hsh2.
      split; [by apply (heap_grows_inv _ _ Hg)|]. by apply (heap_grows_lives _ _ Hg).
Qed.

(** ** Deleting the inputs *)

Definition input_numbers (job : BlobGCJob) (db : TitanDBImpl) : list Z :=
  (fun l => file_number (deref (sh_heap (sys_shared (t_sys db))) l)) <$> sampled_inputs (blob_gc job).

Lemma delete_inputs_edit_deleted cf_id seq h inputs :
  let e := delete_inputs_edit cf_id seq h inputs in
  column_family_id e = cf_id /\ added_files e = [] /\
  (deleted_files e).*1 = (fun l => file_number (deref h l)) <$> inputs.
Proof.
  unfold delete_inputs_edit. revert inputs. refine (rev_ind _ _ _); [done|].
  intros l inputs (Hc & Ha & Hd). rewrite foldl_snoc. split_and!; [done..|].
  rewrite deleted_files_DeleteBlobFile, !fmap_app, Hd. done.
Qed.

Lemma DeleteInputs_ok job d db :
  db_inv db -> manifest (sys_set (t_sys db)) <> None ->
  exists s job' db', DeleteInputBlobFiles job d db = Ok (s, job', db') /\ db_inv db' /\
    db_lives db' = (if status_ok s
                    then alter (spec_edit ∅ (list_to_set (input_numbers job db))) (job_cf job) (db_lives db)
                    else db_lives db).
Proof.
  intros Hinv Hman. unfold DeleteInputBlobFiles.
  set (e := delete_inputs_edit _ _ _ _).
  destruct (delete_inputs_edit_deleted (job_cf job) (GetLatestSequenceNumber d)
    (sh_heap (sys_shared (t_sys db))) (sampled_inputs (blob_gc job))) as (Hc & Ha & Hd). fold e in Hc, Ha, Hd.
  destruct (LogAndApply_refines e (t_sys db) Hinv) as (s & sys' & -> & Hs); [|done|].
  { intros l Hl. rewrite Ha in Hl. by apply not_elem_of_nil in Hl. }
  cbn [result_bind]. eexists s, _, _. split; [done|]. unfold db_inv, db_lives. cbn [t_sys with_sys].
  destruct (status_ok s).
  - destruct Hs as [Hinv' ->]. split; [done|]. rewrite Hc. f_equal.
    unfold edit_metas, deleted_set, input_numbers. rewrite Hd. by unfold added_map; rewrite Ha.
  - destruct Hs as [-> ->]. by split.
Qed.

Lemma UpdateInternalOpStats_lives job db :
  db_inv db -> db_inv (UpdateInternalOpStats job db) /\ db_lives (UpdateInternalOpStats job db) = db_lives db.
Proof.
  intros Hinv.
  assert (Hm : mild (sys_shared (t_sys db)) (sys_shared (t_sys (UpdateInternalOpStats job db)))).
  { split; [apply evolve_refl|]. intros cf t Ht. unfold UpdateInternalOpStats. cbn [t_sys with_sys sys_shared with_shared sh_stats set_stats].
    destruct (sh_stats (sys_shared (t_sys db))) as [st|]; [|done]. cbn [stat]. rewrite lookup_alter.
    case_decide as Heq; [|done]. rewrite <- Heq. by destruct (st !! job_cf job). }
  split; [by eapply mild_set_inv|by apply mild_lives].
Qed.

(** The outcome of rewriting the keys: the status and the base database. *)
Definition rewritten (stop : nat -> bool) (job : BlobGCJob) (d : base) : Status * base :=
  let '(s, _, d) := RewriteValidKeyToLSM stop job d in (s, d).

Lemma rewrite_loop_metrics stop i cf wbs s ms ms' d :
  let '(s1, _, d1) := rewrite_loop stop i cf wbs s ms d in
  let '(s2, _, d2) := rewrite_loop stop i cf wbs s ms' d in s1 = s2 /\ d1 = d2.
Proof.
  revert i s ms ms' d; induction wbs as [|[wb cb] wbs IH]; intros i s ms ms' d; cbn [rewrite_loop]; [done|].
  destruct (IsDropped d cf); [done|]. destruct (stop i); [done|].
  destruct (base_Write wb d) as [s1 d1]. destruct s1; try done; apply IH.
Qed.

Lemma rewritten_same stop job job' d : same_job job job' -> rewritten stop job' d = rewritten stop job d.
Proof.
  intros (Hb & _ & Hc). unfold rewritten, RewriteValidKeyToLSM. rewrite Hb, Hc.
  pose proof (rewrite_loop_metrics stop 0 (job_cf job) (rewrite_batches job) OK (metrics job') (metrics job) d) as Hm.
  destruct (rewrite_loop _ _ _ _ _ (metrics job') _) as [[s1 ms1] d1].
  destruct (rewrite_loop _ _ _ _ _ (metrics job) _) as [[s2 ms2] d2]. by destruct Hm as [-> ->].
Qed.

Lemma RewriteValidKeyToLSM_same stop job d :
  same_job job (RewriteValidKeyToLSM stop job d).1.2.
Proof. unfold RewriteValidKeyToLSM. by destruct (rewrite_loop _ _ _ _ _ _ _) as [[s ms] d']. Qed.

Lemma same_job_trans j1 j2 j3 : same_job j1 j2 -> same_job j2 j3 -> same_job j1 j3.
Proof. intros (?&?&?) (?&?&?). split_and!; congruence. Qed.

(** The last part of [Finish]. *)
Definition finish_tail (s : Status) (job : BlobGCJob) (db : TitanDBImpl) (d : base)
    : result (Status * BlobGCJob * TitanDBImpl * base) :=
  let* (s, job, db) :=
    if status_ok s && negb (IsDropped d (job_cf job)) then DeleteInputBlobFiles job d db
    else Ok (s, job, db) in
  Ok (s, job, if status_ok s then UpdateInternalOpStats job db else db, d).

Lemma finish_tail_ok s job db d :
  db_inv db -> manifest (sys_set (t_sys db)) <> None ->
  exists s' job' db', finish_tail s job db d = Ok (s', job', db', d) /\ db_inv db' /\
    (db_lives db' = db_lives db /\ (status_ok s' = true -> IsDropped d (job_cf job) = true) \/
     status_ok s = true /\ status_ok s' = true /\
     db_lives db' = alter (spec_edit ∅ (list_to_set (input_numbers job db))) (job_cf job) (db_lives db)).
Proof.
  intros Hinv Hman. unfold finish_tail. destruct (status_ok s) eqn:Hs; cbn [andb].
  2: { cbn [result_bind]. rewrite Hs. eexists _, _, _. split; [done|]. split; [done|]. left. by rewrite Hs. }
  destruct (IsDropped d (job_cf job)) eqn:Hd; cbn [negb result_bind].
  { destruct (UpdateInternalOpStats_lives job db Hinv) as [Hi Hl]. rewrite Hs.
    eexists _, _, _. split; [done|]. split; [done|]. left. by split. }
  destruct (DeleteInputs_ok job d db Hinv Hman) as (s1 & job1 & db1 & -> & Hinv1 & Hl1). cbn [result_bind].
  destruct (status_ok s1) eqn:Hs1.
  - destruct (UpdateInternalOpStats_lives job1 db1 Hinv1) as [Hi Hl].
    eexists _, _, _. split; [done|]. split; [done|]. right. split_and!; [done..|]. by rewrite Hl.
  - eexists _, _, _. split; [done|]. split; [done|]. left. split; [done|]. by rewrite Hs1.
Qed.

(** A collection whose outputs the job installs itself. In the other mode
    ([sep_before_flush] without [level_merge]) the run has already put the records
    through the foreground builder and written the keys, and [Finish] only deletes
    the inputs, see [gc_skipped_value_lost]. *)
Definition installs (db : TitanDBImpl) (fb : ForegroundBuilder) : Prop :=
  sep_before_flush (t_options db) && negb (level_merge (fb_cf_options fb)) = false.

Lemma Finish_tail stop job db fb d :
  installs db fb ->
  Finish listeners stop job db fb d =
    let* (s, job, db) := InstallOutputBlobFiles listeners job db in
    if status_ok s then
      let '(s, job, d) := RewriteValidKeyToLSM stop job d in finish_tail s job db d
    else finish_tail s job db d.
Proof.
  intros Hm. unfold Finish, finish_tail. rewrite Hm.
  destruct (InstallOutputBlobFiles listeners job db) as [[[s j] db1]| |]; cbn [result_bind]; [|done..].
  destruct (status_ok s) eqn:Hs; [|cbn [result_bind]; by rewrite Hs].
  by destruct (RewriteValidKeyToLSM stop j d) as [[s2 j2] d2].
Qed.

(** C14: When the job installs its outputs itself, [Finish] never leaves a key it
    rewrites without its file. Not covered is the mode [sep_before_flush] without
    [level_merge], in which [Finish] neither installs nor rewrites but deletes the
    inputs all the same (hypothesis [installs]). When every output can be
    completed, [Finish] ends with a status and the bookkeeping invariant holds,
    and one of these is the case: nothing has changed, neither the live files nor
    the keys, and the status is an error; or the outputs have been added and all
    inputs are still live (and the status is an error, unless the column family
    has been dropped); or the outputs have been added, the keys have been
    rewritten successfully, and the inputs are gone. *)
Theorem gc_finish_order (stop : nat -> bool) (job : BlobGCJob) (db : TitanDBImpl)
    (fb : ForegroundBuilder) (d : base) (bs : list (FileHandle * BlobFileBuilder)) (n : Z) :
  finish_builders (blob_file_builders job) 0 = (OK, bs, n) -> installs db fb ->
  db_inv db -> manifest (sys_set (t_sys db)) <> None ->
  Forall (fun l => is_Some (sh_heap (sys_shared (t_sys db)) !! l)) (sampled_inputs (blob_gc job)) ->
  let cf := job_cf job in
  let with_outputs := alter (fun live => outputs_meta db bs ∪ live) cf (db_lives db) in
  exists s job' db' d', Finish listeners stop job db fb d = Ok (s, job', db', d') /\ db_inv db' /\
    (status_ok s = false /\ db_lives db' = db_lives db /\ d' = d \/
     db_lives db' = with_outputs /\ (status_ok s = true -> IsDropped d' cf = true) \/
     status_ok s = true /\ rewritten stop job d = (OK, d') /\
     db_lives db' = alter (spec_edit ∅ (list_to_set (input_numbers job db))) cf with_outputs).
Proof.
  intros Hfin Hmode Hinv Hman Hin cf with_outputs. rewrite Finish_tail by done.
  destruct (Install_ok job db bs n Hfin Hinv Hman) as (s & job1 & db1 & -> & Hj & Hn & Hm & Hinv1 & Hl1).
  cbn [result_bind]. assert (Hman1 : manifest (sys_set (t_sys db1)) <> None) by by rewrite Hm.
  destruct (status_ok s) eqn:Hs.
  2: { unfold finish_tail. rewrite Hs. cbn [andb result_bind]. rewrite Hs. eexists _, _, _, _.
       split; [done|]. split; [done|]. left. by split. }
  pose proof (RewriteValidKeyToLSM_same stop job1 d) as Hj2.
  pose proof (rewritten_same stop job job1 d Hj) as Hrw. unfold rewritten at 1 in Hrw.
  destruct (RewriteValidKeyToLSM stop job1 d) as [[s2 job2] d2]. cbn [fst snd] in Hj2.
  pose proof (same_job_trans _ _ _ Hj Hj2) as (Hb & Hsi & Hc).
  destruct (finish_tail_ok s2 job2 db1 d2 Hinv1 Hman1) as (s3 & job3 & db3 & -> & Hinv3 & Hcase).
  eexists _, _, _, _. split; [done|]. split; [done|]. rewrite Hl1, Hc in Hcase.
  destruct Hcase as [[Hl Hd]|(Hs2 & Hs3 & Hl)]; [right; left; by split|].
  right. right. split; [done|]. apply status_ok_true in Hs2 as ->. split; [done|].
  assert (Hnum : input_numbers job2 db1 = input_numbers job db); [|by rewrite Hl, Hnum].
  unfold input_numbers. rewrite Hsi. apply list_fmap_ext. intros i l Hl'.
  rewrite Forall_lookup in Hin. by apply Hn, (Hin i).
Qed.

(** ** An output that cannot be completed *)

(** The inputs are live files of the column family, and the manifest can be
    written. *)
Record inputs_deletable (job : BlobGCJob) (db : TitanDBImpl) : Prop := {
  del_log : log_works (t_sys db);
  del_next : 0 <= set_next_file_number (sys_set (t_sys db));
  del_nodup : NoDup (input_numbers job db);
  del_live : forall bs n, column_families (sys_set (t_sys db)) !! job_cf job = Some bs ->
    n ∈ input_numbers job db ->
    exists l, files bs !! n = Some l /\ is_obsolete (deref (sh_heap (sys_shared (t_sys db))) l) = false
}.

Lemma DeleteInputs_succeeds job d db :
  db_inv db -> inputs_deletable job db ->
  exists job' db', DeleteInputBlobFiles job d db = Ok (OK, job', db').
Proof.
  intros Hinv [Hlog Hnext Hnd Hlive]. unfold DeleteInputBlobFiles.
  destruct (delete_inputs_edit_deleted (job_cf job) (GetLatestSequenceNumber d)
    (sh_heap (sys_shared (t_sys db))) (sampled_inputs (blob_gc job))) as (Hc & Ha & Hd).
  destruct (LogAndApply_deletes (delete_inputs_edit (job_cf job) (GetLatestSequenceNumber d)
    (sh_heap (sys_shared (t_sys db))) (sampled_inputs (blob_gc job))) (t_sys db) Hinv Hlog Hnext Ha) as (sys' & ->).
  - by rewrite Hd.
  - rewrite Hc, Hd. exact Hlive.
  - by eexists _, _.
Qed.

(** C38: A failed output loses data. When completing an output fails, the status
    of deleting the output files replaces the failure: if that deletion succeeds,
    [Finish] goes on, points the keys to the files it has just deleted, deletes
    the inputs and reports success. The live files lose the inputs and gain
    nothing. *)
Theorem gc_failed_output_loses_inputs (stop : nat -> bool) (job : BlobGCJob) (db db1 : TitanDBImpl)
    (fb : ForegroundBuilder) (d d' : base) (s0 : Status) (bs : list (FileHandle * BlobFileBuilder)) (n : Z) :
  finish_builders (blob_file_builders job) 0 = (s0, bs, n) -> status_ok s0 = false -> installs db fb ->
  db_inv db -> BatchDeleteFiles bs.*1 db = (OK, db1) -> inputs_deletable job db1 ->
  rewritten stop job d = (OK, d') -> IsDropped d' (job_cf job) = false ->
  exists job' db', Finish listeners stop job db fb d = Ok (OK, job', db', d') /\ db_inv db' /\
    db_lives db' = alter (spec_edit ∅ (list_to_set (input_numbers job db))) (job_cf job) (db_lives db).
Proof.
  intros Hfin Hs0 Hmode Hinv Hdel Hok Hrw Hdrop. rewrite Finish_tail by done.
  unfold InstallOutputBlobFiles. rewrite Hfin, Hs0, Hdel. cbn [result_bind status_ok].
  assert (Hdb1 : sys_set (t_sys db1) = sys_set (t_sys db) /\ sys_shared (t_sys db1) = sys_shared (t_sys db)).
  { revert Hdel. unfold BatchDeleteFiles. destruct (foldl _ _ _) as [s w]. by intros [= _ <-]. }
  destruct Hdb1 as [Hset Hsh].
  set (job1 := MkBlobGCJob (blob_gc job) _ bs (rewrite_batches job)).
  assert (Hj : same_job job job1) by done.
  pose proof (RewriteValidKeyToLSM_same stop job1 d) as Hj2.
  rewrite <- (rewritten_same stop job job1 d Hj) in Hrw. unfold rewritten in Hrw.
  destruct (RewriteValidKeyToLSM stop job1 d) as [[s2 job2] d2]. injection Hrw as -> ->. cbn [fst snd] in Hj2.
  destruct (same_job_trans _ _ _ Hj Hj2) as (_ & Hsi & Hc).
  assert (Hinv1 : db_inv db1) by (unfold db_inv; by rewrite Hset, Hsh).
  assert (Hnum : input_numbers job2 db1 = input_numbers job db) by (unfold input_numbers; by rewrite Hsi, Hsh).
  unfold finish_tail. cbn [status_ok andb]. rewrite Hc, Hdrop. cbn [negb].
  destruct (DeleteInputs_succeeds job2 d' db1 Hinv1) as (job3 & db3 & Hrun).
  { destruct Hok as [Hlog Hnext Hnd Hlv]. split; [done|done| |]; unfold input_numbers; rewrite ?Hsi, ?Hc; done. }
  destruct (DeleteInputs_ok job2 d' db1 Hinv1) as (s4 & job4 & db4 & Hrun' & Hinv4 & Hl4).
  { apply log_works_manifest, Hok. }
  rewrite Hrun in Hrun'. injection Hrun' as <- <- <-. rewrite Hrun. cbn [result_bind status_ok].
  destruct (UpdateInternalOpStats_lives job3 db3 Hinv4) as [Hi Hl].
  eexists _, _. split; [done|]. split; [done|]. rewrite Hl, Hl4. cbn [status_ok]. rewrite Hc, Hnum.
  unfold db_lives. by rewrite Hset, Hsh.
Qed.

(** ** A record the foreground builder refuses *)

(** With [sep_before_flush] and without [level_merge], a record that is still
    referred to but is smaller than [min_blob_size] (the option has been raised
    since it was written) is refused by the foreground builder. The loop goes on
    with an ok status and without having written anything; and [Finish], which in
    this mode neither installs files nor rewrites keys, deletes the inputs and
    reports success: the key still points to the deleted file. *)
Theorem gc_skipped_value_lost (hash : bytes -> Z) (bytes0 indeterminate : Z) (stop : nat -> bool)
    (key value : bytes) (i : BlobIndex) (r : GCRun) :
  sep_before_flush (t_options (run_db r)) = true ->
  level_merge (titan_cf_options (blob_gc (run_job r))) = false -> level_merge (fb_cf_options (run_fb r)) = false ->
  (DiscardEntry (run_base r) (job_cf (run_job r)) key i).1 = Ok false ->
  Z.of_nat (length value) < min_blob_size (fb_cf_options (run_fb r)) ->
  db_inv (run_db r) -> inputs_deletable (run_job r) (run_db r) ->
  IsDropped (run_base r) (job_cf (run_job r)) = false ->
  exists r', gc_entry listeners hash bytes0 indeterminate (key, value, i) r = Ok (OK, true, r') /\
    run_base r' = run_base r /\ run_db r' = run_db r /\ run_out r' = run_out r /\
    blob_file_builders (run_job r') = blob_file_builders (run_job r) /\
    exists job db', Finish listeners stop (run_job r') (run_db r') (run_fb r') (run_base r')
        = Ok (OK, job, db', run_base r) /\ db_inv db' /\
      db_lives db' = alter (spec_edit ∅ (list_to_set (input_numbers (run_job r) (run_db r)))) (job_cf (run_job r))
                       (db_lives (run_db r)).
Proof.
  intros Hsep Hlm Hlmf Hdis Hsmall Hinv Hdel Hdrop. unfold gc_entry. cbv zeta.
  set (r1 := run_with_job _ r).
  change (run_base r1) with (run_base r). change (job_cf (run_job r1)) with (job_cf (run_job r)).
  destruct (DiscardEntry _ _ key i) as [disc bytes]. cbn [fst] in Hdis. subst disc.
  set (job := job_metric m_bytes_read bytes (run_job r1)).
  assert (Hj : same_job (run_job r) job) by done. destruct Hj as (_ & Hsi & Hc).
  change (run_db r1) with (run_db r). change (blob_gc job) with (blob_gc (run_job r)). rewrite Hsep, Hlm. cbn [negb andb].
  assert (Hts : too_small (fb_cf_options (run_fb r)) value = true).
  { unfold too_small. by rewrite (proj2 (Z.ltb_lt _ _) Hsmall). }
  unfold gc_foreground, ForegroundBuilder_Add. change (run_fb (run_with_job job r1)) with (run_fb r). rewrite Hts.
  cbn [result_bind status_ok]. eexists. split; [done|]. split_and!; [done..|].
  cbn [run_job run_db run_fb run_base run_with_job].
  change (run_db r1) with (run_db r). change (run_fb r1) with (run_fb r).
  assert (Hdel' : inputs_deletable job (run_db r)) by (destruct Hdel as [? ? ? ?]; by split).
  unfold Finish. change (fb_cf_options (run_fb r1)) with (fb_cf_options (run_fb r)).
  rewrite Hsep, Hlmf. cbn [andb negb result_bind status_ok].
  change (run_base r1) with (run_base r). change (job_cf job) with (job_cf (run_job r)). rewrite Hdrop. cbn [negb].
  destruct (DeleteInputs_succeeds job (run_base r) (run_db r) Hinv Hdel') as (job1 & db1 & Hrun).
  destruct (DeleteInputs_ok job (run_base r) (run_db r) Hinv) as (s4 & job4 & db4 & Hrun' & Hinv4 & Hl4).
  { apply log_works_manifest, Hdel. }
  rewrite Hrun in Hrun'. injection Hrun' as <- <- <-. rewrite Hrun. cbn [result_bind status_ok] in *.
  destruct (UpdateInternalOpStats_lives job1 db1 Hinv4) as [Hi Hl].
  eexists _, _. split; [done|]. split; [done|]. by rewrite Hl, Hl4.
Qed.
End finish.

(** ** Applications *)

Section witnesses.
#[local] Existing Instances leb128_coding rle_compressors mem_env map_to_list_iter mem_manifest
  blobs_map readers_map mem_files mem_basedb.

(** A job that has moved a record of file 12 to a new file, 16. *)
Definition example_job (b : BlobFileBuilder) : BlobGCJob :=
  MkBlobGCJob (MkBlobGC [1%positive] [1%positive] [] example_merge_options (Some 5) false) (fun _ => 0)
    [(MkFileHandle 16 "/16", b)]
    [([(5, [Byte.x6b], BlobIndex_EncodeTo (MkBlobIndex 16 (MkBlobHandle 8 20)))],
      MkWriteCallback 5 [Byte.x6b] (MkBlobIndex 12 (MkBlobHandle 8 20)) [] 0)].

(** A builder whose file has room for the footer, and one whose file has not. *)
Definition example_good : BlobFileBuilder := BlobFileBuilder_new example_merge_options (MkMemWriter [] 1000) 0.
Definition example_bad : BlobFileBuilder := BlobFileBuilder_new example_merge_options (MkMemWriter [] 10) 0.

Definition example_keys : @base mem_basedb := MkMemBase ∅ 7.

Definition example_finish_fb : ForegroundBuilder :=
  ForegroundBuilder_new 5 example_db_options example_merge_options.

Lemma gc_finish_order_witness :
  exists s job' db' d',
    Finish (fun s => s) (fun _ => false) (example_job example_good) (example_db 5) example_finish_fb example_keys
      = Ok (s, job', db', d') /\ db_inv db'.
Proof.
  destruct (gc_finish_order (fun s => s) (fun _ => false) (example_job example_good) (example_db 5)
    example_finish_fb example_keys
    (finish_builders (blob_file_builders (example_job example_good)) 0).1.2 1)
    as (s & job' & db' & d' & Hrun & Hinv & _).
  - vm_compute. reflexivity.
  - vm_compute. reflexivity.
  - exact (example_db_inv 5 example_opens_5).
  - vm_compute. discriminate.
  - constructor; [|constructor]. vm_compute. by eexists.
  - exists s, job', db', d'. exact (conj Hrun Hinv).
Defined.

Lemma example_bad_deletable :
  inputs_deletable (example_job example_bad)
    (BatchDeleteFiles (finish_builders (blob_file_builders (example_job example_bad)) 0).1.2.*1 (example_db 5)).2.
Proof.
  split.
  - vm_compute. intros record. by split.
  - vm_compute. discriminate.
  - apply (bool_decide_unpack _). vm_compute. exact I.
  - intros bs n Hbs Hn. exists 1%positive.
    change (input_numbers _ _) with [12] in Hn. apply list_elem_of_singleton in Hn as ->.
    vm_compute in Hbs. injection Hbs as <-. vm_compute. split; reflexivity.
Qed.

Lemma pair_status {A} (p : Status * A) : p.1 = OK -> p = (OK, p.2).
Proof. by destruct p as [s x]; cbn; intros ->. Qed.

Lemma gc_failed_output_loses_inputs_witness :
  exists job' db', Finish (fun s => s) (fun _ => false) (example_job example_bad) (example_db 5)
      example_finish_fb example_keys
    = Ok (OK, job', db', (rewritten (fun _ => false) (example_job example_bad) example_keys).2) /\
    (db_lives db' !! 5 ≫= (.!! 12)) = None.
Proof.
  destruct (gc_failed_output_loses_inputs (fun s => s) (fun _ => false) (example_job example_bad) (example_db 5)
    (BatchDeleteFiles (finish_builders (blob_file_builders (example_job example_bad)) 0).1.2.*1 (example_db 5)).2
    example_finish_fb example_keys (rewritten (fun _ => false) (example_job example_bad) example_keys).2
    (finish_builders (blob_file_builders (example_job example_bad)) 0).1.1
    (finish_builders (blob_file_builders (example_job example_bad)) 0).1.2 0)
    as (job' & db' & Hrun & _ & Hl).
  - vm_compute. reflexivity.
  - vm_compute. reflexivity.
  - vm_compute. reflexivity.
  - exact (example_db_inv 5 example_opens_5).
  - apply pair_status. vm_compute. reflexivity.
  - exact example_bad_deletable.
  - apply pair_status. vm_compute. reflexivity.
  - vm_compute. reflexivity.
  - exists job', db'. split; [exact Hrun|]. rewrite Hl. vm_compute. reflexivity.
Defined.
End witnesses.
