(* ===== verification/TableBuilderInv.v ===== *)
(** * What a table builder guarantees

    While values are separated no entry is lost: each entry given to the builder
    has one in the table, with the value itself or with the index of a record of
    a complete blob file that holds it. *)

From S2P Require Import Prelude Rocks Options Stats Util BlobFormat Env BaseDb BlobFileBuilder BlobFileReader VersionEdit BlobStorage StorageInv EditCollector BlobFileSet ApplyInv ManifestReplay BlobGC Scheduler DbEvents DbEventsInv FileManager ForegroundBuilder GCJob GCJobInv TableBuilder.

Section invariant.
Context `{Coding} `{Compressors} `{E : Env} `{BC : Cache bytes} `{FC : !Cache BlobFileReader}
        `{UnorderedIter} `{!ManifestIO} `{!WritableFiles} `{!WritableFilesOk} `{T : Tables} `{!TablesOk T}.
Context (bytes0 : Z).

(** ** Where records are stored *)

(** The builder was given these records, and returned these handles. *)
Definition building (cf : TitanCFOptions) (rs : list BlobRecord) (hs : list BlobHandle)
    (b : BlobFileBuilder) : Prop :=
  exists file, w_contents file = [] /\
    BlobFileBuilder_AddAll rs (BlobFileBuilder_new cf file bytes0) = (hs, b).

(** The builder has written the record and returned the handle for it. *)
Definition wrote (cf : TitanCFOptions) (b : BlobFileBuilder) (h : BlobHandle) (key value : bytes) : Prop :=
  exists rs hs j, building cf rs hs b /\
    rs !! j = Some (MkBlobRecord key value (level_merge cf)) /\ hs !! j = Some h.

(** A complete file of the list has the record at the index. *)
Definition stored_in (cf : TitanCFOptions) (fs : list finished) (i : BlobIndex) (key value : bytes) : Prop :=
  exists f b b', f ∈ fs /\ GetNumber f.2.1 = index_file_number i /\
    wrote cf b (blob_handle i) key value /\ BlobFileBuilder_Finish b = (OK, b') /\ f.2.2 = bfb_file b'.

(** The same, or the file being written has it. *)
Definition stored (tb : TitanTableBuilder) (i : BlobIndex) (key value : bytes) : Prop :=
  stored_in (tb_cf_options tb) (tb_finished tb) i key value \/
  exists handle b, tb_handle tb = Some handle /\ tb_builder tb = Some b /\
    GetNumber handle = index_file_number i /\ wrote (tb_cf_options tb) b (blob_handle i) key value.

Lemma wrote_add cf b h key value r h' b' :
  wrote cf b h key value -> BlobFileBuilder_Add r BlobHandle_default b = (h', b') -> wrote cf b' h key value.
Proof.
  intros (rs & hs & j & (file & Hf & Hall) & Hr & Hh) Hadd.
  exists (rs ++ [r]), (hs ++ [h']), j. split_and!.
  - exists file. split; [done|]. by rewrite AddAll_snoc, Hall, Hadd.
  - by apply lookup_app_l_Some.
  - by apply lookup_app_l_Some.
Qed.

Lemma wrote_new cf rs hs b key value h b' :
  building cf rs hs b ->
  BlobFileBuilder_Add (MkBlobRecord key value (level_merge cf)) BlobHandle_default b = (h, b') ->
  wrote cf b' h key value.
Proof.
  intros (file & Hf & Hall) Hadd. pose proof (AddAll_length rs (BlobFileBuilder_new cf file bytes0)) as Hl.
  rewrite Hall in Hl. cbn [fst] in Hl. eexists (rs ++ [_]), (hs ++ [h]), (length rs). split_and!.
  - exists file. split; [done|]. rewrite AddAll_snoc, Hall. by rewrite Hadd.
  - rewrite lookup_app_r, Nat.sub_diag by lia. done.
  - rewrite lookup_app_r, Hl, Nat.sub_diag by lia. done.
Qed.

(** ** The file being written *)

Definition files_ok (tb : TitanTableBuilder) : Prop :=
  match tb_handle tb, tb_builder tb with
  | None, None => True
  | Some _, Some b => exists rs hs, building (tb_cf_options tb) rs hs b
  | _, _ => False
  end.

(** What writing to blob files leaves as it was. *)
Record blob_step (tb : TitanTableBuilder) (db : TitanDBImpl) (tb' : TitanTableBuilder)
    (db' : TitanDBImpl) : Prop := {
  bs_same_options : tb_cf_options tb' = tb_cf_options tb;
  bs_same_id : tb_cf_id tb' = tb_cf_id tb;
  bs_same_base : tb_base tb' = tb_base tb;
  bs_same_merging : merging_files tb' = merging_files tb;
  bs_same_levels : (merge_low_level tb', target_level tb', merge_level tb') =
                   (merge_low_level tb, target_level tb, merge_level tb);
  bs_same_cfs : column_families (sys_set (t_sys db')) = column_families (sys_set (t_sys db));
  bs_keeps : forall i key value, stored tb i key value -> stored tb' i key value
}.

Lemma blob_step_refl tb db : blob_step tb db tb db.
Proof. by split. Qed.

Lemma blob_step_trans tb1 db1 tb2 db2 tb3 db3 :
  blob_step tb1 db1 tb2 db2 -> blob_step tb2 db2 tb3 db3 -> blob_step tb1 db1 tb3 db3.
Proof. intros [] []. split; try congruence. auto. Qed.

Lemma tb_ok_true tb :
  tb_ok tb = true <-> status_ok (tb_status_ tb) = true /\ status_ok (table_status (tb_base tb)) = true /\
    (forall b, tb_builder tb = Some b -> status_ok (bfb_status b) = true).
Proof.
  unfold tb_ok, tb_status. destruct (status_ok (tb_status_ tb)) eqn:Hs; [|rewrite Hs; naive_solver].
  destruct (status_ok (table_status (tb_base tb))) eqn:Hb; [|rewrite Hb; naive_solver].
  destruct (tb_builder tb); naive_solver.
Qed.

Lemma Finish_status b : bfb_status (BlobFileBuilder_Finish b).2 = (BlobFileBuilder_Finish b).1.
Proof.
  unfold BlobFileBuilder_Finish. destruct (status_ok (bfb_status b)); cbn [negb]; [|done].
  destruct (w_Append _ _) as [s f]. destruct (status_ok s); [|done]. by destruct (w_Flush f).
Qed.

Lemma stored_out h b fs tb i key value :
  stored (tb_set_out h b fs tb) i key value <->
  stored_in (tb_cf_options tb) fs i key value \/
  exists handle b', h = Some handle /\ b = Some b' /\
    GetNumber handle = index_file_number i /\ wrote (tb_cf_options tb) b' (blob_handle i) key value.
Proof. done. Qed.

Lemma stored_in_app cf fs fs' i key value :
  stored_in cf fs i key value -> stored_in cf (fs ++ fs') i key value.
Proof. intros (f & b & b' & Hin & Hrest). exists f, b, b'. split; [by apply elem_of_app; left|done]. Qed.

Lemma DeleteFile_cfs handle db :
  column_families (sys_set (t_sys (DeleteFile handle db).2)) = column_families (sys_set (t_sys db)).
Proof. unfold DeleteFile, BatchDeleteFiles. cbn [foldl]. by destruct (env_DeleteFile _ _). Qed.

(** Finishing the file: when the builder is ok afterwards, nothing is being
    written any more and what was written is stored in a complete file. *)
Lemma FinishBlobFile_step tb db :
  files_ok tb -> status_ok (tb_status_ tb) = true ->
  exists tb' db', FinishBlobFile tb db = Ok (tb', db') /\
    (tb_ok tb' = true -> blob_step tb db tb' db' /\ files_ok tb' /\ tb_builder tb' = None).
Proof.
  intros Hfiles Hst. unfold FinishBlobFile. unfold files_ok in Hfiles.
  destruct (tb_builder tb) as [b|] eqn:Hb.
  2: { eexists _, _. split; [done|]. intros _. split; [apply blob_step_refl|]. unfold files_ok. by rewrite Hb. }
  destruct (tb_handle tb) as [handle|] eqn:Hh; [|done].
  destruct (BlobFileBuilder_Finish b) as [s b'] eqn:Hfin.
  pose proof (Finish_status b) as Hs. rewrite Hfin in Hs. cbn [fst snd] in Hs. cbn [tb_handle tb_set_out].
  destruct (tb_ok (tb_set_out (Some handle) (Some b') (tb_finished tb) tb)) eqn:Hok.
  - destruct (add_meta _ db) as [file db'] eqn:Hmeta. eexists _, _. split; [done|]. intros _.
    split; [|done]. apply tb_ok_true in Hok as (_ & _ & Hbo). specialize (Hbo b' eq_refl).
    rewrite Hs in Hbo. apply status_ok_true in Hbo as ->.
    split; try done.
    + unfold add_meta in Hmeta. destruct (make_shared _ _). by injection Hmeta as _ <-.
    + intros i key value Hsto. apply stored_out. left.
      destruct Hsto as [Hsto|(handle' & b0 & Hh' & Hb' & Hn & Hw)]; [by apply stored_in_app|].
      rewrite Hh in Hh'. rewrite Hb in Hb'. simplify_eq. eexists _, b0, b'.
      split; [apply elem_of_app; right; by apply list_elem_of_singleton|done].
  - destruct (DeleteFile handle db) as [s1 db'] eqn:Hdel. eexists _, _. split; [done|]. intros Hok'.
    apply tb_ok_true in Hok' as (_ & Hbase & Hbo). exfalso.
    assert (Htrue : tb_ok (tb_set_out (Some handle) (Some b') (tb_finished tb) tb) = true)
      by by apply tb_ok_true. congruence.
Qed.

(** Opening a file. *)
Lemma open_blob_step tb db :
  files_ok tb -> tb_ok tb = true ->
  exists tb' db', open_blob bytes0 tb db = Ok (tb', db') /\
    (status_ok (tb_status_ tb') = true ->
      blob_step tb db tb' db' /\ files_ok tb' /\ is_Some (tb_builder tb') /\
      status_ok (table_status (tb_base tb')) = true).
Proof.
  intros Hfiles Hok. apply tb_ok_true in Hok as (Hst & Hbase & _). unfold open_blob, files_ok in *.
  destruct (tb_builder tb) as [b|] eqn:Hb.
  - eexists _, _. split; [done|]. rewrite Hb. intros _. split; [apply blob_step_refl|]. done.
  - destruct (tb_handle tb) as [handle|] eqn:Hh; [done|]. unfold NewFile.
    destruct (NewFileNumber _) as [n vs] eqn:Hn.
    destruct (env_NewWritableFile _ _) as [[file|s|] w] eqn:Hf.
    + eexists _, _. split; [done|]. intros _. split; [|split; [|done]].
      * split; try done; [by injection Hn as _ <-|]. intros i key value [Hs|(? & ? & ? & ? & _)]; [by left|congruence].
      * cbn. exists [], [], file. split; [by eapply new_writable_empty|]. done.
    + eexists _, _. split; [done|]. cbn [tb_status_ tb_set_status].
      rewrite (new_writable_error _ _ _ _ Hf). done.
    + by destruct (new_writable_total _ _ _ Hf).
Qed.

(** Writing a value: when the builder is ok afterwards the index leads to it. *)
Lemma AddBlob_step key value tb db :
  files_ok tb -> tb_ok tb = true ->
  exists iv tb' db', AddBlob bytes0 key value tb db = Ok (iv, tb', db') /\
    (tb_ok tb' = true -> blob_step tb db tb' db' /\ files_ok tb' /\
       exists i, iv = Some (BlobIndex_EncodeTo i) /\ stored tb' i key value).
Proof.
  intros Hfiles Hok. unfold AddBlob. rewrite Hok. cbn [negb].
  destruct (open_blob_step tb db Hfiles Hok) as (tb1 & db1 & -> & Hopen). cbn [result_bind].
  destruct (status_ok (tb_status_ tb1)) eqn:Hs1; cbn [negb].
  2: { eexists _, _, _. split; [done|]. intros (Hbad & _)%tb_ok_true. congruence. }
  destruct (Hopen eq_refl) as (Hstep1 & Hf1 & [b Hb] & Hbase). unfold files_ok in Hf1. rewrite Hb in *.
  destruct (tb_handle tb1) as [handle|] eqn:Hh; [|done]. destruct Hf1 as (rs & hs & Hbuild).
  destruct (BlobFileBuilder_Add _ _ b) as [h b'] eqn:Hadd.
  match goal with |- context [tb_ok ?t] => set (tb2 := t) end.
  match goal with |- context [FinishBlobFile tb2 ?d] => set (db2 := d) end.
  set (i := MkBlobIndex (GetNumber handle) h).
  assert (Hstep2 : blob_step tb1 db1 tb2 db2).
  { split; try done. intros i' k' v' [Hin|(handle' & b0 & Hh' & Hb' & Hn & Hw)]; [by left|]. right.
    rewrite Hh in Hh'. rewrite Hb in Hb'. simplify_eq. eexists _, _. split_and!; [done..|].
    by eapply wrote_add. }
  assert (Hnew : stored tb2 i key value).
  { right. eexists _, _. split_and!; [done..|]. by eapply wrote_new. }
  assert (Hf2 : files_ok tb2).
  { unfold files_ok. cbn. destruct Hbuild as (file & Hfile & Hall). eexists (rs ++ [_]), (hs ++ [h]), file.
    split; [done|]. rewrite AddAll_snoc, Hall. by rewrite Hadd. }
  destruct (tb_ok tb2) eqn:Hok2.
  2: { eexists _, _, _. split; [done|]. congruence. }
  destruct (_ <=? _); cbn [result_bind].
  - destruct (FinishBlobFile_step tb2 db2 Hf2) as (tb3 & db3 & -> & Hfin); [by apply tb_ok_true in Hok2|].
    cbn [result_bind]. eexists _, _, _. split; [done|]. intros Hok3.
    destruct (Hfin Hok3) as (Hstep3 & Hf3 & _). split.
    + by do 2 (eapply blob_step_trans; [done|]).
    + split; [done|]. exists i. split; [done|]. by apply Hstep3.
  - eexists _, _, _. split; [done|]. intros _. split; [by eapply blob_step_trans|]. split; [done|].
    by exists i.
Qed.

(** ** The entries of the table *)

(** The prefetcher is one of the storage for that file. *)
Definition opened (bs : BlobStorage) (n : Z) (p : BlobFilePrefetcher) : Prop :=
  exists w sh sh' p0, bs_NewPrefetcher w n (bs, sh) = (Ok p0, sh') /\
    pf_reader p = pf_reader p0 /\ pf_only_value p = pf_only_value p0.

(** A read of the storage, direct or through a prefetcher, gives the value. *)
Definition reads (bs : BlobStorage) (i : BlobIndex) (value : bytes) : Prop :=
  (exists w sh sh' record, bs_Get w i BlobRecord_default (bs, sh) = (Ok record, sh') /\
     record_value record = value) \/
  (exists w p bc record buf bc' p' pre, opened bs (index_file_number i) p /\
     BlobFilePrefetcher_Get w p (blob_handle i) BlobRecord_default bc = (Ok (record, buf), bc', p', pre) /\
     record_value record = value).

(** What the entry [(k, v)] becomes: it is left as it is unless its value is to
    be separated; a separated value, or one read from an old blob file, is at its
    new index; a value read back in the mode [kFallback] is inline. *)
Inductive entry_of (cf : TitanCFOptions) (bs : BlobStorage) (at_index : BlobIndex -> bytes -> bytes -> Prop)
    : bytes * bytes -> bytes * bytes -> Prop :=
| entry_kept k v ik : ParseInternalKey k = Some ik -> separates cf ik v = false ->
    entry_of cf bs at_index (k, v) (k, v)
| entry_separated k v ik i : ParseInternalKey k = Some ik -> separates cf ik v = true ->
    at_index i (user_key ik) v ->
    entry_of cf bs at_index (k, v) (AppendInternalKey (set_key_type kTypeBlobIndex ik), BlobIndex_EncodeTo i)
| entry_merged k v ik i rest i' value : ParseInternalKey k = Some ik -> key_type ik = kTypeBlobIndex ->
    BlobIndex_DecodeFrom BlobIndex_default v = Ok (i, rest) -> reads bs i value ->
    at_index i' (user_key ik) value ->
    entry_of cf bs at_index (k, v) (AppendInternalKey (set_key_type kTypeBlobIndex ik), BlobIndex_EncodeTo i')
| entry_inlined k v ik i rest value : ParseInternalKey k = Some ik -> key_type ik = kTypeBlobIndex ->
    blob_run_mode cf = kFallback ->
    BlobIndex_DecodeFrom BlobIndex_default v = Ok (i, rest) -> reads bs i value ->
    entry_of cf bs at_index (k, v) (AppendInternalKey (set_key_type kTypeValue ik), value).

Lemma entry_of_impl cf bs (P Q : BlobIndex -> bytes -> bytes -> Prop) kv kv' :
  (forall i k v, P i k v -> Q i k v) -> entry_of cf bs P kv kv' -> entry_of cf bs Q kv kv'.
Proof.
  intros HPQ [k v ik|k v ik i|k v ik i rest i' value|k v ik i rest value].
  - by eapply entry_kept.
  - intros. by eapply entry_separated; eauto.
  - intros. by eapply entry_merged; eauto.
  - intros. by eapply entry_inlined; eauto.
Qed.

(** The builder after the entries [P], as long as it is ok. *)
Record tb_inv (cf : TitanCFOptions) (cf_id : Z) (bs : BlobStorage) (levels : bool * Z * Z)
    (P : list (bytes * bytes)) (tb : TitanTableBuilder) (db : TitanDBImpl) : Prop := {
  ti_options : tb_cf_options tb = cf;
  ti_id : tb_cf_id tb = cf_id;
  ti_levels : (merge_low_level tb, target_level tb, merge_level tb) = levels;
  ti_storage : column_families (sys_set (t_sys db)) !! cf_id = Some bs;
  ti_files : files_ok tb;
  ti_merging : map_Forall (opened bs) (merging_files tb);
  ti_entries : Forall2 (entry_of cf bs (stored tb)) P (table_entries (tb_base tb))
}.

Lemma tb_inv_step cf cf_id bs levels P tb db tb' db' :
  tb_inv cf cf_id bs levels P tb db -> blob_step tb db tb' db' -> files_ok tb' ->
  tb_inv cf cf_id bs levels P tb' db'.
Proof.
  intros [Hcf Hid Hl Hbs Hf Hm He] [Hcf' Hid' Hbase Hm' Hl' Hc' Hk] Hf'. split; [congruence..| |done| |].
  { by rewrite Hc'. }
  { by rewrite Hm'. }
  rewrite Hbase. eapply Forall2_impl; [done|]. intros kv kv'. by apply entry_of_impl.
Qed.

(** A successful put to the table. *)
Lemma tb_put_inv cf cf_id bs levels P tb db kv k v :
  tb_inv cf cf_id bs levels P tb db -> tb_ok (tb_put k v tb) = true ->
  entry_of cf bs (stored tb) kv (k, v) -> tb_inv cf cf_id bs levels (P ++ [kv]) (tb_put k v tb) db.
Proof.
  intros [] Hok He. apply tb_ok_true in Hok as (_ & Hbase & _). split; try done.
  cbn [tb_base tb_put tb_set_base] in *. rewrite table_add_ok by by apply status_ok_true.
  apply Forall2_app; [done|]. by constructor.
Qed.

Lemma tb_put_ok k v tb : tb_ok (tb_put k v tb) = true -> tb_ok tb = true.
Proof.
  intros (Hs & Hbase & Hb)%tb_ok_true. apply tb_ok_true. split; [done|]. split; [|done].
  cbn [tb_base tb_put tb_set_base] in Hbase.
  destruct (status_ok (table_status (tb_base tb))) eqn:Ho; [done|].
  rewrite table_add_failed in Hbase; [congruence|]. intros Heq. by rewrite Heq in Ho.
Qed.

Lemma add_separated_inv cf cf_id bs levels P tb db k v ik :
  tb_inv cf cf_id bs levels P tb db -> tb_ok tb = true -> ParseInternalKey k = Some ik ->
  separates cf ik v = true ->
  exists tb' db', add_separated bytes0 ik v tb db = Ok (tb', db') /\
    (tb_ok tb' = true -> tb_inv cf cf_id bs levels (P ++ [(k, v)]) tb' db').
Proof.
  intros Hinv Hok Hk Hsep. unfold add_separated.
  destruct (AddBlob_step (user_key ik) v tb db (ti_files _ _ _ _ _ _ _ Hinv) Hok) as (iv & tb1 & db1 & -> & Hadd).
  cbn [result_bind]. destruct (tb_ok tb1) eqn:Hok1; [|eexists _, _; split; [done|congruence]].
  destruct (Hadd eq_refl) as (Hstep & Hf & i & -> & Hsto). eexists _, _. split; [done|]. intros Hput.
  apply tb_put_inv; [by eapply tb_inv_step|done|]. by eapply entry_separated.
Qed.

Lemma add_fallback_inv cf cf_id bs levels P tb db k v ik tb' db' :
  tb_inv cf cf_id bs levels P tb db -> ParseInternalKey k = Some ik -> falls_back cf ik = true ->
  separates cf ik v = false ->
  add_fallback k v ik tb db = Ok (tb', db') -> tb_ok tb' = true ->
  tb_inv cf cf_id bs levels (P ++ [(k, v)]) tb' db'.
Proof.
  intros Hinv Hk Hfb Hsep. unfold add_fallback. apply andb_true_iff in Hfb as [Ht Hmode].
  destruct (BlobIndex_DecodeFrom _ v) as [[i rest]|s|] eqn:Hd; [|..|done].
  2: { intros [= <- <-] (Hs & _)%tb_ok_true. pose proof (BlobIndex_DecodeFrom_fails BlobIndex_default v) as Hf.
       rewrite Hd in Hf. cbn in Hs. congruence. }
  rewrite (ti_id _ _ _ _ _ _ _ Hinv), (ti_storage _ _ _ _ _ _ _ Hinv).
  destruct (bs_Get _ _ _ _) as [[record|s|] sh] eqn:Hget; [intros [= <- <-]..|done]; intros Hok.
  - assert (Hput : tb_inv cf cf_id bs levels (P ++ [(k, v)])
        (tb_put (AppendInternalKey (set_key_type kTypeValue ik)) (record_value record) tb) db).
    { apply tb_put_inv; [done|exact Hok|]. eapply entry_inlined; [done|by apply Z.eqb_eq|by apply bool_decide_eq_true in Hmode|done|].
      left. by eexists _, _, _, _. }
    by destruct Hput.
  - assert (Hput : tb_inv cf cf_id bs levels (P ++ [(k, v)]) (tb_put k v tb) db).
    { apply tb_put_inv; [done..|]. by eapply entry_kept. }
    by destruct Hput.
Qed.

(** The files a builder knows may change without the rest. *)
Lemma tb_inv_files cf cf_id bs levels P tb db ms es sh :
  tb_inv cf cf_id bs levels P tb db -> map_Forall (opened bs) ms ->
  tb_inv cf cf_id bs levels P (tb_set_files ms es tb) (with_sh sh db).
Proof. by intros [] ?. Qed.

Lemma encounter_inv cf cf_id bs levels P tb db st n file tb' :
  tb_inv cf cf_id bs levels P tb db -> encounter st n tb = Ok (file, tb') ->
  tb_inv cf cf_id bs levels P tb' db /\ tb_ok tb' = tb_ok tb.
Proof.
  intros Hinv. unfold encounter. destruct (encountered_files tb !! n) as [f|]; [by intros [= _ <-]|].
  destruct st as [bs'|]; [|done]. intros [= _ <-]. split; [|done]. by destruct Hinv.
Qed.

Lemma merging_file_db n tb db r db' : merging_file n tb db = (r, db') -> exists sh, db' = with_sh sh db.
Proof.
  assert (Hsame : exists sh, db = with_sh sh db).
  { exists (sys_shared (t_sys db)). by destruct db as [? [] ? ? ? ? ? ?]. }
  unfold merging_file. destruct (merging_files tb !! n); [by intros [= _ <-]|].
  destruct (column_families _ !! _); [|by intros [= _ <-]].
  destruct (bs_NewPrefetcher _ _ _) as [p sh]. intros [= _ <-]. by exists sh.
Qed.

Lemma merging_file_opened cf cf_id bs levels P tb db n p db' :
  tb_inv cf cf_id bs levels P tb db -> merging_file n tb db = (Ok p, db') -> opened bs n p.
Proof.
  intros [Hcf Hid Hl Hbs Hf Hm He]. unfold merging_file.
  destruct (merging_files tb !! n) as [p0|] eqn:Hp.
  - intros [= <- <-]. by eapply Hm.
  - rewrite Hid, Hbs. destruct (bs_NewPrefetcher _ _ _) as [p0 sh] eqn:Hnew. intros [= -> <-].
    by eexists _, _, _, _.
Qed.

Lemma readahead_reader p h :
  pf_reader (BlobFilePrefetcher_readahead p h).1 = pf_reader p /\
  pf_only_value (BlobFilePrefetcher_readahead p h).1 = pf_only_value p.
Proof. unfold BlobFilePrefetcher_readahead. by repeat case_match. Qed.

Lemma read_merging_inv cf cf_id bs levels P tb db i p r tb' db' :
  tb_inv cf cf_id bs levels P tb db -> opened bs (index_file_number i) p ->
  read_merging i p tb db = (r, tb', db') ->
  tb_inv cf cf_id bs levels P tb' db' /\ tb_ok tb' = tb_ok tb /\
  forall record, r = Ok record -> reads bs i (record_value record).
Proof.
  intros Hinv Hp. unfold read_merging.
  destruct (BlobFilePrefetcher_Get _ p _ _ _) as [[[r0 bc] p'] pre] eqn:Hget. intros [= <- <- <-].
  split_and!; [|done|].
  - apply tb_inv_files; [done|]. apply map_Forall_insert_2; [|apply Hinv].
    destruct Hp as (w & sh & sh' & p0 & Hnew & Hr & Ho). exists w, sh, sh', p0. split; [done|].
    unfold BlobFilePrefetcher_Get in Hget. pose proof (readahead_reader p (blob_handle i)) as [Hr' Ho'].
    destruct (BlobFilePrefetcher_readahead p _) as [p1 pre1]. destruct (BlobFileReader_Get _ _ _ _ _) as [s1 bc1].
    injection Hget as _ _ <- _. cbn [fst] in *. by rewrite Hr', Ho'.
  - intros record. destruct r0 as [[record0 buf]| |]; cbn [result_bind]; [|done..]. intros [= <-].
    right. by eexists _, p, _, record0, buf, _, _, _.
Qed.

Lemma add_merging_inv cf cf_id bs levels P tb db k v ik tb' db' :
  tb_inv cf cf_id bs levels P tb db -> tb_ok tb = true -> ParseInternalKey k = Some ik ->
  key_type ik = kTypeBlobIndex -> separates cf ik v = false ->
  add_merging bytes0 k v ik tb db = Ok (tb', db') -> tb_ok tb' = true ->
  tb_inv cf cf_id bs levels (P ++ [(k, v)]) tb' db'.
Proof.
  intros Hinv Hok Hk Ht Hsep. unfold add_merging.
  assert (Hkeep : forall tb db tb' db', tb_inv cf cf_id bs levels P tb db ->
            Ok (tb_put k v tb, db) = Ok (tb', db') -> tb_ok tb' = true ->
            tb_inv cf cf_id bs levels (P ++ [(k, v)]) tb' db').
  { intros tb0 db0 ? ? Hinv0 [= <- <-] Hok0. apply tb_put_inv; [done..|]. by eapply entry_kept. }
  pose proof (BlobIndex_DecodeFrom_fails BlobIndex_default v) as Hfail.
  destruct (BlobIndex_DecodeFrom _ v) as [[i rest]|s|] eqn:Hd; [|..|done].
  2: { intros [= <- <-] (Hs & _)%tb_ok_true. cbn in Hs. congruence. }
  destruct (encounter _ _ tb) as [[file tb1]| |] eqn:Henc; cbn [result_bind]; [|done..].
  destruct (encounter_inv _ _ _ _ _ _ _ _ _ _ _ Hinv Henc) as [Hinv1 Hok1]. rewrite Hok in Hok1.
  destruct (ShouldMerge tb1 _ file); [|by apply Hkeep].
  destruct (merging_file _ tb1 db) as [[p|s|] db1] eqn:Hmf; [|..|done].
  2: { apply Hkeep. destruct (merging_file_db _ _ _ _ _ Hmf) as [sh ->]. by destruct Hinv1. }
  destruct (merging_file_db _ _ _ _ _ Hmf) as [sh ->].
  pose proof (merging_file_opened _ _ _ _ _ _ _ _ _ _ Hinv1 Hmf) as Hp.
  assert (Hinv2 : tb_inv cf cf_id bs levels P tb1 (with_sh sh db)) by by destruct Hinv1.
  destruct (read_merging i p tb1 (with_sh sh db)) as [[r tb2] db2] eqn:Hread.
  destruct (read_merging_inv _ _ _ _ _ _ _ _ _ _ _ _ Hinv2 Hp Hread) as (Hinv3 & Hok3 & Hval).
  destruct r as [record|s|]; [|by apply Hkeep|done]. rewrite Hok1 in Hok3.
  destruct (AddBlob_step (user_key ik) (record_value record) tb2 db2 (ti_files _ _ _ _ _ _ _ Hinv3) Hok3)
    as (iv & tb4 & db4 & -> & Hadd).
  cbn [result_bind]. destruct (tb_ok tb4) eqn:Hok4.
  2: { intros [= <- <-] Hok5%tb_put_ok. congruence. }
  destruct (Hadd eq_refl) as (Hstep & Hf & i' & -> & Hsto). intros [= <- <-] Hok5.
  apply tb_put_inv; [by eapply tb_inv_step|done|]. eapply entry_merged; [done..| |done]. by apply Hval.
Qed.

(** One call. *)
Lemma Add_inv cf cf_id bs levels P tb db k v tb' db' :
  (tb_ok tb = true -> tb_inv cf cf_id bs levels P tb db) ->
  TitanTableBuilder_Add bytes0 k v tb db = Ok (tb', db') -> tb_ok tb' = true ->
  tb_inv cf cf_id bs levels (P ++ [(k, v)]) tb' db'.
Proof.
  intros Hinv. unfold TitanTableBuilder_Add. destruct (tb_ok tb) eqn:Hok; cbn [negb].
  2: { intros [= <- <-]. congruence. }
  specialize (Hinv eq_refl).
  destruct (ParseInternalKey k) as [ik|] eqn:Hk.
  2: { intros [= <- <-] (Hs & _)%tb_ok_true. done. }
  rewrite (ti_options _ _ _ _ _ _ _ Hinv).
  destruct (falls_back cf ik) eqn:Hfb.
  { intros Hadd. eapply add_fallback_inv; [done..| |exact Hadd].
    apply andb_true_iff in Hfb as [Ht%Z.eqb_eq _]. unfold separates. by rewrite Ht. }
  destruct (separates cf ik v) eqn:Hsep.
  { destruct (add_separated_inv _ _ _ _ _ _ _ k v ik Hinv Hok Hk Hsep) as (tb1 & db1 & -> & Hres).
    intros [= <- <-]. exact Hres. }
  destruct (merges tb ik) eqn:Hm.
  { intros Hadd. eapply add_merging_inv; [done..| |done|exact Hadd]. unfold merges in Hm.
    repeat apply andb_true_iff in Hm as [Hm _]. by apply Z.eqb_eq. }
  intros [= <- <-] Hput. apply tb_put_inv; [done..|]. by eapply entry_kept.
Qed.

Lemma add_entries_inv cf cf_id bs levels kvs P tb db tb' db' :
  (tb_ok tb = true -> tb_inv cf cf_id bs levels P tb db) ->
  add_entries bytes0 kvs tb db = Ok (tb', db') -> tb_ok tb' = true ->
  tb_inv cf cf_id bs levels (P ++ kvs) tb' db'.
Proof.
  revert P tb db. induction kvs as [|[k v] kvs IH]; intros P tb db Hinv; cbn [add_entries].
  - intros [= <- <-]. rewrite app_nil_r. exact Hinv.
  - destruct (TitanTableBuilder_Add bytes0 k v tb db) as [[tb1 db1]| |] eqn:Hadd; cbn [result_bind]; [|done..].
    rewrite cons_middle, app_assoc. apply IH. by eapply Add_inv.
Qed.

(** Whether the builder reads blob files at all. *)
Definition reads_blobs (cf : TitanCFOptions) (levels : bool * Z * Z) : bool :=
  match blob_run_mode cf with
  | kFallback => true
  | kNormal => level_merge cf && ((levels.2 <=? levels.1.2) || levels.1.1)
  | kReadOnly => false
  end.

Lemma add_entries_total cf cf_id bs levels kvs P tb db :
  reads_blobs cf levels = false ->
  (tb_ok tb = true -> tb_inv cf cf_id bs levels P tb db) ->
  exists tb' db', add_entries bytes0 kvs tb db = Ok (tb', db').
Proof.
  intros Hno. revert P tb db. induction kvs as [|[k v] kvs IH]; intros P tb db Hinv; cbn [add_entries]; [by eexists _, _|].
  assert (exists tb1 db1, TitanTableBuilder_Add bytes0 k v tb db = Ok (tb1, db1)) as (tb1 & db1 & Hadd).
  { unfold TitanTableBuilder_Add. destruct (tb_ok tb) eqn:Hok; cbn [negb]; [|by eexists _, _].
    specialize (Hinv eq_refl). destruct (ParseInternalKey k) as [ik|] eqn:Hk; [|by eexists _, _].
    unfold merges. rewrite (ti_options _ _ _ _ _ _ _ Hinv). pose proof (ti_levels _ _ _ _ _ _ _ Hinv) as Hl.
    destruct (falls_back cf ik) eqn:Hfb.
    { apply andb_true_iff in Hfb as [_ Hm%bool_decide_eq_true]. unfold reads_blobs in Hno. by rewrite Hm in Hno. }
    destruct (separates cf ik v) eqn:Hsep.
    { destruct (add_separated_inv _ _ _ _ _ _ _ k v ik Hinv Hok Hk Hsep) as (tb1 & db1 & -> & _). by eexists _, _. }
    destruct (_ && bool_decide (blob_run_mode cf = kNormal)) eqn:Hm; [|by eexists _, _].
    apply andb_true_iff in Hm as [Hm Hmode%bool_decide_eq_true]. apply andb_true_iff in Hm as [Hm Hlev].
    apply andb_true_iff in Hm as [_ Hlm]. unfold reads_blobs in Hno. rewrite Hmode, <- Hl in Hno. cbn [fst snd] in Hno.
    by rewrite Hlm, Hlev in Hno. }
  rewrite Hadd. cbn [result_bind]. apply (IH (P ++ [(k, v)])). by eapply Add_inv.
Qed.

(** C15: A table keeps every value it is given. A builder without a file takes any
    entries: it never faults unless it has to read old blob files; and when its
    status is ok the current file can be completed, and, if the status is still
    ok, the table has one entry per entry given, in order: the same one, unless
    its value is to be separated; or the key with the index of a record with its
    user key and its value (as given, or as read from the old index) in one of
    the complete files that are handed to the blob file set; or, in the mode
    [kFallback], the key with the value read from the index. *)
Theorem table_builder_separates (cf : TitanCFOptions) (cf_id merge target : Z) (t : table)
    (bs : BlobStorage) (db : TitanDBImpl) (tb : TitanTableBuilder) (kvs : list (bytes * bytes)) :
  column_families (sys_set (t_sys db)) !! cf_id = Some bs -> table_entries t = [] ->
  TitanTableBuilder_new cf_id cf t merge target db = Ok tb ->
  (reads_blobs cf (ShouldGCLowLevel bs, target, merge) = false ->
   exists tb1 db1, add_entries bytes0 kvs tb db = Ok (tb1, db1)) /\
  (forall tb1 db1, add_entries bytes0 kvs tb db = Ok (tb1, db1) -> tb_ok tb1 = true ->
   exists tb2 db2, complete tb1 db1 = Ok (tb2, db2) /\
     (tb_ok tb2 = true ->
      tb_builder tb2 = None /\
      Forall2 (entry_of cf bs (stored_in cf (tb_finished tb2))) kvs (table_entries (tb_base tb2)))).
Proof.
  intros Hbs Ht Hnew. unfold TitanTableBuilder_new in Hnew. rewrite Hbs in Hnew. injection Hnew as <-.
  match goal with |- context [add_entries _ kvs ?t _] => set (tb := t) end.
  assert (Hinv : tb_inv cf cf_id bs (ShouldGCLowLevel bs, target, merge) [] tb db).
  { split; try done. cbn [tb tb_base]. by rewrite Ht. }
  split; [intros Hno; by eapply add_entries_total|].
  intros tb1 db1 Hadd Hok1. pose proof (add_entries_inv _ _ _ _ _ _ _ _ _ _ (fun _ => Hinv) Hadd Hok1) as Hinv1.
  cbn [app] in Hinv1. apply tb_ok_true in Hok1 as (Hs1 & _). unfold complete.
  destruct (FinishBlobFile_step (tb_set_base (table_Finish (tb_base tb1)) tb1) db1) as (tb2 & db2 & -> & Hfin);
    [exact (ti_files _ _ _ _ _ _ _ Hinv1)|done|].
  exists tb2, db2. split; [done|]. intros Hok2. destruct (Hfin Hok2) as ([Hcf _ Hbase _ _ _ Hk] & _ & Hnone).
  split; [done|]. apply tb_ok_true in Hok2 as (_ & Hb2 & _). rewrite Hbase in *. cbn [tb_base tb_set_base] in *.
  apply status_ok_true, table_finish_ok in Hb2 as [_ ->].
  eapply Forall2_impl; [apply Hinv1|]. intros kv kv'. apply entry_of_impl. intros i k v Hst.
  destruct (Hk i k v Hst) as [Hin|(? & ? & _ & Hb & _)]; [|congruence].
  rewrite Hcf in Hin. cbn [tb_cf_options tb_set_base] in Hin. by rewrite (ti_options _ _ _ _ _ _ _ Hinv1) in Hin.
Qed.
End invariant.

(** ** After a failure *)

Section failure.
Context `{Coding} `{Compressors} `{E : Env} `{BC : Cache bytes} `{FC : !Cache BlobFileReader}
        `{UnorderedIter} `{!ManifestIO} `{!WritableFiles} `{T : Tables}.

(** A blob file that cannot be completed makes the builder unusable. When the
    builder was ok and completing its file leaves it with a failed status, the
    handle is gone and the builder of the file is not, so both ways to end the
    table, [Finish] and [Abandon], dereference a null pointer. *)
Theorem failed_blob_file_faults (listeners : Status -> Status) (tb tb' : TitanTableBuilder)
    (db db' : TitanDBImpl) :
  tb_ok tb = true -> FinishBlobFile tb db = Ok (tb', db') -> tb_ok tb' = false ->
  TitanTableBuilder_Finish listeners tb' db' = Fault /\ TitanTableBuilder_Abandon tb' db' = Fault.
Proof.
  intros Hok Hfin Hbad. unfold FinishBlobFile in Hfin.
  destruct (tb_builder tb) as [b|] eqn:Hb; [|injection Hfin as <- <-; congruence].
  destruct (BlobFileBuilder_Finish b) as [s b'] eqn:Hf. cbn [tb_handle tb_set_out] in Hfin.
  destruct (tb_handle tb) as [handle|] eqn:Hh; [|done].
  destruct (tb_ok (tb_set_out _ _ _ tb)) eqn:Hok1.
  - destruct (add_meta _ db) as [file db1]. injection Hfin as <- <-.
    apply tb_ok_true in Hok1 as (Hs & Hbase & _).
    rewrite (proj2 (tb_ok_true (tb_set_out None None _ _))) in Hbad; [done|]. by split_and!.
  - destruct (DeleteFile handle db) as [s1 db1]. injection Hfin as <- <-.
    unfold TitanTableBuilder_Finish, complete, TitanTableBuilder_Abandon, FinishBlobFile.
    cbn [tb_builder tb_handle tb_set_base tb_set_out tb_set_status]. split; [|done].
    by destruct (BlobFileBuilder_Finish b') as [? b2].
Qed.
End failure.

(** ** Applications *)

Section witnesses.
#[local] Existing Instances leb128_coding leb128_coding_ok rle_compressors rle_compressors_ok mem_env mem_env_ok
  map_to_list_iter mem_manifest blobs_map readers_map mem_files mem_tables.

(** A flush of three keys, the second of which has a large value. *)
Definition example_flushed : list (bytes * bytes) :=
  [(mem_ikey (MkParsedInternalKey [Byte.x6b; Byte.x31] 9 kTypeValue), [Byte.x76]);
   (mem_ikey (MkParsedInternalKey [Byte.x6b; Byte.x32] 8 kTypeValue), replicate 128 Byte.x77);
   (mem_ikey (MkParsedInternalKey [Byte.x6b; Byte.x33] 7 0), [])].

Definition example_tb_storage : BlobStorage :=
  default (BlobStorage_new example_db_options example_merge_options 5)
    (column_families (sys_set (t_sys (example_db 5))) !! 5).

Definition example_tb : TitanTableBuilder :=
  MkTitanTableBuilder OK 5 example_merge_options ([] : @table mem_tables) None None [] ∅ ∅ (ShouldGCLowLevel example_tb_storage) 0 5 0 0.

Definition example_table : result (TitanTableBuilder * TitanDBImpl) :=
  let* (tb, db) := add_entries 0 example_flushed example_tb (example_db 5) in complete tb db.

Lemma table_builder_separates_witness :
  exists tb db, example_table = Ok (tb, db) /\ length (tb_finished tb) = 1%nat /\
    Forall2 (entry_of example_merge_options example_tb_storage (stored_in 0 example_merge_options (tb_finished tb)))
      example_flushed (table_entries (tb_base tb)).
Proof.
  destruct (table_builder_separates 0 example_merge_options 5 5 0 ([] : @table mem_tables) example_tb_storage (example_db 5)
    example_tb example_flushed) as [Htotal Hkept].
  - vm_compute. reflexivity.
  - reflexivity.
  - vm_compute. reflexivity.
  - destruct Htotal as (tb1 & db1 & Hadd); [vm_compute; reflexivity|].
    assert (Hok1 : match add_entries 0 example_flushed example_tb (example_db 5) with
                   | Ok (tb, _) => tb_ok tb = true | _ => False end) by (vm_compute; reflexivity).
    rewrite Hadd in Hok1. destruct (Hkept tb1 db1 Hadd Hok1) as (tb2 & db2 & Hc & Hent).
    assert (Hend : match example_table with
                   | Ok (tb, _) => tb_ok tb = true /\ length (tb_finished tb) = 1%nat | _ => False end)
      by (vm_compute; split; reflexivity).
    assert (Ht : example_table = Ok (tb2, db2)) by (unfold example_table; rewrite Hadd; exact Hc).
    rewrite Ht in Hend. destruct Hend as [Hok2 Hlen]. exists tb2, db2. split; [exact Ht|].
    split; [exact Hlen|]. exact (proj2 (Hent Hok2)).
Defined.

(** The file of this builder has no room for its footer. *)
Definition example_tb_bad : TitanTableBuilder :=
  tb_set_out (Some (MkFileHandle 16 "/16"))
    (Some (BlobFileBuilder_new example_merge_options (MkMemWriter [] 10) 0)) [] example_tb.

Definition example_tb_failed : TitanTableBuilder * TitanDBImpl :=
  match FinishBlobFile example_tb_bad (example_db 5) with Ok x => x | _ => (example_tb_bad, example_db 5) end.

Lemma example_tb_fails :
  match FinishBlobFile example_tb_bad (example_db 5) with Ok _ => True | _ => False end.
Proof. vm_compute. exact I. Qed.

Lemma failed_blob_file_faults_witness :
  TitanTableBuilder_Finish (fun s => s) example_tb_failed.1 example_tb_failed.2 = Fault /\
  TitanTableBuilder_Abandon example_tb_failed.1 example_tb_failed.2 = Fault.
Proof.
  apply (failed_blob_file_faults (fun s => s) example_tb_bad example_tb_failed.1 (example_db 5) example_tb_failed.2).
  - vm_compute. reflexivity.
  - pose proof example_tb_fails as Hf. unfold example_tb_failed.
    destruct (FinishBlobFile example_tb_bad (example_db 5)) as [[tb db]| |]; [reflexivity|exact (False_ind _ Hf)..].
  - vm_compute. reflexivity.
Defined.
End witnesses.
