(* ===== verification/TitanDb.v ===== *)
(** * The database's own calls (src/db_impl.cc, src/db_impl_files.cc)

    Reads resolve blob indexes, writes may separate values first, ranges of files
    are deleted together with their blob files, and obsolete files are purged. A
    read is given the base database at its snapshot. The functions of the base
    database that are called here only are parameters of the definitions. *)

From S2P Require Import Prelude Rocks Options Stats Util BlobFormat Env BaseDb BlobFileBuilder BlobFileReader VersionEdit BlobStorage StorageInv EditCollector BlobFileSet ApplyInv ManifestReplay Scheduler BlobFileSizeCollector RangeMerge DbEvents DbEventsInv FileManager ForegroundBuilder TableBuilder.

(** A table file of the base database. *)
Record SstFile := MkSstFile {
  sst_name : string;
  being_compacted : bool;
  sst_largest : bytes;
  (** [GetTableProperties]. *)
  sst_properties : result (option UserCollectedProperties)
}.

(** [VersionStorageInfo]. *)
Record Version := MkVersion {
  LevelFiles : list (list SstFile);
  num_non_empty_levels : Z;
  OverlapInLevel : nat -> option bytes -> option bytes -> bool;
  GetCleanInputsWithinInterval : Z -> option bytes -> option bytes -> list SstFile
}.

Section database.
Context `{Coding} `{Compressors} `{E : Env} `{BC : Cache bytes} `{FC : !Cache BlobFileReader}
        `{UnorderedIter} `{!ManifestIO} `{!WritableFiles} `{B : BaseDB}.
Context (listeners : Status -> Status) (hash : bytes -> Z) (bytes0 : Z).

(** ** Reads *)

(** [GetImpl]. *)
Definition TitanDBImpl_GetImpl (cf_id : Z) (key : bytes) (d : base) (db : TitanDBImpl)
    : result bytes * TitanDBImpl :=
  match base_GetImpl d cf_id key with
  | Err s => (Err s, db)
  | Fault => (Fault, db)
  | Ok (value, false) => (Ok value, db)
  | Ok (value, true) =>
      match BlobIndex_DecodeFrom BlobIndex_default value with
      | Err s => (Err s, db)
      | Fault => (Fault, db)
      | Ok (index, _) =>
          match GetBlobStorage cf_id (sys_set (t_sys db)) with
          | None => (Err (NotFound ("Column family id: " +:+ pretty cf_id +:+ " not Found.")), db)
          | Some storage =>
              let '(r, sh) := bs_Get (sys_fs (t_sys db)) index BlobRecord_default
                                (storage, sys_shared (t_sys db)) in
              (let* record := r in Ok (record_value record), with_sh sh db)
          end
      end
  end.

(** [MultiGetImpl]: the column family of each key is at the key's place. *)
Fixpoint MultiGetImpl (handles : list Z) (keys : list bytes) (d : base) (db : TitanDBImpl)
    : list (result bytes) * TitanDBImpl :=
  match keys, handles with
  | [], _ => ([], db)
  | key :: keys, cf_id :: handles =>
      let '(r, db) := TitanDBImpl_GetImpl cf_id key d db in
      let '(rs, db) := MultiGetImpl handles keys d db in
      (r :: rs, db)
  | _ :: _, [] => ([Fault], db)
  end.

(** ** Writes *)

(** What the calls that only forward do: [Write], [Delete],
    [IngestExternalFile], [CompactRange] and [Flush]. *)
Definition guarded (call : base -> Status * base) (d : base) (db : TitanDBImpl) : Status * base :=
  if has_bg_error db then (bg_error db, d) else call d.

(** One turn of the loop of [Put]: it waits for writers to be let go, or writes. *)
Inductive PutTurn :=
| PutWaits (db : TitanDBImpl)
| PutDone (s : Status) (fb : ForegroundBuilder) (db : TitanDBImpl) (d : base).

(** What a blocked writer asks for before it waits. *)
Definition put_blocked (cf_id : Z) (db : TitanDBImpl) : result TitanDBImpl :=
  let sys := t_sys db in
  match GetBlobStorage cf_id (sys_set sys) with
  | None => Fault
  | Some bs =>
      let '(_, bs) := ComputeGCScore (sh_heap (sys_shared sys)) bs in
      let vs := with_cfs (<[cf_id := bs]> (column_families (sys_set sys))) (sys_set sys) in
      Ok (request_gc cf_id (with_sys (MkSys vs (sys_shared sys) (sys_fs sys)) db))
  end.

Definition put_turn (cf_id : Z) (key value : bytes) (fb : ForegroundBuilder) (db : TitanDBImpl)
    (d : base) : result PutTurn :=
  if (block_write_size (t_options db) >? 0) && block_for_size db then
    let* db := put_blocked cf_id db in Ok (PutWaits db)
  else if sep_before_flush (t_options db) then
    let* (s, wb, fb, db) := ForegroundBuilder_Add listeners hash bytes0 key value batch_empty fb db in
    let '(s, d) := if status_ok s then base_Write wb d else base_Put cf_id key value d in
    Ok (PutDone s fb db d)
  else
    let '(s, d) := base_Put cf_id key value d in
    Ok (PutDone s fb db d).

(** [Put] up to its first wait. *)
Definition TitanDBImpl_Put (cf_id : Z) (key value : bytes) (fb : ForegroundBuilder)
    (db : TitanDBImpl) (d : base) : result PutTurn :=
  if has_bg_error db then Ok (PutDone (bg_error db) fb db d)
  else put_turn cf_id key value fb db d.

(** [OnMemTableSealed]: every foreground builder is flushed, in the order the
    table of builders is iterated. *)
Fixpoint flush_builders (fbs : list (Z * ForegroundBuilder)) (db : TitanDBImpl)
    : result (list (Z * ForegroundBuilder) * TitanDBImpl) :=
  match fbs with
  | [] => Ok ([], db)
  | (id, fb) :: fbs =>
      let* (fb, db) := ForegroundBuilder_Flush listeners fb db in
      let* (fbs, db) := flush_builders fbs db in
      Ok ((id, fb) :: fbs, db)
  end.

Definition OnMemTableSealed (builders : gmap Z ForegroundBuilder) (db : TitanDBImpl)
    : result (gmap Z ForegroundBuilder * TitanDBImpl) :=
  if sep_before_flush (t_options db) then
    let* (fbs, db) := flush_builders (unordered_iter builders) db in
    Ok (list_to_map fbs, db)
  else Ok (builders, db).

(** ** Purging *)

(** [std::sort] and [std::unique]. *)
Fixpoint insert_name (name : string) (names : list string) : list string :=
  match names with
  | [] => [name]
  | n :: rest =>
      match String.compare name n with
      | Lt => name :: names
      | Eq => names
      | Gt => n :: insert_name name rest
      end
  end.

(** The loop over the candidates; it tests the status it has instead of the one
    of the deletion. *)
Definition purge_file (st : Status * fs) (name : string) : Status * fs :=
  let '(delete_status, w) := env_DeleteFile name st.2 in
  (if status_ok st.1 then st.1 else delete_status, w).

Definition PurgeObsoleteFilesImpl (oldest_sequence : Z) (db : TitanDBImpl) : Status * TitanDBImpl :=
  let sys := t_sys db in
  let '(candidate_files, (vs, sh)) := GetObsoleteFiles oldest_sequence (sys_set sys) (sys_shared sys) in
  let '(s, w) := foldl purge_file (OK, sys_fs sys) (foldr insert_name [] candidate_files) in
  (s, with_sys (MkSys vs sh w) db).

(** ** Column families *)

(** [CreateColumnFamilies]; [created] is what the base database returns, the new
    ids in the order of the descriptors or its failure. *)
Definition CreateColumnFamilies (created : list Z + Status) (descs : list TitanCFOptions)
    (db : TitanDBImpl) : Status * TitanDBImpl :=
  match created with
  | inl ids =>
      let cfs := foldl (fun m cf => emplace cf.1 cf.2 m) ∅ (zip ids descs) in
      let sys := t_sys db in
      (OK, with_sys (MkSys (AddColumnFamilies cfs (sys_set sys)) (sys_shared sys) (sys_fs sys)) db)
  | inr s => (s, db)
  end.

(** [DropColumnFamilies] after its wait; [dropped] is the base database's answer. *)
Definition drop_finish (dropped : Status) (seq : Z) (cfs : list Z) (db : TitanDBImpl)
    : result (Status * TitanDBImpl) :=
  if status_ok dropped then
    let* (s, sys) := DropColumnFamilies cfs seq (t_sys db) in
    Ok (s, MkTitanDBImpl (t_options db) sys (drop_end (t_sched db)).1 (t_jobs db) (block_for_size db)
             (bg_error db) (has_bg_error db) (pending_outputs db))
  else Ok (dropped, db).

(** [DestroyColumnFamilyHandle] of a handle that is not null. *)
Definition DestroyColumnFamilyHandle (destroyed : Status) (cf_id : Z) (db : TitanDBImpl)
    : Status * TitanDBImpl :=
  let sys := t_sys db in
  (destroyed,
   if status_ok destroyed then
     let '(_, (vs, sh)) := MaybeDestroyColumnFamily cf_id (sys_set sys) (sys_shared sys) in
     with_sys (MkSys vs sh (sys_fs sys)) db
   else db).

(** [CompactFiles]; [compacted] is the base database's answer. *)
Definition CompactFiles (base_property : string -> option Z) (seq : Z)
    (compacted : Status * CompactionJobInfo) (db : TitanDBImpl) : result (Status * TitanDBImpl) :=
  if has_bg_error db then Ok (bg_error db, db)
  else if status_ok compacted.1 then
    let* db := OnCompactionCompleted base_property seq compacted.2 db in Ok (compacted.1, db)
  else Ok (compacted.1, db).

(** ** Deleting the files of ranges *)

(** The properties of table files by name. *)
Abbreviation Props := (gmap string UserCollectedProperties).

(** One table file; an early return is an error of this function. *)
Definition ranges_sst (cmp : Comparator) (include_end : bool) (limit : option bytes) (file : SstFile)
    (props : Props) : result Props :=
  let at_end := match limit with
                | Some e => negb include_end && (cmp (sst_largest file) e =? 0)
                | None => false
                end in
  if being_compacted file || at_end then Ok props
  else
    match props !! sst_name file with
    | Some _ => Ok props
    | None =>
        match sst_properties file with
        | Ok (Some p) => Ok (<[sst_name file := p]> props)
        | Ok None => Err OK
        | Err s => Err s
        | Fault => Fault
        end
    end.

Fixpoint ranges_ssts (cmp : Comparator) (include_end : bool) (limit : option bytes)
    (files : list SstFile) (props : Props) : result Props :=
  match files with
  | [] => Ok props
  | file :: files =>
      let* props := ranges_sst cmp include_end limit file props in
      ranges_ssts cmp include_end limit files props
  end.

(** The levels of one range. [i] is the number of the range, and the level that
    is tested. *)
Fixpoint ranges_levels (v : Version) (cmp : Comparator) (include_end : bool) (i : nat)
    (range : option bytes * option bytes) (levels : list Z) (props : Props) : result Props :=
  match levels with
  | [] => Ok props
  | level :: levels =>
      match LevelFiles v !! i with
      | None => Fault
      | Some files =>
          let* props :=
            if bool_decide (length files = O) || negb (OverlapInLevel v i range.1 range.2) then Ok props
            else ranges_ssts cmp include_end range.2
                   (GetCleanInputsWithinInterval v level range.1 range.2) props in
          ranges_levels v cmp include_end i range levels props
      end
  end.

Fixpoint ranges_props (v : Version) (cmp : Comparator) (include_end : bool) (i : nat)
    (ranges : list (option bytes * option bytes)) (props : Props) : result Props :=
  match ranges with
  | [] => Ok props
  | range :: ranges =>
      let levels := Z.of_nat <$> seq 1 (Z.to_nat (num_non_empty_levels v - 1)) in
      let* props := ranges_levels v cmp include_end i range levels props in
      ranges_props v cmp include_end (S i) ranges props
  end.

(** The sizes by blob file; the order of the table files does not matter. *)
Definition ranges_sizes (props : Props) : gmap Z Z :=
  foldl (fun m p =>
           match p.2 !! kPropertiesName with
           | None => m
           | Some property =>
               match decode_sizes property ∅ with
               | (false, _) => m
               | (true, sizes) =>
                   foldl (fun m it => <[it.1 := default 0 (m !! it.1) +u64 it.2]> m) m (ordered_iter sizes)
               end
           end) ∅ (map_to_list props).

(** One blob file; [seq] is the base database's latest sequence number. *)
Definition ranges_file (cf_id : Z) (cf : TitanCFOptions) (seq : Z) (bs : BlobStorage)
    (st : Shared * Z * VersionEdit) (bfs : Z * Z) : Shared * Z * VersionEdit :=
  let '(sh, delta, edit) := st in
  match bs_FindFile bfs.1 bs with
  | None => st
  | Some file =>
      let m0 := deref (sh_heap sh) file in
      let delta := if is_obsolete m0 then delta else delta +u64 bfs.2 in
      let m := AddDiscardableSize bfs.2 m0 in
      let before := GetDiscardableRatioLevel m0 in
      let after := GetDiscardableRatioLevel m in
      let stats :=
        if bool_decide (before = after) then sh_stats sh
        else SubStats (AddStats (sh_stats sh) cf_id after 1) cf_id before 1 in
      let h := heap_call (AddDiscardableSize bfs.2) file (sh_heap sh) in
      let sh := set_heap h (set_stats stats sh) in
      if level_merge cf then
        let ratio := if wrap_i32 (file_level m) =? num_levels (cf_base cf) - 1
                     then blob_file_discardable_ratio cf else high_level_blob_discardable_ratio cf in
        if NoLiveData m then (sh, delta, DeleteBlobFile (file_number m) seq edit)
        else if double_ltb ratio (GetDiscardableRatio m) then
          (set_heap (heap_call (FileStateTransit FileEvent.kNeedGC) file h) sh, delta,
           UpdateBlobFile bfs.1 bfs.2 edit)
        else if bfs.2 >? 0 then (sh, delta, UpdateBlobFile bfs.1 bfs.2 edit)
        else (sh, delta, edit)
      else (sh, delta, edit)
  end.

(** After the base database has deleted its files. The edit keeps the default
    column family id. *)
Definition ranges_account (cf_id : Z) (sizes : gmap Z Z) (seq : Z) (db : TitanDBImpl)
    : result (Status * TitanDBImpl) :=
  let sys := t_sys db in
  match GetBlobStorage cf_id (sys_set sys) with
  | None => Ok (NotFound ("Column family id: " +:+ pretty cf_id +:+ " not Found."), db)
  | Some bs =>
      let cf := bs_cf_options bs in
      let '(sh, delta, edit) := foldl (ranges_file cf_id cf seq bs)
                                  (sys_shared sys, 0, VersionEdit_default) (ordered_iter sizes) in
      let sh := set_stats (SubStats (sh_stats sh) cf_id LIVE_BLOB_SIZE delta) sh in
      let db := with_sh sh db in
      if level_merge cf then
        let* (_, sys) := LogAndApply edit (t_sys db) in Ok (OK, with_sys sys db)
      else
        let* db := put_blocked cf_id db in Ok (OK, db)
  end.

(** [DeleteFilesInRanges]; [delete_ssts] is the base database's. *)
Definition DeleteFilesInRanges (v : Version) (cmp : Comparator) (delete_ssts : base -> Status * base)
    (cf_id : Z) (ranges : list (option bytes * option bytes)) (include_end : bool)
    (d : base) (db : TitanDBImpl) : result (Status * base * TitanDBImpl) :=
  match ranges_props v cmp include_end 0 ranges ∅ with
  | Fault => Fault
  | Err s => Ok (s, d, db)
  | Ok props =>
      let '(s, d) := delete_ssts d in
      if negb (status_ok s) then Ok (s, d, db)
      else
        let seq := GetLatestSequenceNumber d in
        let* (s, sys) := DeleteBlobFilesInRanges cf_id ranges include_end seq (t_sys db) in
        let db := with_sys sys db in
        if negb (status_ok s) then Ok (s, d, db)
        else
          let* (s, db) := ranges_account cf_id (ranges_sizes props) seq db in
          Ok (s, d, db)
  end.
End database.
