(* ===== verification/OpenDb.v ===== *)
(** * Opening, closing and options of the database
    (src/db.cc, src/db_impl.cc, src/table_factory.h)

    [TitanDBImpl] from its constructor to its destructor: [Open] opens the base
    database twice, the first time only to learn the ids of the column families,
    and the blob file set in between; [Close] purges, stops the garbage
    collections, closes the base database and stops the foreground builders. The
    options of the column families can be read and partly set.

    The base database's own opening and closing, and the directories and lock
    files, are parameters. A table file written while the base database opens is
    a run of the table builder, which is modelled on its own. *)

From S2P Require Import Prelude Rocks Options Stats Util BlobFormat Env BaseDb BlobFileBuilder BlobFileReader VersionEdit BlobStorage StorageInv EditCollector BlobFileSet ApplyInv ManifestReplay BlobGC Scheduler DbEvents DbEventsInv FileManager ForegroundBuilder TableBuilder TitanDb.

(** What the base database is given for a column family: whether automatic
    compactions are disabled, and whether Titan's table factory and property
    collector are installed. *)
Record BaseDesc := MkBaseDesc {
  bd_name : string;
  bd_disable_auto_compactions : bool;
  bd_titan : bool
}.

Class BaseOpen `{B : BaseDB} := {
  (** What the base database keeps in its directory. *)
  store : Type;
  (** [DB::Open]: the ids of the column families in the order of the descriptors. *)
  DB_Open : list BaseDesc -> store -> (list Z * base) + (Status * store);
  DB_Close : base -> Status * store;
  (** The oldest snapshot of [DBImpl::snapshots], if there is one. *)
  oldest_snapshot : base -> option Z;
  (** [DB::SetOptions] on the options that are not Titan's. *)
  DB_SetOptions : Z -> gmap string string -> base -> Status * base;
  (** [DB::GetOptions] without the table factory. *)
  DB_GetOptions : base -> Z -> ColumnFamilyOptions;
  DB_GetDBOptions : base -> DBOptions
}.

(** Directories and lock files. *)
Class OpenIO `{E : Env} := {
  CreateDirIfMissing : string -> fs -> Status * fs;
  LockFileName : string -> string;
  LockFile : string -> fs -> Status * fs;
  UnlockFile : string -> fs -> fs
}.

Section open.
Context `{Coding} `{Compressors} `{E : Env} `{BC : Cache bytes} `{FC : !Cache BlobFileReader}
        `{UnorderedIter} `{!ManifestIO} `{!WritableFiles} `{B : BaseDB} `{BO : !BaseOpen} `{OI : !OpenIO}.
Context {factory : Type}.

(** [TitanCFDescriptor]; the table factory is a field of the options there. *)
Record TitanCFDescriptor := MkTitanCFDescriptor {
  d_name : string;
  d_options : TitanCFOptions;
  d_table_factory : factory
}.

(** The part of [TitanTableFactory] that is its own. *)
Record TitanTableFactory := MkTitanTableFactory {
  tf_cf_options : TitanCFOptions;
  tf_blob_run_mode : TitanBlobRunMode
}.

Definition TitanTableFactory_new (cf_options : TitanCFOptions) : TitanTableFactory :=
  MkTitanTableFactory cf_options (blob_run_mode cf_options).

Definition SetBlobRunMode (mode : TitanBlobRunMode) (tf : TitanTableFactory) : TitanTableFactory :=
  MkTitanTableFactory (tf_cf_options tf) mode.

Record TitanColumnFamilyInfo := MkTitanColumnFamilyInfo {
  ci_name : string;
  ci_immutable : ImmutableTitanCFOptions;
  ci_mutable : MutableTitanCFOptions;
  ci_base_table_factory : factory;
  ci_titan_table_factory : TitanTableFactory
}.

Definition cf_info_of (desc : TitanCFDescriptor) : TitanColumnFamilyInfo :=
  MkTitanColumnFamilyInfo (d_name desc) (ImmutableTitanCFOptions_of (d_options desc))
    (MutableTitanCFOptions_of (d_options desc)) (d_table_factory desc) (TitanTableFactory_new (d_options desc)).

(** The whole object; [td_db] is [db_] with [db_impl_], [td_store] what the base
    database has on disk while it is not open. *)
Record TitanDB := MkTitanDB {
  td_dbname : string;
  td_impl : TitanDBImpl;
  td_db : option base;
  td_store : store;
  td_cf_info : gmap Z TitanColumnFamilyInfo;
  td_builders : gmap Z ForegroundBuilder;
  td_lock : bool
}.

Definition td_with (impl : TitanDBImpl) (d : option base) (st : store) (td : TitanDB) : TitanDB :=
  MkTitanDB (td_dbname td) impl d st (td_cf_info td) (td_builders td) (td_lock td).

Definition td_with_fs (w : fs) (td : TitanDB) : TitanDB :=
  let sys := t_sys (td_impl td) in
  td_with (with_sys (MkSys (sys_set sys) (sys_shared sys) w) (td_impl td)) (td_db td) (td_store td) td.

(** ** The constructor *)

(** The directory Titan uses. *)
Definition set_default_dirname (dbname : string) (options : TitanDBOptions) : TitanDBOptions :=
  if bool_decide (dirname options = "") then
    MkTitanDBOptions (db_base options) (dbname +:+ "/titandb") (disable_background_gc options)
      (max_background_gc options) (purge_obsolete_files_period_sec options)
      (titan_stats_dump_period_sec options) (sep_before_flush options)
      (num_foreground_builders options) (block_write_size options)
  else options.

(** [statistics] says whether the options have a statistics object; [caches] are
    the caches the blob file set creates, without entries. *)
Definition TitanDBImpl_new (options : TitanDBOptions) (dbname : string) (statistics : bool) (caches : Caches)
    (w : fs) (st : store) : TitanDB :=
  let options := set_default_dirname dbname options in
  MkTitanDB dbname
    (MkTitanDBImpl options
       (MkSys (BlobFileSet_new options) (MkShared ∅ (if statistics then Some ∅ else None) caches) w)
       Scheduler_new 0 false OK false ∅)
    None st ∅ ∅ false.

(** ** Open *)

Definition init_desc (desc : TitanCFDescriptor) : BaseDesc := MkBaseDesc (d_name desc) true false.
Definition base_desc (desc : TitanCFDescriptor) : BaseDesc := MkBaseDesc (d_name desc) false true.

(** The options by id; an id that comes twice keeps the first. *)
Definition opened_cfs (ids : list Z) (descs : list TitanCFDescriptor) : gmap Z TitanCFOptions :=
  foldl (fun m cf => emplace cf.1 (d_options cf.2) m) ∅ (zip ids descs).

Definition opened_info (ids : list Z) (descs : list TitanCFDescriptor) (info : gmap Z TitanColumnFamilyInfo)
    : gmap Z TitanColumnFamilyInfo :=
  foldl (fun m cf => emplace cf.1 (cf_info_of cf.2) m) info (zip ids descs).

(** The foreground builders, which are started whether or not the blob file set
    could be opened. *)
Definition open_builders (options : TitanDBOptions) (cfs : gmap Z TitanCFOptions)
    (builders : gmap Z ForegroundBuilder) : gmap Z ForegroundBuilder :=
  if sep_before_flush options then
    foldl (fun m cf => emplace cf.1 (ForegroundBuilder_new cf.1 options cf.2) m) builders (ordered_iter cfs)
  else builders.

(** The first opening of the base database: its column families are noted and it
    is closed again; on the right what [Open] returns if one of the two fails. *)
Definition open_first (descs : list TitanCFDescriptor) (td : TitanDB)
    : (gmap Z TitanCFOptions * TitanDB) + (Status * TitanDB) :=
  match DB_Open (init_desc <$> descs) (td_store td) with
  | inr (s, st) => inr (s, td_with (td_impl td) None st td)
  | inl (ids, d) =>
      let '(s, st) := DB_Close d in
      let td := MkTitanDB (td_dbname td) (td_impl td) None st (opened_info ids descs (td_cf_info td))
                  (td_builders td) (td_lock td) in
      if status_ok s then inl (opened_cfs ids descs, td) else inr (s, td)
  end.

(** [TitanStats::Initialize] on the opened column families. *)
Definition init_stats (cfs : gmap Z TitanCFOptions) (sh : Shared) : Shared :=
  set_stats (TitanStats_Initialize (ordered_iter cfs).*1 <$> sh_stats sh) sh.

(** The rest, with the blob file set opened or not. When it could not be opened,
    what it has written until then is left out. *)
Definition open_second (descs : list TitanCFDescriptor) (cfs : gmap Z TitanCFOptions) (td : TitanDB)
    : result (Status * TitanDB) :=
  let db := td_impl td in
  let sys := t_sys db in
  let sh := init_stats cfs (sys_shared sys) in
  let builders := open_builders (t_options db) cfs (td_builders td) in
  match BlobFileSet_Open cfs (MkSys (sys_set sys) sh (sys_fs sys)) with
  | Fault => Fault
  | Err s => Ok (s, MkTitanDB (td_dbname td) db None (td_store td) (td_cf_info td) builders (td_lock td))
  | Ok sys =>
      let db := with_sys sys db in
      Ok match DB_Open (base_desc <$> descs) (td_store td) with
         | inr (s, st) => (s, MkTitanDB (td_dbname td) db None st (td_cf_info td) builders (td_lock td))
         | inl (_, d) => (OK, MkTitanDB (td_dbname td) db (Some d) (td_store td) (td_cf_info td) builders (td_lock td))
         end
  end.

(** [Open]; [logger] is what [CreateLoggerFromOptions] returns, OK when the
    options have a log. *)
Definition TitanDBImpl_Open (logger : Status) (descs : list TitanCFDescriptor) (td : TitanDB) : result (Status * TitanDB) :=
  let dir := dirname (t_options (td_impl td)) in
  let '(s, w) := CreateDirIfMissing (td_dbname td) (sys_fs (t_sys (td_impl td))) in
  let td := td_with_fs w td in
  if negb (status_ok s) then Ok (s, td)
  else if negb (status_ok logger) then Ok (logger, td)
  else
    let '(s, w) := CreateDirIfMissing dir w in
    let td := td_with_fs w td in
    if negb (status_ok s) then Ok (s, td)
    else
      let '(s, w) := LockFile (LockFileName dir) w in
      let td := td_with_fs w td in
      if negb (status_ok s) then Ok (s, td)
      else
        let db := with_sys (MkSys (BlobFileSet_new (t_options (td_impl td))) (sys_shared (t_sys (td_impl td))) w)
                    (td_impl td) in
        let td := MkTitanDB (td_dbname td) db (td_db td) (td_store td) (td_cf_info td) (td_builders td) true in
        match open_first descs td with
        | inl (cfs, td) => open_second descs cfs td
        | inr (s, td) => Ok (s, td)
        end.

(** ** Close *)

(** [PurgeObsoleteFiles]: the oldest snapshot is asked of the base database. *)
Definition PurgeObsoleteFiles (td : TitanDB) : result TitanDB :=
  match td_db td with
  | None => Fault
  | Some d =>
      let oldest := default kMaxSequenceNumber (oldest_snapshot d) in
      Ok (td_with (PurgeObsoleteFilesImpl oldest (td_impl td)).2 (td_db td) (td_store td) td)
  end.

(** [CloseImpl]; [unscheduled] jobs had not started yet. Its wait for the others
    is one of the threads of [Scheduler]. *)
Definition CloseImpl (unscheduled : nat) (db : TitanDBImpl) : TitanDBImpl :=
  MkTitanDBImpl (t_options db) (t_sys db) (close_unscheduled unscheduled (close_begin (t_sched db)))
    (t_jobs db - unscheduled) false (bg_error db) (has_bg_error db) (pending_outputs db).

(** [Close]: the foreground builders are stopped, which closes none of their
    files. *)
Definition TitanDBImpl_Close (unscheduled : nat) (td : TitanDB) : result (Status * TitanDB) :=
  let* td := PurgeObsoleteFiles td in
  let db := CloseImpl unscheduled (td_impl td) in
  let '(s, st) := match td_db td with
                  | Some d => DB_Close d
                  | None => (OK, td_store td)
                  end in
  let td := MkTitanDB (td_dbname td) db None st (td_cf_info td) (td_builders td) (td_lock td) in
  let sys := t_sys db in
  let w := if td_lock td then UnlockFile (LockFileName (dirname (t_options db))) (sys_fs sys) else sys_fs sys in
  Ok (s, MkTitanDB (td_dbname td) (with_sys (MkSys (sys_set sys) (sys_shared sys) w) db) None st
           (td_cf_info td) (td_builders td) false).

(** [DumpStats]: a column family without statistics is skipped. *)
Definition DumpStats (td : TitanDB) : TitanDB :=
  let db := td_impl td in
  let sh := sys_shared (t_sys db) in
  let dump stats id := alter (fun s => (DumpAndResetInternalOpStats s).2) id stats in
  let stats := (fun stats => foldl dump stats (unordered_iter (td_cf_info td)).*1) <$> sh_stats sh in
  td_with (with_sys (with_shared (set_stats stats sh) (t_sys db)) db) (td_db td) (td_store td) td.

(** The destructor. *)
Definition TitanDBImpl_delete (unscheduled : nat) (td : TitanDB) : result TitanDB :=
  let* (_, td) := TitanDBImpl_Close unscheduled (DumpStats td) in Ok td.

(** [TitanDB::Open]: a database that cannot be opened is destroyed; one that is
    open gets its timers. *)
Definition TitanDB_Open (logger : Status) (options : TitanDBOptions) (dbname : string) (statistics : bool) (caches : Caches)
    (descs : list TitanCFDescriptor) (w : fs) (st : store) : result (Status * option TitanDB) :=
  let* (s, td) := TitanDBImpl_Open logger descs (TitanDBImpl_new options dbname statistics caches w st) in
  if status_ok s then Ok (s, Some td)
  else let* _ := TitanDBImpl_delete 0 td in Ok (s, None).

(** ** Column families *)

(** [CreateColumnFamilies] with the information it keeps; no foreground builder is
    added. *)
Definition td_CreateColumnFamilies (created : list Z + Status) (descs : list TitanCFDescriptor) (td : TitanDB)
    : Status * TitanDB :=
  let '(s, db) := CreateColumnFamilies created (d_options <$> descs) (td_impl td) in
  let info := match created with
              | inl ids => opened_info ids descs (td_cf_info td)
              | inr _ => td_cf_info td
              end in
  (s, MkTitanDB (td_dbname td) db (td_db td) (td_store td) info (td_builders td) (td_lock td)).

(** [DestroyColumnFamilyHandle] of a handle that is not null. *)
Definition td_DestroyColumnFamilyHandle (destroyed : Status) (cf_id : Z) (td : TitanDB) : Status * TitanDB :=
  let known := status_ok (MaybeDestroyColumnFamily cf_id (sys_set (t_sys (td_impl td))) (sys_shared (t_sys (td_impl td)))).1 in
  let '(s, db) := DestroyColumnFamilyHandle destroyed cf_id (td_impl td) in
  let info := if status_ok destroyed && known then delete cf_id (td_cf_info td) else td_cf_info td in
  (s, MkTitanDB (td_dbname td) db (td_db td) (td_store td) info (td_builders td) (td_lock td)).

(** ** Options *)

(** [GetOptions]: the options and the original table factory, if it is known. *)
Definition GetOptions (cf_id : Z) (d : base) (td : TitanDB) : ColumnFamilyOptions * option factory :=
  (DB_GetOptions d cf_id, ci_base_table_factory <$> td_cf_info td !! cf_id).

(** [cf_info.titan_table_factory->SetBlobRunMode] and the mutable options; a
    column family that is not known has no table factory. *)
Definition set_run_mode (mode : TitanBlobRunMode) (cf_id : Z) (info : gmap Z TitanColumnFamilyInfo)
    : result (gmap Z TitanColumnFamilyInfo) :=
  match info !! cf_id with
  | None => Fault
  | Some ci =>
      Ok (<[cf_id := MkTitanColumnFamilyInfo (ci_name ci) (ci_immutable ci) (MkMutableTitanCFOptions mode)
                       (ci_base_table_factory ci) (SetBlobRunMode mode (ci_titan_table_factory ci))]> info)
  end.

(** [SetOptions]. *)
Definition SetOptions (cf_id : Z) (new_options : gmap string string) (d : base) (td : TitanDB)
    : result (Status * base * TitanDB) :=
  let mode := new_options !! "blob_run_mode" in
  match (fun m => blob_run_mode_string_map !! m) <$> mode with
  | Some None => Ok (InvalidArgument ("No blob_run_mode defined for " +:+ default "" mode), d, td)
  | Some (Some mode) =>
      let opts := delete "blob_run_mode" new_options in
      let '(s, d) := if bool_decide (opts = ∅) then (OK, d) else DB_SetOptions cf_id opts d in
      if negb (status_ok s) then Ok (s, d, td)
      else
        let* info := set_run_mode mode cf_id (td_cf_info td) in
        Ok (OK, d, MkTitanDB (td_dbname td) (td_impl td) (td_db td) (td_store td) info (td_builders td) (td_lock td))
  | None =>
      let '(s, d) := if bool_decide (new_options = ∅) then (OK, d) else DB_SetOptions cf_id new_options d in
      if negb (status_ok s) then Ok (s, d, td) else Ok (OK, d, td)
  end.

(** [GetTitanDBOptions]. *)
Definition GetTitanDBOptions (d : base) (td : TitanDB) : TitanDBOptions :=
  let options := t_options (td_impl td) in
  MkTitanDBOptions (DB_GetDBOptions d) (dirname options) (disable_background_gc options)
    (max_background_gc options) (purge_obsolete_files_period_sec options)
    (titan_stats_dump_period_sec options) (sep_before_flush options)
    (num_foreground_builders options) (block_write_size options).

(** [GetTitanOptions]: both halves; [cf_info_.at] throws for an unknown column
    family. *)
Definition GetTitanOptions (cf_id : Z) (d : base) (td : TitanDB) : result (TitanDBOptions * TitanCFOptions) :=
  match td_cf_info td !! cf_id with
  | None => Fault
  | Some ci =>
      Ok (GetTitanDBOptions d td,
          TitanCFOptions_assemble (GetOptions cf_id d td).1 (ci_immutable ci) (ci_mutable ci))
  end.
End open.
