(* ===== verification/PurgeInv.v ===== *)
(** * What purging deletes

    [PurgeObsoleteFiles] deletes the files that became obsolete before the oldest
    snapshot, and no other. *)

From Stdlib Require Import OrderedTypeEx.
From S2P Require Import Prelude Rocks Options Stats Util BlobFormat Env BaseDb BlobFileBuilder BlobFileReader VersionEdit BlobStorage StorageInv EditCollector BlobFileSet ApplyInv ManifestReplay BlobGC Scheduler DbEvents DbEventsInv FileManager StoredFiles ForegroundBuilder TableBuilder TitanDb.

(** ** Sorting and removing duplicates *)

Lemma elem_of_insert_name name names x : x ∈ insert_name name names <-> x = name \/ x ∈ names.
Proof.
  induction names as [|n names IH]; cbn [insert_name].
  - rewrite elem_of_cons. set_solver.
  - destruct (String.compare name n) eqn:Hc.
    + apply String.compare_eq_iff in Hc as ->. rewrite elem_of_cons. tauto.
    + by rewrite elem_of_cons.
    + rewrite !elem_of_cons, IH. tauto.
Qed.

(** The names before [n] in the order of [std::string]. *)
Definition name_lt (a b : string) : Prop := String.compare a b = Lt.

Lemma name_lt_trans a b c : name_lt a b -> name_lt b c -> name_lt a c.
Proof.
  unfold name_lt. intros Hab%String_as_OT.cmp_lt Hbc%String_as_OT.cmp_lt.
  apply String_as_OT.cmp_lt. by eapply String_as_OT.lt_trans.
Qed.

Lemma name_lt_gt a b : String.compare a b = Gt -> name_lt b a.
Proof. unfold name_lt. intros Hc. by rewrite String.compare_antisym, Hc. Qed.

Lemma insert_name_sorted name names :
  StronglySorted name_lt names -> StronglySorted name_lt (insert_name name names).
Proof.
  induction 1 as [|n names Hs IH Hall]; cbn [insert_name]; [by repeat constructor|].
  destruct (String.compare name n) eqn:Hc.
  - by constructor.
  - constructor; [by constructor|]. constructor; [done|]. eapply Forall_impl; [done|].
    intros x. by apply name_lt_trans.
  - constructor; [done|]. rewrite Forall_forall in Hall |- *. intros x [->|Hx]%elem_of_insert_name.
    + by apply name_lt_gt.
    + by apply Hall.
Qed.

Lemma sort_names names :
  StronglySorted name_lt (foldr insert_name [] names) /\
  forall x, x ∈ foldr insert_name [] names <-> x ∈ names.
Proof.
  induction names as [|n names [IHs IHm]]; cbn [foldr]; [by repeat constructor|]. split.
  - by apply insert_name_sorted.
  - intros x. rewrite elem_of_insert_name, IHm, elem_of_cons. done.
Qed.

Lemma name_lt_nodup names : StronglySorted name_lt names -> NoDup names.
Proof.
  induction 1 as [|n names Hs IH Hall]; constructor; [|done]. intros Hin.
  rewrite Forall_forall in Hall. specialize (Hall n Hin). unfold name_lt in Hall.
  assert (Heq : String.compare n n = Eq) by by apply String_as_OT.cmp_eq. congruence.
Qed.

Section purge.
Context `{Coding} `{Compressors} `{E : Env} `{!EnvOk E} `{BC : Cache bytes} `{FC : !Cache BlobFileReader}
        `{UnorderedIter} `{!ManifestIO} `{!WritableFiles} `{!StoredFilesOk} `{!DeleteFileOk}.

(** ** The files handed out *)

(** The file became obsolete before the oldest snapshot. *)
Definition gone (oldest : Z) (bs : BlobStorage) (n : Z) : Prop :=
  exists seq, (n, seq) ∈ obsolete_files bs /\ seq < oldest.

(** The pending files are files of the storage, and obsolete. *)
Definition pending_ok (h : heap) (bs : BlobStorage) : Prop :=
  forall n seq, (n, seq) ∈ obsolete_files bs ->
    exists l, files bs !! n = Some l /\ is_obsolete (deref h l) = true.

Lemma storage_pending bs sh : storage_inv (obsolete_files bs) bs sh -> pending_ok (sh_heap sh) bs.
Proof.
  intros Hinv n seq Hin. apply (inv_obsolete _ _ _ Hinv), list_elem_of_fmap. by exists (n, seq).
Qed.

Lemma foldr_delete_lookup (l : list (Z * Z)) (m : gmap Z loc) n :
  foldr (fun e m => delete e.1 m) m l !! n = if decide (n ∈ l.*1) then None else m !! n.
Proof.
  induction l as [|e l IH]; cbn [foldr fmap list_fmap].
  - rewrite decide_False; [done|]. apply not_elem_of_nil.
  - destruct (decide (n = e.1)) as [->|Hne].
    + rewrite lookup_delete_eq, decide_True; [done|]. by left.
    + rewrite lookup_delete_ne, IH by done. destruct (decide (n ∈ l.*1)) as [Hin|Hin].
      * rewrite decide_True; [done|]. by right.
      * rewrite decide_False; [done|]. rewrite elem_of_cons. naive_solver.
Qed.

Lemma elem_of_expired oldest bs n :
  n ∈ (filter (expired oldest) (obsolete_files bs)).*1 <-> gone oldest bs n.
Proof.
  rewrite list_elem_of_fmap. unfold gone, expired. split.
  - intros ([n' seq] & -> & [Hlt Hin]%list_elem_of_filter). exists seq. split; [done|].
    cbn in Hlt. by apply Z.gtb_lt in Hlt.
  - intros (seq & Hin & Hlt). exists (n, seq). split; [done|]. apply list_elem_of_filter.
    split; [|done]. cbn. by apply Z.gtb_lt.
Qed.

(** One storage. *)
Lemma collect_storage oldest bs sh names bs' sh' :
  pending_ok (sh_heap sh) bs -> bs_GetObsoleteFiles oldest (bs, sh) = (names, (bs', sh')) ->
  (forall name, name ∈ names <-> exists n, gone oldest bs n /\ name = BlobFileName (dirname (bs_db_options bs)) n) /\
  sh_heap sh' = sh_heap sh /\ live_files bs' sh' = live_files bs sh /\ destroyed bs' = destroyed bs.
Proof.
  intros Hp. unfold bs_GetObsoleteFiles. cbn [fst].
  destruct (GetObsoleteFiles_loop oldest (obsolete_files bs) (bs, sh)) as [[ns kept] [bs1 sh1]] eqn:Hloop.
  intros [= <- <- <-]. destruct (GetObsoleteFiles_loop_spec _ _ _ _ _ _ _ _ Hloop) as (-> & _ & Hf & Hh & _ & _ & _ & _ & Hde).
  split_and!; [|done| |done].
  - intros name. rewrite list_elem_of_fmap. split.
    + intros ([n seq] & -> & Hin). exists n. split; [|done]. apply elem_of_expired, list_elem_of_fmap.
      by exists (n, seq).
    + intros (n & Hn & ->). apply elem_of_expired, list_elem_of_fmap in Hn as (e & -> & Hin). by exists e.
  - unfold live_files, live_of. rewrite Hh. cbn [files set_obsolete_files]. rewrite Hf.
    apply map_eq. intros n. rewrite !lookup_omap, foldr_delete_lookup.
    case_decide as Hd; [|done]. apply elem_of_expired in Hd as (seq & Hin & _).
    destruct (Hp n seq Hin) as (l & -> & Hl). cbn. by rewrite Hl.
Qed.

(** What the loop over the column families [L] has done, starting from [cfs]. *)
Record collected (oldest : Z) (vs : BlobFileSet) (cfs : gmap Z BlobStorage) (sh : Shared)
    (L : list (Z * BlobStorage)) (names : list string) (cfs' : gmap Z BlobStorage) (sh' : Shared) : Prop := {
  cl_names : forall name, name ∈ names <->
    exists id bs n, (id, bs) ∈ L /\ IsColumnFamilyObsolete id vs = false /\ gone oldest bs n /\
      name = BlobFileName (dirname (bs_db_options bs)) n;
  cl_heap : sh_heap sh' = sh_heap sh;
  cl_lives : forall id bs', cfs' !! id = Some bs' ->
    exists bs, cfs !! id = Some bs /\ live_files bs' sh' = live_files bs sh;
  cl_there : forall id bs, cfs !! id = Some bs -> destroyed bs = false -> is_Some (cfs' !! id)
}.

Lemma live_files_heap bs sh sh' : sh_heap sh' = sh_heap sh -> live_files bs sh' = live_files bs sh.
Proof. intros Hh. unfold live_files. by rewrite Hh. Qed.

Lemma collect_all_cfs oldest vs cfs sh L names cfs' sh' :
  NoDup L.*1 -> (forall id bs, (id, bs) ∈ L -> cfs !! id = Some bs) ->
  map_Forall (fun _ bs => pending_ok (sh_heap sh) bs) cfs ->
  foldl (fun acc cf => if IsColumnFamilyObsolete cf.1 vs then acc else collect_cf oldest acc cf)
    ([], (cfs, sh)) L = (names, (cfs', sh')) ->
  collected oldest vs cfs sh L names cfs' sh'.
Proof.
  revert names cfs' sh'. induction L as [|[id bs] L IH] using rev_ind; intros names cfs' sh' Hnd HL Hp Hloop.
  { injection Hloop as <- <- <-. split; [|done|by eauto|by eauto]. intros name. split.
    - by intros ?%not_elem_of_nil.
    - by intros (id & bs & n & ?%not_elem_of_nil & _). }
  rewrite foldl_snoc in Hloop. rewrite fmap_app in Hnd. apply NoDup_app in Hnd as (Hnd & Hdis & _).
  destruct (foldl _ ([], (cfs, sh)) L) as [names1 [cfs1 sh1]] eqn:HL1.
  destruct (IH names1 cfs1 sh1 Hnd) as [Hn1 Hh1 Hl1 Ht1]; [|done|done|].
  { intros id' bs' Hin. apply HL. apply elem_of_app. by left. }
  assert (Hbs : cfs !! id = Some bs) by (apply HL, elem_of_app; right; by apply list_elem_of_singleton).
  cbn [fst] in Hloop. destruct (IsColumnFamilyObsolete id vs) eqn:Hob.
  - injection Hloop as <- <- <-. split; [|done..]. intros name. rewrite Hn1. split.
    + intros (id' & bs' & n & Hin & Hrest). exists id', bs', n. split; [|done]. apply elem_of_app. by left.
    + intros (id' & bs' & n & [Hin|Hin]%elem_of_app & Ho & Hrest); [by eauto 10|].
      apply list_elem_of_singleton in Hin. simplify_eq. congruence.
  - unfold collect_cf in Hloop. cbn [snd] in Hloop.
    destruct (bs_GetObsoleteFiles oldest (bs, sh1)) as [names2 [bs2 sh2]] eqn:HL2. injection Hloop as <- <- <-.
    destruct (collect_storage oldest bs sh1 names2 bs2 sh2) as (Hn2 & Hh2 & Hl2 & Hd2); [|done|].
    { rewrite Hh1. by eapply Hp. }
    pose proof (proj1 (release_shared bs2 sh2)) as Hh3. rewrite Hh2 in Hh3.
    rewrite <- (live_files_heap bs2 sh2 (release_storage bs2 sh2)) in Hl2 by congruence.
    split; [| congruence | |].
    + intros name. rewrite elem_of_app, Hn1, Hn2. split.
      * intros [(id' & bs' & n & Hin & Hrest)|(n & Hg & ->)].
        -- exists id', bs', n. split; [|done]. apply elem_of_app. by left.
        -- exists id, bs, n. split; [|done]. apply elem_of_app. right. by apply list_elem_of_singleton.
      * intros (id' & bs' & n & [Hin|Hin]%elem_of_app & Ho & Hg & ->); [left; by eauto 10|].
        apply list_elem_of_singleton in Hin. simplify_eq. right. by eauto.
    + intros id' bs' Hbs'. assert (Hcase : (id' = id /\ bs' = bs2) \/ cfs1 !! id' = Some bs').
      { destruct (MaybeRemove bs2).
        - apply lookup_delete_Some in Hbs' as [_ ?]. by right.
        - apply lookup_insert_Some in Hbs' as [[<- <-]|[_ ?]]; [by left|by right]. }
      destruct Hcase as [[-> ->]|Hold].
      * exists bs. split; [done|]. rewrite Hl2. by apply live_files_heap.
      * destruct (Hl1 id' bs' Hold) as (bs0 & Hbs0 & Hlv). exists bs0. split; [done|].
        rewrite <- Hlv. by apply live_files_heap.
    + intros id' bs' Hb Hd. destruct (decide (id' = id)) as [->|Hne].
      * assert (bs' = bs) as -> by congruence. unfold MaybeRemove. rewrite Hd2, Hd. cbn [andb].
        rewrite lookup_insert_eq. by eexists.
      * destruct (MaybeRemove bs2); [rewrite lookup_delete_ne by done|rewrite lookup_insert_ne by done]; by eapply Ht1.
Qed.

(** ** The directory *)

(** The blob files lie in one directory, their numbers are unique across column
    families, and no old manifest has the name of one. *)
Record directory_ok (d : string) (db : TitanDBImpl) : Prop := {
  do_dir : map_Forall (fun _ bs => dirname (bs_db_options bs) = d) (column_families (sys_set (t_sys db)));
  do_unique : forall id1 bs1 id2 bs2 n,
    column_families (sys_set (t_sys db)) !! id1 = Some bs1 -> is_Some (files bs1 !! n) ->
    column_families (sys_set (t_sys db)) !! id2 = Some bs2 -> is_Some (files bs2 !! n) -> id1 = id2;
  do_manifests : forall name n, name ∈ obsolete_manifests (sys_set (t_sys db)) -> name <> BlobFileName d n
}.

Lemma purge_files_status names st : status_ok st.1 = true -> (foldl purge_file st names).1 = st.1.
Proof.
  revert st. induction names as [|n names IH]; intros st Hs; [done|]. cbn [foldl].
  assert (Hp : (purge_file st n).1 = st.1).
  { unfold purge_file. destruct (env_DeleteFile n st.2). cbn [fst]. by rewrite Hs. }
  rewrite IH; [done|]. by rewrite Hp.
Qed.

Lemma purge_files_holds names st name c :
  name ∉ names -> holds_file st.2 name c -> holds_file (foldl purge_file st names).2 name c.
Proof.
  revert st. induction names as [|n names IH]; intros st Hni Hh; [done|]. cbn [foldl].
  apply not_elem_of_cons in Hni as [Hne Hni]. apply IH; [done|]. unfold purge_file.
  pose proof (delete_touches n st.2) as Ht. destruct (env_DeleteFile n st.2) as [s w]. by apply Ht.
Qed.

(** The calls of [Env::DeleteFile], one after the other. *)
Definition delete_all (names : list string) (w : fs) : fs := foldl (fun w name => (env_DeleteFile name w).2) w names.

Lemma purge_files_delete names st : (foldl purge_file st names).2 = delete_all names st.2.
Proof.
  revert st. induction names as [|n names IH]; intros st; [done|]. cbn [foldl delete_all]. rewrite IH. unfold purge_file.
  by destruct (env_DeleteFile n st.2).
Qed.

Lemma delete_all_creates_nothing names w name f :
  NewRandomAccessFile (delete_all names w) name = Ok f -> exists f', NewRandomAccessFile w name = Ok f'.
Proof.
  revert w f. induction names as [|n names IH]; intros w f Hf; [by eauto|].
  destruct (IH _ _ Hf) as [f' Hf']. by eapply delete_creates_nothing.
Qed.

(** A file whose deletion succeeded is gone at the end. *)
Lemma delete_all_removes names1 name names2 w f :
  (env_DeleteFile name (delete_all names1 w)).1 = OK ->
  NewRandomAccessFile (delete_all (names1 ++ name :: names2) w) name <> Ok f.
Proof.
  intros Hs Hf. unfold delete_all in Hf. rewrite foldl_app in Hf. cbn [foldl] in Hf. fold (delete_all names1 w) in Hf.
  apply delete_all_creates_nothing in Hf as [f' Hf']. revert Hf'. eapply delete_removes.
  rewrite <- Hs. apply surjective_pairing.
Qed.

(** C17: Purging deletes what became obsolete before the oldest snapshot, by the
    sequence number noted with the file, and nothing else. The status is always
    ok. The file system it leaves is the one after calling [DeleteFile] once on
    each of a sorted list of different names: those of the old manifests and of
    the expired files of the column families that are not dropped. A file of them
    whose deletion succeeded cannot be opened any more; a failed deletion is
    passed over and the rest is still deleted. Every other blob file of a column
    family, live or noted with a sequence number not below the oldest snapshot,
    keeps its contents; no column family that is not destroyed disappears, and
    the live files of every one that stays are the same. The sequence number of a
    file deleted by [DeleteFilesInRanges] is 0, so such a file does not wait for
    snapshots. *)
Theorem purge_deletes_only_expired (oldest : Z) (d : string) (db db' : TitanDBImpl) (s : Status) :
  db_inv db -> directory_ok d db ->
  PurgeObsoleteFilesImpl oldest db = (s, db') ->
  let cfs := column_families (sys_set (t_sys db)) in
  s = OK /\
  (exists names, sys_fs (t_sys db') = delete_all names (sys_fs (t_sys db)) /\
     StronglySorted name_lt names /\ NoDup names /\
     (forall name, name ∈ names <->
        name ∈ obsolete_manifests (sys_set (t_sys db)) \/
        exists id bs n, cfs !! id = Some bs /\ IsColumnFamilyObsolete id (sys_set (t_sys db)) = false /\
          gone oldest bs n /\ name = BlobFileName d n) /\
     (forall names1 name names2, names = names1 ++ name :: names2 ->
        (env_DeleteFile name (delete_all names1 (sys_fs (t_sys db)))).1 = OK ->
        forall f, NewRandomAccessFile (sys_fs (t_sys db')) name <> Ok f)) /\
  (forall id live, db_lives db' !! id = Some live -> db_lives db !! id = Some live) /\
  (forall id bs, cfs !! id = Some bs -> destroyed bs = false -> is_Some (db_lives db' !! id)) /\
  (forall id bs n c, cfs !! id = Some bs -> is_Some (files bs !! n) -> ~ gone oldest bs n ->
     holds_file (sys_fs (t_sys db)) (BlobFileName d n) c ->
     holds_file (sys_fs (t_sys db')) (BlobFileName d n) c).
Proof.
  intros Hinv [Hdir Huniq Hman] Hpurge cfs. unfold PurgeObsoleteFilesImpl in Hpurge.
  assert (Hpend : map_Forall (fun _ bs => pending_ok (sh_heap (sys_shared (t_sys db))) bs) cfs).
  { intros id bs Hbs. eapply storage_pending. by apply (set_storage _ _ Hinv id). }
  destruct (GetObsoleteFiles oldest _ _) as [cand [vs' sh']] eqn:Hget.
  unfold GetObsoleteFiles in Hget.
  destruct (foldl _ ([], (_, sys_shared (t_sys db))) _) as [names1 [cfs1 sh1]] eqn:Hloop.
  injection Hget as <- <- <-.
  destruct (collect_all_cfs _ _ _ _ _ _ _ _ (NoDup_unordered_iter cfs)
    (fun id bs => proj1 (elem_of_unordered_iter cfs id bs)) Hpend Hloop) as [Hn Hh Hl Hkept].
  destruct (sort_names (names1 ++ obsolete_manifests (sys_set (t_sys db)))) as [Hsort Hmem].
  set (sorted := foldr insert_name [] _) in *.
  assert (Hnames : forall name, name ∈ sorted <->
     name ∈ obsolete_manifests (sys_set (t_sys db)) \/
     exists id bs n, cfs !! id = Some bs /\ IsColumnFamilyObsolete id (sys_set (t_sys db)) = false /\
       gone oldest bs n /\ name = BlobFileName d n).
  { intros name. rewrite Hmem, elem_of_app, Hn. split.
    - intros [(id & bs & n & Hin%elem_of_unordered_iter & Ho & Hg & ->)|?]; [right|by left].
      exists id, bs, n. by rewrite (Hdir id bs Hin).
    - intros [?|(id & bs & n & Hin & Ho & Hg & ->)]; [by right|left].
      exists id, bs, n. rewrite (Hdir id bs Hin). split; [by apply elem_of_unordered_iter|done]. }
  pose proof (purge_files_status sorted (OK, sys_fs (t_sys db)) eq_refl) as Hs.
  pose proof (purge_files_holds sorted (OK, sys_fs (t_sys db))) as Hkeep.
  pose proof (purge_files_delete sorted (OK, sys_fs (t_sys db))) as Hdel.
  destruct (foldl purge_file (OK, sys_fs (t_sys db)) sorted) as [s1 w1]. injection Hpurge as <- <-.
  cbn [snd] in Hdel. split_and!; [exact Hs| | | |].
  - exists sorted. split_and!; [exact Hdel|exact Hsort|by apply name_lt_nodup|exact Hnames|].
    intros names2 name names3 Heq Hok f. cbn [t_sys with_sys sys_fs]. rewrite Hdel, Heq. by apply delete_all_removes.
  - intros id live Hlive. unfold db_lives, lives in *. cbn [t_sys with_sys sys_set sys_shared column_families
      with_manifest with_cfs] in Hlive. rewrite lookup_fmap in Hlive |- *.
    apply fmap_Some in Hlive as (bs' & Hbs' & ->). destruct (Hl id bs' Hbs') as (bs & Hbs & Hlv).
    fold cfs. by rewrite Hbs, Hlv.
  - intros id bs Hbs Hd. destruct (Hkept id bs Hbs Hd) as [bs' Hbs']. unfold db_lives, lives.
    cbn [t_sys with_sys sys_set sys_shared column_families with_manifest with_cfs]. rewrite lookup_fmap, Hbs'. by eexists.
  - intros id bs n c Hbs Hn' Hng Hholds. apply Hkeep; [|done]. rewrite Hnames.
    intros [Hm|(id' & bs' & n' & Hbs' & _ & Hg & Heq)]; [by eapply Hman|].
    apply BlobFileName_inj in Heq as <-. destruct Hg as (seq & Hin & Hlt).
    destruct (Hpend id' bs' Hbs' n seq Hin) as (l & Hfl & _).
    assert (id' = id) as -> by (eapply Huniq; [exact Hbs'|by eexists|exact Hbs|done]).
    assert (bs' = bs) as -> by congruence. apply Hng. by exists seq.
Qed.
End purge.

(** ** An application *)

Section witnesses.
#[local] Existing Instances leb128_coding rle_compressors mem_env mem_env_ok map_to_list_iter mem_manifest
  blobs_map readers_map mem_files mem_stored_ok mem_delete_ok.

(** The file 12 of the example has been deleted at sequence number 3. *)
Definition example_delete : VersionEdit := DeleteBlobFile 12 3 (SetColumnFamilyID 5 VersionEdit_default).

Definition example_deleted : result (Status * Sys) := LogAndApply example_delete (t_sys (example_db 5)).

Definition example_purge_db : TitanDBImpl :=
  match example_deleted with
  | Ok (_, sys) => with_sys (MkSys (sys_set sys) (sys_shared sys)
                               (<["/12" := [Byte.x61]]> (sys_fs sys : gmap string bytes))) (example_db 5)
  | _ => example_db 5
  end.

Lemma example_deletes : match example_deleted with Ok (OK, _) => True | _ => False end.
Proof. vm_compute. exact I. Qed.

Lemma example_purge_inv : db_inv example_purge_db.
Proof.
  destruct (LogAndApply_refines example_delete (t_sys (example_db 5)) (example_db_inv 5 example_opens_5))
    as (s & sys' & HL & Hs).
  { intros l Hl. by apply not_elem_of_nil in Hl. }
  { vm_compute. discriminate. }
  pose proof example_deletes as Hok. unfold example_purge_db, db_inv. unfold example_deleted in *.
  rewrite HL in *. destruct s; try done. exact (proj1 Hs).
Qed.

Lemma example_purge_directory : directory_ok "" example_purge_db.
Proof.
  assert (Hone : forall id bs, column_families (sys_set (t_sys example_purge_db)) !! id = Some bs -> id = 5).
  { intros id bs Hbs. assert (Hd : dom (column_families (sys_set (t_sys example_purge_db))) = {[5]})
      by (vm_compute; reflexivity).
    apply elem_of_dom_2 in Hbs. rewrite Hd in Hbs. by apply elem_of_singleton in Hbs. }
  split.
  - intros id bs Hbs. pose proof (Hone id bs Hbs) as ->. vm_compute in Hbs. injection Hbs as <-. reflexivity.
  - intros id1 bs1 id2 bs2 n H1' _ H2' _. by rewrite (Hone _ _ H1'), (Hone _ _ H2').
  - intros name n Hin. vm_compute in Hin. by apply not_elem_of_nil in Hin.
Qed.

Lemma purge_deletes_only_expired_witness :
  (PurgeObsoleteFilesImpl 5 example_purge_db).1 = OK /\
  NewRandomAccessFile (sys_fs (t_sys example_purge_db)) "/12" = Ok "/12" /\
  (forall f, NewRandomAccessFile (sys_fs (t_sys (PurgeObsoleteFilesImpl 5 example_purge_db).2)) "/12" <> Ok f) /\
  holds_file (sys_fs (t_sys (PurgeObsoleteFilesImpl 3 example_purge_db).2)) "/12" [Byte.x61].
Proof.
  destruct (purge_deletes_only_expired 5 "" example_purge_db (PurgeObsoleteFilesImpl 5 example_purge_db).2
    (PurgeObsoleteFilesImpl 5 example_purge_db).1 example_purge_inv example_purge_directory)
    as (Hs & (names & _ & _ & _ & Hn & Hgone) & _); [apply surjective_pairing|].
  destruct (purge_deletes_only_expired 3 "" example_purge_db (PurgeObsoleteFilesImpl 3 example_purge_db).2
    (PurgeObsoleteFilesImpl 3 example_purge_db).1 example_purge_inv example_purge_directory)
    as (_ & _ & _ & _ & Hk); [apply surjective_pairing|].
  set (bs := default (BlobStorage_new example_db_options example_merge_options 5)
               (column_families (sys_set (t_sys example_purge_db)) !! 5)).
  assert (Hbs : column_families (sys_set (t_sys example_purge_db)) !! 5 = Some bs) by (vm_compute; reflexivity).
  assert (Hob : obsolete_files bs = [(12, 3)]) by (vm_compute; reflexivity).
  split; [exact Hs|]. split; [vm_compute; reflexivity|]. split.
  - assert (Hin : "/12" ∈ names).
    { apply Hn. right. exists 5, bs, 12. split; [exact Hbs|]. split; [vm_compute; reflexivity|].
      split; [|reflexivity]. exists 3. rewrite Hob. split; [by apply list_elem_of_singleton|lia]. }
    apply list_elem_of_split in Hin as (names1 & names2 & ->). by eapply Hgone.
  - apply (Hk 5 bs 12 [Byte.x61]); [exact Hbs|vm_compute; eexists; reflexivity| |].
    + intros (seq & Hin & Hlt). rewrite Hob in Hin. apply list_elem_of_singleton in Hin. injection Hin as ->. lia.
    + apply mem_holds. exists [Byte.x61]. split; [vm_compute; reflexivity|done].
Defined.
End witnesses.
