(* ===== verification/DbIter.v ===== *)
(** * Iterators of the database (src/db_iter.h)

    An iterator wraps one of the base database and reads the value of a blob
    index through a prefetcher of its file. It keeps a bare pointer to the storage
    of its column family, which is found here by its id. *)

From S2P Require Import Prelude Rocks Options Stats Util BlobFormat Env BaseDb BlobFileBuilder BlobFileReader VersionEdit BlobStorage StorageInv EditCollector BlobFileSet ApplyInv ManifestReplay Scheduler DbEvents DbEventsInv FileManager ForegroundBuilder TableBuilder.

(** [ArenaWrappedDBIter]. *)
Class BaseIter := {
  biter : Type;
  bi_Valid : biter -> bool;
  bi_IsBlob : biter -> bool;
  bi_key : biter -> bytes;
  bi_value : biter -> bytes;
  bi_status : biter -> Status;
  bi_SeekToFirst : biter -> biter;
  bi_SeekToLast : biter -> biter;
  bi_Seek : bytes -> biter -> biter;
  bi_SeekForPrev : bytes -> biter -> biter;
  bi_Next : biter -> biter;
  bi_Prev : biter -> biter
}.

Section iterator.
Context `{Coding} `{Compressors} `{E : Env} `{BC : Cache bytes} `{FC : !Cache BlobFileReader}
        `{UnorderedIter} `{!ManifestIO} `{I : BaseIter}.

Record TitanDBIterator := MkTitanDBIterator {
  it_status_ : Status;
  it_record : BlobRecord;
  it_key_only : bool;
  it_cf_id : Z;
  it_iter : biter;
  it_files : gmap Z BlobFilePrefetcher
}.

(** The constructor, called by [NewIteratorImpl]; without a storage there is no
    iterator. *)
Definition NewIteratorImpl (key_only : bool) (cf_id : Z) (iter : biter) (db : TitanDBImpl)
    : option TitanDBIterator :=
  match GetBlobStorage cf_id (sys_set (t_sys db)) with
  | None => None
  | Some _ => Some (MkTitanDBIterator OK BlobRecord_default key_only cf_id iter ∅)
  end.

Definition it_set_status (s : Status) (it : TitanDBIterator) : TitanDBIterator :=
  MkTitanDBIterator s (it_record it) (it_key_only it) (it_cf_id it) (it_iter it) (it_files it).

Definition it_move (f : biter -> biter) (it : TitanDBIterator) : TitanDBIterator :=
  MkTitanDBIterator (it_status_ it) (it_record it) (it_key_only it) (it_cf_id it) (f (it_iter it))
    (it_files it).

Definition it_set_files (fs : gmap Z BlobFilePrefetcher) (it : TitanDBIterator) : TitanDBIterator :=
  MkTitanDBIterator (it_status_ it) (it_record it) (it_key_only it) (it_cf_id it) (it_iter it) fs.

Definition it_set_record (r : BlobRecord) (it : TitanDBIterator) : TitanDBIterator :=
  MkTitanDBIterator (it_status_ it) r (it_key_only it) (it_cf_id it) (it_iter it) (it_files it).

Definition it_Valid (it : TitanDBIterator) : bool := bi_Valid (it_iter it).

Definition it_status (it : TitanDBIterator) : Status :=
  if status_ok (it_status_ it) then bi_status (it_iter it) else it_status_ it.

Definition it_key (it : TitanDBIterator) : bytes := bi_key (it_iter it).

Definition it_value (it : TitanDBIterator) : bytes :=
  if it_key_only it then []
  else if bi_IsBlob (it_iter it) then record_value (it_record it)
  else bi_value (it_iter it).

Definition ShouldGetBlobValue (it : TitanDBIterator) : bool * TitanDBIterator :=
  if negb (bi_Valid (it_iter it)) || negb (bi_IsBlob (it_iter it)) || it_key_only it
  then (false, it_set_status (bi_status (it_iter it)) it)
  else (true, it).

(** The prefetcher of a file: the one in [files_], or a new one. *)
Definition it_prefetcher (number : Z) (it : TitanDBIterator) (db : TitanDBImpl)
    : result (BlobFilePrefetcher * TitanDBIterator) * TitanDBImpl :=
  match it_files it !! number with
  | Some p => (Ok (p, it), db)
  | None =>
      match GetBlobStorage (it_cf_id it) (sys_set (t_sys db)) with
      | None => (Fault, db)
      | Some storage =>
          let '(r, sh) := bs_NewPrefetcher (sys_fs (t_sys db)) number (storage, sys_shared (t_sys db)) in
          (let* p := r in Ok (p, it_set_files (<[number := p]> (it_files it)) it), with_sh sh db)
      end
  end.

(** The blob cache after a read. *)
Definition with_blobs (bc : cache bytes) (db : TitanDBImpl) : TitanDBImpl :=
  let sh := sys_shared (t_sys db) in
  with_sh (set_caches (MkCaches (file_cache (sh_caches sh)) bc) sh) db.

(** [GetBlobValue]; after a failed read the record is not to be used. *)
Definition GetBlobValue (it : TitanDBIterator) (db : TitanDBImpl)
    : result (TitanDBIterator * TitanDBImpl) :=
  match DecodeInto BlobIndex_DecodeFrom (bi_value (it_iter it)) BlobIndex_default with
  | Fault => Fault
  | Err s => Ok (it_set_status s it, db)
  | Ok index =>
      match it_prefetcher (index_file_number index) it db with
      | (Fault, _) => Fault
      | (Err s, db) => Ok (it_set_status s it, db)
      | (Ok (p, it), db) =>
          let '(r, bc, p, _) := BlobFilePrefetcher_Get (sys_fs (t_sys db)) p (blob_handle index)
                                  (it_record it) (blobs (sh_caches (sys_shared (t_sys db)))) in
          let it := it_set_files (<[index_file_number index := p]> (it_files it)) it in
          let db := with_blobs bc db in
          match r with
          | Ok (record, _) => Ok (it_set_status OK (it_set_record record it), db)
          | Err s => Ok (it_set_status s it, db)
          | Fault => Fault
          end
      end
  end.

(** What follows every move of the base iterator. *)
Definition it_after (f : biter -> biter) (it : TitanDBIterator) (db : TitanDBImpl)
    : result (TitanDBIterator * TitanDBImpl) :=
  let '(blob, it) := ShouldGetBlobValue (it_move f it) in
  if blob : bool then GetBlobValue it db else Ok (it, db).

Definition SeekToFirst := it_after bi_SeekToFirst.
Definition SeekToLast := it_after bi_SeekToLast.
Definition Seek (target : bytes) := it_after (bi_Seek target).
Definition SeekForPrev (target : bytes) := it_after (bi_SeekForPrev target).
Definition Next := it_after bi_Next.
Definition Prev := it_after bi_Prev.

(** ** [Scan] *)

(** What its first loop fills; [indexes] has an entry for each key. *)
Record ScanState := MkScanState {
  sc_indexes : list BlobIndex;
  sc_keys : list bytes;
  sc_values : list bytes
}.

(** The first loop, from entry [i] on; [n] entries may still be read. It returns
    the number of entries, or nothing after an early return. *)
Fixpoint scan_keys (n i : nat) (sc : ScanState) (it : TitanDBIterator) (db : TitanDBImpl)
    : result (option nat * ScanState * TitanDBIterator * TitanDBImpl) :=
  match n with
  | O => Ok (Some i, sc, it, db)
  | S n =>
      if negb (it_Valid it) then Ok (Some i, sc, it, db)
      else
        let '(blob, it) := ShouldGetBlobValue it in
        let next sc it db :=
          scan_keys n (S i) (MkScanState (sc_indexes sc) (<[i := it_key it]> (sc_keys sc)) (sc_values sc))
            (it_move bi_Next it) db in
        if blob : bool then
          match DecodeInto BlobIndex_DecodeFrom (bi_value (it_iter it)) BlobIndex_default with
          | Fault => Fault
          | Err s => Ok (None, sc, it_set_status s it, db)
          | Ok index =>
              match it_prefetcher (index_file_number index) it db with
              | (Fault, _) => Fault
              | (Err s, db) => Ok (None, sc, it_set_status s it, db)
              | (Ok (_, it), db) =>
                  next (MkScanState (<[i := index]> (sc_indexes sc)) (sc_keys sc) (sc_values sc))
                    (it_set_status OK it) db
              end
          end
        else
          next (MkScanState (sc_indexes sc) (sc_keys sc) (<[i := bi_value (it_iter it)]> (sc_values sc)))
            it db
  end.

(** The second loop: an empty value is taken for one still to be read, by the
    index at its place. A failed read leaves the previous record. *)
Fixpoint scan_values (js : list nat) (record : BlobRecord) (sc : ScanState) (it : TitanDBIterator)
    (db : TitanDBImpl) : result (ScanState * TitanDBImpl) :=
  match js with
  | [] => Ok (sc, db)
  | j :: js =>
      match sc_values sc !! j with
      | Some [] =>
          let index := default BlobIndex_default (sc_indexes sc !! j) in
          match it_files it !! index_file_number index with
          | None => Fault
          | Some p =>
              let '(r, bc) := BlobFilePrefetcher_PointGet (sys_fs (t_sys db)) p (blob_handle index) record
                                (blobs (sh_caches (sys_shared (t_sys db)))) in
              match r with
              | Fault => Fault
              | _ =>
                  let record := match r with Ok (record, _) => record | _ => record end in
                  scan_values js record
                    (MkScanState (sc_indexes sc) (sc_keys sc) (<[j := record_value record]> (sc_values sc)))
                    it (with_blobs bc db)
              end
          end
      | _ => scan_values js record sc it db
      end
  end.

(** [Scan]: the number of entries, the keys and the values, of which the first
    [len] are the caller's on entry. *)
Definition it_Scan (target : bytes) (len : nat) (keys values : list bytes) (it : TitanDBIterator)
    (db : TitanDBImpl) : result (nat * list bytes * list bytes * TitanDBIterator * TitanDBImpl) :=
  let sc := MkScanState (replicate len BlobIndex_default) keys values in
  let* (n, sc, it, db) := scan_keys len 0 sc (it_move (bi_Seek target) it) db in
  match n with
  | None => Ok (len, sc_keys sc, sc_values sc, it, db)
  | Some n =>
      let* (sc, db) := scan_values (seq 0 n) BlobRecord_default sc it db in
      Ok (n, sc_keys sc, sc_values sc, it, db)
  end.

(** [TitanDBImpl::Scan]: the vectors grow to [len]. *)
Definition grow (len : nat) (l : list bytes) : list bytes := l ++ replicate (len - length l) [].

Definition TitanDBImpl_Scan (start_key : bytes) (len : nat) (keys vals : list bytes)
    (it : option TitanDBIterator) (db : TitanDBImpl)
    : result (nat * list bytes * list bytes * TitanDBImpl) :=
  match it with
  | None => Fault
  | Some it =>
      let* (n, keys, vals, _, db) := it_Scan start_key len (grow len keys) (grow len vals) it db in
      Ok (n, keys, vals, db)
  end.
End iterator.

(** ** An iterator over a sorted list *)

(** The entries and the position, [None] when the iterator is not valid. *)
Record mem_iter := MkMemIter { mi_entries : list (bytes * (bytes * bool)); mi_pos : option nat }.

Definition mi_entry (i : mem_iter) : option (bytes * (bytes * bool)) :=
  p ← mi_pos i; mi_entries i !! p.

Definition mi_at (p : option nat) (i : mem_iter) : mem_iter :=
  MkMemIter (mi_entries i) (p ← p; if decide (p < length (mi_entries i))%nat then Some p else None).

(** The number of keys before [target]. *)
Definition mi_before (target : bytes) (i : mem_iter) : nat :=
  length (filter (fun e => bytes_ltb e.1 target = true) (mi_entries i)).

Definition mem_iterator : BaseIter := {|
  biter := mem_iter;
  bi_Valid := fun i => bool_decide (is_Some (mi_entry i));
  bi_IsBlob := fun i => match mi_entry i with Some e => e.2.2 | None => false end;
  bi_key := fun i => match mi_entry i with Some e => e.1 | None => [] end;
  bi_value := fun i => match mi_entry i with Some e => e.2.1 | None => [] end;
  bi_status := fun _ => OK;
  bi_SeekToFirst := mi_at (Some 0%nat);
  bi_SeekToLast := fun i => mi_at (Some (pred (length (mi_entries i)))) i;
  bi_Seek := fun t i => mi_at (Some (mi_before t i)) i;
  bi_SeekForPrev := fun t i =>
    match mi_entries i !! mi_before t i with
    | Some e => if decide (e.1 = t) then mi_at (Some (mi_before t i)) i
                else mi_at (match mi_before t i with O => None | S n => Some n end) i
    | None => mi_at (match mi_before t i with O => None | S n => Some n end) i
    end;
  bi_Next := fun i => mi_at (S <$> mi_pos i) i;
  bi_Prev := fun i => mi_at (match mi_pos i with Some (S n) => Some n | _ => None end) i
|}.
