(* ===== verification/TitanDbInv.v ===== *)
(** * What reads return

    A read of the database resolves a blob index to the value of the record it
    was made for, through the storage, the cache of open files and the blob cache;
    an iterator gives the same value. *)

From S2P Require Import Prelude Rocks Options Stats Util BlobFormat Env BaseDb BlobFileBuilder BlobFileReader VersionEdit BlobStorage StorageInv EditCollector BlobFileSet ApplyInv ManifestReplay BlobGC Scheduler DbEvents DbEventsInv FileManager ForegroundBuilder GCJob GCJobInv TableBuilder TitanDb DbIter.

Section reads.
Context `{Coding} `{!CodingOk _} `{Compressors} `{!CompressorsOk _} `{E : Env} `{!EnvOk E}
        `{BC : Cache bytes} `{!CacheOk BC} `{FC : !Cache BlobFileReader} `{!CacheOk FC}
        `{UnorderedIter} `{!ManifestIO} `{B : BaseDB} `{I : BaseIter}.

(** A reader of the blob file [f] with the records [rs]. *)
Record reader_serves (w : fs) (cf : TitanCFOptions) (t : Z) (rs : list BlobRecord) (f : rafile)
    (rd : BlobFileReader) : Prop := {
  rs_readable : readable w (reader_file rd) (blob_file_bytes t rs);
  rs_options : reader_options rd = cf;
  rs_prefix : blob_cache cf = true -> cache_prefix rd = raf_GetUniqueId f
}.

(** The file with number [n] has the records [rs], and the caches agree with it. *)
Record file_served (w : fs) (o : TitanDBOptions) (cf : TitanCFOptions) (n t : Z)
    (rs : list BlobRecord) (f : rafile) (c : Caches) : Prop := {
  sv_open : NewRandomAccessFile w (BlobFileName (dirname o) n) = Ok f;
  sv_readable : readable w f (blob_file_bytes t rs);
  sv_id : blob_cache cf = true -> raf_GetUniqueId f <> [];
  sv_readers : forall rd, cache_has (file_cache c) (EncodeFileNumber n) rd -> reader_serves w cf t rs f rd;
  sv_blobs : blob_cache cf = true -> blobs_coherent (raf_GetUniqueId f) t rs (blobs c)
}.

Lemma Open_serves w cf f t rs bc :
  readable w f (blob_file_bytes t rs) -> (blob_cache cf = true -> raf_GetUniqueId f <> []) ->
  exists rd, BlobFileReader_Open w cf f (Z.of_nat (length (blob_file_bytes t rs))) bc = (Ok rd, bc) /\
    reader_serves w cf t rs f rd.
Proof.
  intros Hread Hid. unfold BlobFileReader_Open. pose proof (blob_file_bytes_length t rs) as HL.
  rewrite (proj2 (Z.ltb_ge _ _)) by (unfold kBlobHeaderSize in HL; lia).
  rewrite Hread by (unfold kBlobHeaderSize, kBlobFooterSize, kBlockHandleMaxEncodedLength in *; lia).
  rewrite pread_footer by done. cbn [result_bind]. unfold DecodeInto. rewrite decode_footer.
  cbn [result_bind]. unfold BlobFileReader_new, GenerateCachePrefix.
  destruct (blob_cache cf) eqn:Hbc.
  - destruct (raf_GetUniqueId f) as [|x l] eqn:Hu; [by destruct (Hid eq_refl)|].
    eexists. split; [done|]. by split.
  - eexists. split; [done|]. split; [done..|]. cbn. congruence.
Qed.

Lemma FindFile_served w o cf n t rs f c :
  file_served w o cf n t rs f c ->
  exists rd c', BlobFileCache_FindFile w o cf n (Z.of_nat (length (blob_file_bytes t rs))) c = (Ok rd, c') /\
    reader_serves w cf t rs f rd /\ file_served w o cf n t rs f c'.
Proof.
  intros [Hopen Hread Hid Hrd Hbl]. unfold BlobFileCache_FindFile.
  destruct (cache_Lookup _ (file_cache c)) as [found fc] eqn:HL.
  assert (Hfc : forall k rd, cache_has fc k rd -> cache_has (file_cache c) k rd).
  { intros k rd Hk. eapply has_lookup. by rewrite HL. }
  destruct found as [rd|].
  - exists rd. eexists. split; [done|]. split; [apply Hrd, lookup_has; by rewrite HL|].
    split; try done. intros rd' Hhas. by apply Hrd, Hfc.
  - rewrite Hopen. destruct (Open_serves w cf f t rs (blobs c) Hread Hid) as (rd & -> & Hserves).
    exists rd. eexists. split; [done|]. split; [done|]. split; try done. cbn [file_cache].
    intros rd' [[_ ->]|[Hne Hhas]]%has_insert; [done|]. by apply Hrd, Hfc.
Qed.

(** A read through a reader of the file. *)
Lemma Get_serves w cf t rs f rd j r h record bc :
  reader_serves w cf t rs f rd -> Z.of_nat (length (blob_file_bytes t rs)) < two64 ->
  rs !! j = Some r -> layout t kBlobHeaderSize rs !! j = Some h -> record_wf r -> 0 <= t < 256 ->
  only_value record = only_value r ->
  (blob_cache cf = true -> blobs_coherent (raf_GetUniqueId f) t rs bc) ->
  exists bc', BlobFileReader_Get w rd h record bc = (Ok (filled r record, BlobRecord_EncodeTo r), bc') /\
    (blob_cache cf = true -> blobs_coherent (raf_GetUniqueId f) t rs bc').
Proof.
  intros [Hread Hopt Hpre] Hlen Hr Hh Hwf Ht Hov Hcoh. destruct (blob_cache cf) eqn:Hbc.
  - rewrite <- (Hpre eq_refl) in *.
    destruct (Get_ok w rd t rs j r h record bc Hread Hlen Hr Hh Hwf Ht Hov (Hcoh eq_refl)) as (bc' & -> & Hc').
    by exists bc'.
  - exists bc. split; [|done]. unfold BlobFileReader_Get. rewrite Hopt, Hbc.
    by rewrite (ReadRecord_ok w rd t rs j r h record).
Qed.

(** The record at an index of a column family: its file is live and served. *)
Record index_of (cf_id : Z) (i : BlobIndex) (r : BlobRecord) (bs : BlobStorage) (m : BlobFileMeta)
    (t : Z) (rs : list BlobRecord) (f : rafile) (db : TitanDBImpl) : Prop := {
  io_storage : GetBlobStorage cf_id (sys_set (t_sys db)) = Some bs;
  io_file : exists l, bs_FindFile (index_file_number i) bs = Some l /\
              deref (sh_heap (sys_shared (t_sys db))) l = m;
  io_number : file_number m = index_file_number i;
  io_size : file_size m = Z.of_nat (length (blob_file_bytes t rs));
  io_small : file_size m < two64;
  io_record : exists j, rs !! j = Some r /\ layout t kBlobHeaderSize rs !! j = Some (blob_handle i);
  io_wf : record_wf r;
  io_index : index_wf i;
  io_compression : 0 <= t < 256;
  io_keys : only_value r = level_merge (bs_cf_options bs) && (file_type m =? kSorted);
  io_served : file_served (sys_fs (t_sys db)) (bs_db_options bs) (bs_cf_options bs) (index_file_number i) t rs f
                (sh_caches (sys_shared (t_sys db)))
}.

(** A read changes nothing but the caches. *)
Definition same_but_caches (db db' : TitanDBImpl) : Prop :=
  exists c, db' = with_sh (set_caches c (sys_shared (t_sys db))) db.

Lemma same_but_caches_index cf_id i r bs m t rs f db c :
  index_of cf_id i r bs m t rs f db ->
  file_served (sys_fs (t_sys db)) (bs_db_options bs) (bs_cf_options bs) (index_file_number i) t rs f c ->
  index_of cf_id i r bs m t rs f (with_sh (set_caches c (sys_shared (t_sys db))) db).
Proof. by intros [] ?. Qed.

Lemma bs_Get_index cf_id i r bs m t rs f db :
  index_of cf_id i r bs m t rs f db ->
  exists c, bs_Get (sys_fs (t_sys db)) i BlobRecord_default (bs, sys_shared (t_sys db)) =
      (Ok (filled r (set_only_value (only_value r) BlobRecord_default)), set_caches c (sys_shared (t_sys db))) /\
    file_served (sys_fs (t_sys db)) (bs_db_options bs) (bs_cf_options bs) (index_file_number i) t rs f c.
Proof.
  intros [Hbs (l & Hl & Hm) Hn Hsz Hsmall (j & Hr & Hh) Hwf Hi Ht Hov Hsv]. unfold bs_Get.
  rewrite Hl, Hm, Hn, Hsz. unfold BlobFileCache_Get.
  destruct (FindFile_served _ _ _ _ _ _ _ _ Hsv) as (rd & c1 & -> & Hrd & Hsv1).
  rewrite <- Hov.
  destruct (Get_serves _ _ _ _ _ rd j r (blob_handle i) (set_only_value (only_value r) BlobRecord_default)
    (blobs c1) Hrd ltac:(by rewrite <- Hsz) Hr Hh Hwf Ht eq_refl (sv_blobs _ _ _ _ _ _ _ _ Hsv1)) as (bc' & -> & Hc').
  eexists. split; [done|]. destruct Hsv1. by split.
Qed.

Lemma DecodeFrom_index i : index_wf i -> BlobIndex_DecodeFrom BlobIndex_default (BlobIndex_EncodeTo i) = Ok (i, []).
Proof. intros Hi. rewrite <- (app_nil_r (BlobIndex_EncodeTo i)). by apply BlobIndex_roundtrip. Qed.

(** [Get] of a key whose entry is the index. *)
Lemma GetImpl_index cf_id key d i r bs m t rs f db :
  index_of cf_id i r bs m t rs f db ->
  base_GetImpl d cf_id key = Ok (BlobIndex_EncodeTo i, true) ->
  exists db', TitanDBImpl_GetImpl cf_id key d db = (Ok (record_value r), db') /\
    same_but_caches db db' /\ index_of cf_id i r bs m t rs f db'.
Proof.
  intros Hi Hg. unfold TitanDBImpl_GetImpl. rewrite Hg, (DecodeFrom_index i (io_index _ _ _ _ _ _ _ _ _ Hi)).
  rewrite (io_storage _ _ _ _ _ _ _ _ _ Hi). destruct (bs_Get_index _ _ _ _ _ _ _ _ _ Hi) as (c & -> & Hsv).
  eexists. split; [done|]. split; [by eexists|]. by apply same_but_caches_index.
Qed.

(** A move of an iterator to an entry that is the index. *)
Lemma it_after_index cf_id i r bs m t rs f db (it : TitanDBIterator) (move : biter -> biter) :
  index_of cf_id i r bs m t rs f db ->
  it_cf_id it = cf_id -> it_key_only it = false -> it_files it !! index_file_number i = None ->
  bi_Valid (move (it_iter it)) = true -> bi_IsBlob (move (it_iter it)) = true ->
  bi_value (move (it_iter it)) = BlobIndex_EncodeTo i ->
  exists it' db', it_after move it db = Ok (it', db') /\
    it_Valid it' = true /\ it_status_ it' = OK /\ it_value it' = record_value r /\
    same_but_caches db db' /\ index_of cf_id i r bs m t rs f db'.
Proof.
  intros Hi Hcf Hko Hf Hv Hb Hval. unfold it_after, ShouldGetBlobValue.
  cbn [it_iter it_move it_key_only]. rewrite Hv, Hb, Hko. cbn [negb orb].
  unfold GetBlobValue. cbn [it_iter it_move]. rewrite Hval. unfold DecodeInto.
  rewrite (DecodeFrom_index i (io_index _ _ _ _ _ _ _ _ _ Hi)). cbn [result_bind].
  unfold it_prefetcher. cbn [it_files it_move it_cf_id]. rewrite Hf, Hcf, (io_storage _ _ _ _ _ _ _ _ _ Hi).
  pose proof Hi as [Hbs (l & Hl & Hm) Hn Hsz Hsmall (j & Hr & Hh) Hwf Hiwf Ht Hov Hsv].
  unfold bs_NewPrefetcher. rewrite Hl, Hm, Hn, Hsz. unfold BlobFileCache_NewPrefetcher.
  destruct (FindFile_served _ _ _ _ _ _ _ _ Hsv) as (rd & c1 & -> & Hrd & Hsv1). cbn [result_bind].
  unfold BlobFilePrefetcher_Get. rewrite andb_comm, <- Hov.
  destruct (BlobFilePrefetcher_readahead _ _) as [p' pre].
  cbn [pf_reader pf_only_value BlobFilePrefetcher_new sys_fs t_sys with_sh with_sys with_shared sys_shared
    sh_caches set_caches].
  match goal with |- context [BlobFileReader_Get _ rd _ ?rec _] =>
    destruct (Get_serves _ _ _ _ _ rd j r (blob_handle i) rec (blobs c1) Hrd
      ltac:(by rewrite <- Hsz) Hr Hh Hwf Ht eq_refl (sv_blobs _ _ _ _ _ _ _ _ Hsv1)) as (bc' & -> & Hc') end.
  eexists _, _. split; [done|]. split; [exact Hv|]. split; [done|]. split.
  { unfold it_value. cbn. by rewrite Hko, Hb. }
  split; [by eexists|].
  apply (same_but_caches_index _ _ _ _ _ _ _ _ db (MkCaches (file_cache c1) bc') Hi).
  destruct Hsv1. by split.
Qed.

(** C16: Reads return the values of the base database with its indexes resolved.
    [Get] hands on a failure and an inline value of the base database; for the
    index of a record in a live blob file of the column family it returns the
    value of the record, whatever the caches hold as long as they agree with the
    file, and afterwards they still do; nothing else changes. An iterator that
    moves to an entry with the index, and has no prefetcher for the file yet, is
    valid with status ok and the same value. *)
Theorem reads_return_values (cf_id : Z) (key : bytes) (d : base) (db : TitanDBImpl) :
  (forall s, base_GetImpl d cf_id key = Err s -> TitanDBImpl_GetImpl cf_id key d db = (Err s, db)) /\
  (forall v, base_GetImpl d cf_id key = Ok (v, false) -> TitanDBImpl_GetImpl cf_id key d db = (Ok v, db)) /\
  (forall i r bs m t rs f,
     index_of cf_id i r bs m t rs f db ->
     (base_GetImpl d cf_id key = Ok (BlobIndex_EncodeTo i, true) ->
      exists db', TitanDBImpl_GetImpl cf_id key d db = (Ok (record_value r), db') /\
        same_but_caches db db' /\ index_of cf_id i r bs m t rs f db') /\
     (forall it move,
        it_cf_id it = cf_id -> it_key_only it = false -> it_files it !! index_file_number i = None ->
        bi_Valid (move (it_iter it)) = true -> bi_IsBlob (move (it_iter it)) = true ->
        bi_value (move (it_iter it)) = BlobIndex_EncodeTo i ->
        exists it' db', it_after move it db = Ok (it', db') /\
          it_Valid it' = true /\ it_status_ it' = OK /\ it_value it' = record_value r /\
          same_but_caches db db' /\ index_of cf_id i r bs m t rs f db')).
Proof.
  split_and!.
  - intros s Hg. unfold TitanDBImpl_GetImpl. by rewrite Hg.
  - intros v Hg. unfold TitanDBImpl_GetImpl. by rewrite Hg.
  - intros i r bs m t rs f Hi. split.
    + by apply GetImpl_index.
    + intros it move. by apply it_after_index.
Qed.

(** ** [Scan] *)

(** [Scan] takes what the caller's vector of values holds for an answer. When
    it finds a key whose value is in a live blob file, and the caller's value at
    that place is not empty, the value is left there and the record is never
    read; and when it finds a key with an inline empty value, it looks for a
    record of file 0, and without a prefetcher for it dereferences the end of the
    map. *)
Theorem scan_trusts_values (cf_id : Z) (target k0 v0 : bytes) (it : TitanDBIterator) (db : TitanDBImpl) :
  it_cf_id it = cf_id -> it_key_only it = false -> it_files it = ∅ ->
  bi_Valid (bi_Seek target (it_iter it)) = true ->
  (forall i r bs m t rs f,
     index_of cf_id i r bs m t rs f db ->
     bi_IsBlob (bi_Seek target (it_iter it)) = true ->
     bi_value (bi_Seek target (it_iter it)) = BlobIndex_EncodeTo i -> v0 <> [] ->
     exists it' db', it_Scan target 1 [k0] [v0] it db =
       Ok (1%nat, [bi_key (bi_Seek target (it_iter it))], [v0], it', db')) /\
  (bi_IsBlob (bi_Seek target (it_iter it)) = false -> bi_value (bi_Seek target (it_iter it)) = [] ->
   it_Scan target 1 [k0] [v0] it db = Fault).
Proof.
  intros Hcf Hko Hfiles Hv. split.
  - intros i r bs m t rs f Hi Hb Hval Hne. unfold it_Scan, it_Valid. cbn [scan_keys].
    unfold it_Valid, ShouldGetBlobValue. cbn [it_iter it_move it_key_only]. rewrite Hv, Hb, Hko. cbn [negb orb].
    cbn [it_iter it_move]. rewrite Hval. unfold DecodeInto.
    rewrite (DecodeFrom_index i (io_index _ _ _ _ _ _ _ _ _ Hi)). cbn [result_bind].
    unfold it_prefetcher. cbn [it_files it_move it_cf_id].
    rewrite Hfiles, lookup_empty, Hcf, (io_storage _ _ _ _ _ _ _ _ _ Hi).
    destruct Hi as [Hbs (l & Hl & Hm) Hn Hsz Hsmall (j & Hr & Hh) Hwf Hiwf Ht Hov Hsv].
    unfold bs_NewPrefetcher. rewrite Hl, Hm, Hn, Hsz. unfold BlobFileCache_NewPrefetcher.
    destruct (FindFile_served _ _ _ _ _ _ _ _ Hsv) as (rd & c1 & -> & Hrd & Hsv1). cbn [result_bind].
    cbn. destruct v0 as [|x v0]; [done|]. by eexists _, _.
  - intros Hb Hval. unfold it_Scan. cbn [scan_keys]. unfold it_Valid, ShouldGetBlobValue.
    cbn [it_iter it_move it_key_only]. rewrite Hv, Hb, Hko. cbn [negb orb].
    cbn [it_iter it_move it_set_status]. rewrite Hval. cbn. by rewrite Hfiles.
Qed.
End reads.

(** ** An application *)

Section witnesses.
#[local] Existing Instances leb128_coding leb128_coding_ok rle_compressors rle_compressors_ok mem_env mem_env_ok
  map_to_list_iter mem_manifest blobs_map readers_map mem_basedb mem_iterator.

(** Column family 5 with the file 1 of [GCJobInv]. *)
Definition example_read_storage : BlobStorage :=
  (bs_AddBlobFile 1 (BlobStorage_new example_db_options example_cf_options 5,
                     sys_shared (t_sys example_gc_db))).1.

Definition example_read_db : TitanDBImpl :=
  with_sys (MkSys (with_cfs {[ 5 := example_read_storage ]} (sys_set (t_sys example_gc_db)))
              (sys_shared (t_sys example_gc_db)) example_gc_fs) example_gc_db.

Definition example_read_record : BlobRecord :=
  MkBlobRecord [Byte.x6b; Byte.x31] [Byte.x76; Byte.x62; Byte.x63] false.

Lemma example_read_index :
  index_of 5 example_index example_read_record example_read_storage
    (deref example_gc_heap 1) kNoCompression example_records "/1"%string example_read_db.
Proof.
  split.
  - reflexivity.
  - exists 1%positive. split; reflexivity.
  - reflexivity.
  - vm_compute. reflexivity.
  - vm_compute. reflexivity.
  - exists 1%nat. split; vm_compute; reflexivity.
  - unfold record_wf, slice_wf, two32. vm_compute. intuition congruence.
  - unfold index_wf. vm_compute. intuition congruence.
  - vm_compute. intuition congruence.
  - reflexivity.
  - split.
    + reflexivity.
    + intros off n _ _. reflexivity.
    + discriminate.
    + intros rd Hrd. vm_compute in Hrd. discriminate.
    + discriminate.
Qed.

Lemma reads_return_values_witness :
  exists db', TitanDBImpl_GetImpl 5 [Byte.x6b; Byte.x31] example_base example_read_db =
    (Ok [Byte.x76; Byte.x62; Byte.x63], db') /\ same_but_caches example_read_db db'.
Proof.
  destruct (reads_return_values 5 [Byte.x6b; Byte.x31] example_base example_read_db) as (_ & _ & Hread).
  destruct (Hread _ _ _ _ _ _ _ example_read_index) as [Hget _].
  destruct Hget as (db' & Hg & Hsame & _); [reflexivity|]. exists db'. exact (conj Hg Hsame).
Defined.

(** An iterator over one key, with the index of its value or with an empty value. *)
Definition example_iterator (v : bytes * bool) : TitanDBIterator :=
  MkTitanDBIterator OK BlobRecord_default false 5 (MkMemIter [([Byte.x6b; Byte.x31], v)] None) ∅.

Lemma scan_trusts_values_witness :
  (exists it' db', it_Scan [] 1 [[]] [[Byte.x6f]] (example_iterator (BlobIndex_EncodeTo example_index, true))
                     example_read_db = Ok (1%nat, [[Byte.x6b; Byte.x31]], [[Byte.x6f]], it', db')) /\
  it_Scan [] 1 [[]] [[Byte.x6f]] (example_iterator ([], false)) example_read_db = Fault.
Proof.
  split.
  - refine (proj1 (scan_trusts_values 5 [] [] [Byte.x6f]
      (example_iterator (BlobIndex_EncodeTo example_index, true)) example_read_db _ _ _ _) _ _ _ _ _ _ _
      example_read_index _ _ _); first [reflexivity|discriminate].
  - refine (proj2 (scan_trusts_values 5 [] [] [Byte.x6f] (example_iterator ([], false)) example_read_db
      _ _ _ _) _ _); reflexivity.
Defined.
End witnesses.
