(* ===== verification/FinishedFiles.v ===== *)
(** * From a finished blob file to a read

    When [BatchFinishFiles] has added complete blob files, the handle of every
    record in them can be read through the database: the file is synced and closed
    under its name, its metadata is live, and the caches know nothing else of it. *)

From S2P Require Import Prelude Rocks Options Stats Util BlobFormat Env BaseDb BlobFileBuilder BlobFileReader VersionEdit BlobStorage StorageInv EditCollector BlobFileSet ApplyInv ManifestReplay BlobGC Scheduler DbEvents DbEventsInv CompactionInv FileManager StoredFiles ForegroundBuilder GCJob GCJobInv GCFinish TableBuilder TableBuilderInv TitanDb DbIter TitanDbInv.

(** ** Syncing and closing *)

Section closing.
Context `{Coding} `{Compressors} `{E : Env} `{BC : Cache bytes} `{FC : !Cache BlobFileReader}
        `{UnorderedIter} `{!ManifestIO} `{!WritableFiles} `{!StoredFilesOk}.

Definition names_of (files : list finished) : list string := (fun f => GetName f.2.1) <$> files.

Lemma close_files_others files w s w' name c :
  close_files files w = (s, w') -> name ∉ names_of files -> holds_file w name c -> holds_file w' name c.
Proof.
  revert w. induction files as [|[l [handle f]] files IH]; intros w; cbn [close_files]; [by intros [= _ <-]|].
  unfold names_of. cbn [fmap list_fmap fst snd]. rewrite not_elem_of_cons.
  destruct (w_Sync _ f w) as [s1 w1] eqn:HS. intros Hrun [Hne Hni] Hh.
  assert (Hh1 : holds_file w1 name c).
  { pose proof (sync_touches (GetName handle) f w name c Hne Hh) as Ht. by rewrite HS in Ht. }
  destruct (status_ok s1).
  - destruct (w_Close _ f w1) as [s2 w2] eqn:HC.
    assert (Hh2 : holds_file w2 name c).
    { pose proof (close_touches (GetName handle) f w1 name c Hne Hh1) as Ht. by rewrite HC in Ht. }
    destruct (status_ok s2); [by eapply IH|by injection Hrun as _ <-].
  - destruct (status_ok s1); [by eapply IH|by injection Hrun as _ <-].
Qed.

Lemma close_files_hold files w w' f :
  close_files files w = (OK, w') -> NoDup (names_of files) -> f ∈ files ->
  holds_file w' (GetName f.2.1) (w_contents f.2.2).
Proof.
  revert w. induction files as [|[l [handle g]] files IH]; intros w; cbn [close_files].
  { by intros _ _ ?%not_elem_of_nil. }
  unfold names_of. cbn [fmap list_fmap fst snd]. rewrite NoDup_cons.
  destruct (w_Sync _ g w) as [s1 w1]. intros Hrun [Hni Hnd] Hin.
  destruct (status_ok s1) eqn:Hs1.
  - destruct (w_Close _ g w1) as [s2 w2] eqn:HC. destruct (status_ok s2) eqn:Hs2.
    + apply status_ok_true in Hs2 as ->. apply elem_of_cons in Hin as [->|Hin].
      * eapply close_files_others; [done..|]. by eapply close_holds.
      * by eapply IH.
    + injection Hrun as -> _. done.
  - rewrite Hs1 in Hrun. injection Hrun as -> _. done.
Qed.

(** ** What adding the files leaves alone *)

(** The caches, the options of the storages, the next number and the files but
    the manifest. *)
Record edit_frame (sys sys' : Sys) : Prop := {
  fr_caches : sh_caches (sys_shared sys') = sh_caches (sys_shared sys);
  fr_next : set_next_file_number (sys_set sys') = set_next_file_number (sys_set sys);
  fr_manifest : manifest (sys_set sys') = manifest (sys_set sys);
  fr_files : forall log, manifest (sys_set sys) = Some log -> only_touches log (sys_fs sys) (sys_fs sys')
}.

Lemma edit_frame_refl sys : edit_frame sys sys.
Proof. split; try done. intros log _. apply only_touches_refl. Qed.

(** A storage's caches, and those of all storages, stay the same; a building file
    that is added is no longer one. *)
Definition same_aside (a b : BlobStorage * Shared) : Prop :=
  sh_caches b.2 = sh_caches a.2 /\ building_files b.1 ⊆ building_files a.1.

Definition same_asides (a b : gmap Z BlobStorage * Shared) : Prop :=
  sh_caches b.2 = sh_caches a.2 /\ forall id bs', b.1 !! id = Some bs' ->
    exists bs, a.1 !! id = Some bs /\ building_files bs' ⊆ building_files bs.

Lemma same_aside_trans a b c : same_aside a b -> same_aside b c -> same_aside a c.
Proof. intros [??] [??]. split; [congruence|by etrans]. Qed.

Lemma same_asides_refl a : same_asides a a.
Proof. split; [done|]. eauto. Qed.

Lemma same_asides_trans a b c : same_asides a b -> same_asides b c -> same_asides a c.
Proof.
  intros [? Hab] [? Hbc]. split; [congruence|]. intros id bs3 Hb3. destruct (Hbc id bs3 Hb3) as (bs2 & Hb2 & Hs2).
  destruct (Hab id bs2 Hb2) as (bs1 & Hb1 & Hs1). exists bs1. split; [done|by etrans].
Qed.

Lemma foldl_aside {X} (f : BlobStorage * Shared -> X -> BlobStorage * Shared) L st :
  (forall st x, same_aside st (f st x)) -> same_aside st (foldl f st L).
Proof.
  intros Hf. revert st. induction L as [|x L IH]; intros st; [done|]. cbn [foldl].
  eapply same_aside_trans; [apply Hf|apply IH].
Qed.

Lemma CF_Apply_aside c st : same_aside st (CF_Apply c st).2.
Proof.
  unfold CF_Apply.
  pose proof (foldl_aside (fun st file => apply_added c file st) (unordered_iter (cfc_added_files c)) st) as Hk1.
  set (st1 := foldl _ st _) in *.
  assert (Hk2 : same_aside st1 (for_each (apply_deleted c) (unordered_iter (cfc_deleted_files c)) st1).2).
  { apply for_each_rel; [done|apply same_aside_trans|].
    intros [n seq] [bs sh]. unfold apply_deleted. destruct (cfc_added_files c !! _); [done|].
    unfold MarkFileObsolete. cbn [fst]. by destruct (files bs !! n) as [l|]. }
  assert (Hk : same_aside st (for_each (apply_deleted c) (unordered_iter (cfc_deleted_files c)) st1).2).
  { eapply same_aside_trans; [apply Hk1|exact Hk2]. intros [bs sh] f. unfold apply_added.
    destruct (cfc_deleted_files c !! f.1); [done|]. split; [done|]. cbn.
    destruct (sep_before_flush _); [apply delete_subseteq|done]. }
  destruct (for_each _ _ st1) as [s st2]. destruct (status_ok s); [|done].
  pose proof (foldl_aside (fun st d => apply_updated d st) (unordered_iter (cfc_updated_discardable_size c)) st2) as Hk3.
  destruct (foldl _ st2 _) as [bs sh]. eapply same_aside_trans; [exact Hk|]. apply Hk3.
  intros [bs0 sh0] d. unfold apply_updated. by destruct (bs_FindFile _ _).
Qed.

Lemma apply_cf_asides x st : same_asides st (apply_cf x st).2.
Proof.
  destruct x as [id c]. unfold apply_cf. cbn [fst snd]. destruct (st.1 !! id) as [bs|] eqn:Hid; [|apply same_asides_refl].
  pose proof (CF_Apply_aside c (bs, st.2)) as [Hc Hb]. destruct (CF_Apply c (bs, st.2)) as [s [bs' sh']].
  cbn [fst snd] in *. split; [done|]. intros id' bs2. cbn [fst].
  intros [[<- <-]|[_ Hid']]%lookup_insert_Some; eauto.
Qed.

Lemma apply_asides L st : same_asides st (for_each apply_cf L st).2.
Proof. apply for_each_rel; [apply same_asides_refl|apply same_asides_trans|apply apply_cf_asides]. Qed.

Lemma LogAndApply_frame edit sys s sys' : LogAndApply edit sys = Ok (s, sys') -> edit_frame sys sys'.
Proof.
  unfold LogAndApply. destruct (AddEdit _ _ _) as [s1 c1].
  destruct (negb (status_ok s1)); [intros [= <- <-]; apply edit_frame_refl|].
  destruct (EditCollector_Seal _ _ c1) as [s2 c2].
  destruct (negb (status_ok s2)); [intros [= <- <-]; apply edit_frame_refl|].
  destruct (manifest (sys_set sys)) as [log|] eqn:Hman; [|done].
  destruct (log_AddRecord _ _ _) as [s3 w3] eqn:HA3. destruct (SyncTitanManifest log w3) as [s4 w4] eqn:HA4.
  assert (Ht3 : only_touches log (sys_fs sys) w3).
  { pose proof (log_touches log (VersionEdit_EncodeTo (sh_heap (sys_shared sys))
      (SetNextFileNumber (set_next_file_number (sys_set sys)) edit)) (sys_fs sys)) as Ht. by rewrite HA3 in Ht. }
  assert (Ht4 : only_touches log (sys_fs sys) w4).
  { eapply only_touches_trans; [exact Ht3|]. pose proof (log_sync_touches log w3) as Ht. by rewrite HA4 in Ht. }
  destruct (negb (status_ok s3)); [intros [= <- <-]; split; cbn; try done; by rewrite Hman; intros ? [= <-]|].
  destruct (negb (status_ok s4)); [intros [= <- <-]; split; cbn; try done; by rewrite Hman; intros ? [= <-]|].
  pose proof (apply_asides (unordered_iter (ec_column_families c2)) (column_families (sys_set sys), sys_shared sys)) as Hall.
  unfold EditCollector_Apply.
  destruct (negb (status_ok (ec_status c2))); [intros [= <- <-]; split; cbn; try done; by rewrite Hman; intros ? [= <-]|].
  destruct (negb (sealed c2)); [intros [= <- <-]; split; cbn; try done; by rewrite Hman; intros ? [= <-]|].
  destruct (for_each _ _ _) as [s5 [cfs5 sh5]]. intros [= <- <-].
  split; cbn [sys_shared sys_set sys_fs]; try done; [|by rewrite Hman; intros ? [= <-]].
  by destruct Hall.
Qed.
End closing.

(** ** Reading the records of added files *)

Section readable.
Context `{Coding} `{!CodingOk _} `{Compressors} `{!CompressorsOk _} `{E : Env} `{!EnvOk E}
        `{BC : Cache bytes} `{FC : !Cache BlobFileReader}
        `{UnorderedIter} `{!ManifestIO} `{!WritableFiles} `{!StoredFilesOk}.
Context (listeners : Status -> Status) (bytes0 : Z).

(** A complete file with the records [rs] at the handles [hs], and its metadata. *)
Record complete_file (dir : string) (cf : TitanCFOptions) (h : heap) (rs : list BlobRecord)
    (hs : list BlobHandle) (f : finished) (m : BlobFileMeta) : Prop := {
  cf_meta : h !! f.1 = Some m;
  cf_number : file_number m = GetNumber f.2.1;
  cf_size : file_size m = w_GetFileSize f.2.2;
  cf_name : GetName f.2.1 = BlobFileName dir (GetNumber f.2.1);
  cf_built : exists b b', building bytes0 cf rs hs b /\ BlobFileBuilder_Finish b = (OK, b') /\ f.2.2 = bfb_file b'
}.

Lemma complete_file_contents dir cf h rs hs f m :
  complete_file dir cf h rs hs f m ->
  w_contents f.2.2 = blob_file_bytes (blob_file_compression cf) rs /\
  hs = layout (blob_file_compression cf) kBlobHeaderSize rs /\
  file_size m = Z.of_nat (length (blob_file_bytes (blob_file_compression cf) rs)).
Proof.
  intros [_ _ Hsz _ (b & b' & (file & Hfile & Hall) & Hfin & Hf)].
  destruct (build_ok _ _ _ _ _ _ _ Hfile Hall Hfin) as [Hc Hh].
  rewrite Hsz, file_size_contents, Hf, Hc. done.
Qed.

(** The handles of a file below 2^64 bytes fit their fields. *)
Lemma layout_handle_wf t rs j h :
  Z.of_nat (length (blob_file_bytes t rs)) < two64 -> layout t kBlobHeaderSize rs !! j = Some h -> handle_wf h.
Proof.
  intros Hlen Hl. assert (Hj : (j < length rs)%nat).
  { rewrite <- (length_layout t kBlobHeaderSize rs). by eapply lookup_lt_Some. }
  destruct (lookup_lt_is_Some_2 rs j Hj) as [r Hr].
  rewrite (layout_lookup t _ rs j r Hr) in Hl. injection Hl as <-.
  rewrite (blob_file_bytes_middle t rs j r Hr) in Hlen. rewrite !length_app in Hlen.
  pose proof BlobFileHeader_length as Hh. unfold handle_wf, is_u64. cbn [handle_offset handle_size].
  unfold kBlobHeaderSize in *. specialize (Hh kVersion1). lia.
Qed.

Lemma names_nodup dir (files : list finished) :
  Forall (fun f => GetName f.2.1 = BlobFileName dir (GetNumber f.2.1)) files ->
  NoDup ((fun f => GetNumber f.2.1) <$> files) -> NoDup (names_of files).
Proof.
  intros Hnames Hnd.
  assert (Heq : names_of files = BlobFileName dir <$> ((fun f => GetNumber f.2.1) <$> files)).
  { unfold names_of. rewrite <- list_fmap_compose. apply list_fmap_ext. intros i f Hf.
    rewrite Forall_lookup in Hnames. by apply (Hnames i). }
  rewrite Heq. apply (NoDup_fmap_2_strong (BlobFileName dir)); [|done].
  intros n m _ _. apply BlobFileName_inj.
Qed.

(** The database and the column family that the files of a batch belong to. The
    column family has no blob cache. *)
Record batch_target (cf_id : Z) (dir : string) (bs : BlobStorage) (db : TitanDBImpl) : Prop := {
  bt_inv : db_inv db;
  bt_storage : column_families (sys_set (t_sys db)) !! cf_id = Some bs;
  bt_dir : dirname (bs_db_options bs) = dir;
  bt_cache : blob_cache (bs_cf_options bs) = false;
  bt_manifest : exists log, manifest (sys_set (t_sys db)) = Some log /\ forall n, log <> BlobFileName dir n
}.

(** Every file of the batch is complete, and new. *)
Definition batch_complete (dir : string) (cf : TitanCFOptions) (files : list finished) (db : TitanDBImpl) : Prop :=
  forall f, f ∈ files -> exists rs hs m, complete_file dir cf (sh_heap (sys_shared (t_sys db))) rs hs f m.

Lemma numbered_batch dir cf cf_id files db :
  batch_complete dir cf files db ->
  (numbered (sh_heap (sys_shared (t_sys db))) (added_files (add_files_edit cf_id files))).*1 =
  (fun f => GetNumber f.2.1) <$> files.
Proof.
  intros Hall. destruct (add_files_edit_added cf_id files) as (-> & _ & _). unfold numbered.
  rewrite <- !list_fmap_compose. apply list_fmap_ext. intros i f Hf. unfold compose. cbn [fst].
  destruct (Hall f) as (rs & hs & m & [Hm Hn _ _ _]); [by eapply list_elem_of_lookup_2|].
  by rewrite (deref_Some _ _ _ Hm).
Qed.

(** The record at an index whose file is live and on disk, and which no cache
    knows yet; the column family has no blob cache. *)
Record index_held (cf_id : Z) (i : BlobIndex) (r : BlobRecord) (t : Z) (rs : list BlobRecord) (bs : BlobStorage)
    (m : BlobFileMeta) (db : TitanDBImpl) : Prop := {
  ih_storage : GetBlobStorage cf_id (sys_set (t_sys db)) = Some bs;
  ih_live : live_files bs (sys_shared (t_sys db)) !! index_file_number i = Some (persistent m);
  ih_number : file_number m = index_file_number i;
  ih_size : file_size m = Z.of_nat (length (blob_file_bytes t rs));
  ih_small : file_size m < two64;
  ih_record : exists j, rs !! j = Some r /\ layout t kBlobHeaderSize rs !! j = Some (blob_handle i);
  ih_wf : record_wf r;
  ih_index : is_u64 (index_file_number i);
  ih_compression : 0 <= t < 256;
  ih_keys : only_value r = level_merge (bs_cf_options bs) && (file_type m =? kSorted);
  ih_cache : blob_cache (bs_cf_options bs) = false;
  ih_holds : holds_file (sys_fs (t_sys db)) (BlobFileName (dirname (bs_db_options bs)) (index_file_number i))
               (blob_file_bytes t rs);
  ih_readers : forall rd, ~ cache_has (file_cache (sh_caches (sys_shared (t_sys db))))
                             (EncodeFileNumber (index_file_number i)) rd
}.

Lemma held_index cf_id i r t rs bs m db :
  index_held cf_id i r t rs bs m db -> exists m' f, index_of cf_id i r bs m' t rs f db.
Proof.
  intros [Hbs Hlive Hn Hsz Hsmall (j & Hr & Hh) Hwf Hi Ht Hov Hbc (f & Hopen & Hread) Hrd].
  unfold live_files in Hlive. rewrite lookup_live_of in Hlive.
  destruct (files bs !! index_file_number i) as [l|] eqn:Hl; [|done].
  destruct (is_obsolete _); [done|]. apply (inj Some) in Hlive as Hp.
  set (m' := deref (sh_heap (sys_shared (t_sys db))) l) in *.
  assert (file_number m' = file_number m /\ file_size m' = file_size m /\ file_type m' = file_type m) as (Hn' & Hs' & Ht').
  { unfold persistent, BlobFileMeta_new in Hp. by injection Hp. }
  exists m', f. split; [done|by exists l|congruence|congruence|congruence|by exists j|done| |done|by rewrite Ht'|].
  - split; [done|]. eapply layout_handle_wf; [|done]. by rewrite <- Hsz.
  - split; try done; [by rewrite Hbc|intros rd Hhas; by destruct (Hrd rd)|by rewrite Hbc].
Qed.

(** Another edit leaves it alone, unless it deletes the file. *)
Lemma held_edit cf_id i r t rs bs m db edit sys' log :
  index_held cf_id i r t rs bs m db -> db_inv db ->
  edit_fresh (column_families (sys_set (t_sys db))) (sh_heap (sys_shared (t_sys db))) edit ->
  manifest (sys_set (t_sys db)) = Some log ->
  log <> BlobFileName (dirname (bs_db_options bs)) (index_file_number i) ->
  LogAndApply edit (t_sys db) = Ok (OK, sys') -> added_files edit = [] ->
  index_file_number i ∉ (deleted_files edit).*1 ->
  exists bs', index_held cf_id i r t rs bs' m (with_sys sys' db).
Proof.
  intros [Hbs Hlive Hn Hsz Hsmall Hrec Hwf Hi Ht Hov Hbc Hholds Hrd] Hinv Hfresh Hman Hlog Hrun Hadd Hdel.
  destruct (LogAndApply_spec edit (t_sys db) Hinv Hfresh) as (s & sys1 & Hrun' & Hs); [by rewrite Hman|].
  rewrite Hrun in Hrun'. injection Hrun' as <- <-. cbn [status_ok] in Hs.
  destruct Hs as (_ & Hlives & [Hdom Hsame] & _). destruct (LogAndApply_frame _ _ _ _ Hrun) as [Hcaches _ _ Htouch].
  unfold GetBlobStorage in Hbs.
  destruct (column_families (sys_set sys') !! cf_id) as [bs'|] eqn:Hbs'.
  2: { apply not_elem_of_dom in Hbs'. rewrite Hdom in Hbs'. apply not_elem_of_dom in Hbs'. congruence. }
  destruct (Hsame cf_id bs' Hbs') as (bs0 & Hbs0 & (Ho & Hco & _)). rewrite Hbs in Hbs0. injection Hbs0 as <-.
  exists bs'. split; try done; cbn [t_sys with_sys]; rewrite ?Hco, ?Ho, ?Hcaches; try done.
  - assert (Hcf : lives (column_families (sys_set sys')) (sys_shared sys') !! cf_id = Some (live_files bs' (sys_shared sys'))).
    { unfold lives. by rewrite lookup_fmap, Hbs'. }
    rewrite Hlives, lookup_alter in Hcf. unfold lives in Hcf.
    destruct (decide (column_family_id edit = cf_id)) as [Heq|]; rewrite ?Heq, lookup_fmap, Hbs in Hcf;
      injection Hcf as <-; [|done].
    rewrite lookup_spec_edit. unfold edit_metas, added_map, deleted_set. rewrite Hadd. cbn.
    rewrite decide_False by by rewrite elem_of_list_to_set. by rewrite fmap_empty, lookup_empty.
  - apply (Htouch log Hman); [congruence|done].
Qed.

Lemma BatchFinish_held cf_id dir cf bs batch db db' f rs hs m j r h :
  batch_target cf_id dir bs db -> batch_fresh cf_id batch db -> batch_complete dir cf batch db ->
  BatchFinishFiles listeners cf_id batch db = Ok (OK, db') ->
  f ∈ batch -> complete_file dir cf (sh_heap (sys_shared (t_sys db))) rs hs f m ->
  rs !! j = Some r -> hs !! j = Some h -> record_wf r -> 0 <= blob_file_compression cf < 256 ->
  file_size m < two64 -> is_u64 (file_number m) ->
  only_value r = level_merge (bs_cf_options bs) && (file_type m =? kSorted) ->
  (forall rd, ~ cache_has (file_cache (sh_caches (sys_shared (t_sys db)))) (EncodeFileNumber (file_number m)) rd) ->
  exists bs', index_held cf_id (MkBlobIndex (file_number m) h) r (blob_file_compression cf) rs bs' m db' /\
    dirname (bs_db_options bs') = dir.
Proof.
  intros [Hinv Hbs Hdir Hbc (log & Hlog & Hlogn)] [Hfresh Hman] Hall Hrun Hf Hcf Hr Hh Hwf Ht Hsmall Hn64 Hov Hnew.
  destruct (complete_file_contents _ _ _ _ _ _ _ Hcf) as (Hcont & -> & Hsz).
  pose proof Hcf as [Hm Hnum _ Hname _].
  unfold BatchFinishFiles in Hrun. destruct (close_files batch _) as [s1 w1] eqn:Hclose.
  destruct (status_ok s1) eqn:Hs1; cbn [negb] in Hrun; [|injection Hrun as -> _; done].
  apply status_ok_true in Hs1 as ->. set (edit := add_files_edit cf_id batch) in *.
  destruct (LogAndApply_spec edit (MkSys (sys_set (t_sys db)) (sys_shared (t_sys db)) w1))
    as (s & sys' & Hla & Hs); [done..|].
  rewrite Hla in Hrun. cbn [result_bind] in Hrun. injection Hrun as -> <-. cbn [status_ok] in *.
  destruct (LogAndApply_frame _ _ _ _ Hla) as [Hcaches _ _ Htouch]. cbn [sys_shared sys_set sys_fs] in *.
  destruct Hs as (Hinv' & Hlives & [_ Hsame] & Hnd). pose proof Hnd as Hnd'.
  unfold edit in Hnd'. rewrite (numbered_batch dir cf) in Hnd' by done.
  (* the metadata *)
  destruct (add_files_edit_added cf_id batch) as (Ha & Hd & Hc). fold edit in Ha, Hd, Hc.
  assert (Hem : edit_metas (sh_heap (sys_shared (t_sys db))) edit !! file_number m = Some (persistent m)).
  { unfold edit_metas. rewrite lookup_fmap. rewrite (proj2 (elem_of_added_map _ _ (file_number m) f.1 Hnd)).
    - cbn. by rewrite (deref_Some _ _ _ Hm).
    - rewrite Ha, (deref_Some _ _ _ Hm). split; [|done]. apply list_elem_of_fmap. by exists f. }
  assert (Hlv : exists live, lives (column_families (sys_set sys')) (sys_shared sys') !! cf_id = Some live /\
            live !! file_number m = Some (persistent m)).
  { rewrite Hlives, Hc, lookup_alter_eq. unfold lives at 1. rewrite lookup_fmap, Hbs. eexists. split; [done|].
    rewrite lookup_spec_edit. unfold deleted_set. rewrite Hd. cbn. rewrite Hem. done. }
  destruct Hlv as (live & Hlive & Hfile). unfold lives in Hlive. rewrite lookup_fmap in Hlive.
  destruct (column_families (sys_set sys') !! cf_id) as [bs'|] eqn:Hbs'; [|done]. injection Hlive as <-.
  destruct (Hsame cf_id bs' Hbs') as (bs0 & Hbs0 & (Ho & Hco & _)). rewrite Hbs in Hbs0. injection Hbs0 as <-.
  (* the file *)
  assert (Hholds : holds_file (sys_fs sys') (BlobFileName dir (file_number m)) (blob_file_bytes (blob_file_compression cf) rs)).
  { apply (Htouch log Hlog); [by intros ?; eapply Hlogn|]. rewrite <- Hcont, Hnum, <- Hname.
    eapply close_files_hold; [done| |done]. apply (names_nodup dir); [|done].
    apply Forall_forall. intros g Hg. by destruct (Hall g Hg) as (? & ? & ? & []). }
  exists bs'. split; [|by rewrite Ho].
  split; cbn [t_sys with_pending with_sys index_file_number blob_handle sys_set sys_shared sys_fs]; try done.
  - by exists j.
  - by rewrite Hco.
  - by rewrite Hco.
  - by rewrite Ho, Hdir.
  - by rewrite Hcaches.
Qed.
End readable.
