(* ===== verification/OutputFiles.v ===== *)
(** * The blob files being written

    What the table builder and the foreground builders share: a handle and a
    builder for the file being written, the complete files, and the database that
    hands out numbers, names and objects until [BatchFinishFiles] adds them. *)

From S2P Require Import Prelude Rocks Options Stats Util BlobFormat Env BaseDb BlobFileBuilder BlobFileReader VersionEdit BlobStorage StorageInv EditCollector BlobFileSet ApplyInv ManifestReplay BlobGC Scheduler DbEvents DbEventsInv CompactionInv FileManager StoredFiles Directory ForegroundBuilder GCJob GCJobInv GCFinish TableBuilder TableBuilderInv TitanDb DbIter TitanDbInv FinishedFiles.

Section writing.
Context `{Coding} `{Compressors} `{E : Env} `{BC : Cache bytes} `{FC : !Cache BlobFileReader}
        `{UnorderedIter} `{!ManifestIO} `{!WritableFiles} `{!WritableFilesOk}.

(** The storage but for its building files. *)
Definition set_building (bf : gmap Z rafile) (bs : BlobStorage) : BlobStorage :=
  MkBlobStorage (bs_db_options bs) (bs_cf_options bs) (bs_cf_id bs) (files bs) bf (blob_ranges bs) (gc_score bs)
    (obsolete_files bs) (destroyed bs) (level_blob_size bs).

Lemma set_building_same bs : set_building (building_files bs) bs = bs.
Proof. by destruct bs. Qed.

Definition same_storages (cfs cfs' : gmap Z BlobStorage) : Prop :=
  forall id, exists bf, cfs' !! id = set_building bf <$> cfs !! id.

Lemma same_storages_refl cfs : same_storages cfs cfs.
Proof.
  intros id. destruct (cfs !! id) as [bs|]; [|by exists ∅].
  exists (building_files bs). cbn. by rewrite set_building_same.
Qed.

Lemma same_storages_trans c1 c2 c3 : same_storages c1 c2 -> same_storages c2 c3 -> same_storages c1 c3.
Proof.
  intros H12 H23 id. destruct (H12 id) as [b1 H1'], (H23 id) as [b2 H2']. exists b2. rewrite H2', H1'.
  by destruct (c1 !! id).
Qed.

(** What writing blob files does to the database until they are added: objects,
    numbers and building files are handed out, and a statistic grows. *)
Record writing (db0 db : TitanDBImpl) : Prop := {
  wr_options : t_options db = t_options db0;
  wr_cfs : same_storages (column_families (sys_set (t_sys db0))) (column_families (sys_set (t_sys db)));
  wr_manifest : manifest (sys_set (t_sys db)) = manifest (sys_set (t_sys db0));
  wr_heap : sh_heap (sys_shared (t_sys db0)) ⊆ sh_heap (sys_shared (t_sys db));
  wr_counted : same_counted (sys_shared (t_sys db0)) (sys_shared (t_sys db));
  wr_caches : sh_caches (sys_shared (t_sys db)) = sh_caches (sys_shared (t_sys db0))
}.

Lemma writing_refl db : writing db db.
Proof. split; try done. apply same_storages_refl. Qed.

Lemma writing_trans db1 db2 db3 : writing db1 db2 -> writing db2 db3 -> writing db1 db3.
Proof.
  intros [? Hs1 ? Hh1 Hc1 ?] [? Hs2 ? Hh2 Hc2 ?]. split; try congruence.
  - by eapply same_storages_trans.
  - by etrans.
  - intros cf t Ht. by rewrite (Hc2 cf t Ht), (Hc1 cf t Ht).
Qed.

(** The storage of a column family before and after. *)
Lemma writing_before db0 db id bs :
  writing db0 db -> column_families (sys_set (t_sys db)) !! id = Some bs ->
  exists bs0 bf, column_families (sys_set (t_sys db0)) !! id = Some bs0 /\ bs = set_building bf bs0.
Proof.
  intros Hw Hbs. destruct (wr_cfs _ _ Hw id) as [bf Heq]. rewrite Heq in Hbs.
  destruct (column_families (sys_set (t_sys db0)) !! id) as [bs0|]; [|done].
  exists bs0, bf. split; [done|]. by injection Hbs.
Qed.

Lemma writing_after db0 db id bs0 :
  writing db0 db -> column_families (sys_set (t_sys db0)) !! id = Some bs0 ->
  exists bf, column_families (sys_set (t_sys db)) !! id = Some (set_building bf bs0).
Proof. intros Hw Hbs. destruct (wr_cfs _ _ Hw id) as [bf ->]. rewrite Hbs. by exists bf. Qed.

Lemma writing_inv db0 db : writing db0 db -> db_inv db0 -> db_inv db.
Proof.
  intros Hw [Hi Hcmp Hs Hd]. split.
  - intros id bs Hbs. destruct (writing_before _ _ _ _ Hw Hbs) as (bs0 & bf & Hbs0 & ->). by apply (Hi id bs0).
  - intros id bs Hbs. destruct (writing_before _ _ _ _ Hw Hbs) as (bs0 & bf & Hbs0 & ->). by apply (Hcmp id bs0).
  - intros id bs Hbs. destruct (writing_before _ _ _ _ Hw Hbs) as (bs0 & bf & Hbs0 & ->).
    assert (Hst : storage_inv (obsolete_files bs0) bs0 (sys_shared (t_sys db))).
    { eapply storage_inv_rely; [by apply (Hs id bs0)|]. split; [|intros t Ht; by apply (wr_counted _ _ Hw)].
      intros n l m _ Hm. exists m. split; [by eapply lookup_weaken; [|apply (wr_heap _ _ Hw)]|apply same_file_refl]. }
    by destruct Hst.
  - intros id1 bs1 n1 id2 bs2 n2 l Hb1 Hl1 Hb2 Hl2.
    destruct (writing_before _ _ _ _ Hw Hb1) as (b1 & f1 & Hb1' & ->).
    destruct (writing_before _ _ _ _ Hw Hb2) as (b2 & f2 & Hb2' & ->). by eapply Hd.
Qed.

Lemma writing_target cf_id dir bs db0 db :
  writing db0 db -> batch_target cf_id dir bs db0 -> exists bf, batch_target cf_id dir (set_building bf bs) db.
Proof.
  intros Hw [Hinv Hbs Hdir Hbc Hman]. destruct (writing_after _ _ _ _ Hw Hbs) as [bf Hbf]. exists bf.
  split; [by eapply writing_inv|done|done|done|by rewrite (wr_manifest _ _ Hw)].
Qed.

(** A new object. *)
Lemma add_meta_writing m db :
  let '(l, db') := add_meta m db in
  writing db db' /\ sh_heap (sys_shared (t_sys db)) !! l = None /\
  sh_heap (sys_shared (t_sys db')) !! l = Some m /\
  set_next_file_number (sys_set (t_sys db')) = set_next_file_number (sys_set (t_sys db)).
Proof.
  unfold add_meta. set (h := sh_heap (sys_shared (t_sys db))).
  pose proof (make_shared_fresh m h) as Hfresh. pose proof (make_shared_subseteq m h) as Hsub.
  assert (Hm : (make_shared m h).2 !! (make_shared m h).1 = Some m) by apply lookup_insert_eq.
  destruct (make_shared m h) as [l h']. cbn [fst snd] in *. split; [|done].
  split; try done. apply same_storages_refl.
Qed.

(** The statistic. *)
Lemma live_size_writing cf_id size db :
  let sh := sys_shared (t_sys db) in
  writing db (with_sh (set_stats (AddStats (sh_stats sh) cf_id LIVE_BLOB_SIZE size) sh) db).
Proof.
  split; try done; [apply same_storages_refl|]. intros cf t Ht. cbn. rewrite stat_AddStats_ne; [done|].
  intros ->. unfold counted in Ht. by repeat (apply elem_of_cons in Ht as [[=]|Ht]); apply not_elem_of_nil in Ht.
Qed.
End writing.

(** ** The file being written and the complete ones *)

Section outputs.
Context `{Coding} `{Compressors} `{E : Env} `{BC : Cache bytes} `{FC : !Cache BlobFileReader}
        `{UnorderedIter} `{!ManifestIO} `{!WritableFiles} `{!WritableFilesOk}.

Record Out := MkOut {
  out_handle : option FileHandle;
  out_builder : option BlobFileBuilder;
  out_files : list finished
}.

Definition next_of (db : TitanDBImpl) : Z := set_next_file_number (sys_set (t_sys db)).
Definition heap_of (db : TitanDBImpl) : heap := sh_heap (sys_shared (t_sys db)).

Definition out_numbers (o : Out) : list Z :=
  ((fun f => GetNumber f.2.1) <$> out_files o) ++ (GetNumber <$> option_list (out_handle o)).

(** Options of the builders, the database they started on, and what the metadata
    of a complete file is like besides its number and size. *)
Context (bytes0 : Z) (cf : TitanCFOptions) (db0 : TitanDBImpl) (meta_ok : BlobFileMeta -> Prop).

(** Numbers below [n] have been used. *)
Record out_inv (n : Z) (o : Out) (db : TitanDBImpl) : Prop := {
  oi_writing : writing db0 db;
  oi_next : next_of db0 <= next_of db <= n;
  oi_nodup : NoDup (out_numbers o);
  oi_range : Forall (fun k => next_of db0 <= k < next_of db) (out_numbers o);
  oi_current : match out_handle o, out_builder o with
               | None, None => True
               | Some handle, Some b =>
                   GetName handle = BlobFileName (dirname (t_options db0)) (GetNumber handle) /\
                   exists rs hs, building bytes0 cf rs hs b
               | _, _ => False
               end;
  oi_finished : forall f, f ∈ out_files o ->
    GetName f.2.1 = BlobFileName (dirname (t_options db0)) (GetNumber f.2.1) /\
    heap_of db0 !! f.1 = None /\
    (exists m, heap_of db !! f.1 = Some m /\ file_number m = GetNumber f.2.1 /\
       file_size m = w_GetFileSize f.2.2 /\ meta_ok m) /\
    exists rs hs b b', building bytes0 cf rs hs b /\ BlobFileBuilder_Finish b = (OK, b') /\ f.2.2 = bfb_file b'
}.

Lemma out_inv_start : out_inv (next_of db0) (MkOut None None []) db0.
Proof. split; [apply writing_refl|lia|constructor|constructor|done|]. by intros f ?%not_elem_of_nil. Qed.

Lemma out_inv_next n n' o db : out_inv n o db -> n <= n' -> out_inv n' o db.
Proof. intros [? [? ?]] Hle. split; try done. lia. Qed.

(** The database may change as far as writing changes it. *)
Lemma out_inv_grow n n' o db db' :
  out_inv n o db -> writing db db' -> next_of db <= next_of db' <= n' -> out_inv n' o db'.
Proof.
  intros [Hw Hn Hnd Hr Hc Hfin] Hw' Hn'. split; try done; [by eapply writing_trans|lia| |].
  - eapply Forall_impl; [exact Hr|]. cbn. lia.
  - intros f Hin. destruct (Hfin f Hin) as (Hname & Hnew & (m & Hm & Ho) & Hb). split_and!; try done.
    exists m. split; [|done]. eapply lookup_weaken; [exact Hm|apply (wr_heap _ _ Hw')].
Qed.

Lemma out_inv_db n o db db' :
  out_inv n o db -> writing db db' -> next_of db' = next_of db -> out_inv n o db'.
Proof.
  intros Hinv Hw Hn. eapply out_inv_grow; [done..|]. pose proof (oi_next _ _ _ Hinv). lia.
Qed.

(** Opening a file. *)
Lemma out_new n fs db handle file db' :
  out_inv n (MkOut None None fs) db -> 0 <= next_of db0 -> n + 1 < two64 ->
  NewFile db = (Ok (handle, file), db') ->
  out_inv (n + 1) (MkOut (Some handle) (Some (BlobFileBuilder_new cf file bytes0)) fs) db'.
Proof.
  intros [Hw Hnx Hnd Hr _ Hfin] Hpos Hn Hrun. unfold NewFile in Hrun. cbn [NewFileNumber] in Hrun.
  destruct (env_NewWritableFile _ _) as [[f|s|] w] eqn:Hf; [|done..]. injection Hrun as <- <- <-.
  unfold out_numbers in Hnd, Hr. cbn in Hnd, Hr. rewrite app_nil_r in Hnd, Hr.
  assert (Hnext : next_of db +u64 1 = next_of db + 1) by (apply wrap64_small; unfold is_u64; lia).
  split; unfold out_numbers; cbn [out_handle out_builder out_files option_list].
  - by destruct Hw.
  - unfold next_of in *. cbn. lia.
  - cbn. apply NoDup_app. split_and!; [done| |apply NoDup_singleton].
    intros k Hk ->%list_elem_of_singleton. rewrite Forall_forall in Hr. specialize (Hr _ Hk).
    unfold next_of in Hr. lia.
  - apply Forall_app. split.
    + eapply Forall_impl; [exact Hr|]. unfold next_of in *. cbn. lia.
    + constructor; [|constructor]. unfold next_of in *. cbn. lia.
  - cbn. split; [by rewrite (wr_options _ _ Hw)|]. exists [], [], f. split; [by eapply new_writable_empty|done].
  - exact Hfin.
Qed.

(** Writing a record. *)
Lemma out_append n handle b fs db r h b' :
  out_inv n (MkOut (Some handle) (Some b) fs) db -> BlobFileBuilder_Add r BlobHandle_default b = (h, b') ->
  out_inv n (MkOut (Some handle) (Some b') fs) db.
Proof.
  intros [Hw Hn Hnd Hr (Hname & rs & hs & file & Hfile & Hall) Hfin] Hadd. split; try done. split; [done|].
  exists (rs ++ [r]), (hs ++ [h]), file. split; [done|]. rewrite AddAll_snoc, Hall. by rewrite Hadd.
Qed.

(** Completing the file. *)
Lemma out_complete n handle b b' fs db m :
  out_inv n (MkOut (Some handle) (Some b) fs) db -> BlobFileBuilder_Finish b = (OK, b') ->
  file_number m = GetNumber handle -> file_size m = w_GetFileSize (bfb_file b') -> meta_ok m ->
  let '(l, db') := add_meta m db in
  out_inv n (MkOut None None (fs ++ [(l, (handle, bfb_file b'))])) db'.
Proof.
  intros Hinv Hfin Hmn Hms Hok. pose proof (add_meta_writing m db) as Hmeta.
  destruct (add_meta m db) as [l db']. destruct Hmeta as (Hw & Hnew & Hm & Hn).
  destruct (out_inv_db _ _ _ _ Hinv Hw Hn) as [Hw' Hn' Hnd Hr (Hname & rs & hs & Hb) Hf].
  split; try done.
  - unfold out_numbers in *. cbn [out_files out_handle option_list] in *. rewrite fmap_app. cbn in *.
    by rewrite app_nil_r.
  - unfold out_numbers in *. cbn [out_files out_handle option_list] in *. rewrite fmap_app. cbn in *.
    by rewrite app_nil_r.
  - intros f Hin. cbn [out_files] in Hin. apply elem_of_app in Hin as [Hin| ->%list_elem_of_singleton]; [by apply Hf|].
    cbn [fst snd]. split_and!; [done| |by exists m|by exists rs, hs, b, b'].
    destruct (heap_of db0 !! l) as [m0|] eqn:Hl; [|done].
    by rewrite (lookup_weaken _ _ _ _ Hl (wr_heap _ _ (oi_writing _ _ _ Hinv))) in Hnew.
Qed.

(** The complete files make a batch. *)
Lemma out_batch n cf_id bs o db :
  out_inv n o db -> db_inv db0 -> column_families (sys_set (t_sys db0)) !! cf_id = Some bs ->
  manifest (sys_set (t_sys db0)) <> None ->
  (forall m, meta_ok m -> is_obsolete m = false /\ 0 <= level_index bs m <= bs_num_levels bs) ->
  batch_fresh cf_id (out_files o) db /\
  batch_complete bytes0 (dirname (t_options db0)) cf (out_files o) db.
Proof.
  intros Hout Hinv Hbs Hman Hlev. pose proof (oi_writing _ _ _ Hout) as Hw.
  destruct (add_files_edit_added cf_id (out_files o)) as (Ha & _ & Hc). split.
  - split; [|by rewrite (wr_manifest _ _ Hw)]. intros l Hl. rewrite Ha in Hl.
    apply list_elem_of_fmap in Hl as (f & -> & Hf).
    destruct (oi_finished _ _ _ Hout f Hf) as (_ & Hnew & (m & Hm & _ & _ & Hok) & _).
    destruct (Hlev m Hok) as [Hlive Hidx]. exists m. split_and!; [done|done| |].
    + intros id b k Hb Hk. destruct (writing_before _ _ _ _ Hw Hb) as (b0 & bf & Hb0 & ->).
      destruct (inv_files _ _ _ (set_storage _ _ Hinv id b0 Hb0) k _ Hk) as (m0 & Hm0 & _).
      unfold heap_of in Hnew. congruence.
    + rewrite Hc. intros b Hb. destruct (writing_before _ _ _ _ Hw Hb) as (b0 & bf & Hb0 & ->).
      rewrite Hbs in Hb0. by injection Hb0 as <-.
  - intros f Hf. destruct (oi_finished _ _ _ Hout f Hf) as (Hname & _ & (m & Hm & Hn & Hs & _) & (rs & hs & Hb)).
    exists rs, hs, m. by split.
Qed.

(** A complete file has the record at the index. *)
Definition holds_record (fs : list finished) (i : BlobIndex) (r : BlobRecord) : Prop :=
  exists f rs hs j b b', f ∈ fs /\ GetNumber f.2.1 = index_file_number i /\ building bytes0 cf rs hs b /\
    rs !! j = Some r /\ hs !! j = Some (blob_handle i) /\ BlobFileBuilder_Finish b = (OK, b') /\ f.2.2 = bfb_file b'.

(** The same, or the file being written has it. *)
Definition out_holds (o : Out) (i : BlobIndex) (r : BlobRecord) : Prop :=
  holds_record (out_files o) i r \/
  exists handle b rs hs j, out_handle o = Some handle /\ out_builder o = Some b /\
    GetNumber handle = index_file_number i /\ building bytes0 cf rs hs b /\
    rs !! j = Some r /\ hs !! j = Some (blob_handle i).

Lemma out_holds_append handle b fs i r r' h b' :
  out_holds (MkOut (Some handle) (Some b) fs) i r -> BlobFileBuilder_Add r' BlobHandle_default b = (h, b') ->
  out_holds (MkOut (Some handle) (Some b') fs) i r.
Proof.
  intros [Hin|(handle' & b0 & rs & hs & j & [= <-] & [= <-] & Hn & (file & Hf & Hall) & Hr & Hh)] Hadd; [by left|right].
  exists handle, b', (rs ++ [r']), (hs ++ [h]), j. split_and!; [done|done|done| |by apply lookup_app_l_Some..].
  exists file. split; [done|]. rewrite AddAll_snoc, Hall. by rewrite Hadd.
Qed.

Lemma out_holds_new handle b fs r h b' rs hs :
  building bytes0 cf rs hs b -> BlobFileBuilder_Add r BlobHandle_default b = (h, b') ->
  out_holds (MkOut (Some handle) (Some b') fs) (MkBlobIndex (GetNumber handle) h) r.
Proof.
  intros (file & Hf & Hall) Hadd. right. pose proof (AddAll_length rs (BlobFileBuilder_new cf file bytes0)) as Hl.
  rewrite Hall in Hl. cbn [fst] in Hl. exists handle, b', (rs ++ [r]), (hs ++ [h]), (length rs). split_and!; [done..| | |].
  - exists file. split; [done|]. rewrite AddAll_snoc, Hall. by rewrite Hadd.
  - by rewrite lookup_app_r, Nat.sub_diag by lia.
  - by rewrite lookup_app_r, Hl, Nat.sub_diag by lia.
Qed.

Lemma out_holds_complete handle b b' fs l i r :
  out_holds (MkOut (Some handle) (Some b) fs) i r -> BlobFileBuilder_Finish b = (OK, b') ->
  out_holds (MkOut None None (fs ++ [(l, (handle, bfb_file b'))])) i r.
Proof.
  intros Hh Hfin. left. cbn [out_files].
  destruct Hh as [(f & rs & hs & j & b0 & b1 & Hf & Hrest)|(handle' & b0 & rs & hs & j & [= <-] & [= <-] & Hn & Hb & Hr & Hh)].
  - exists f, rs, hs, j, b0, b1. split; [by apply elem_of_app; left|done].
  - exists (l, (handle, bfb_file b')), rs, hs, j, b, b'. split; [by apply elem_of_app; right; left|done].
Qed.

Lemma out_holds_idle fs i r : out_holds (MkOut None None fs) i r -> holds_record fs i r.
Proof. by intros [Hh|(? & ? & ? & ? & ? & [=] & _)]. Qed.
End outputs.

Section outputs_read.
Context `{Coding} `{!CodingOk _} `{Compressors} `{!CompressorsOk _} `{E : Env} `{!EnvOk E}
        `{BC : Cache bytes} `{FC : !Cache BlobFileReader}
        `{UnorderedIter} `{!ManifestIO} `{!WritableFiles} `{!WritableFilesOk} `{!StoredFilesOk}.
Context (listeners : Status -> Status) (bytes0 : Z).

(** A database that is in order: the directory and the options are those of the
    storage, the numbers do not run out, no reader of a future file is cached. *)
Record write_setup (cf_id count : Z) (cf : TitanCFOptions) (bs : BlobStorage) (db : TitanDBImpl) : Prop := {
  ws_target : batch_target cf_id (dirname (t_options db)) bs db;
  ws_numbers : 0 <= next_of db /\ next_of db + count < two64;
  ws_compression : 0 <= blob_file_compression cf < 256;
  ws_readers : forall n rd, next_of db <= n ->
    ~ cache_has (file_cache (sh_caches (sys_shared (t_sys db)))) (EncodeFileNumber n) rd
}.

(** A record in a complete file can be read once the files are added. *)
Lemma out_read cf_id count cf bs db0 (meta_ok : BlobFileMeta -> Prop) n o db db' i r :
  write_setup cf_id count cf bs db0 -> out_inv bytes0 cf db0 meta_ok n o db -> n < two64 ->
  (forall m, meta_ok m -> is_obsolete m = false /\ 0 <= level_index bs m <= bs_num_levels bs /\
     only_value r = level_merge (bs_cf_options bs) && (file_type m =? kSorted)) ->
  BatchFinishFiles listeners cf_id (out_files o) db = Ok (OK, db') ->
  Forall (fun f => w_GetFileSize f.2.2 < two64) (out_files o) ->
  holds_record bytes0 cf (out_files o) i r -> record_wf r ->
  exists t rs bs' m, index_held cf_id i r t rs bs' m db'.
Proof.
  intros [Htgt [Hpos _] Hcomp Hrd] Hout Hn64 Hmeta Hrun Hsize Hst Hwf.
  destruct Hst as (f & rs & hs & j & b & b' & Hf & Hnum & Hb & Hr & Hh & Hfin & Hfile).
  pose proof (oi_writing _ _ _ _ _ _ _ Hout) as Hw.
  destruct (oi_finished _ _ _ _ _ _ _ Hout f Hf) as (Hname & _ & (m & Hm & Hmn & Hms & Hmok) & _).
  destruct (Hmeta m Hmok) as (_ & _ & Hov).
  assert (Hrange : next_of db0 <= file_number m < next_of db).
  { rewrite Hmn. pose proof (oi_range _ _ _ _ _ _ _ Hout) as Hall. rewrite Forall_forall in Hall. apply Hall.
    apply elem_of_app. left. apply list_elem_of_fmap. by exists f. }
  pose proof (oi_next _ _ _ _ _ _ _ Hout) as [_ Hnext].
  destruct (out_batch _ _ _ _ n cf_id bs o db Hout (bt_inv _ _ _ _ Htgt) (bt_storage _ _ _ _ Htgt)) as [Hfresh Hcomplete].
  { by destruct (bt_manifest _ _ _ _ Htgt) as (log & -> & _). }
  { intros m' Hm'. by destruct (Hmeta m' Hm') as (? & ? & _). }
  destruct (writing_target _ _ _ _ _ Hw Htgt) as [bf Htgt'].
  destruct (BatchFinish_held listeners bytes0 cf_id (dirname (t_options db0)) cf (set_building bf bs) (out_files o)
    db db' f rs hs m j r (blob_handle i) Htgt' Hfresh Hcomplete Hrun Hf) as (bs' & Hidx & _); try done.
  - split; [done..|]. by exists b, b'.
  - rewrite Hms. rewrite Forall_forall in Hsize. by apply Hsize.
  - unfold is_u64. lia.
  - rewrite (wr_caches _ _ Hw). intros rd. apply Hrd. lia.
  - exists (blob_file_compression cf), rs, bs', m.
    assert (Hi : i = MkBlobIndex (file_number m) (blob_handle i)).
    { destruct i. cbn in *. by rewrite Hmn, Hnum. }
    by rewrite Hi.
Qed.

Lemma BatchFinishFiles_total cf_id files db :
  manifest (sys_set (t_sys db)) <> None ->
  exists s db', BatchFinishFiles listeners cf_id files db = Ok (s, db').
Proof.
  intros Hman. unfold BatchFinishFiles. destruct (close_files files _) as [s w].
  destruct (negb (status_ok s)); [by eexists _, _|].
  assert (Hla : exists s sys', LogAndApply (add_files_edit cf_id files)
            (MkSys (sys_set (t_sys db)) (sys_shared (t_sys db)) w) = Ok (s, sys')).
  { unfold LogAndApply. cbn [sys_set sys_shared sys_fs]. destruct (AddEdit _ _ _) as [s1 c1].
    destruct (negb (status_ok s1)); [by eexists _, _|]. destruct (EditCollector_Seal _ _ _) as [s2 c2].
    destruct (negb (status_ok s2)); [by eexists _, _|]. destruct (manifest _); [|done].
    destruct (log_AddRecord _ _ _) as [s3 w3]. destruct (negb (status_ok s3)); [by eexists _, _|].
    destruct (SyncTitanManifest _ _) as [s4 w4]. destruct (negb (status_ok s4)); [by eexists _, _|].
    destruct (EditCollector_Apply _ _) as [[s5 c5] [cfs sh]]. by eexists _, _. }
  destruct Hla as (s1 & sys1 & ->). by eexists _, _.
Qed.
End outputs_read.

(** ** A database to write to *)

(** The names of blob files in memory are numbers. *)
Lemma pretty_ne_manifest (n : Z) s : pretty n <> ("M" +:+ s).
Proof. by apply mem_pretty_letter. Qed.

Section example.
#[local] Existing Instances leb128_coding leb128_coding_ok rle_compressors rle_compressors_ok mem_env mem_env_ok
  map_to_list_iter mem_manifest blobs_map readers_map mem_files.

Lemma example_write_setup count :
  (15 + count <? two64) = true -> write_setup 5 count example_merge_options example_tb_storage (example_db 5).
Proof.
  intros Hcount%Z.ltb_lt. split.
  - split.
    + exact (example_db_inv 5 example_opens_5).
    + vm_compute. reflexivity.
    + vm_compute. reflexivity.
    + vm_compute. reflexivity.
    + exists "/MANIFEST-000001"%string. split; [vm_compute; reflexivity|]. intros n.
      change (BlobFileName (dirname (t_options (example_db 5))) n) with ("/" +:+ pretty n)%string.
      intros Heq. injection Heq as Heq. symmetry in Heq. by apply pretty_ne_manifest in Heq.
  - assert (Hnext : next_of (example_db 5) = 15) by (vm_compute; reflexivity). rewrite Hnext. lia.
  - vm_compute. intuition congruence.
  - intros n rd _ Hrd. vm_compute in Hrd. discriminate.
Qed.
End example.
