(* ===== verification/FlushGet.v ===== *)
(** * From a flush to a read

    The blob files a table builder writes are added to the blob file set when the
    table is finished, and every flushed value can then be read through the index
    in the table. *)

From S2P Require Import Prelude Rocks Options Stats Util BlobFormat Env BaseDb BlobFileBuilder BlobFileReader VersionEdit BlobStorage StorageInv EditCollector BlobFileSet ApplyInv ManifestReplay BlobGC Scheduler DbEvents DbEventsInv CompactionInv FileManager StoredFiles ForegroundBuilder GCJob GCJobInv GCFinish TableBuilder TableBuilderInv TitanDb DbIter TitanDbInv FinishedFiles OutputFiles.

(** ** The files of a table builder *)

Section outputs.
Context `{Coding} `{Compressors} `{E : Env} `{BC : Cache bytes} `{FC : !Cache BlobFileReader}
        `{UnorderedIter} `{!ManifestIO} `{!WritableFiles} `{!WritableFilesOk} `{T : Tables} `{!TablesOk T}.
Context (bytes0 : Z) (cf : TitanCFOptions) (levels : bool * Z * Z) (db0 : TitanDBImpl).

Definition tb_out (tb : TitanTableBuilder) : Out := MkOut (tb_handle tb) (tb_builder tb) (tb_finished tb).

(** The metadata a builder makes for a complete file. *)
Definition tb_meta_ok (target : Z) (m : BlobFileMeta) : Prop :=
  file_type m = kSorted /\ file_level m = wrap32 target /\ is_obsolete m = false.

(** A builder with these options that started on [db0]. *)
Record tb_writes (n : Z) (tb : TitanTableBuilder) (db : TitanDBImpl) : Prop := {
  tw_out : out_inv bytes0 cf db0 (tb_meta_ok levels.1.2) n (tb_out tb) db;
  tw_options : tb_cf_options tb = cf;
  tw_levels : (merge_low_level tb, target_level tb, merge_level tb) = levels
}.

Lemma tw_files n tb db : tb_writes n tb db -> files_ok bytes0 tb.
Proof.
  intros [Hout Hcf _]. pose proof (oi_current _ _ _ _ _ _ _ Hout) as Hc. unfold files_ok. rewrite Hcf.
  unfold tb_out in Hc. cbn in Hc. destruct (tb_handle tb), (tb_builder tb); naive_solver.
Qed.

Lemma tb_writes_base n tb db t : tb_writes n tb db -> tb_writes n (tb_set_base t tb) db.
Proof. by intros []. Qed.

Lemma FinishBlobFile_writes n tb db tb' db' :
  tb_writes n tb db -> status_ok (tb_status_ tb) = true ->
  FinishBlobFile tb db = Ok (tb', db') -> tb_ok tb' = true -> tb_writes n tb' db'.
Proof.
  intros Hinv Hst Hrun Hok. pose proof Hinv as [Hout Hcf Hl]. unfold FinishBlobFile, tb_out in *.
  destruct (tb_builder tb) as [b|]; [|by injection Hrun as <- <-].
  destruct (BlobFileBuilder_Finish b) as [s b'] eqn:Hfin.
  pose proof (Finish_status b) as Hs. rewrite Hfin in Hs. cbn [fst snd] in Hs. cbn [tb_handle tb_set_out] in Hrun.
  destruct (tb_handle tb) as [handle|]; [|done].
  destruct (tb_ok (tb_set_out (Some handle) (Some b') (tb_finished tb) tb)) eqn:Hok1.
  2: { destruct (DeleteFile handle db). injection Hrun as <- <-. exfalso.
       apply tb_ok_true in Hok as (_ & Hbase & Hbo).
       rewrite (proj2 (tb_ok_true (tb_set_out (Some handle) (Some b') (tb_finished tb) tb))) in Hok1; [done|].
       by split_and!. }
  apply tb_ok_true in Hok1 as (_ & _ & Hbo). specialize (Hbo b' eq_refl). rewrite Hs in Hbo.
  apply status_ok_true in Hbo as ->.
  match type of Hrun with context [add_meta ?m db] =>
    pose proof (out_complete _ _ _ _ n handle b b' _ db m Hout Hfin eq_refl eq_refl) as Hdone;
    destruct (add_meta m db) as [l db1] end.
  injection Hrun as <- <-. split; [|done|done]. apply Hdone. rewrite <- Hl. by split_and!.
Qed.

Lemma open_blob_writes n tb db tb' db' :
  tb_writes n tb db -> 0 <= next_of db0 -> n + 1 < two64 -> open_blob bytes0 tb db = Ok (tb', db') ->
  status_ok (tb_status_ tb') = true -> tb_writes (n + 1) tb' db'.
Proof.
  intros [Hout Hcf Hl] Hpos Hn Hrun Hok. unfold open_blob, tb_out in *.
  destruct (tb_builder tb) as [b|] eqn:Hb.
  { injection Hrun as <- <-. split; [|done..]. unfold tb_out. rewrite Hb. eapply out_inv_next; [done|lia]. }
  destruct (tb_handle tb) as [handle|]; [by destruct (oi_current _ _ _ _ _ _ _ Hout)|].
  destruct (NewFile db) as [[[handle file]|s|] db1] eqn:Hnew; [|injection Hrun as <- <-|done].
  - injection Hrun as <- <-. split; [|done..]. unfold tb_out. cbn [tb_handle tb_builder tb_finished tb_set_out].
    rewrite Hcf. by eapply out_new.
  - unfold NewFile in Hnew. cbn [NewFileNumber] in Hnew.
    destruct (env_NewWritableFile _ _) as [[file|s1|] w] eqn:Hf; [done| |done]. injection Hnew as -> <-.
    cbn in Hok. by rewrite (new_writable_error _ _ _ _ Hf) in Hok.
Qed.

(** One value. *)
Lemma AddBlob_writes n key value tb db iv tb' db' :
  tb_writes n tb db -> 0 <= next_of db0 -> n + 1 < two64 -> tb_ok tb = true ->
  AddBlob bytes0 key value tb db = Ok (iv, tb', db') -> tb_ok tb' = true -> tb_writes (n + 1) tb' db'.
Proof.
  intros Hinv Hpos Hn Hok Hrun Hok'. unfold AddBlob in Hrun. rewrite Hok in Hrun. cbn [negb] in Hrun.
  destruct (open_blob bytes0 tb db) as [[tb1 db1]| |] eqn:Hopen; cbn [result_bind] in Hrun; [|done..].
  destruct (status_ok (tb_status_ tb1)) eqn:Hs1; cbn [negb] in Hrun.
  2: { injection Hrun as _ <- <-. apply tb_ok_true in Hok' as (Hbad & _). congruence. }
  destruct (open_blob_writes n tb db tb1 db1 Hinv Hpos Hn Hopen Hs1) as [Hout1 Hcf1 Hl1]. unfold tb_out in Hout1.
  destruct (tb_handle tb1) as [handle|] eqn:Hh; [|done]. destruct (tb_builder tb1) as [b|] eqn:Hb; [|done].
  destruct (BlobFileBuilder_Add _ _ b) as [h b'] eqn:Hadd.
  match type of Hrun with context [tb_ok ?t] => set (tb2 := t) in * end.
  match type of Hrun with context [FinishBlobFile tb2 ?d] => set (db2 := d) in * end.
  assert (Hinv2 : tb_writes (n + 1) tb2 db2).
  { split; [|done..]. eapply out_append; [|exact Hadd]. eapply out_inv_db; [exact Hout1|apply live_size_writing|done]. }
  destruct (tb_ok tb2) eqn:Hok2; [|by injection Hrun as _ <- <-].
  destruct (_ <=? _); cbn [result_bind] in Hrun; [|by injection Hrun as _ <- <-].
  destruct (FinishBlobFile tb2 db2) as [[tb3 db3]| |] eqn:Hfin; cbn [result_bind] in Hrun; [|done..].
  injection Hrun as _ <- <-. eapply FinishBlobFile_writes; [done| |done..].
  by apply tb_ok_true in Hok2 as (? & _).
Qed.

(** The entries of a flush. *)
Lemma Add_writes n k v tb db tb' db' :
  reads_blobs cf levels = false -> (tb_ok tb = true -> tb_writes n tb db) ->
  0 <= next_of db0 -> n + 1 < two64 ->
  TitanTableBuilder_Add bytes0 k v tb db = Ok (tb', db') -> tb_ok tb' = true -> tb_writes (n + 1) tb' db'.
Proof.
  intros Hno Hinv Hpos Hn. unfold TitanTableBuilder_Add. destruct (tb_ok tb) eqn:Hok; cbn [negb].
  2: { intros [= <- <-]. congruence. }
  specialize (Hinv eq_refl). pose proof Hinv as [Hout Hcf Hl].
  destruct (ParseInternalKey k) as [ik|]; [|intros [= <- <-] (Hs & _)%tb_ok_true; done].
  rewrite Hcf. destruct (falls_back cf ik) eqn:Hfb.
  { apply andb_true_iff in Hfb as [_ Hm%bool_decide_eq_true]. unfold reads_blobs in Hno. by rewrite Hm in Hno. }
  destruct (separates cf ik v) eqn:Hsep.
  - unfold add_separated. destruct (AddBlob bytes0 _ v tb db) as [[[iv tb1] db1]| |] eqn:Hadd; cbn [result_bind]; [|done..].
    destruct (tb_ok tb1) eqn:Hok1; [|intros [= <- <-]; congruence]. intros [= <- <-] _.
    apply tb_writes_base. by eapply AddBlob_writes.
  - unfold merges. rewrite Hcf. destruct (_ && bool_decide (blob_run_mode cf = kNormal)) eqn:Hm.
    + exfalso. apply andb_true_iff in Hm as [Hm Hmode%bool_decide_eq_true]. apply andb_true_iff in Hm as [Hm Hlev].
      apply andb_true_iff in Hm as [_ Hlm]. unfold reads_blobs in Hno. rewrite Hmode, <- Hl in Hno. cbn [fst snd] in Hno.
      by rewrite Hlm, Hlev in Hno.
    + intros [= <- <-] _. apply tb_writes_base. split; [|done..]. eapply out_inv_next; [done|lia].
Qed.

Lemma add_entries_writes kvs n tb db tb' db' :
  reads_blobs cf levels = false -> (tb_ok tb = true -> tb_writes n tb db) ->
  0 <= next_of db0 -> n + Z.of_nat (length kvs) < two64 ->
  add_entries bytes0 kvs tb db = Ok (tb', db') -> tb_ok tb' = true ->
  tb_writes (n + Z.of_nat (length kvs)) tb' db'.
Proof.
  intros Hno. revert n tb db. induction kvs as [|[k v] kvs IH]; intros n tb db Hinv Hpos Hn; cbn [add_entries].
  - intros [= <- <-] Hok. rewrite Z.add_0_r. by apply Hinv.
  - destruct (TitanTableBuilder_Add bytes0 k v tb db) as [[tb1 db1]| |] eqn:Hadd; cbn [result_bind]; [|done..].
    intros Hrun Hok. cbn [length] in *. rewrite Nat2Z.inj_succ in *. unfold Z.succ in *.
    rewrite (Z.add_comm _ 1), Z.add_assoc. eapply IH; [|done|lia|done..].
    intros Hok1. eapply Add_writes; [done|exact Hinv|done|lia|done..].
Qed.

(** [Finish] returns OK only when the last file could be completed. *)
Lemma complete_status tb db tb' db' s :
  status_ok (tb_status_ tb) = true -> complete tb db = Ok (tb', db') ->
  tb_status (tb_set_status s tb') = OK -> s = OK /\ tb_ok tb' = true.
Proof.
  intros Hst Hrun Hs. unfold complete in Hrun. set (tb0 := tb_set_base _ tb) in Hrun.
  assert (Hok : tb_ok (tb_set_status s tb') = true) by (unfold tb_ok; by rewrite Hs).
  apply tb_ok_true in Hok as (Hso & Hbase & Hb). cbn [tb_status_ tb_base tb_builder tb_set_status] in Hso, Hbase, Hb.
  split; [by apply status_ok_true|]. apply tb_ok_true. split; [|done]. unfold FinishBlobFile in Hrun.
  destruct (tb_builder tb0) as [b|] eqn:Hb0; [|by injection Hrun as <- <-].
  destruct (BlobFileBuilder_Finish b) as [s1 b']. cbn [tb_handle tb_set_out] in Hrun.
  destruct (tb_handle tb0) as [handle|]; [|done].
  destruct (tb_ok (tb_set_out (Some handle) (Some b') (tb_finished tb0) tb0)) eqn:Hok1.
  - destruct (add_meta _ db). by injection Hrun as <- <-.
  - destruct (DeleteFile handle db) as [s2 db2]. injection Hrun as <- <-.
    rewrite (proj2 (tb_ok_true (tb_set_out (Some handle) (Some b') (tb_finished tb0) tb0))) in Hok1; [done|].
    by split_and!.
Qed.

Lemma FinishBlobFile_manifest tb db tb' db' :
  FinishBlobFile tb db = Ok (tb', db') -> manifest (sys_set (t_sys db')) = manifest (sys_set (t_sys db)).
Proof.
  unfold FinishBlobFile. destruct (tb_builder tb) as [b|]; [|by intros [= <- <-]].
  destruct (BlobFileBuilder_Finish b) as [s b']. cbn [tb_handle tb_set_out]. destruct (tb_handle tb) as [handle|]; [|done].
  destruct (tb_ok _).
  - unfold add_meta. destruct (make_shared _ _). by intros [= <- <-].
  - unfold DeleteFile, BatchDeleteFiles. cbn [foldl]. destruct (env_DeleteFile _ _). by intros [= <- <-].
Qed.
End outputs.

(** ** A flush *)

Section flush.
Context `{Coding} `{!CodingOk _} `{Compressors} `{!CompressorsOk _} `{E : Env} `{!EnvOk E}
        `{BC : Cache bytes} `{!CacheOk BC} `{FC : !Cache BlobFileReader} `{!CacheOk FC}
        `{UnorderedIter} `{!ManifestIO} `{!WritableFiles} `{!WritableFilesOk} `{!StoredFilesOk}
        `{T : Tables} `{!TablesOk T} `{B : BaseDB}.
Context (listeners : Status -> Status) (bytes0 : Z).

(** A builder for column family [cf_id] on a database that is in order; the level
    exists and the records stay within their bounds. *)
Record flush_setup (cf_id target : Z) (cf : TitanCFOptions) (bs : BlobStorage) (kvs : list (bytes * bytes))
    (db : TitanDBImpl) : Prop := {
  fl_setup : write_setup cf_id (Z.of_nat (length kvs)) cf bs db;
  fl_options : level_merge (bs_cf_options bs) = level_merge cf;
  fl_level : 0 <= target <= bs_num_levels bs /\ target < two32;
  fl_records : forall k v ik, (k, v) ∈ kvs -> ParseInternalKey k = Some ik ->
    record_wf (MkBlobRecord (user_key ik) v (level_merge cf))
}.

(** The entry of a flushed value, and what a read of it gives. *)
Lemma entry_read n cf_id levels cf bs kvs db0 tb db db' k v ik k' v' :
  flush_setup cf_id levels.1.2 cf bs kvs db0 -> tb_writes bytes0 cf levels db0 n tb db -> n < two64 ->
  BatchFinishFiles listeners cf_id (tb_finished tb) db = Ok (OK, db') ->
  Forall (fun f => w_GetFileSize f.2.2 < two64) (tb_finished tb) ->
  (k, v) ∈ kvs -> ParseInternalKey k = Some ik -> key_type ik = kTypeValue ->
  entry_of cf bs (stored_in bytes0 cf (tb_finished tb)) (k, v) (k', v') ->
  exists blob : bool, k' = (if blob then AppendInternalKey (set_key_type kTypeBlobIndex ik) else k) /\
    forall d, base_GetImpl d cf_id (user_key ik) = Ok (v', blob) ->
      exists db2, TitanDBImpl_GetImpl cf_id (user_key ik) d (tb_UpdateInternalOpStats tb db') = (Ok v, db2).
Proof.
  intros [Hset Hopt [Hlev H32] Hrec] [Hout Hcf _] Hn Hrun Hsize Hin Hk Hty Hent.
  inversion Hent as [k0 v0 ik0 Hk0 Hsep|k0 v0 ik0 i Hk0 Hsep Hst|k0 v0 ik0 i rest i' value Hk0 Hbad
    |k0 v0 ik0 i rest value Hk0 Hbad]; subst; rewrite Hk in Hk0; injection Hk0 as <-;
    [| |by rewrite Hty in Hbad..].
  - exists false. split; [done|]. intros d Hg. unfold TitanDBImpl_GetImpl. rewrite Hg. by eexists.
  - exists true. split; [done|]. intros d Hg.
    destruct (out_read listeners bytes0 cf_id _ (tb_cf_options tb) bs db0 _ n (tb_out tb) db db' i
      (MkBlobRecord (user_key ik) v (level_merge (tb_cf_options tb))) Hset Hout Hn) as (t & rs & bs' & m & Hheld);
      [|done|done| |by apply (Hrec k)|].
    + intros m (Ht & Hl & Ho). unfold level_index. cbn [only_value]. rewrite Ht, Hl, Hopt, andb_true_r. cbn.
      unfold wrap32. rewrite Z.mod_small by lia. split_and!; done || lia.
    + destruct Hst as (f & b & b' & Hf & Hnum & (rs & hs & j & Hb & Hr & Hh) & Hfin & Hfile).
      by exists f, rs, hs, j, b, b'.
    + destruct (held_index _ _ _ _ _ _ _ _ Hheld) as (m' & f & Hidx).
      assert (Hidx' : index_of cf_id i (MkBlobRecord (user_key ik) v (level_merge (tb_cf_options tb))) bs' m' t rs f
                (tb_UpdateInternalOpStats tb db')) by by destruct Hidx.
      destruct (GetImpl_index cf_id (user_key ik) d i _ bs' m' t rs f _ Hidx' Hg) as (db2 & Hget & _).
      exists db2. exact Hget.
Qed.

(** C2: What is flushed can be read. Take a table builder of a database that is in
    order that reads no blob files (hypothesis [reads_blobs]: the mode is not
    [kFallback], and values are not merged to the target level), for a column
    family without a blob cache. The calls of [Add] do not fault. When the builder
    is ok after them, [Finish] does not fault either; when it is not, nothing is
    said, and [Finish] can fault ([failed_blob_file_faults]). When [Finish] returns
    OK, the table has an entry for every value it was given, in order; and a [Get]
    of the key, after the base database has found that entry, returns the value:
    the inline value, or, when the value was separated, the record of the blob
    file that the flush has written, synced, closed, logged in the manifest and
    made live. *)
Theorem flush_then_get (cf_id merge target : Z) (cf : TitanCFOptions) (bs : BlobStorage) (t : table)
    (db : TitanDBImpl) (tb : TitanTableBuilder) (kvs : list (bytes * bytes)) :
  flush_setup cf_id target cf bs kvs db -> table_entries t = [] ->
  TitanTableBuilder_new cf_id cf t merge target db = Ok tb ->
  reads_blobs cf (ShouldGCLowLevel bs, target, merge) = false ->
  exists tb1 db1, add_entries bytes0 kvs tb db = Ok (tb1, db1) /\
  (tb_ok tb1 = true ->
   exists s tb2 db2, TitanTableBuilder_Finish listeners tb1 db1 = Ok (s, tb2, db2) /\
   (s = OK -> Forall (fun f : finished => w_GetFileSize f.2.2 < two64) (tb_finished tb2) ->
    forall i k v ik, kvs !! i = Some (k, v) -> ParseInternalKey k = Some ik -> key_type ik = kTypeValue ->
    exists v' (blob : bool),
      table_entries (tb_base tb2) !! i =
        Some (if blob then AppendInternalKey (set_key_type kTypeBlobIndex ik) else k, v') /\
      forall d, base_GetImpl d cf_id (user_key ik) = Ok (v', blob) ->
        exists db', TitanDBImpl_GetImpl cf_id (user_key ik) d db2 = (Ok v, db'))).
Proof.
  intros Hset Ht Hnew Hno. pose proof Hset as [[Htgt [Hpos Hnum] _ _] _ _ _].
  unfold TitanTableBuilder_new in Hnew. rewrite (bt_storage _ _ _ _ Htgt) in Hnew. injection Hnew as <-.
  match goal with |- context [add_entries _ kvs ?x _] => set (tb := x) end.
  set (levels := (ShouldGCLowLevel bs, target, merge)) in *.
  assert (Hinv : tb_inv bytes0 cf cf_id bs levels [] tb db).
  { split; try done; [exact (bt_storage _ _ _ _ Htgt)|]. cbn [tb tb_base]. by rewrite Ht. }
  assert (Hw : tb_writes bytes0 cf levels db (next_of db) tb db) by (split; [apply out_inv_start|done..]).
  destruct (add_entries_total bytes0 _ _ _ _ kvs [] tb db Hno (fun _ => Hinv)) as (tb1 & db1 & Hadd).
  exists tb1, db1. split; [done|]. intros Hok1.
  pose proof (add_entries_inv bytes0 _ _ _ _ _ _ _ _ _ _ (fun _ => Hinv) Hadd Hok1) as Hinv1.
  pose proof (add_entries_writes bytes0 cf levels db kvs _ tb db tb1 db1 Hno (fun _ => Hw) Hpos Hnum Hadd Hok1) as Hw1.
  pose proof Hok1 as (Hst1 & _)%tb_ok_true. pose proof (tb_writes_base _ _ _ _ _ _ _ (table_Finish (tb_base tb1)) Hw1) as Hw1'.
  destruct (FinishBlobFile_step bytes0 (tb_set_base (table_Finish (tb_base tb1)) tb1) db1) as (tb2 & db2 & Hfin & Hstep);
    [by eapply tw_files|done|].
  assert (Hman2 : manifest (sys_set (t_sys db2)) <> None).
  { rewrite (FinishBlobFile_manifest _ _ _ _ Hfin), (wr_manifest _ _ (oi_writing _ _ _ _ _ _ _ (tw_out _ _ _ _ _ _ _ Hw1))).
    by destruct (bt_manifest _ _ _ _ Htgt) as (log & -> & _). }
  destruct (BatchFinishFiles_total listeners (tb_cf_id tb2) (tb_finished tb2) db2 Hman2) as (s & db3 & Hbatch).
  exists (tb_status (tb_set_status s tb2)), (tb_set_status s tb2), (tb_UpdateInternalOpStats (tb_set_status s tb2) db3).
  split; [unfold TitanTableBuilder_Finish, complete; by rewrite Hfin; cbn [result_bind]; rewrite Hbatch|].
  intros Hs Hsize i k v ik Hi Hk Hty.
  destruct (complete_status tb1 db1 tb2 db2 s Hst1 Hfin Hs) as [-> Hok2].
  pose proof (FinishBlobFile_writes bytes0 cf levels db _ _ _ _ _ Hw1' Hst1 Hfin Hok2) as Hw2.
  destruct (Hstep Hok2) as ([Hcf2 Hid2 Hbase2 _ _ _ Hkeep] & _ & Hnone).
  pose proof Hok2 as (_ & Hb2 & _)%tb_ok_true. rewrite Hbase2 in Hb2. cbn [tb_base tb_set_base] in Hb2.
  apply status_ok_true, table_finish_ok in Hb2 as [_ Hents].
  cbn [tb_base tb_set_status]. rewrite Hbase2. cbn [tb_base tb_set_base]. rewrite Hents.
  destruct (Forall2_lookup_l _ _ _ _ _ (ti_entries _ _ _ _ _ _ _ _ Hinv1) Hi) as ([k' v'] & Hlook & Hent).
  exists v'. apply (entry_of_impl _ _ _ (stored_in bytes0 cf (tb_finished tb2))) in Hent.
  2: { intros ix key val Hsto. destruct (Hkeep ix key val Hsto) as [Hin|(? & ? & _ & Hsome & _)]; [|congruence].
       by rewrite (tw_options _ _ _ _ _ _ _ Hw2) in Hin. }
  assert (Hid : tb_cf_id tb2 = cf_id) by by rewrite Hid2; exact (ti_id _ _ _ _ _ _ _ _ Hinv1). rewrite Hid in Hbatch.
  destruct (entry_read _ cf_id levels cf bs kvs db tb2 db2 db3 k v ik k' v' Hset Hw2 Hnum Hbatch Hsize) as (blob & -> & Hget);
    [by eapply list_elem_of_lookup_2|done..|].
  exists blob. split; [exact Hlook|exact Hget].
Qed.
End flush.

(** ** An application *)

Section witnesses.
#[local] Existing Instances leb128_coding leb128_coding_ok rle_compressors rle_compressors_ok mem_env mem_env_ok
  map_to_list_iter mem_manifest blobs_map readers_map mem_files mem_tables mem_basedb.

Lemma example_flush_setup : flush_setup 5 0 example_merge_options example_tb_storage example_flushed (example_db 5).
Proof.
  split.
  - apply example_write_setup. vm_compute. reflexivity.
  - vm_compute. reflexivity.
  - vm_compute. intuition congruence.
  - intros k v ik Hin Hk. unfold example_flushed in Hin.
    repeat (apply elem_of_cons in Hin as [[= -> ->]|Hin]); [..|by apply not_elem_of_nil in Hin];
      vm_compute in Hk; injection Hk as <-; unfold record_wf, slice_wf, two32; vm_compute; intuition congruence.
Qed.

(** The flush of [example_flushed], completed. *)
Definition example_flush : result (Status * TitanTableBuilder * TitanDBImpl) :=
  let* (tb, db) := add_entries 0 example_flushed example_tb (example_db 5) in
  TitanTableBuilder_Finish (fun s => s) tb db.

Lemma example_flush_ok :
  match add_entries 0 example_flushed example_tb (example_db 5) with Ok (tb, _) => tb_ok tb = true | _ => False end /\
  match example_flush with
  | Ok (s, tb, _) => s = OK /\ forallb (fun f : finished => w_GetFileSize f.2.2 <? two64) (tb_finished tb) = true
  | _ => False
  end.
Proof. split; vm_compute; [|split]; reflexivity. Qed.

Lemma flush_then_get_witness :
  exists tb2 db2, example_flush = Ok (OK, tb2, db2) /\
    exists v' (blob : bool),
      table_entries (tb_base tb2) !! 1%nat =
        Some (if blob
              then AppendInternalKey (set_key_type kTypeBlobIndex (MkParsedInternalKey [Byte.x6b; Byte.x32] 8 kTypeValue))
              else mem_ikey (MkParsedInternalKey [Byte.x6b; Byte.x32] 8 kTypeValue), v') /\
      forall d, base_GetImpl d 5 [Byte.x6b; Byte.x32] = Ok (v', blob) ->
        exists db', TitanDBImpl_GetImpl 5 [Byte.x6b; Byte.x32] d db2 = (Ok (replicate 128 Byte.x77), db').
Proof.
  destruct (flush_then_get (fun s => s) 0 5 5 0 example_merge_options example_tb_storage ([] : @table mem_tables)
    (example_db 5) example_tb example_flushed example_flush_setup) as (tb1 & db1 & Hadd & Hfin).
  - reflexivity.
  - vm_compute. reflexivity.
  - vm_compute. reflexivity.
  - pose proof example_flush_ok as [Hok1 Hok2]. rewrite Hadd in Hok1. destruct (Hfin Hok1) as (s & tb2 & db2 & Hrun & Hread).
    assert (Hflush : example_flush = Ok (s, tb2, db2)) by (unfold example_flush; rewrite Hadd; exact Hrun).
    rewrite Hflush in Hok2. destruct Hok2 as [-> Hsize]. exists tb2, db2. split; [exact Hflush|].
    apply (Hread eq_refl) with (i := 1%nat).
    + apply Forall_forall. intros f Hf. rewrite forallb_forall in Hsize. apply Z.ltb_lt, Hsize.
      by apply list_elem_of_In.
    + reflexivity.
    + vm_compute. reflexivity.
    + reflexivity.
Defined.
End witnesses.

(** ** A failure that [Finish] forgets *)

Section forgotten.
Context `{Coding} `{Compressors} `{E : Env} `{BC : Cache bytes} `{FC : !Cache BlobFileReader}
        `{UnorderedIter} `{!ManifestIO} `{!WritableFiles} `{T : Tables} `{!TablesOk T}.
Context (listeners : Status -> Status) (bytes0 : Z).

(** C37: [Finish] forgets the status of the builder. When a call of [Add] has
    failed with no blob file open (a key that cannot be parsed, an index that
    cannot be decoded, a blob file that cannot be created), all further entries
    are ignored; but [Finish] replaces the status by that of [BatchFinishFiles],
    so that, when the table and the batch are fine, it returns OK for a table
    that has none of these entries. *)
Theorem finish_forgets_failure (kvs : list (bytes * bytes)) (tb : TitanTableBuilder) (db db' : TitanDBImpl) :
  status_ok (tb_status_ tb) = false -> tb_builder tb = None ->
  table_status (table_Finish (tb_base tb)) = OK ->
  BatchFinishFiles listeners (tb_cf_id tb) (tb_finished tb) db = Ok (OK, db') ->
  add_entries bytes0 kvs tb db = Ok (tb, db) /\
  exists tb2 db2, TitanTableBuilder_Finish listeners tb db = Ok (OK, tb2, db2) /\
    table_entries (tb_base tb2) = table_entries (tb_base tb).
Proof.
  intros Hst Hb Hfin Hbatch.
  assert (Hok : tb_ok tb = false) by (unfold tb_ok, tb_status; by rewrite Hst, Hst). split.
  - induction kvs as [|[k v] kvs IH]; [done|]. cbn [add_entries]. unfold TitanTableBuilder_Add. by rewrite Hok.
  - unfold TitanTableBuilder_Finish, complete, FinishBlobFile. cbn [tb_builder tb_set_base]. rewrite Hb.
    cbn [result_bind tb_cf_id tb_finished tb_set_base]. rewrite Hbatch. cbn [result_bind].
    unfold tb_status. cbn [tb_status_ tb_base tb_builder tb_set_status tb_set_base status_ok]. rewrite Hfin, Hb.
    eexists _, _. split; [done|]. cbn [tb_base tb_set_status tb_set_base]. by apply table_finish_ok.
Qed.
End forgotten.

Section forgotten_witness.
#[local] Existing Instances leb128_coding rle_compressors mem_env map_to_list_iter mem_manifest blobs_map
  readers_map mem_files mem_tables.

(** A key that is too short, in front of a good one. *)
Definition example_unparsed : TitanTableBuilder * TitanDBImpl :=
  match TitanTableBuilder_Add 0 [] [Byte.x76] example_tb (example_db 5) with
  | Ok x => x
  | _ => (example_tb, example_db 5)
  end.

Definition example_unparsed_batch : TitanDBImpl :=
  match BatchFinishFiles (fun s => s) 5 [] (example_db 5) with Ok (_, db) => db | _ => example_db 5 end.

Lemma example_unparsed_batch_ok :
  match BatchFinishFiles (fun s => s) 5 [] (example_db 5) with Ok (s, _) => s = OK | _ => False end.
Proof. vm_compute. reflexivity. Qed.

Lemma finish_forgets_failure_witness :
  add_entries 0 example_flushed example_unparsed.1 (example_db 5) = Ok (example_unparsed.1, example_db 5) /\
  exists tb2 db2, TitanTableBuilder_Finish (fun s => s) example_unparsed.1 (example_db 5) = Ok (OK, tb2, db2) /\
    table_entries (tb_base tb2) = table_entries (tb_base example_unparsed.1).
Proof.
  apply (finish_forgets_failure (fun s => s) 0 example_flushed example_unparsed.1 (example_db 5) example_unparsed_batch).
  - vm_compute. reflexivity.
  - vm_compute. reflexivity.
  - vm_compute. reflexivity.
  - change (tb_cf_id example_unparsed.1) with 5. change (tb_finished example_unparsed.1) with (@nil finished).
    pose proof example_unparsed_batch_ok as Hok. unfold example_unparsed_batch.
    destruct (BatchFinishFiles (fun s => s) 5 [] (example_db 5)) as [[s db]| |]; [by rewrite Hok|exact (False_ind _ Hok)..].
Defined.
End forgotten_witness.
