(* ===== verification/ForegroundInv.v ===== *)
(** * What the foreground builders guarantee

    A value separated before the write can be read through the index that was put
    into the write batch once the builder has been flushed, however the callers
    and the thread of the builder interleave. *)

From S2P Require Import Prelude Rocks Options Stats Util BlockQueue BlobFormat Env BaseDb BlobFileBuilder BlobFileReader VersionEdit BlobStorage StorageInv EditCollector BlobFileSet ApplyInv ManifestReplay BlobGC Scheduler DbEvents DbEventsInv CompactionInv FileManager StoredFiles ForegroundBuilder GCJob GCJobInv GCFinish TableBuilder TableBuilderInv TitanDb DbIter TitanDbInv FinishedFiles OutputFiles.

Section foreground.
Context `{Coding} `{Compressors} `{E : Env} `{BC : Cache bytes} `{FC : !Cache BlobFileReader}
        `{UnorderedIter} `{!ManifestIO} `{!WritableFiles} `{!WritableFilesOk} `{B : BaseDB}.
Context (listeners : Status -> Status) (bytes0 : Z) (cf_id : Z) (cf : TitanCFOptions) (db0 : TitanDBImpl).

Definition slot_out (slot : Slot) : Out := MkOut (slot_handle slot) (slot_builder slot) (slot_finished slot).

Definition slot_meta_ok (m : BlobFileMeta) : Prop := file_type m = kUnSorted /\ is_obsolete m = false.

Definition slot_inv (n : Z) (slot : Slot) (db : TitanDBImpl) : Prop :=
  out_inv bytes0 cf db0 slot_meta_ok n (slot_out slot) db.

(** Completing the file of a slot. *)
Lemma FinishBlob_inv n slot db slot' db' :
  slot_inv n slot db -> FinishBlob slot db = Ok (slot', db') ->
  slot_inv n slot' db' /\ slot_handle slot' = None /\ slot_builder slot' = None /\
  (forall i r, out_holds bytes0 cf (slot_out slot) i r -> out_holds bytes0 cf (slot_out slot') i r).
Proof.
  intros Hinv Hrun. unfold FinishBlob in Hrun. unfold slot_inv, slot_out in *.
  destruct (slot_handle slot) as [handle|] eqn:Hh, (slot_builder slot) as [b|] eqn:Hb; [|done|done|].
  2: { injection Hrun as <- <-. by rewrite Hh, Hb. }
  destruct (BlobFileBuilder_Finish b) as [s b'] eqn:Hfin. destruct (status_ok s) eqn:Hs; [|done].
  apply status_ok_true in Hs as ->.
  match type of Hrun with context [add_meta ?m db] =>
    pose proof (out_complete _ _ _ _ n handle b b' _ db m Hinv Hfin eq_refl eq_refl) as Hdone;
    destruct (add_meta m db) as [l db1] end.
  injection Hrun as <- <-. split_and!; [by apply Hdone|done..|].
  intros i r Hr. by eapply out_holds_complete.
Qed.

(** The storage may get a building file. *)
Lemma building_writing id bs w n db :
  column_families (sys_set (t_sys db)) !! id = Some bs ->
  let bs' := match AddBuildingFile w n bs with Ok bs' => bs' | _ => bs end in
  writing db (with_sys (MkSys (with_cfs (<[id := bs']> (column_families (sys_set (t_sys db)))) (sys_set (t_sys db)))
                          (sys_shared (t_sys db)) (sys_fs (t_sys db))) db).
Proof.
  intros Hbs bs'. assert (Hset : exists bf, bs' = set_building bf bs).
  { unfold bs', AddBuildingFile. destruct (NewRandomAccessFile _ _); cbn [result_bind];
      [by eexists|exists (building_files bs); by rewrite set_building_same..]. }
  destruct Hset as [bf ->]. split; try done. intros id'. cbn. rewrite lookup_insert.
  case_decide as Heq; [|apply same_storages_refl]. subst id'. exists bf. by rewrite Hbs.
Qed.

Lemma NewFile_failed n o db s db' :
  out_inv bytes0 cf db0 slot_meta_ok n o db -> 0 <= next_of db0 -> n + 1 < two64 ->
  NewFile db = (Err s, db') -> out_inv bytes0 cf db0 slot_meta_ok (n + 1) o db' /\ status_ok s = false.
Proof.
  intros Hinv Hpos Hn Hrun. unfold NewFile in Hrun. cbn [NewFileNumber] in Hrun.
  destruct (env_NewWritableFile _ _) as [[f|s1|] w] eqn:Hf; [done| |done]. injection Hrun as -> <-.
  split; [|by eapply new_writable_error]. pose proof (oi_next _ _ _ _ _ _ _ Hinv) as Hnx.
  assert (Hnext : next_of db +u64 1 = next_of db + 1) by (apply wrap64_small; unfold is_u64; lia).
  eapply out_inv_grow; [exact Hinv| |unfold next_of in *; cbn; lia].
  split; try done. apply same_storages_refl.
Qed.

(** The slot with a file to write to. *)
Lemma open_slot_inv n slot db :
  slot_inv n slot db -> 0 <= next_of db0 -> n + 1 < two64 ->
  match open_slot bytes0 cf_id cf slot db with
  | (Ok (handle, b), db') =>
      slot_inv (n + 1) (MkSlot (Some handle) (Some b) (slot_finished slot)) db' /\
      (forall i r, out_holds bytes0 cf (slot_out slot) i r ->
         out_holds bytes0 cf (MkOut (Some handle) (Some b) (slot_finished slot)) i r)
  | (Err s, db') => slot_inv (n + 1) slot db' /\ status_ok s = false
  | (Fault, _) => True
  end.
Proof.
  intros Hinv Hpos Hn. unfold open_slot. unfold slot_inv, slot_out in *. cbn [slot_handle slot_builder slot_finished].
  destruct (slot_handle slot) as [handle|], (slot_builder slot) as [b|]; [|done|done|].
  { split; [|done]. eapply out_inv_next; [done|lia]. }
  destruct (NewFile db) as [[[handle file]|s|] db1] eqn:Hnew; [| |done].
  - pose proof (out_new _ _ _ _ n _ db handle file db1 Hinv Hpos Hn Hnew) as Hinv1.
    destruct (column_families (sys_set (t_sys db1)) !! cf_id) as [bs|] eqn:Hbs; [|done]. split.
    + eapply out_inv_db; [exact Hinv1|by apply building_writing|done].
    + intros i r Hr. left. by apply out_holds_idle.
  - by eapply NewFile_failed.
Qed.

(** What a call of [Add] answers: an error and the batch as it was, or the batch
    with the index of the record that was written. *)
Definition answer_ok (o : Out) (key value : bytes) (wb : batch) (a : Status * batch) : Prop :=
  (status_ok a.1 = false /\ a.2 = wb) \/
  exists i, a = PutBlobIndex cf_id key (BlobIndex_EncodeTo i) wb /\
    out_holds bytes0 cf o i (MkBlobRecord key value false).

Lemma handle_request_inv n key value wb slot db s wb' slot' db' :
  slot_inv n slot db -> 0 <= next_of db0 -> n + 1 < two64 -> key <> [] ->
  handle_request listeners bytes0 cf_id cf key value wb slot db = Ok (s, wb', slot', db') ->
  slot_inv (n + 1) slot' db' /\ answer_ok (slot_out slot') key value wb (s, wb') /\
  (forall i r, out_holds bytes0 cf (slot_out slot) i r -> out_holds bytes0 cf (slot_out slot') i r).
Proof.
  intros Hinv Hpos Hn Hkey. unfold handle_request. rewrite bool_decide_false by done.
  pose proof (open_slot_inv n slot db Hinv Hpos Hn) as Hopen.
  destruct (open_slot bytes0 cf_id cf slot db) as [[[handle b]|s0|] db1]; [| |done].
  2: { intros [= <- <- <- <-]. destruct Hopen as [Hinv1 Hs]. split_and!; [done|by left|done]. }
  destruct Hopen as [Hinv1 Hkeep].
  destruct (BlobFileBuilder_Add _ _ b) as [h b'] eqn:Hadd.
  match goal with |- context [FinishBlob ?sl ?d] => set (slot2 := sl); set (db2 := d) end.
  assert (Hinv2 : slot_inv (n + 1) slot2 db2).
  { eapply out_append; [|exact Hadd]. eapply out_inv_db; [exact Hinv1|apply live_size_writing|done]. }
  destruct (oi_current _ _ _ _ _ _ _ Hinv1) as (_ & rs & hs & Hbuild).
  pose proof (out_holds_new bytes0 cf handle b (slot_finished slot) _ h b' rs hs Hbuild Hadd) as Hnew.
  assert (Hkeep2 : forall i r, out_holds bytes0 cf (slot_out slot) i r -> out_holds bytes0 cf (slot_out slot2) i r).
  { intros i r Hr. by eapply out_holds_append; [apply Hkeep|]. }
  destruct (_ <=? _).
  - destruct (FinishBlob slot2 db2) as [[slot3 db3]| |] eqn:Hfin; cbn [result_bind]; [|done..].
    destruct (FinishBlob_inv _ _ _ _ _ Hinv2 Hfin) as (Hinv3 & _ & _ & Hkeep3).
    destruct (PutBlobIndex _ _ _ _) as [s1 wb1] eqn:Hput. intros [= <- <- <- <-]. split_and!; [done| |auto].
    right. eexists. split; [by rewrite Hput|]. by apply Hkeep3.
  - cbn [result_bind]. destruct (PutBlobIndex _ _ _ _) as [s1 wb1] eqn:Hput. intros [= <- <- <- <-].
    split_and!; [done| |done]. right. eexists. split; [by rewrite Hput|]. exact Hnew.
Qed.

(** ** Requests from many threads *)

Definition Request := (bytes * bytes * batch)%type.

(** What the thread of slot [b] does with a request, in the terms of
    [requests_handled_in_order]. *)
Definition fb_serve (b : nat) (req : Request) (st : list Slot * TitanDBImpl)
    : option ((Status * batch) * (list Slot * TitanDBImpl)) :=
  let '(key, value, wb) := req in
  match st.1 !! b with
  | None => None
  | Some slot =>
      match handle_request listeners bytes0 cf_id cf key value wb slot st.2 with
      | Ok (s, wb, slot, db) => Some ((s, wb), (<[b := slot]> st.1, db))
      | _ => None
      end
  end.

(** A call of [Add] of a large value is a request to the slot of its key. *)
Lemma Add_serves (hash : bytes -> Z) key value wb fb db a slots db' :
  fb_cf_id fb = cf_id -> fb_cf_options fb = cf -> too_small cf value = false ->
  fb_serve (slot_of hash fb key) (key, value, wb) (fb_slots fb, db) = Some (a, (slots, db')) ->
  ForegroundBuilder_Add listeners hash bytes0 key value wb fb db =
    Ok (a.1, a.2, MkForegroundBuilder cf_id (fb_db_options fb) cf slots, db').
Proof.
  intros Hid Hcf Hbig Hserve. unfold ForegroundBuilder_Add. rewrite Hid, Hcf, Hbig.
  unfold fb_serve in Hserve. cbn [fst snd] in Hserve. destruct (fb_slots fb !! _) as [slot|]; [|done].
  destruct (handle_request _ _ _ _ _ _ _ _ _) as [[[[s wb1] slot1] db1]| |]; [|done..].
  by injection Hserve as <- <- <-.
Qed.

Definition request_wf (req : Request) : Prop :=
  req.1.1 <> [] /\ record_wf (MkBlobRecord req.1.1 req.1.2 false).

Lemma handled_slot l st :
  handled fb_serve ([MkSlot None None []], db0) l st ->
  0 <= next_of db0 -> next_of db0 + Z.of_nat (length l) < two64 -> Forall (fun e => request_wf e.2.1) l ->
  exists slot, st.1 = [slot] /\ slot_inv (next_of db0 + Z.of_nat (length l)) slot st.2 /\
    forall e, e ∈ l -> answer_ok (slot_out slot) e.2.1.1.1 e.2.1.1.2 e.2.1.2 e.2.2.
Proof.
  intros Hh Hpos. remember ([MkSlot None None []], db0) as st0 eqn:Hst0.
  induction Hh as [st|st1 st2 st3 l i r a Hh IH Hstep]; intros Hn Hwf; subst.
  { exists (MkSlot None None []). split; [done|]. split; [rewrite Z.add_0_r; apply out_inv_start|].
    by intros e ?%not_elem_of_nil. }
  rewrite length_app in *. cbn [length] in *. apply Forall_app in Hwf as [Hwf [Hr _]%Forall_cons].
  destruct (IH eq_refl) as (slot & Hslot & Hinv & Hans); [lia|done|]. destruct r as [[key value] wb].
  unfold fb_serve in Hstep. rewrite Hslot in Hstep. destruct i as [|i]; [|done]. cbn [lookup list_lookup] in Hstep.
  destruct (handle_request _ _ _ _ _ _ _ _ _) as [[[[s wb1] slot1] db1]| |] eqn:Hreq; [|done..].
  injection Hstep as <- <-.
  destruct (handle_request_inv _ _ _ _ _ _ _ _ _ _ Hinv Hpos ltac:(lia) (proj1 Hr) Hreq) as (Hinv1 & Ha & Hkeep).
  exists slot1. split; [done|]. split.
  { rewrite Nat2Z.inj_add, Z.add_assoc. exact Hinv1. }
  intros e [He| ->%list_elem_of_singleton]%elem_of_app; [|exact Ha].
  destruct (Hans e He) as [Herr|(ix & Heq & Hix)]; [by left|right]. exists ix. split; [done|]. by apply Hkeep.
Qed.
End foreground.

(** ** Every request is answered *)

Section answers.
Context `{Coding} `{Compressors} `{E : Env} `{BC : Cache bytes} `{FC : !Cache BlobFileReader}
        `{UnorderedIter} `{!ManifestIO} `{!WritableFiles} `{!WritableFilesOk} `{B : BaseDB}.
Context (listeners : Status -> Status) (bytes0 : Z) (cf_id : Z) (cf : TitanCFOptions).

(** What a slot and the database always have for a builder: the handle and the
    builder together or neither, the storage of the column family, a manifest. *)
Definition slot_paired (slot : Slot) : Prop := slot_handle slot = None <-> slot_builder slot = None.

Definition can_serve (db : TitanDBImpl) : Prop :=
  is_Some (column_families (sys_set (t_sys db)) !! cf_id) /\ manifest (sys_set (t_sys db)) <> None.

(** Handling the request ends the process: a blob file cannot be finished, that
    of the slot for a request of [Flush], and the one that has become large enough
    for any other. *)
Definition ends_process (req : Request) (slot : Slot) (db : TitanDBImpl) : Prop :=
  let '(key, value, _) := req in
  exists handle b, status_ok (BlobFileBuilder_Finish b).1 = false /\
    ((key = [] /\ slot_handle slot = Some handle /\ slot_builder slot = Some b) \/
     (key <> [] /\ exists b0 db', open_slot bytes0 cf_id cf slot db = (Ok (handle, b0), db') /\
        b = (BlobFileBuilder_Add (MkBlobRecord key value false) BlobHandle_default b0).2 /\
        blob_file_target_size cf <= w_GetFileSize (bfb_file b))).

Lemma FinishBlob_total slot db :
  slot_paired slot -> can_serve db ->
  (exists slot' db', FinishBlob slot db = Ok (slot', db') /\ slot_paired slot' /\ can_serve db') \/
  (FinishBlob slot db = Fault /\ exists handle b, slot_handle slot = Some handle /\ slot_builder slot = Some b /\
     status_ok (BlobFileBuilder_Finish b).1 = false).
Proof.
  intros Hp Hdb. unfold FinishBlob, slot_paired in *.
  destruct (slot_handle slot) as [handle|] eqn:Hh, (slot_builder slot) as [b|] eqn:Hb; [|naive_solver..|].
  2: { left. eexists _, _. split; [done|]. by rewrite Hh, Hb. }
  destruct (BlobFileBuilder_Finish b) as [s b'] eqn:Hfin. destruct (status_ok s) eqn:Hs.
  - left. destruct (add_meta _ db) as [l db1] eqn:Hadd. eexists _, _. split; [done|]. split; [done|].
    unfold add_meta in Hadd. destruct (make_shared _ _) in Hadd. by injection Hadd as _ <-.
  - right. split; [done|]. exists handle, b. by rewrite Hfin.
Qed.

(** The log keeps the column families and the manifest. *)
Lemma apply_keeps_storages c st id :
  is_Some (st.1 !! id) -> is_Some ((EditCollector_Apply c st).2.1 !! id).
Proof.
  intros Hid. unfold EditCollector_Apply. destruct (negb (status_ok (ec_status c))); [done|].
  destruct (negb (sealed c)); [done|].
  assert (Hgen : is_Some ((for_each apply_cf (unordered_iter (ec_column_families c)) st).2.1 !! id)).
  { apply (for_each_rel (fun st st' => is_Some (st.1 !! id) -> is_Some (st'.1 !! id))); [auto|auto| |done].
    intros x st' Hst. unfold apply_cf. destruct (st'.1 !! x.1) as [bs|]; [|done].
    destruct (CF_Apply x.2 (bs, st'.2)) as [s' [bs' sh']]. cbn. destruct (decide (x.1 = id)) as [->|Hne].
    - rewrite lookup_insert_eq. by eexists.
    - by rewrite lookup_insert_ne. }
  by destruct (for_each _ _ st).
Qed.

Lemma LogAndApply_serves edit sys :
  manifest (sys_set sys) <> None -> is_Some (column_families (sys_set sys) !! cf_id) ->
  exists s sys', LogAndApply edit sys = Ok (s, sys') /\
    manifest (sys_set sys') <> None /\ is_Some (column_families (sys_set sys') !! cf_id).
Proof.
  intros Hm Hcf. unfold LogAndApply. destruct (AddEdit _ _ _) as [s1 c1].
  destruct (negb (status_ok s1)); [by eauto 10|]. destruct (EditCollector_Seal _ _ c1) as [s2 c2].
  destruct (negb (status_ok s2)); [by eauto 10|]. destruct (manifest (sys_set sys)) as [log|] eqn:Hlog; [|done].
  destruct (log_AddRecord _ _ _) as [s3 w3]. destruct (negb (status_ok s3)); [eexists _, _; split; [done|]; cbn; by rewrite Hlog|].
  destruct (SyncTitanManifest _ _) as [s4 w4]. destruct (negb (status_ok s4)); [eexists _, _; split; [done|]; cbn; by rewrite Hlog|].
  pose proof (apply_keeps_storages c2 (column_families (sys_set sys), sys_shared sys) cf_id Hcf) as Hk.
  destruct (EditCollector_Apply c2 _) as [[s5 c5] [cfs sh]]. eexists _, _. split; [done|]. cbn. by rewrite Hlog.
Qed.

Lemma BatchFinishFiles_serves files db :
  can_serve db -> exists s db', BatchFinishFiles listeners cf_id files db = Ok (s, db') /\ can_serve db'.
Proof.
  intros [Hcf Hm]. unfold BatchFinishFiles. destruct (close_files _ _) as [s w].
  destruct (negb (status_ok s)); [eexists _, _; split; [done|]; by split|].
  destruct (LogAndApply_serves (add_files_edit cf_id files) (MkSys (sys_set (t_sys db)) (sys_shared (t_sys db)) w) Hm Hcf)
    as (s1 & sys1 & -> & Hm1 & Hcf1). cbn [result_bind]. eexists _, _. split; [done|]. unfold SetBGError.
  destruct (status_ok s1); [done|]. cbv zeta. by destruct (status_ok (listeners s1)).
Qed.

Lemma flush_request_total slot db :
  slot_paired slot -> can_serve db ->
  (exists slot' db', flush_request listeners cf_id slot db = Ok (slot', db') /\ slot_paired slot' /\ can_serve db') \/
  (flush_request listeners cf_id slot db = Fault /\ exists handle b, slot_handle slot = Some handle /\
     slot_builder slot = Some b /\ status_ok (BlobFileBuilder_Finish b).1 = false).
Proof.
  intros Hp Hdb. unfold flush_request.
  destruct (FinishBlob_total slot db Hp Hdb) as [(slot1 & db1 & -> & Hp1 & Hdb1)|[-> Hf]]; [left|by right].
  cbn [result_bind]. destruct (slot_finished slot1) as [|f fs]; [by eauto 10|].
  destruct (BatchFinishFiles_serves (f :: fs) db1 Hdb1) as (s & db2 & -> & Hdb2). cbn [result_bind]. by eauto 10.
Qed.

Lemma open_slot_total slot db :
  slot_paired slot -> can_serve db ->
  match open_slot bytes0 cf_id cf slot db with
  | (Fault, _) => False
  | (_, db') => can_serve db'
  end.
Proof.
  intros Hp [Hcf Hm]. unfold open_slot, slot_paired in *.
  destruct (slot_handle slot), (slot_builder slot); [done|naive_solver..|]. unfold NewFile, NewFileNumber.
  destruct (env_NewWritableFile _ _) as [[f|s|] w] eqn:Hf; [|done|by apply new_writable_total in Hf].
  cbn [with_pending with_sys t_sys sys_set column_families with_next]. destruct Hcf as [bs Hbs]. rewrite Hbs. split; [|done].
  cbn. rewrite lookup_insert_eq. by eexists.
Qed.

Lemma handle_request_total key value wb slot db :
  slot_paired slot -> can_serve db ->
  (exists s wb' slot' db', handle_request listeners bytes0 cf_id cf key value wb slot db = Ok (s, wb', slot', db') /\
     slot_paired slot' /\ can_serve db') \/
  (handle_request listeners bytes0 cf_id cf key value wb slot db = Fault /\ ends_process (key, value, wb) slot db).
Proof.
  intros Hp Hdb. unfold handle_request, ends_process. case_bool_decide as Hkey.
  - destruct (flush_request_total slot db Hp Hdb) as [(slot1 & db1 & -> & Hp1 & Hdb1)|[-> (h & b & Hh & Hb & Hf)]];
      cbn [result_bind]; [left; by eauto 10|right; split; [done|]; by eauto 10].
  - pose proof (open_slot_total slot db Hp Hdb) as Hopen.
    destruct (open_slot bytes0 cf_id cf slot db) as [[[handle b0]|s0|] db1]; [|left; by eauto 10|done].
    destruct (BlobFileBuilder_Add _ _ b0) as [h b] eqn:Hadd.
    match goal with |- context [FinishBlob ?sl ?d] => set (slot2 := sl); set (db2 := d) end.
    destruct (Z.leb_spec (blob_file_target_size cf) (w_GetFileSize (bfb_file b))) as [Hsz|_].
    + destruct (FinishBlob_total slot2 db2) as [(slot3 & db3 & -> & Hp3 & Hdb3)|[-> (h' & b' & [= <-] & [= <-] & Hf)]]; [done|done| |].
      * left. cbn [result_bind]. destruct (PutBlobIndex _ _ _ _). by eauto 10.
      * right. split; [done|]. exists handle, b. split; [done|]. right. split; [done|]. exists b0, db1. by rewrite Hadd.
    + left. cbn [result_bind]. destruct (PutBlobIndex _ _ _ _). eexists _, _, _, _. split; [done|]. by split.
Qed.

(** The state the servers share, after any requests. *)
Lemma handled_serves n db0 l st :
  handled (fb_serve listeners bytes0 cf_id cf) (replicate n (MkSlot None None []), db0) l st ->
  can_serve db0 -> length st.1 = n /\ Forall slot_paired st.1 /\ can_serve st.2.
Proof.
  intros Hh Hdb. remember (replicate n (MkSlot None None []), db0) as st0 eqn:Hst0.
  induction Hh as [st|st1 st2 st3 l i r a Hh IH Hstep]; subst.
  { cbn. split; [apply length_replicate|]. split; [by apply Forall_replicate|done]. }
  destruct (IH eq_refl) as (Hlen & Hall & Hdb2). destruct r as [[key value] wb]. unfold fb_serve in Hstep.
  destruct (st2.1 !! i) as [slot|] eqn:Hl; [|done].
  assert (Hp : slot_paired slot) by (by eapply Forall_lookup_1).
  destruct (handle_request listeners bytes0 cf_id cf key value wb slot st2.2) as [[[[s wb1] slot1] db1]| |] eqn:Hreq; [|done..].
  injection Hstep as <- <-.
  destruct (handle_request_total key value wb slot st2.2 Hp Hdb2) as [(s' & wb' & slot' & db' & Heq & Hp' & Hdb')|[Heq _]];
    rewrite Hreq in Heq; [|done].
  injection Heq as <- <- <- <-. cbn. rewrite length_insert. split; [done|]. split; [by apply Forall_insert|done].
Qed.

(** C23: Every request to a foreground builder is answered. The builder has [n]
    slots with a thread each, over a database that has the storage of the column
    family and an open manifest; any number of threads call [Add], [Flush] and
    [Finish], interleaved in any way with the threads of the slots. From any state
    reached, these threads stop after finitely many steps of their own; and when
    they have stopped, every request put in front of a null pointer has been
    answered, so that no caller of [Add] or [Flush] waits for ever, and the
    threads [Finish] waits for have returned; unless the process was ended by a
    thread because its blob file could not be finished. *)
Theorem requests_all_answered (n : nat) (db0 : TitanDBImpl)
    (w : Servers Request (Status * batch) (list Slot * TitanDBImpl)) :
  is_Some (column_families (sys_set (t_sys db0)) !! cf_id) -> manifest (sys_set (t_sys db0)) <> None ->
  servers_reachable (fb_serve listeners bytes0 cf_id cf) n (replicate n (MkSlot None None []), db0) w ->
  let own w w' := exists i, serve_step (fb_serve listeners bytes0 cf_id cf) i w w' in
  sn own w /\
  forall w', rtc own w w' -> nf own w' ->
    (forall i, (i < n)%nat ->
       served_by i w' = before_null (of_server i (ss_put w)) /\
       (None ∈ of_server i (ss_put w) -> exists q, ss_servers w' !! i = Some (MkServer q PReturned))) \/
    exists i q req reqs slot, ss_servers w' !! i = Some (MkServer q (PServing (Some req :: reqs))) /\
      (ss_state w').1 !! i = Some slot /\ ends_process req slot (ss_state w').2.
Proof.
  intros Hcf Hm Hreach own. destruct (servers_stop _ n _ w Hreach) as [Hsn Hstop]. split; [done|].
  intros w' Hrun Hnf. destruct (Hstop w' Hrun Hnf) as [Hr' [Hall|(i & q & req & reqs & Hi & Hl & Hnone)]]; [by left|right].
  pose proof (svi_state _ _ _ _ (servers_inv_reachable _ _ _ _ Hr')) as Hh.
  destruct (handled_serves n db0 _ _ Hh (conj Hcf Hm)) as (Hlen & Hpair & Hdb).
  destruct (lookup_lt_is_Some_2 (ss_state w').1 i) as [slot Hslot]; [lia|].
  exists i, q, req, reqs, slot. split; [done|]. split; [done|].
  destruct req as [[key value] wb]. unfold fb_serve in Hnone. rewrite Hslot in Hnone.
  destruct (handle_request_total key value wb slot (ss_state w').2) as [(s' & wb' & slot' & db' & Heq & _)|[_ Hend]];
    [by eapply Forall_lookup_1|done| |done].
  by rewrite Heq in Hnone.
Qed.
End answers.

Section readable.
Context `{Coding} `{!CodingOk _} `{Compressors} `{!CompressorsOk _} `{E : Env} `{!EnvOk E}
        `{BC : Cache bytes} `{!CacheOk BC} `{FC : !Cache BlobFileReader} `{!CacheOk FC}
        `{UnorderedIter} `{!ManifestIO} `{!WritableFiles} `{!WritableFilesOk} `{!StoredFilesOk} `{B : BaseDB}.
Context (listeners : Status -> Status) (bytes0 : Z).

(** C13: Values separated before the write can be read. Any number of threads put
    values through a foreground builder with one slot, not flushed before, of a
    column family without a blob cache, interleaved in any way with its thread;
    then the slot is flushed, and its files can be added. Each
    call so far has been answered with an error and an unchanged batch, or with
    the batch extended by an index; and for a database that finds the index under
    the key, [Get] returns the value of the call. The builder is ready for the
    next values. *)
Theorem foreground_puts_readable (cf_id : Z) (cf : TitanCFOptions) (bs : BlobStorage) (db0 : TitanDBImpl)
    (w : Servers Request (Status * batch) (list Slot * TitanDBImpl)) (slot slot' : Slot) (db db1 db2 : TitanDBImpl) :
  servers_reachable (fb_serve listeners bytes0 cf_id cf) 1 ([MkSlot None None []], db0) w ->
  write_setup cf_id (Z.of_nat (length (ss_served w))) cf bs db0 ->
  Forall (fun e => request_wf e.2.1) (ss_served w) ->
  ss_state w = ([slot], db) ->
  FinishBlob slot db = Ok (slot', db1) ->
  BatchFinishFiles listeners cf_id (slot_finished slot') db1 = Ok (OK, db2) ->
  Forall (fun f : finished => w_GetFileSize f.2.2 < two64) (slot_finished slot') ->
  (slot_finished slot' <> [] -> flush_request listeners cf_id slot db = Ok (MkSlot None None [], db2)) /\
  forall b key value wb s wb', (b, (((key, value), wb), (s, wb'))) ∈ ss_served w ->
    (status_ok s = false /\ wb' = wb) \/
    exists i, (s, wb') = PutBlobIndex cf_id key (BlobIndex_EncodeTo i) wb /\
      forall d, base_GetImpl d cf_id key = Ok (BlobIndex_EncodeTo i, true) ->
        exists db3, TitanDBImpl_GetImpl cf_id key d db2 = (Ok value, db3).
Proof.
  intros Hreach Hset Hwf Hst Hfin Hbatch Hsize.
  pose proof (svi_state _ _ _ _ (servers_inv_reachable _ _ _ _ Hreach)) as Hh.
  pose proof Hset as [Htgt [Hpos Hnum] _ _].
  destruct (handled_slot listeners bytes0 cf_id cf db0 _ _ Hh Hpos Hnum Hwf) as (slot0 & Hslot & Hinv & Hans).
  rewrite Hst in Hslot, Hinv. cbn [fst snd] in Hslot, Hinv. injection Hslot as <-.
  destruct (FinishBlob_inv _ _ _ _ _ _ _ _ Hinv Hfin) as (Hinv' & Hh' & Hb' & Hkeep). split.
  - intros Hne. unfold flush_request. rewrite Hfin. cbn [result_bind]. rewrite Hh', Hb'.
    destruct (slot_finished slot') as [|f fs] eqn:Hfs; [done|]. by rewrite Hbatch.
  - intros b key value wb s wb' Hin. destruct (Hans _ Hin) as [Herr|(i & Heq & Hi)]; [by left|right].
    exists i. split; [done|]. intros d Hg. cbn [fst snd] in *.
    apply Hkeep in Hi. unfold slot_out in Hi. rewrite Hh', Hb' in Hi. apply out_holds_idle in Hi.
    rewrite Forall_forall in Hwf. destruct (Hwf _ Hin) as [_ Hrec]. cbn [fst snd] in Hrec.
    destruct (out_read listeners bytes0 cf_id _ cf bs db0 slot_meta_ok _ (slot_out slot') db1 db2 i
      (MkBlobRecord key value false) Hset Hinv' Hnum) as (t & rs & bs' & m & Hheld); try done.
    + intros m (Ht & Ho). unfold level_index. cbn [only_value]. rewrite Ht. cbn.
      pose proof (inv_levels_pos _ _ _ (set_storage _ _ (bt_inv _ _ _ _ Htgt) cf_id bs (bt_storage _ _ _ _ Htgt))) as Hpos'.
      rewrite andb_false_r. split_and!; done || lia.
    + destruct (held_index _ _ _ _ _ _ _ _ Hheld) as (m' & f & Hidx).
      destruct (GetImpl_index cf_id key d i _ bs' m' t rs f db2 Hidx Hg) as (db3 & Hget & _). by exists db3.
Qed.
End readable.

(** ** An application *)

Section witness.
#[local] Existing Instances leb128_coding leb128_coding_ok rle_compressors rle_compressors_ok mem_env mem_env_ok
  map_to_list_iter mem_manifest blobs_map readers_map mem_files mem_basedb.

(** One call, from its put to its answer. *)
Definition example_request : Request := (([Byte.x6b; Byte.x32], replicate 128 Byte.x77), []).

Definition example_slots : list Slot * TitanDBImpl := ([MkSlot None None []], example_db 5).

Definition example_served : (Status * batch) * (list Slot * TitanDBImpl) :=
  default ((OK, []), example_slots)
    (fb_serve (fun s => s) 0 5 example_merge_options 0 example_request example_slots).

Definition example_calls : Servers Request (Status * batch) (list Slot * TitanDBImpl) :=
  MkServers example_served.2 [MkServer [] (PServing [])] [(0%nat, Some example_request)]
    [(0%nat, (example_request, example_served.1))].

Lemma example_serves :
  match fb_serve (fun s => s) 0 5 example_merge_options 0 example_request example_slots with
  | Some (a, ([slot], db)) => match FinishBlob slot db with
      | Ok (slot', db') => match BatchFinishFiles (fun s => s) 5 (slot_finished slot') db' with
          | Ok (s, _) => s = OK /\ forallb (fun f : finished => w_GetFileSize f.2.2 <? two64) (slot_finished slot') = true
          | _ => False
          end
      | _ => False
      end
  | _ => False
  end.
Proof. vm_compute. split; reflexivity. Qed.

Lemma example_calls_reachable x :
  fb_serve (fun s => s) 0 5 example_merge_options 0 example_request example_slots = Some x ->
  servers_reachable (fb_serve (fun s => s) 0 5 example_merge_options) 1 example_slots example_calls.
Proof.
  intros Hx. assert (Hs : example_served = x) by (unfold example_served; by rewrite Hx).
  unfold servers_reachable, example_calls. rewrite Hs. destruct x as [a st].
  eapply rtc_l; [by eapply (ss_call _ 0 (Some example_request))|].
  eapply rtc_l; [eapply (ss_serve _ 0), ss_bulk; done|].
  eapply rtc_l; [eapply (ss_serve _ 0), ss_answer; [done|exact Hx]|]. apply rtc_refl.
Qed.

(** The call above, then a call of [Finish]. *)
Definition example_stopping : Servers Request (Status * batch) (list Slot * TitanDBImpl) :=
  MkServers example_served.2 [MkServer [None] (PServing [])] [(0%nat, Some example_request); (0%nat, None)]
    [(0%nat, (example_request, example_served.1))].

Lemma requests_all_answered_witness :
  let own w w' := exists i, serve_step (fb_serve (fun s => s) 0 5 example_merge_options) i w w' in
  sn own example_stopping /\
  forall w', rtc own example_stopping w' -> nf own w' ->
    (served_by 0 w' = [example_request] /\ exists q, ss_servers w' !! 0%nat = Some (MkServer q PReturned)) \/
    exists i q req reqs slot, ss_servers w' !! i = Some (MkServer q (PServing (Some req :: reqs))) /\
      (ss_state w').1 !! i = Some slot /\ ends_process 0 5 example_merge_options req slot (ss_state w').2.
Proof.
  pose proof example_serves as Hall.
  destruct (fb_serve (fun s => s) 0 5 example_merge_options 0 example_request example_slots) as [x|] eqn:Hx;
    [clear Hall|exact (False_ind _ Hall)].
  destruct (requests_all_answered (fun s => s) 0 5 example_merge_options 1 (example_db 5) example_stopping)
    as [Hsn Hdone].
  - vm_compute. eexists. reflexivity.
  - vm_compute. discriminate.
  - eapply rtc_r; [exact (example_calls_reachable _ Hx)|].
    exact (ss_call _ 0%nat None example_served.2 [MkServer [] (PServing [])] [] [None] (PServing []) true _ _ eq_refl eq_refl).
  - split; [exact Hsn|]. intros w' Hrun Hnf. destruct (Hdone w' Hrun Hnf) as [Hok|Hend]; [left|right; exact Hend].
    destruct (Hok 0%nat ltac:(lia)) as [Hs Hret]. split; [exact Hs|]. apply Hret. vm_compute. right. left.
Defined.

Lemma foreground_puts_readable_witness :
  exists db2 s wb', example_served.1 = (s, wb') /\
    ((status_ok s = false /\ wb' = []) \/
     exists i, (s, wb') = PutBlobIndex 5 [Byte.x6b; Byte.x32] (BlobIndex_EncodeTo i) [] /\
      forall d, base_GetImpl d 5 [Byte.x6b; Byte.x32] = Ok (BlobIndex_EncodeTo i, true) ->
        exists db3, TitanDBImpl_GetImpl 5 [Byte.x6b; Byte.x32] d db2 = (Ok (replicate 128 Byte.x77), db3)).
Proof.
  pose proof example_serves as Hall.
  destruct (fb_serve (fun s => s) 0 5 example_merge_options 0 example_request example_slots) as [[a [slots db]]|] eqn:Hx;
    [|exact (False_ind _ Hall)].
  assert (Hs : example_served = (a, (slots, db))) by (unfold example_served; rewrite Hx; reflexivity).
  destruct slots as [|slot [|slot2 slots]]; [exact (False_ind _ Hall)| |exact (False_ind _ Hall)].
  destruct (FinishBlob slot db) as [[slot' db1]| |] eqn:Hfin; [|exact (False_ind _ Hall)..].
  destruct (BatchFinishFiles (fun s => s) 5 (slot_finished slot') db1) as [[s db2]| |] eqn:Hbatch; [|exact (False_ind _ Hall)..].
  destruct Hall as [-> Hsize]. destruct a as [s wb'].
  destruct (foreground_puts_readable (fun s => s) 0 5 example_merge_options example_tb_storage (example_db 5)
    example_calls slot slot' db db1 db2) as [_ Hread].
  - exact (example_calls_reachable _ Hx).
  - apply example_write_setup. vm_compute. reflexivity.
  - apply Forall_singleton. split; [discriminate|]. unfold record_wf, slice_wf, two32. vm_compute. intuition congruence.
  - unfold example_calls. rewrite Hs. reflexivity.
  - exact Hfin.
  - exact Hbatch.
  - apply Forall_forall. intros f Hf. rewrite forallb_forall in Hsize. apply Z.ltb_lt, Hsize. by apply list_elem_of_In.
  - exists db2, s, wb'. rewrite Hs. split; [reflexivity|]. apply (Hread 0%nat). unfold example_calls. rewrite Hs.
    apply list_elem_of_singleton. reflexivity.
Defined.
End witness.
