(* ===== verification/GCGet.v ===== *)
(** * From a garbage collection to a read

    After a collection that succeeds, every key that referred to a record of an
    input file is read from an output file, with the same value. *)

From S2P Require Import Prelude Rocks Options Stats Util BlobFormat Env BaseDb BlobFileBuilder BlobFileReader BlobFileIterator MergeIterator VersionEdit BlobStorage StorageInv EditCollector BlobFileSet ApplyInv ManifestReplay BlobGC Scheduler DbEvents DbEventsInv CompactionInv FileManager StoredFiles ForegroundBuilder GCJob GCJobInv GCFinish TableBuilder TableBuilderInv TitanDb DbIter TitanDbInv FinishedFiles OutputFiles.

(** ** The files of a run *)

Section run_files.
Context `{Coding} `{Compressors} `{E : Env} `{BC : Cache bytes} `{FC : !Cache BlobFileReader}
        `{UnorderedIter} `{!ManifestIO} `{!WritableFiles} `{!WritableFilesOk} `{B : BaseDB} `{!BaseDBOk B} `{PriorityQueue}.
Context (listeners : Status -> Status) (hash : bytes -> Z) (bytes0 indeterminate : Z) (db0 : TitanDBImpl) (gc : BlobGC).

Definition handle_numbers (os : list (FileHandle * BlobFileBuilder)) : list Z := GetNumber <$> os.*1.

Definition named (os : list (FileHandle * BlobFileBuilder)) : Prop :=
  Forall (fun h => GetName h = BlobFileName (dirname (t_options db0)) (GetNumber h)) os.*1.

(** Numbers below [n] have been used. *)
Record gc_files (n : Z) (r : GCRun) : Prop := {
  gf_gc : blob_gc (run_job r) = gc;
  gf_writing : writing db0 (run_db r);
  gf_next : next_of db0 <= next_of (run_db r) <= n;
  gf_nodup : NoDup (handle_numbers (outs r));
  gf_range : Forall (fun k => next_of db0 <= k < next_of (run_db r)) (handle_numbers (outs r));
  gf_names : named (outs r)
}.

Lemma gc_files_next n n' r : gc_files n r -> n <= n' -> gc_files n' r.
Proof. intros [? ? [? ?]] Hle. split; try done. lia. Qed.

(** Counters, batches and records do not matter. *)
Lemma gc_files_same n r r' :
  gc_files n r -> blob_gc (run_job r') = blob_gc (run_job r) -> run_db r' = run_db r -> (outs r').*1 = (outs r).*1 ->
  gc_files n r'.
Proof.
  intros [Hgc Hw Hn Hnd Hr Hnm] Hg Hdb Ho.
  split; unfold handle_numbers, named; rewrite ?Ho, ?Hdb; try done. congruence.
Qed.

(** The file for the next record. *)
Lemma gc_output_files n r o r' :
  gc_files n r -> 0 <= next_of db0 -> n + 1 < two64 -> gc_output bytes0 r = (Ok o, r') ->
  gc_files (n + 1) r' /\ run_out r' = Some o.
Proof.
  intros Hf Hpos Hn Hrun. unfold gc_output in Hrun.
  assert (Hnew : forall handle file db, NewFile (run_db r) = (Ok (handle, file), db) ->
            let o := (handle, BlobFileBuilder_new (titan_cf_options (blob_gc (run_job r))) file bytes0) in
            let job := match run_out r with Some o => push_output o (run_job r) | None => run_job r end in
            gc_files (n + 1) (MkGCRun job (Some o) 0 db (run_fb r) (run_base r))).
  { intros handle file db Hfile. destruct Hf as [Hgc Hw Hnx Hnd Hr Hnm].
    unfold NewFile in Hfile. cbn [NewFileNumber] in Hfile.
    destruct (env_NewWritableFile _ _) as [[f|s|] w] eqn:Hf; [|done..]. injection Hfile as <- <- <-.
    assert (Hnext : next_of (run_db r) +u64 1 = next_of (run_db r) + 1) by (apply wrap64_small; unfold is_u64; lia).
    cbv zeta. set (o' := (_, BlobFileBuilder_new _ f bytes0)).
    match goal with |- gc_files _ ?x => set (r2 := x) end.
    assert (Ho : outs r2 = outs r ++ [o']).
    { unfold outs. cbn [run_job run_out r2]. destruct (run_out r); [done|]. cbn [option_list]. by rewrite app_nil_r. }
    assert (Hg : blob_gc (run_job r2) = gc) by (unfold r2; cbn [run_job]; by destruct (run_out r)).
    split; unfold handle_numbers, named in *; rewrite ?Ho, ?fmap_app; cbn [fmap list_fmap] in *; try done.
    - cbn [run_db r2]. by destruct Hw.
    - unfold next_of in *. cbn. lia.
    - apply NoDup_app. split_and!; [done| |apply NoDup_singleton].
      intros k Hk ->%list_elem_of_singleton. rewrite Forall_forall in Hr. specialize (Hr _ Hk). unfold next_of in Hr. cbn in Hr. lia.
    - apply Forall_app. split; [eapply Forall_impl; [exact Hr|]; unfold next_of in *; cbn; lia|].
      constructor; [|constructor]. unfold next_of in *. cbn. lia.
    - apply Forall_app. split; [done|]. constructor; [|constructor]. cbn. by rewrite (wr_options _ _ Hw). }
  destruct (run_out r) as [o1|] eqn:Ho; destruct (_ <=? run_file_size r); [| |done|].
  - destruct (NewFile (run_db r)) as [[[handle file]|s|] db]; [injection Hrun as <- <-|done..]. split; [by apply Hnew|done].
  - injection Hrun as <- <-. split; [eapply gc_files_next; [exact Hf|lia]|done].
  - destruct (NewFile (run_db r)) as [[[handle file]|s|] db]; [injection Hrun as <- <-|done..]. split; [by apply Hnew|done].
Qed.

Lemma gc_output_error r s r' : gc_output bytes0 r = (Err s, r') -> status_ok s = false.
Proof.
  unfold gc_output.
  assert (Hnew : forall s db, NewFile (run_db r) = (Err s, db) -> status_ok s = false).
  { intros s0 db. unfold NewFile. cbn [NewFileNumber]. destruct (env_NewWritableFile _ _) as [[f|s1|] w] eqn:Hf; [done| |done].
    intros [= <- <-]. by eapply new_writable_error. }
  destruct (run_out r) as [o|]; destruct (_ <=? run_file_size r); try done;
    (destruct (NewFile (run_db r)) as [[[handle file]|s1|] db] eqn:Hf; [done| |done]; intros [= <- _]; by eapply Hnew).
Qed.

(** One turn of the loop: it stops only with an error. *)
Lemma gc_entry_files n e r s go r' :
  gc_files n r -> 0 <= next_of db0 -> n + 1 < two64 ->
  sep_before_flush (t_options db0) && negb (level_merge (titan_cf_options gc)) = false ->
  gc_entry listeners hash bytes0 indeterminate e r = Ok (s, go, r') ->
  go = status_ok s /\ (status_ok s = true -> gc_files (n + 1) r').
Proof.
  intros Hf Hpos Hn Hmode. destruct e as [[key value] index]. unfold gc_entry.
  match goal with |- context [job_metric m_bytes_read ?k (run_job r)] =>
    assert (Hf1 : gc_files n (run_with_job (job_metric m_bytes_read k (run_job r)) r)) by (by eapply gc_files_same);
    set (r1 := run_with_job (job_metric m_bytes_read k (run_job r)) r) in * end.
  pose proof (DiscardEntry_fails (run_base r1) (job_cf (run_job r1)) key index) as Hfail.
  destruct (DiscardEntry _ _ key index) as [[discardable|s1|] k]; cbn [fst] in Hfail;
    [|intros [= <- <- <-]; by rewrite Hfail|done].
  destruct discardable.
  { intros [= <- <- <-]. split; [done|]. intros _. apply (gc_files_next n); [by eapply gc_files_same|lia]. }
  change (blob_gc (job_metric m_bytes_read k (run_job r1))) with (blob_gc (run_job r1)).
  rewrite (wr_options _ _ (gf_writing _ _ Hf1)), (gf_gc _ _ Hf1), Hmode.
  set (r2 := run_with_job (job_metric m_bytes_read k (run_job r1)) r1).
  assert (Hf2 : gc_files n r2) by by eapply gc_files_same.
  unfold gc_rewrite. destruct (gc_output bytes0 r2) as [[[handle b]|s1|] r3] eqn:Hout; [| |done].
  2: { intros [= <- <- <-]. apply gc_output_error in Hout. by rewrite Hout. }
  destruct (gc_output_files n r2 _ r3 Hf2 Hpos Hn Hout) as [Hf3 Ho3].
  destruct (BlobFileBuilder_Add _ _ b) as [h b']. destruct (PutBlobIndex _ _ _ _) as [s1 wb].
  intros [= <- <- <-]. split; [done|]. intros _. eapply gc_files_same; [exact Hf3|done|done|].
  unfold outs. cbn [run_job run_out push_batch job_metric blob_file_builders]. by rewrite Ho3, !fmap_app.
Qed.

Lemma gc_loop_files fuel w stop i mi s0 r n s mi' r' :
  gc_files n r -> 0 <= next_of db0 -> n + Z.of_nat fuel < two64 ->
  sep_before_flush (t_options db0) && negb (level_merge (titan_cf_options gc)) = false ->
  gc_loop listeners hash bytes0 indeterminate fuel w stop i mi s0 r = Ok (s, mi', r') -> status_ok s = true ->
  gc_files (n + Z.of_nat fuel) r'.
Proof.
  revert i mi s0 r n. induction fuel as [|fuel IH]; intros i mi s0 r n Hf Hpos Hn Hmode; cbn [gc_loop];
    (destruct (BlobFileMergeIterator_Valid mi); [|intros [= <- <- <-] _; eapply gc_files_next; [done|lia]]); [done|].
  destruct (BlobFileMergeIterator_entry mi) as [e|]; [|done]. destruct (stop i); [by intros [= <- <- <-]|].
  destruct (gc_entry listeners hash bytes0 indeterminate e r) as [[[s1 go] r1]| |] eqn:He; cbn [result_bind]; [|done..].
  destruct (gc_entry_files n e r s1 go r1 Hf Hpos ltac:(lia) Hmode He) as [-> Hf1].
  destruct (status_ok s1) eqn:Hs1; [|intros [= <- <- <-]; congruence].
  destruct (BlobFileMergeIterator_Next w mi) as [mi1| |]; cbn [result_bind]; [|done..]. intros Hrun Hs.
  rewrite Nat2Z.inj_succ. replace (n + Z.succ (Z.of_nat fuel)) with (n + 1 + Z.of_nat fuel) by lia.
  eapply IH; [by apply Hf1|done|lia|done..].
Qed.

Lemma gc_files_start job fb d :
  blob_gc job = gc -> blob_file_builders job = [] -> gc_files (next_of db0) (MkGCRun job None 0 db0 fb d).
Proof.
  intros Hgc Hb. split; unfold outs, handle_numbers, named; cbn [run_job run_out run_db]; rewrite ?Hb;
    [done|apply writing_refl|lia|constructor|constructor|constructor].
Qed.

Lemma DoRunGC_files stop job fb d s r :
  blob_gc job = gc -> blob_file_builders job = [] -> 0 <= next_of db0 ->
  next_of db0 + Z.of_nat (gc_fuel (heap_of db0) (sampled_inputs gc)) < two64 ->
  sep_before_flush (t_options db0) && negb (level_merge (titan_cf_options gc)) = false ->
  DoRunGC listeners hash bytes0 indeterminate stop job db0 fb d = Ok (s, r) -> status_ok s = true ->
  gc_files (next_of db0 + Z.of_nat (gc_fuel (heap_of db0) (sampled_inputs gc))) r /\ run_out r = None.
Proof.
  intros Hgc Hb Hpos Hn Hmode. unfold DoRunGC.
  destruct (BuildIterator _ _ _ _) as [mi|s1|] eqn:Hbi; [|intros [= <- <-] _|done].
  2: { split; [|done]. eapply gc_files_next; [by apply gc_files_start|lia]. }
  destruct (BlobFileMergeIterator_SeekToFirst _ mi) as [mi1| |]; cbn [result_bind]; [|done..].
  destruct (gc_loop _ _ _ _ _ _ _ _ _ _ _) as [[[s1 mi2] r1]| |] eqn:Hloop; cbn [result_bind]; [|done..].
  destruct (status_ok (BlobFileMergeIterator_status mi2)) eqn:Hsi; [|intros [= <- <-]; congruence].
  destruct (status_ok s1) eqn:Hs1; [|intros [= <- <-]; congruence]. intros [= <- <-] _.
  rewrite Hgc in Hloop. pose proof (gc_loop_files _ _ _ _ _ _ _ _ _ _ _ (gc_files_start job fb d Hgc Hb) Hpos Hn Hmode Hloop Hs1) as Hf.
  destruct (run_out r1) as [o|] eqn:Ho; [|done]. split; [|done].
  eapply gc_files_same; [exact Hf|done|done|]. unfold outs. cbn [run_job run_out push_output blob_file_builders].
  rewrite Ho. cbn [option_list]. by rewrite app_nil_r.
Qed.
End run_files.

(** ** Installing the outputs *)

Section install.
Context `{Coding} `{!CodingOk _} `{Compressors} `{!CompressorsOk _} `{E : Env} `{!EnvOk E}
        `{BC : Cache bytes} `{FC : !Cache BlobFileReader} `{UnorderedIter} `{!ManifestIO}
        `{!WritableFiles} `{!WritableFilesOk} `{!StoredFilesOk}.
Context (listeners : Status -> Status) (bytes0 : Z).

Lemma finish_builders_ok os n bs k :
  finish_builders os n = (OK, bs, k) ->
  Forall2 (fun o o' => o'.1 = o.1 /\ BlobFileBuilder_Finish o.2 = (OK, o'.2)) os bs.
Proof.
  revert n bs k. induction os as [|[handle b] os IH]; intros n bs k; cbn [finish_builders].
  - intros [= <- _]. constructor.
  - destruct (BlobFileBuilder_Finish b) as [s b'] eqn:Hf. destruct (status_ok s) eqn:Hs; [|intros [= -> _ _]; done].
    destruct (finish_builders os (n + 1)) as [[s1 bs1] k1] eqn:Hrest. intros [= -> <- <-].
    apply status_ok_true in Hs as ->. constructor; [done|]. by eapply IH.
Qed.

(** The files of the outputs, with their metadata, records and names. *)
Definition outputs_built (dir : string) (cf : TitanCFOptions) (os : list (FileHandle * BlobFileBuilder)) : Prop :=
  forall o, o ∈ os -> GetName o.1 = BlobFileName dir (GetNumber o.1) /\ exists rs hs, building bytes0 cf rs hs o.2.

Lemma output_complete dir cf os bs db f :
  outputs_built dir cf os ->
  Forall2 (fun o o' => o'.1 = o.1 /\ BlobFileBuilder_Finish o.2 = (OK, o'.2)) os bs ->
  f ∈ (output_files bs db).1 ->
  exists o o', o ∈ os /\ o'.1 = o.1 /\ f.2.1 = o.1 /\
    forall rs hs, building bytes0 cf rs hs o.2 ->
      complete_file bytes0 dir cf (heap_of (output_files bs db).2) rs hs f (output_meta db o').
Proof.
  intros Hall Hfin Hf. pose proof (output_files_ok bs db) as Hof.
  destruct (output_files bs db) as [files db1]. cbn [fst snd] in *. destruct Hof as (_ & _ & Hmeta).
  apply list_elem_of_lookup in Hf as [x Hx].
  destruct (Forall2_lookup_l _ _ _ _ _ Hmeta Hx) as (o' & Ho' & Hf2 & _ & Hm).
  destruct (Forall2_lookup_r _ _ _ _ _ Hfin Ho') as (o & Ho & Hh & Hfo).
  assert (Hin : o ∈ os) by by eapply list_elem_of_lookup_2.
  exists o, o'. split_and!; [done|done|by rewrite Hf2|]. intros rs hs Hb.
  split; rewrite ?Hf2; cbn [fst snd]; try done.
  - rewrite Hh. by apply Hall.
  - by exists o.2, o'.2.
Qed.

(** Every output of a list is a file of the batch. *)
Lemma output_file_of bs db os o :
  Forall2 (fun o o' => o'.1 = o.1 /\ BlobFileBuilder_Finish o.2 = (OK, o'.2)) os bs -> o ∈ os ->
  exists f o', o' ∈ bs /\ f ∈ (output_files bs db).1 /\ f.2.1 = o.1 /\ f.2.2 = bfb_file o'.2 /\ o'.1 = o.1 /\
    BlobFileBuilder_Finish o.2 = (OK, o'.2) /\ heap_of (output_files bs db).2 !! f.1 = Some (output_meta db o').
Proof.
  intros Hfin [x Hx]%list_elem_of_lookup. destruct (Forall2_lookup_l _ _ _ _ _ Hfin Hx) as (o' & Ho' & Hh & Hfo).
  pose proof (output_files_ok bs db) as Hof. destruct (output_files bs db) as [files db1]. cbn [fst snd] in *.
  destruct Hof as (_ & _ & Hmeta). destruct (Forall2_lookup_r _ _ _ _ _ Hmeta Ho') as (f & Hf & Hf2 & _ & Hm).
  exists f, o'. split_and!; [by eapply list_elem_of_lookup_2..|by rewrite Hf2|by rewrite Hf2|done|done|done].
Qed.

Lemma output_files_writing bs db :
  writing db (output_files bs db).2 /\ next_of (output_files bs db).2 = next_of db.
Proof.
  revert db. induction bs as [|o bs IH]; intros db; cbn [output_files]; [split; [apply writing_refl|done]|].
  pose proof (add_meta_writing (output_meta db o) db) as Hm. destruct (add_meta _ db) as [l db1].
  destruct Hm as (Hw & _ & _ & Hn). destruct (IH db1) as [Hw1 Hn1].
  destruct (output_files bs db1) as [files db2]. cbn [snd] in *. split; [by eapply writing_trans|].
  unfold next_of in *. congruence.
Qed.

(** A record of an output, once the outputs are installed. *)
Lemma install_held cf_id count cf bs0 db0 n db bs os k db2 i key value :
  write_setup cf_id count cf bs0 db0 -> writing db0 db -> next_of db0 <= next_of db <= n -> n < two64 ->
  outputs_built (dirname (t_options db0)) cf os ->
  Forall (fun k => next_of db0 <= k < next_of db) (handle_numbers os) ->
  (level_merge (bs_cf_options bs0) = true -> sep_before_flush (t_options db0) = true) ->
  finish_builders os 0 = (OK, bs, k) ->
  Forall (fun o => w_GetFileSize (bfb_file o.2) < two64) bs ->
  BatchFinishFiles listeners cf_id (output_files bs db).1 (output_files bs db).2 = Ok (OK, db2) ->
  stored_at bytes0 cf os i key value -> record_wf (MkBlobRecord key value false) ->
  exists t rs bs' m, index_held cf_id i (MkBlobRecord key value false) t rs bs' m db2 /\
    dirname (bs_db_options bs') = dirname (t_options db0) /\ next_of db0 <= index_file_number i.
Proof.
  intros [Htgt [Hpos _] Hcomp Hrd] Hw Hnext Hn64 Hall Hrange Hmode Hfb Hsize Hbatch Hst Hwf.
  pose proof (finish_builders_ok _ _ _ _ Hfb) as Hfin. destruct (output_files_writing bs db) as [Hw1 Hn1].
  pose proof (writing_trans _ _ _ Hw Hw1) as Hw2. destruct (writing_target _ _ _ _ _ Hw2 Htgt) as [bf Htgt1].
  pose proof (output_batch_fresh cf_id bs db (writing_inv _ _ Hw (bt_inv _ _ _ _ Htgt))) as Hfresh.
  destruct Hst as (o & rs & hs & j & file & Ho & Hnum & Hfile & Hadd & Hr & Hh).
  destruct (output_file_of bs db os o Hfin Ho) as (f & o' & Ho' & Hf & Hfh & Hff & Hoh & Hofin & Hm).
  assert (Hcf : complete_file bytes0 (dirname (t_options db0)) cf (heap_of (output_files bs db).2) rs hs f (output_meta db o')).
  { split; [done| |by rewrite Hff| |].
    - cbn. by rewrite Hoh, Hfh.
    - rewrite Hfh. by apply Hall.
    - exists o.2, o'.2. split_and!; [by exists file|done|done]. }
  assert (Hcomplete : batch_complete bytes0 (dirname (t_options db0)) cf (output_files bs db).1 (output_files bs db).2).
  { intros g Hg. destruct (output_complete _ _ _ _ db g Hall Hfin Hg) as (og & og' & Hog & _ & _ & Hc).
    destruct (Hall og Hog) as (_ & rsg & hsg & Hbg). exists rsg, hsg, (output_meta db og'). by apply Hc. }
  assert (Hk : next_of db0 <= index_file_number i < next_of db).
  { rewrite Forall_forall in Hrange. apply Hrange. rewrite <- Hnum. unfold handle_numbers.
    apply list_elem_of_fmap. exists o.1. split; [done|]. apply list_elem_of_fmap. by exists o. }
  assert (Hmn : file_number (output_meta db o') = index_file_number i) by (cbn; by rewrite Hoh, Hnum).
  destruct (output_files bs db) as [files db1]. cbn [fst snd] in *.
  destruct (BatchFinish_held listeners bytes0 cf_id (dirname (t_options db0)) cf (set_building bf bs0) files
    db1 db2 f rs hs (output_meta db o') j (MkBlobRecord key value false) (blob_handle i) Htgt1) as (bs' & Hheld & Hdir);
    try done.
  - apply Hfresh. rewrite (wr_manifest _ _ Hw). by destruct (bt_manifest _ _ _ _ Htgt) as (log & -> & _).
  - cbn. rewrite Forall_forall in Hsize. by apply Hsize.
  - rewrite Hmn. unfold is_u64. lia.
  - cbn. rewrite (wr_options _ _ Hw).
    destruct (level_merge (bs_cf_options bs0)); [by rewrite Hmode|by rewrite andb_false_l].
  - rewrite (wr_caches _ _ Hw2), Hmn. intros rd. apply Hrd. lia.
  - exists (blob_file_compression cf), rs, bs', (output_meta db o'). split; [|by split; [|lia]].
    assert (Hi : i = MkBlobIndex (file_number (output_meta db o')) (blob_handle i)) by (destruct i; by rewrite Hmn).
    by rewrite Hi.
Qed.
End install.

(** ** The whole collection *)

Section collection.
Context `{Coding} `{!CodingOk _} `{Compressors} `{!CompressorsOk _} `{E : Env} `{!EnvOk E}
        `{BC : Cache bytes} `{!CacheOk BC} `{FC : !Cache BlobFileReader} `{!CacheOk FC} `{UnorderedIter} `{!ManifestIO}
        `{!WritableFiles} `{!WritableFilesOk} `{!StoredFilesOk} `{B : BaseDB} `{!BaseDBOk B} `{PriorityQueue}.
Context (listeners : Status -> Status) (hash : bytes -> Z) (bytes0 indeterminate : Z).

(** A database that is in order, and a collection of old files of it, which
    installs its outputs itself: [gs_installs] and [rr_mode] leave out
    [sep_before_flush] without [level_merge], [gs_sorted] the converse. *)
Record gc_setup (cf_id : Z) (gc : BlobGC) (bs : BlobStorage) (ess : list (list entry)) (fb : ForegroundBuilder)
    (db : TitanDBImpl) : Prop := {
  gs_ready : run_ready gc db cf_id ess;
  gs_nodup : NoDup (concat ess).*2;
  gs_setup : write_setup cf_id (Z.of_nat (gc_fuel (heap_of db) (gc_inputs gc))) (titan_cf_options gc) bs db;
  gs_sorted : level_merge (bs_cf_options bs) = true -> sep_before_flush (t_options db) = true;
  gs_installs : installs db fb;
  gs_records : Forall (fun e => record_wf (MkBlobRecord e.1.1 e.1.2 false)) (concat ess);
  gs_inputs : Forall (fun l => is_Some (heap_of db !! l) /\ file_number (deref (heap_of db) l) < next_of db) (gc_inputs gc)
}.

(** What a successful run hands to [Finish]. *)
Lemma Run_outputs stop gc db fb d cf_id ess bs s r :
  gc_setup cf_id gc bs ess fb db ->
  Run listeners hash bytes0 indeterminate stop (BlobGCJob_new gc) db fb d = Ok (s, r) -> status_ok s = true ->
  writing db (run_db r) /\ next_of db <= next_of (run_db r) < two64 /\
  outputs_built bytes0 (dirname (t_options db)) (titan_cf_options gc) (blob_file_builders (run_job r)) /\
  Forall (fun k => next_of db <= k < next_of (run_db r)) (handle_numbers (blob_file_builders (run_job r))) /\
  exists L gs, L ≡ₚ concat ess /\
    gc_done bytes0 (set_sampled_inputs (gc_inputs gc) gc) cf_id d L (run_job r) gs.
Proof.
  intros [Hready Hnd [_ [Hpos Hnum] _ _] _ _ _ _] Hrun Hs.
  destruct (Run_ok listeners hash bytes0 indeterminate stop gc db fb d cf_id ess Hready) as (s' & r' & Hrun' & Hok).
  rewrite Hrun in Hrun'. injection Hrun' as <- <-. destruct (Hok Hs) as (_ & L & gs & HL & Hdone).
  assert (Hne : gc_inputs gc <> []).
  { intros Hnil. pose proof (rr_inputs _ _ _ _ Hready) as Hin. rewrite Hnil in Hin. inversion Hin; subst.
    by destruct (rr_nonempty _ _ _ _ Hready). }
  unfold Run in Hrun. change (sampled_inputs (blob_gc (SampleCandidateFiles (BlobGCJob_new gc)))) with (gc_inputs gc) in Hrun.
  destruct (gc_inputs gc) as [|l ls] eqn:Hin; [done|]. rewrite <- Hin in *. clear Hne.
  destruct (DoRunGC_files listeners hash bytes0 indeterminate db (set_sampled_inputs (gc_inputs gc) gc) stop
    (SampleCandidateFiles (BlobGCJob_new gc)) fb d s r) as [[_ Hw Hnx _ Hr Hnm] Hout]; try done.
  { exact (rr_mode _ _ _ _ Hready). }
  unfold outs in Hr, Hnm. rewrite Hout in Hr, Hnm. cbn [option_list] in Hr, Hnm. rewrite app_nil_r in Hr, Hnm.
  split_and!; [done|lia|change (sampled_inputs (set_sampled_inputs (gc_inputs gc) gc)) with (gc_inputs gc) in *; lia| |done|].
  - intros o Ho. unfold named in Hnm. rewrite Forall_fmap, Forall_forall in Hnm. split; [by apply (Hnm o)|].
    apply list_elem_of_lookup in Ho as [x Hx].
    destruct (Forall2_lookup_l _ _ _ _ _ (gd_built _ _ _ _ _ _ _ Hdone) Hx) as (g & _ & file & Hfile & Hall).
    exists (record_of <$> g.1), g.2, file. by split.
  - by exists L, gs.
Qed.

(** The last part of [Finish] deletes only inputs. *)
Lemma finish_tail_held dir job db d job' db' cf_id i r t rs bs m :
  finish_tail OK job db d = Ok (OK, job', db', d) -> db_inv db ->
  (exists log, manifest (sys_set (t_sys db)) = Some log /\ forall n, log <> BlobFileName dir n) ->
  dirname (bs_db_options bs) = dir -> index_held cf_id i r t rs bs m db ->
  index_file_number i ∉ input_numbers job db ->
  exists bs', index_held cf_id i r t rs bs' m db'.
Proof.
  intros Hrun Hinv (log & Hman & Hlog) Hdir Hheld Hni. unfold finish_tail in Hrun. cbn [status_ok andb] in Hrun.
  assert (Hstats : forall job bs db, index_held cf_id i r t rs bs m db ->
            index_held cf_id i r t rs bs m (UpdateInternalOpStats job db)) by (intros job0 bs0 db0 []; by split).
  destruct (IsDropped d (job_cf job)); cbn [negb result_bind] in Hrun.
  { injection Hrun as <- <-. exists bs. by apply Hstats. }
  unfold DeleteInputBlobFiles in Hrun. set (edit := delete_inputs_edit _ _ _ _) in Hrun.
  destruct (delete_inputs_edit_deleted (job_cf job) (GetLatestSequenceNumber d)
    (sh_heap (sys_shared (t_sys db))) (sampled_inputs (blob_gc job))) as (_ & Ha & Hd). fold edit in Ha, Hd.
  destruct (LogAndApply edit (t_sys db)) as [[s sys']| |] eqn:Hla; cbn [result_bind] in Hrun; [|done..].
  injection Hrun as -> <- <-. cbn [status_ok].
  destruct (held_edit cf_id i r t rs bs m db edit sys' log Hheld Hinv) as (bs' & Hheld'); try done.
  - intros l Hl. rewrite Ha in Hl. by apply not_elem_of_nil in Hl.
  - rewrite Hdir. apply Hlog.
  - rewrite Hd. exact Hni.
  - exists bs'. by apply Hstats.
Qed.

(** Installing, rewriting and deleting, when all of it succeeds. *)
Lemma Finish_OK stop job db fb d job' db' d' bs k :
  installs db fb -> finish_builders (blob_file_builders job) 0 = (OK, bs, k) ->
  Finish listeners stop job db fb d = Ok (OK, job', db', d') ->
  exists db2 job1 job2 job3,
    BatchFinishFiles listeners (job_cf job) (output_files bs db).1 (output_files bs db).2 = Ok (OK, db2) /\
    RewriteValidKeyToLSM stop job d = (OK, job1, d') /\ same_job job job2 /\
    finish_tail OK job2 db2 d' = Ok (OK, job3, db', d').
Proof.
  intros Hinst Hfb Hrun. rewrite Finish_tail in Hrun by done. unfold InstallOutputBlobFiles in Hrun.
  rewrite Hfb in Hrun. cbn [status_ok] in Hrun. destruct (output_files bs db) as [files db1]. cbn [fst snd].
  set (job0 := MkBlobGCJob _ _ bs _) in Hrun. change (job_cf job0) with (job_cf job) in Hrun.
  destruct (BatchFinishFiles _ _ files db1) as [[s db2]| |]; cbn [result_bind] in Hrun; [|done..].
  assert (Htail : forall s j db d j' db' d', finish_tail s j db d = Ok (OK, j', db', d') -> s = OK /\ d' = d).
  { intros s0 j0 db0 d0 j0' db0' d0'. unfold finish_tail. destruct (status_ok s0) eqn:Hs0.
    - cbn [andb]. apply status_ok_true in Hs0 as ->.
      destruct (if negb _ then _ else _) as [[[? ?] ?]| |]; cbn [result_bind]; [|done..]. by intros [= _ _ _ ->].
    - cbn [andb result_bind]. intros [= -> _ _ _]. done. }
  destruct (status_ok s) eqn:Hs; [apply status_ok_true in Hs as ->|].
  2: { destruct (Htail _ _ _ _ _ _ _ Hrun) as [-> _]. done. }
  set (job1 := MkBlobGCJob (foldl _ _ _) _ _ _) in Hrun.
  assert (Hsame : same_job job job1).
  { destruct (add_outputs (blob_gc job) files) as [Hsi Hid]. split_and!; [done|exact Hsi|exact (f_equal (default 0) Hid)]. }
  pose proof (rewritten_same stop job job1 d Hsame) as Hrw. unfold rewritten in Hrw.
  pose proof (RewriteValidKeyToLSM_same stop job1 d) as Hsame2.
  destruct (RewriteValidKeyToLSM stop job1 d) as [[s2 job2] d2]. cbn [fst snd] in Hsame2.
  destruct (Htail _ _ _ _ _ _ _ Hrun) as [-> ->].
  destruct (RewriteValidKeyToLSM stop job d) as [[s3 job3] d3]. injection Hrw as <- <-.
  exists db2, job3, job2, job'. split_and!; [done|done|by eapply same_job_trans|done].
Qed.

(** The database with the outputs. *)
Lemma installed_db cf_id db0 db os db2 :
  writing db0 db -> db_inv db0 -> manifest (sys_set (t_sys db0)) <> None ->
  BatchFinishFiles listeners cf_id (output_files os db).1 (output_files os db).2 = Ok (OK, db2) ->
  db_inv db2 /\ manifest (sys_set (t_sys db2)) = manifest (sys_set (t_sys db0)) /\
  forall l, is_Some (heap_of db0 !! l) -> file_number (deref (heap_of db2) l) = file_number (deref (heap_of db0) l).
Proof.
  intros Hw Hinv Hman Hbatch. destruct (output_files_writing os db) as [Hw1 _].
  pose proof (writing_trans _ _ _ Hw Hw1) as Hw2.
  pose proof (output_batch_fresh cf_id os db (writing_inv _ _ Hw Hinv)) as Hfresh.
  rewrite (wr_manifest _ _ Hw) in Hfresh. specialize (Hfresh Hman).
  destruct (output_files os db) as [files db1]. cbn [fst snd] in *.
  destruct (BatchFinishFiles_ok listeners cf_id files db1 (writing_inv _ _ Hw2 Hinv) Hfresh) as (s & db3 & Hrun & Hs).
  rewrite Hbatch in Hrun. injection Hrun as <- <-. cbn [status_ok] in Hs. destruct Hs as (Hinv2 & _ & _).
  apply BatchFinishFiles_persistent in Hbatch as [Hp Hm]. split_and!; [done|by rewrite Hm, (wr_manifest _ _ Hw2)|].
  intros l [m Hl]. pose proof (lookup_weaken _ _ _ _ Hl (wr_heap _ _ Hw2)) as Hl1. unfold heap_of in *.
  rewrite (same_persistent_number _ _ _ Hp) by by eexists.
  by rewrite (deref_Some _ _ _ Hl1), (deref_Some _ _ _ Hl).
Qed.

(** C3: A garbage collection that installs its outputs does not change what reads
    return. Take a database that is in order and a collection of old files of a
    column family without a blob cache, where [sep_before_flush] and [level_merge]
    are both on or both off. ([sep_before_flush] alone is left out by [installs]:
    there the run hands the records to the foreground builder and ignores its
    failures, and [Finish] deletes the inputs without installing anything, so the
    claim is false, see [gc_skipped_value_lost]. [level_merge] alone is left out
    by [gs_sorted]: there the outputs are listed as sorted files, of which reads
    expect records without keys.) The run ends with a status;
    if it succeeds, its outputs can be completed, and [Finish] returns OK (the
    base database not having changed in between), then for every key whose index
    pointed to a record of an input, [Get] on the new database, whose inputs may
    be deleted, returns the value of that record. *)
Theorem gc_then_get (stop stop' : nat -> bool) (gc : BlobGC) (db : TitanDBImpl) (fb : ForegroundBuilder) (d : base)
    (cf_id : Z) (bs : BlobStorage) (ess : list (list entry)) :
  gc_setup cf_id gc bs ess fb db ->
  exists s r, Run listeners hash bytes0 indeterminate stop (BlobGCJob_new gc) db fb d = Ok (s, r) /\
    (status_ok s = true -> forall os n job db' d',
       finish_builders (blob_file_builders (run_job r)) 0 = (OK, os, n) ->
       Forall (fun o => w_GetFileSize (bfb_file o.2) < two64) os ->
       Finish listeners stop' (run_job r) (run_db r) fb d = Ok (OK, job, db', d') ->
       forall k v i, base_index d cf_id k i -> (k, v, i) ∈ concat ess ->
         exists db'', TitanDBImpl_GetImpl cf_id k d' db' = (Ok v, db'')).
Proof.
  intros Hset. pose proof Hset as [Hready Hnd Hws Hsort Hinst Hrec Hin].
  destruct (Run_ok listeners hash bytes0 indeterminate stop gc db fb d cf_id ess Hready) as (s & r & Hrun & _).
  exists s, r. split; [done|]. intros Hs os n job db' d' Hfb Hsize Hfinish k v i Hi Hkvi.
  destruct (Run_outputs stop gc db fb d cf_id ess bs s r Hset Hrun Hs) as (Hw & Hnx & Hbuilt & Hrange & L & gs & HL & Hdone).
  assert (Hinst' : installs (run_db r) fb) by (unfold installs; rewrite (wr_options _ _ Hw); exact Hinst).
  destruct (Finish_OK _ _ _ _ _ _ _ _ _ _ Hinst' Hfb Hfinish) as (db2 & job1 & job2 & job3 & Hbatch & Hrw & Hsame & Htail).
  assert (Hcf : job_cf (run_job r) = cf_id).
  { unfold job_cf. rewrite (gd_gc _ _ _ _ _ _ _ Hdone). cbn. by rewrite (rr_cf _ _ _ _ Hready). }
  rewrite Hcf in Hbatch.
  destruct (rewrite_keeps bytes0 stop' _ cf_id d L ess (run_job r) gs job1 d' Hdone (rr_cf _ _ _ _ Hready) HL Hnd Hrw) as [Hkeeps _].
  destruct (Hkeeps k v i Hi Hkvi) as (i' & Hget & Hstored).
  destruct (install_held listeners bytes0 cf_id _ (titan_cf_options gc) bs db (next_of (run_db r)) (run_db r) os
    (blob_file_builders (run_job r)) n db2 i' k v Hws Hw) as (t & rs & bs' & m & Hheld & Hdir & Hnew); try done; [lia|lia| |].
  { rewrite Forall_forall in Hrec. by apply (Hrec (k, v, i)). }
  destruct (bt_manifest _ _ _ _ (ws_target _ _ _ _ _ Hws)) as (log & Hlog & Hlogn).
  destruct (installed_db cf_id db (run_db r) os db2 Hw (bt_inv _ _ _ _ (ws_target _ _ _ _ _ Hws)) ltac:(by rewrite Hlog) Hbatch)
    as (Hinv2 & Hman2 & Hnum2).
  destruct (finish_tail_held (dirname (t_options db)) job2 db2 d' job3 db' cf_id i' (MkBlobRecord k v false) t rs bs' m Htail Hinv2)
    as (bs2 & Hheld2); [exists log; by rewrite Hman2|done|done| |].
  { destruct Hsame as (_ & Hsi & _). unfold input_numbers. rewrite Hsi, (gd_gc _ _ _ _ _ _ _ Hdone).
    intros (l & Heq & Hl)%list_elem_of_fmap. rewrite Forall_forall in Hin. destruct (Hin l Hl) as [Hsome Hlt].
    unfold heap_of in Hnum2. rewrite (Hnum2 l Hsome) in Heq. unfold heap_of in Hlt. lia. }
  destruct (held_index _ _ _ _ _ _ _ _ Hheld2) as (m2 & f & Hidx).
  destruct (GetImpl_index cf_id k d' i' _ bs2 m2 t rs f db' Hidx Hget) as (db'' & Hread & _). by exists db''.
Qed.
End collection.

(** ** An application *)

Section witness.
#[local] Existing Instances leb128_coding leb128_coding_ok rle_compressors rle_compressors_ok mem_env mem_env_ok
  map_to_list_iter mem_manifest blobs_map readers_map mem_files mem_basedb list_pq.

(** The database of [TitanDbInv], with a manifest. *)
Definition example_collected_db : TitanDBImpl :=
  with_sys (MkSys (MkBlobFileSet example_db_options 100 [] ∅ {[ 5 := example_read_storage ]} (Some "/MANIFEST-000001") 15)
              (sys_shared (t_sys example_gc_db)) example_gc_fs) example_gc_db.

Lemma example_collected_inv : db_inv example_collected_db.
Proof.
  unfold db_inv, example_collected_db. cbn [t_sys with_sys sys_set column_families sys_shared]. split.
  - apply map_Forall_singleton. reflexivity.
  - apply map_Forall_singleton. exact bytewise_compare_ok.
  - apply map_Forall_singleton.
    refine (AddBlobFile_inv [] (BlobStorage_new example_db_options example_cf_options 5)
      (sys_shared (t_sys example_gc_db)) 1%positive (deref example_gc_heap 1) bytewise_compare_ok _ _ _ _ _);
      [|vm_compute; first [reflexivity|intuition congruence]..].
    apply storage_new_inv; [vm_compute; congruence|]. intros t v _ Hv. vm_compute in Hv. discriminate.
  - intros id1 bs1 n1 id2 bs2 n2 l [<- _]%lookup_singleton_Some _ [<- _]%lookup_singleton_Some _. reflexivity.
Qed.

Lemma example_gc_setup :
  gc_setup 5 example_gc example_read_storage example_gc_entries example_fb example_collected_db.
Proof.
  split.
  - destruct example_gc_ready as [Hcmp Hin Hne Htgt Hmode Hcf]. by split.
  - apply (NoDup_fmap_1 (fun i => handle_offset (blob_handle i))). apply (bool_decide_unpack _). vm_compute. exact I.
  - split.
    + split; [exact example_collected_inv|reflexivity..|].
      exists "/MANIFEST-000001"%string. split; [reflexivity|]. intros n.
      change (BlobFileName (dirname (t_options example_collected_db)) n) with ("/" +:+ pretty n)%string.
      intros Heq. injection Heq as Heq. symmetry in Heq. by apply pretty_ne_manifest in Heq.
    + vm_compute. intuition congruence.
    + vm_compute. intuition congruence.
    + intros n rd _ Hrd. vm_compute in Hrd. discriminate.
  - discriminate.
  - reflexivity.
  - repeat constructor; unfold slice_wf, two32; vm_compute; congruence.
  - constructor; [|constructor]. split; [by eexists|]. vm_compute. reflexivity.
Qed.

Definition example_collect : result (Status * GCRun) :=
  Run (fun s => s) (fun _ => 0) 0 0 (fun _ => false) (BlobGCJob_new example_gc) example_collected_db example_fb example_base.

Lemma example_collect_ok :
  match example_collect with
  | Ok (OK, r) =>
      match finish_builders (blob_file_builders (run_job r)) 0,
            Finish (fun s => s) (fun _ => false) (run_job r) (run_db r) example_fb example_base with
      | (s, os, _), Ok (s', _, _, _) =>
          s = OK /\ s' = OK /\ forallb (fun o => w_GetFileSize (bfb_file o.2) <? two64) os = true
      | _, _ => False
      end
  | _ => False
  end.
Proof. vm_compute. split_and!; reflexivity. Qed.

Lemma gc_then_get_witness :
  exists r job db' d' db'', example_collect = Ok (OK, r) /\
    Finish (fun s => s) (fun _ => false) (run_job r) (run_db r) example_fb example_base = Ok (OK, job, db', d') /\
    TitanDBImpl_GetImpl 5 [Byte.x6b; Byte.x31] d' db' = (Ok [Byte.x76; Byte.x62; Byte.x63], db'').
Proof.
  destruct (gc_then_get (fun s => s) (fun _ => 0) 0 0 (fun _ => false) (fun _ => false) example_gc example_collected_db
    example_fb example_base 5 example_read_storage example_gc_entries example_gc_setup) as (s & r & Hrun & Hok).
  pose proof example_collect_ok as Hst. unfold example_collect in Hst |- *. rewrite Hrun in Hst.
  destruct s; try (exact (False_ind _ Hst)). specialize (Hok eq_refl).
  destruct (finish_builders (blob_file_builders (run_job r)) 0) as [[s os] n].
  destruct (Finish _ _ _ _ _ _) as [[[[s' job] db'] d']| |] eqn:Hfin; [|exact (False_ind _ Hst)..].
  destruct Hst as (-> & -> & Hsize).
  destruct (Hok os n job db' d' eq_refl) with (k := [Byte.x6b; Byte.x31]) (v := [Byte.x76; Byte.x62; Byte.x63])
    (i := example_index) as [db'' Hget].
  - apply Forall_forall. intros o Ho. rewrite forallb_forall in Hsize. apply Z.ltb_lt, Hsize. by apply list_elem_of_In.
  - reflexivity.
  - exists (BlobIndex_EncodeTo example_index), []. split; vm_compute; reflexivity.
  - right. left.
  - exists r, job, db', d', db''. exact (conj Hrun (conj Hfin Hget)).
Defined.
End witness.
