(* ===== verification/Recovery.v ===== *)
(** * Opening a database that was closed or has crashed
    ([BlobFileSet::Open], [Recover] and [OpenManifest], src/blob_file_set.cc)

    What is on disk after the edits of a history, and that opening it gives the
    live files of the history, leaves their blob files alone, and writes a new
    manifest that says the same. *)

From S2P Require Import Prelude Rocks Options Stats Util BlobFormat Env BlobFileBuilder BlobFileReader VersionEdit BlobStorage StorageInv EditCollector BlobFileSet ApplyInv ManifestReplay Scheduler DbEvents DbEventsInv FileManager StoredFiles Directory GCJob GCJobInv GCFinish FinishedFiles.

(** The goal says that a step that failed returned OK. *)
Ltac bad_status Hs :=
  let Heq := fresh in
  rewrite ?Hs; cbv beta iota; rewrite ?Hs; intros Heq;
  apply (f_equal (fun x => status_ok (fst x))) in Heq; cbn [fst] in Heq; rewrite Hs in Heq; discriminate.

(** ** Snapshots *)

Section snapshot.
Context `{Coding} `{!CodingOk _} `{Compressors} `{E : Env} `{BC : Cache bytes}
        `{FC : !Cache BlobFileReader} `{UnorderedIter} `{!ManifestIO}.

(** The edits of a snapshot, with the heap they are encoded in. *)
Definition snapshot_edits (h : heap) (vs : BlobFileSet) : list (heap * VersionEdit) :=
  (h, SetNextFileNumber (set_next_file_number vs) VersionEdit_default)
  :: ((fun cf => (h, snapshot_edit h cf)) <$> unordered_iter (column_families vs)).

Lemma snapshot_records_of h vs :
  snapshot_records h vs = (fun he => VersionEdit_EncodeTo he.1 he.2) <$> snapshot_edits h vs.
Proof. unfold snapshot_records, snapshot_edits. cbn [fmap list_fmap fst snd]. by rewrite <- list_fmap_compose. Qed.

(** The files of a snapshot's edit. *)
Definition live_locs (h : heap) (l : list (Z * loc)) : list loc :=
  (filter (fun f => is_obsolete (deref h f.2) = false) l).*2.

Lemma snapshot_edit_fields h id bs :
  let e := snapshot_edit h (id, bs) in
  column_family_id e = id /\ has_next_file_number e = false /\ next_file_number e = 0 /\
  added_files e = live_locs h (unordered_iter (files bs)) /\ deleted_files e = [] /\
  updated_discardable_size e = ∅.
Proof.
  unfold snapshot_edit. cbn [fst snd]. generalize (unordered_iter (files bs)) as L.
  intros L. induction L as [|[n l] L IH] using rev_ind; [done|].
  rewrite foldl_snoc. destruct IH as (Hc & Hh & Hn & Ha & Hd & Hu). cbn [snd].
  unfold live_locs in *. rewrite filter_app, fmap_app, filter_cons, filter_nil. cbn [snd].
  destruct (is_obsolete (deref h l)).
  - rewrite decide_False by done. cbn [fmap list_fmap]. rewrite app_nil_r. by split_and!.
  - rewrite decide_True by done. cbn. split_and!; try done. by rewrite Ha.
Qed.

(** They are the live files under their numbers. *)
Lemma snapshot_numbered id bs sh :
  storage_inv (obsolete_files bs) bs sh ->
  numbered (sh_heap sh) (added_files (snapshot_edit (sh_heap sh) (id, bs))) =
    filter (fun f => is_obsolete (deref (sh_heap sh) f.2) = false) (unordered_iter (files bs)).
Proof.
  intros Hinv. destruct (snapshot_edit_fields (sh_heap sh) id bs) as (_ & _ & _ & -> & _).
  unfold numbered, live_locs. rewrite <- list_fmap_compose. rewrite <- (list_fmap_id (filter _ _)) at 2.
  apply list_fmap_ext. intros i [n l] Hl. cbn. apply list_elem_of_lookup_2, list_elem_of_filter in Hl as [_ Hl].
  apply elem_of_unordered_iter in Hl. by rewrite (inv_number _ _ _ _ _ Hinv Hl).
Qed.

Lemma snapshot_metas id bs sh :
  storage_inv (obsolete_files bs) bs sh ->
  edit_metas (sh_heap sh) (snapshot_edit (sh_heap sh) (id, bs)) = live_files bs sh.
Proof.
  intros Hinv. unfold edit_metas, added_map, live_files. rewrite (snapshot_numbered id bs sh Hinv).
  apply map_eq. intros n. rewrite lookup_fmap, lookup_live_of.
  pose proof (NoDup_unordered_iter (files bs)) as Hnd.
  assert (Hnd' : NoDup (filter (fun f : Z * loc => is_obsolete (deref (sh_heap sh) f.2) = false) (unordered_iter (files bs))).*1)
    by (eapply sublist_NoDup; [exact Hnd|apply fmap_sublist, sublist_filter]).
  destruct (files bs !! n) as [l|] eqn:Hn; [destruct (is_obsolete (deref (sh_heap sh) l)) eqn:Ho|].
  - rewrite not_elem_of_list_to_map_1; [done|]. intros ([n' l'] & -> & [Hl Hin]%list_elem_of_filter)%list_elem_of_fmap.
    cbn in *. apply elem_of_unordered_iter in Hin. congruence.
  - rewrite (elem_of_list_to_map_1 _ n l Hnd'); [done|]. apply list_elem_of_filter. split; [done|].
    by apply elem_of_unordered_iter.
  - rewrite not_elem_of_list_to_map_1; [done|]. intros ([n' l'] & -> & [_ Hin]%list_elem_of_filter)%list_elem_of_fmap.
    cbn in *. apply elem_of_unordered_iter in Hin. congruence.
Qed.

(** Every live file's metadata fits its fields. *)
Definition metas_wf (cfs : gmap Z BlobStorage) (sh : Shared) : Prop :=
  map_Forall (fun id bs => is_u32 id /\ map_Forall (fun _ m => meta_wf m) (live_files bs sh)) cfs.

Lemma snapshot_valid st id bs sh :
  storage_inv (obsolete_files bs) bs sh -> is_u32 id -> map_Forall (fun _ m => meta_wf m) (live_files bs sh) ->
  hs_known st id = ∅ -> valid_edit st (sh_heap sh) (snapshot_edit (sh_heap sh) (id, bs)).
Proof.
  intros Hinv Hid Hwf Hk. destruct (snapshot_edit_fields (sh_heap sh) id bs) as (Hc & Hh & Hn & Ha & Hd & Hu).
  split.
  - split; rewrite ?Hn, ?Hd, ?Hu, ?Ha, ?Hc; [done|done|done| |constructor|apply map_Forall_empty].
    apply Forall_forall. intros l ([n l'] & -> & [Hl Hin]%list_elem_of_filter)%list_elem_of_fmap. cbn in *.
    apply elem_of_unordered_iter in Hin. specialize (Hwf n). unfold live_files in Hwf.
    rewrite lookup_live_of, Hin, Hl in Hwf. exact (Hwf _ eq_refl).
  - rewrite (snapshot_numbered id bs sh Hinv). eapply sublist_NoDup; [apply (NoDup_unordered_iter (files bs))|].
    apply fmap_sublist, sublist_filter.
  - rewrite Hd. constructor.
  - rewrite Hc, Hk. set_solver.
  - unfold deleted_set. rewrite Hd. set_solver.
  - by rewrite Hh.
Qed.

Lemma snapshot_step st id bs sh :
  storage_inv (obsolete_files bs) bs sh -> hs_live st id = ∅ -> hs_known st id = ∅ ->
  let st' := hs_step st (sh_heap sh) (snapshot_edit (sh_heap sh) (id, bs)) in
  (hs_live st' id = live_files bs sh /\ hs_known st' id = dom (live_files bs sh)) /\
  (forall id', id' <> id -> hs_live st' id' = hs_live st id' /\ hs_known st' id' = hs_known st id') /\
  hs_next st' = hs_next st /\ hs_has_next st' = hs_has_next st.
Proof.
  intros Hinv Hl Hk. destruct (snapshot_edit_fields (sh_heap sh) id bs) as (Hc & Hh & Hn & _ & Hd & _).
  unfold hs_step. cbn [hs_live hs_known hs_next hs_has_next]. rewrite Hc, Hh. unfold upd. split; [|split; [by intros; rewrite !decide_False|done]].
  rewrite !decide_True by done. rewrite Hl, Hk, (snapshot_metas id bs sh Hinv). split; [|set_solver]. apply map_eq. intros n.
  rewrite lookup_spec_edit. unfold deleted_set. rewrite Hd. cbn. rewrite decide_False by set_solver.
  destruct (live_files bs sh !! n); by rewrite ?lookup_empty.
Qed.

(** The edits of the column families [L], replayed. *)
Lemma snapshot_history sh L st :
  (forall id bs, (id, bs) ∈ L -> storage_inv (obsolete_files bs) bs sh /\ is_u32 id /\
     map_Forall (fun _ m => meta_wf m) (live_files bs sh)) ->
  NoDup L.*1 -> (forall id, id ∈ L.*1 -> hs_live st id = ∅ /\ hs_known st id = ∅) ->
  exists st', history st ((fun cf => (sh_heap sh, snapshot_edit (sh_heap sh) cf)) <$> L) st' /\
    (forall id bs, (id, bs) ∈ L -> hs_live st' id = live_files bs sh /\ hs_known st' id = dom (live_files bs sh)) /\
    (forall id, id ∉ L.*1 -> hs_live st' id = hs_live st id /\ hs_known st' id = hs_known st id) /\
    hs_next st' = hs_next st /\ hs_has_next st' = hs_has_next st.
Proof.
  revert st. induction L as [|[id bs] L IH]; intros st Hok Hnd Hst; cbn [fmap list_fmap].
  { exists st. split_and!; [constructor|by intros ? ? ?%not_elem_of_nil|done..]. }
  cbn [fmap list_fmap fst] in Hnd, Hst. apply NoDup_cons in Hnd as [Hni Hnd].
  destruct (Hok id bs ltac:(left)) as (Hinv & Hid & Hwf). destruct (Hst id ltac:(left)) as [Hl Hk].
  destruct (snapshot_step st id bs sh Hinv Hl Hk) as (Hl' & Ho & Hn & Hh).
  set (st1 := hs_step st _ _) in *. destruct (IH st1) as (st' & Hhist & HL & Hr & Hn' & Hh').
  - intros id' bs' Hin. apply Hok. by right.
  - done.
  - intros id' Hin. assert (Hne : id' <> id) by (intros ->; done). destruct (Ho id' Hne) as [-> ->].
    apply Hst. by right.
  - exists st'. split_and!; [by econstructor; [apply snapshot_valid|]| | |congruence|congruence].
    + intros id' bs' [[= -> ->]|Hin]%elem_of_cons; [|by apply HL]. by destruct (Hr id Hni) as [-> ->].
    + intros id' [Hne Hni']%not_elem_of_cons. destruct (Hr id' Hni') as [-> ->]. by apply Ho.
Qed.

(** A snapshot describes the storages. *)
Lemma snapshot_consistent sys :
  set_inv (column_families (sys_set sys)) (sys_shared sys) ->
  metas_wf (column_families (sys_set sys)) (sys_shared sys) -> is_u64 (set_next_file_number (sys_set sys)) ->
  exists st, consistent sys (snapshot_edits (sh_heap (sys_shared sys)) (sys_set sys)) st /\
    forall id bs, column_families (sys_set sys) !! id = Some bs -> hs_known st id = dom (live_files bs (sys_shared sys)).
Proof.
  intros Hinv Hwf Hn. set (h := sh_heap (sys_shared sys)).
  set (e := SetNextFileNumber (set_next_file_number (sys_set sys)) VersionEdit_default).
  assert (Hstart : forall id, hs_live (hs_step hs_init h e) id = ∅ /\ hs_known (hs_step hs_init h e) id = ∅).
  { intros id. unfold hs_step, upd. cbn. case_decide; [|done]. split; [|set_solver].
    apply map_eq. intros n. rewrite lookup_spec_edit. cbn. by case_decide. }
  destruct (snapshot_history (sys_shared sys) (unordered_iter (column_families (sys_set sys))) (hs_step hs_init h e))
    as (st & Hhist & HL & _ & Hnext & Hhas).
  - intros id bs Hin%elem_of_unordered_iter. destruct (Hwf id bs Hin) as [Hid Hm]. split_and!; try done.
    by apply (set_storage _ _ Hinv id).
  - apply NoDup_unordered_iter.
  - intros id _. apply Hstart.
  - exists st. split; [|intros id bs Hbs; by apply HL, elem_of_unordered_iter]. split.
    + econstructor; [|exact Hhist]. split.
      * split; cbn; [done|done|unfold is_u32; vm_compute; intuition congruence|constructor|constructor|apply map_Forall_empty].
      * constructor.
      * constructor.
      * cbn. set_solver.
      * cbn. set_solver.
      * intros _. unfold is_u64 in Hn. cbn. lia.
    + by rewrite Hhas.
    + rewrite Hnext. done.
    + intros id bs Hbs. apply HL. by apply elem_of_unordered_iter.
    + apply Forall_cons. split; [by intros l ?%not_elem_of_nil|]. apply Forall_fmap, Forall_forall.
      intros [id bs] Hin%elem_of_unordered_iter l Hl. cbn [compose fst snd] in *.
      destruct (snapshot_edit_fields h id bs) as (-> & _ & _ & Ha & _). unfold h in *. rewrite Ha in Hl.
      apply list_elem_of_fmap in Hl as ([n l'] & -> & [_ Hf]%list_elem_of_filter). apply elem_of_unordered_iter in Hf.
      intros bs' Hbs'. assert (bs' = bs) as -> by congruence. cbn [snd].
      by apply (inv_level_index _ _ _ n l' (set_storage _ _ Hinv id bs Hin)).
Qed.
End snapshot.

(** ** The manifest on disk *)

Section disk.
Context `{Coding} `{!CodingOk _} `{Compressors} `{E : Env} `{!EnvOk E} `{BC : Cache bytes}
        `{FC : !Cache BlobFileReader} `{UnorderedIter} `{!ManifestIO} `{!WritableFiles} `{!StoredFilesOk}
        `{!DirectoryLaws}.

Definition encoded (es : list (heap * VersionEdit)) : list bytes :=
  (fun he => VersionEdit_EncodeTo he.1 he.2) <$> es.

(** "CURRENT" names an intact log with the records of [es]. *)
Definition log_on_disk (dir : string) (w : fs) (log : string) (es : list (heap * VersionEdit)) : Prop :=
  is_log w log (encoded es) /\
  exists name, ReadFileToString w (CurrentFileName dir) = Ok (name ++ [Byte.x0a]) /\
    in_dir dir (name_of_bytes name) = log.

Definition on_disk (dir : string) (w : fs) (es : list (heap * VersionEdit)) : Prop :=
  exists log, log_on_disk dir w log es.

(** The set writes to it. *)
Definition disk_open (dir : string) (sys : Sys) (es : list (heap * VersionEdit)) : Prop :=
  exists n, is_u64 n /\ manifest (sys_set sys) = Some (DescriptorFileName dir n) /\
    log_on_disk dir (sys_fs sys) (DescriptorFileName dir n) es.

(** The blob files of a directory keep their contents. *)
Definition keeps_blobs (dir : string) (P : Z -> Prop) (w w' : fs) : Prop :=
  forall n c, P n -> holds_file w (BlobFileName dir n) c -> holds_file w' (BlobFileName dir n) c.

Lemma touches_keeps dir P m w w' : only_touches (DescriptorFileName dir m) w w' -> keeps_blobs dir P w w'.
Proof. intros Ht n c _. apply Ht, blob_not_descriptor. Qed.

Lemma keeps_trans dir P w1 w2 w3 : keeps_blobs dir P w1 w2 -> keeps_blobs dir P w2 w3 -> keeps_blobs dir P w1 w3.
Proof. intros H12 H23 n c Hn Hc. by apply H23, H12. Qed.

Lemma add_records_log dir m rs rs0 sys sys' :
  for_each (add_record (DescriptorFileName dir m)) rs sys = (OK, sys') ->
  is_log (sys_fs sys) (DescriptorFileName dir m) rs0 ->
  is_log (sys_fs sys') (DescriptorFileName dir m) (rs0 ++ rs) /\
  sys_set sys' = sys_set sys /\ sys_shared sys' = sys_shared sys /\
  keeps_blobs dir (fun _ => True) (sys_fs sys) (sys_fs sys').
Proof.
  revert rs0 sys. induction rs as [|r rs IH]; intros rs0 sys; cbn [for_each].
  - intros [= <-] Hlog. rewrite app_nil_r. split_and!; [done..|]. by intros n c _.
  - unfold add_record at 1. pose proof (log_touches (DescriptorFileName dir m) r (sys_fs sys)) as Ht.
    destruct (log_AddRecord _ r (sys_fs sys)) as [s w] eqn:Ha. destruct (status_ok s) eqn:Hs.
    2: { bad_status Hs. }
    apply status_ok_true in Hs as ->. intros Hrun Hlog.
    destruct (IH (rs0 ++ [r]) _ Hrun (log_append _ _ _ _ _ Ha Hlog)) as (Hlog' & Hset & Hsh & Hk).
    rewrite <- app_assoc in Hlog'. split_and!; try done. eapply keeps_trans; [|exact Hk]. by apply (touches_keeps dir _ m).
Qed.

Lemma OpenManifest_disk m sys sys' :
  is_u64 m -> OpenManifest m sys = (OK, sys') ->
  let dir := set_dirname (sys_set sys) in
  disk_open dir sys' (snapshot_edits (sh_heap (sys_shared sys)) (sys_set sys)) /\
  sys_set sys' = with_manifest (Some (DescriptorFileName dir m)) (obsolete_manifests (sys_set sys)) (sys_set sys) /\
  sys_shared sys' = sys_shared sys /\ keeps_blobs dir (fun _ => True) (sys_fs sys) (sys_fs sys').
Proof.
  intros Hm. unfold OpenManifest. cbv zeta. set (dir := set_dirname (sys_set sys)). set (log := DescriptorFileName dir m).
  pose proof (new_log_touches log (sys_fs sys)) as Hnt. destruct (NewWritableFile log (sys_fs sys)) as [s w] eqn:Hnew.
  destruct (status_ok s) eqn:Hs; cbn [negb]; [apply status_ok_true in Hs as ->|bad_status Hs].
  unfold WriteSnapshot. cbn [sys_shared sys_set]. set (vs := with_manifest (Some log) _ _).
  destruct (for_each (add_record log) _ _) as [s sys1] eqn:Hsnap.
  destruct (status_ok s) eqn:Hs; [apply status_ok_true in Hs as ->|bad_status Hs].
  destruct (add_records_log dir m _ [] _ _ Hsnap (log_new _ _ _ Hnew)) as (Hlog & Hset & Hsh & Hk).
  cbn [sys_set sys_shared sys_fs] in *. pose proof (log_sync_touches log (sys_fs sys1)) as Hst.
  destruct (SyncTitanManifest log (sys_fs sys1)) as [s w2] eqn:Hsync. cbn [sys_set sys_shared sys_fs].
  destruct (status_ok s) eqn:Hs; [apply status_ok_true in Hs as ->|bad_status Hs].
  rewrite Hset. change (set_dirname vs) with dir.
  pose proof (set_current_keeps dir m w2) as Hck. destruct (SetCurrentFile dir m w2) as [s w3] eqn:Hcur.
  destruct (status_ok s) eqn:Hs; [apply status_ok_true in Hs as ->|bad_status Hs].
  intros [= <-]. cbn [sys_set sys_shared sys_fs snd] in *. split_and!; try done.
  - exists m. split; [done|]. split; [done|]. cbn [sys_fs]. split.
    + eapply current_log; [exact Hcur|]. eapply log_synced; [exact Hsync|]. rewrite snapshot_records_of in Hlog. exact Hlog.
    + destruct (current_read _ _ _ _ Hcur) as (name & Hr & Hn). by exists name.
  - intros n c _ Hc. apply Hck, (touches_keeps dir (fun _ => True) m _ _ Hst n c I), Hk; [done|].
    by apply (touches_keeps dir (fun _ => True) m _ _ Hnt n c I).
Qed.
End disk.

(** ** The steps of [Recover] *)

Section steps.
Context `{Coding} `{!CodingOk _} `{Compressors} `{E : Env} `{!EnvOk E} `{BC : Cache bytes}
        `{FC : !Cache BlobFileReader} `{UnorderedIter} `{!ManifestIO} `{!WritableFiles} `{!StoredFilesOk}
        `{!DirectoryLaws}.

(** The storages of a new set. *)
Lemma foldl_emplace {A B} (f : Z -> A -> B) (L : list (Z * A)) :
  NoDup L.*1 -> forall id,
  foldl (fun m cf => emplace cf.1 (f cf.1 cf.2) m) (∅ : gmap Z B) L !! id = f id <$> (list_to_map L : gmap Z A) !! id.
Proof.
  revert L. refine (rev_ind _ _ _); [done|]. intros [k x] L IH Hnd id.
  rewrite fmap_app in Hnd. apply NoDup_app in Hnd as (Hnd & Hdis & _).
  assert (Hk : k ∉ L.*1) by (intros Hin; apply (Hdis _ Hin); left).
  rewrite foldl_snoc, list_to_map_snoc by done. cbn [fst snd]. unfold emplace. rewrite IH by done.
  rewrite not_elem_of_list_to_map_1 by done. cbn [fmap option_fmap option_map].
  destruct (decide (id = k)) as [->|Hne]; [by rewrite !lookup_insert_eq|].
  rewrite !lookup_insert_ne by done. by apply IH.
Qed.

Lemma AddColumnFamilies_lookup cfs options id :
  column_families (AddColumnFamilies cfs (BlobFileSet_new options)) !! id =
    (fun cf => BlobStorage_new options cf id) <$> cfs !! id.
Proof.
  unfold AddColumnFamilies. cbn [column_families with_cfs BlobFileSet_new set_db_options].
  rewrite (foldl_emplace (fun id cf => BlobStorage_new options cf id)).
  - f_equal. f_equal. rewrite <- (list_to_map_to_list cfs) at 2. apply list_to_map_proper; [|apply ordered_iter_perm].
    rewrite ordered_iter_perm. apply NoDup_fst_map_to_list.
  - rewrite ordered_iter_perm. apply NoDup_fst_map_to_list.
Qed.

(** What the options of the column families have to satisfy, and what is counted
    for them. *)
Record cfs_ok (cfs : gmap Z TitanCFOptions) (sh : Shared) : Prop := {
  co_ids : map_Forall (fun id _ => is_u32 id) cfs;
  co_cmp : map_Forall (fun _ cf => ComparatorOk (comparator (cf_base cf))) cfs;
  co_levels : map_Forall (fun _ cf => 0 <= num_levels (cf_base cf)) cfs;
  co_stats : forall id t v, t ∈ counted -> stat (sh_stats sh) id t = Some v -> v = 0
}.

Lemma new_storages_inv cfs options sh :
  cfs_ok cfs sh -> let new := column_families (AddColumnFamilies cfs (BlobFileSet_new options)) in
  set_inv new sh /\ map_Forall (fun _ bs => files bs = ∅) new.
Proof.
  intros [_ Hcmp Hlev Hst] new.
  assert (Hnew : forall id bs, new !! id = Some bs -> exists cf, cfs !! id = Some cf /\ bs = BlobStorage_new options cf id).
  { intros id bs. unfold new. rewrite AddColumnFamilies_lookup. intros (cf & -> & Hcf)%fmap_Some. by exists cf. }
  split; [split|].
  - by intros id bs (cf & _ & ->)%Hnew.
  - intros id bs (cf & Hcf & ->)%Hnew. by apply (Hcmp id).
  - intros id bs (cf & Hcf & ->)%Hnew. apply storage_new_inv; [by apply (Hlev id)|]. intros t v. apply Hst.
  - intros id1 bs1 n1 id2 bs2 n2 l (cf & _ & ->)%Hnew Hn. cbn in Hn. by rewrite lookup_empty in Hn.
  - by intros id bs (cf & _ & ->)%Hnew.
Qed.

(** [MarkAllFilesForGC]: files are marked, and stay what they are. *)
Lemma restart_mild bs sh :
  no_obsolete bs (sh_heap sh) ->
  (bs_MarkAllFilesForGC (bs, sh)).1 = bs /\ mild sh (bs_MarkAllFilesForGC (bs, sh)).2 /\
  sh_caches (bs_MarkAllFilesForGC (bs, sh)).2 = sh_caches sh.
Proof.
  intros Hno. unfold bs_MarkAllFilesForGC. cbn [fst snd]. split; [done|].
  apply (foldl_invariant (fun sh' => mild sh sh' /\ sh_caches sh' = sh_caches sh)); [split; [apply mild_refl|done]|].
  intros sh' [n l] Hin%elem_of_unordered_iter [[He Hs] Hc]. split; [|done]. split; cbn [sh_heap sh_stats set_heap set_stats snd].
  - eapply evolve_trans; [exact He|]. apply evolve_call. intros m Hm. split; [done|].
    specialize (Hno n l Hin). destruct (evolve_deref _ _ l He) as [_ Ho]. rewrite Hno in Ho.
    unfold deref in Ho. rewrite Hm in Ho. change (is_obsolete m = false) in Ho. by rewrite Ho.
  - intros cf t Ht. cbn [sh_stats set_heap set_stats]. rewrite stat_AddStats_ne; [by apply Hs|]. intros ->. by apply (ratio_level_uncounted _ Ht).
Qed.

Lemma all_live_mild cfs sh sh' : mild sh sh' -> all_live cfs sh -> all_live cfs sh'.
Proof.
  intros [He _] Hall id bs Hbs n l Hl. destruct (evolve_deref _ _ l He) as [_ ->]. by apply (Hall id bs Hbs n).
Qed.

Lemma MarkAllFilesForGC_mild cfs sh :
  all_live cfs sh ->
  exists sh', MarkAllFilesForGC cfs sh = (cfs, sh') /\ mild sh sh' /\ sh_caches sh' = sh_caches sh.
Proof.
  intros Hall. unfold MarkAllFilesForGC.
  assert (Hgen : exists sh', foldl (fun st cf => let '(bs, sh) := bs_MarkAllFilesForGC (cf.2, st.2) in (<[cf.1 := bs]> st.1, sh))
            (cfs, sh) (unordered_iter cfs) = (cfs, sh') /\ mild sh sh' /\ sh_caches sh' = sh_caches sh); [|done].
  apply (foldl_invariant (fun st => exists sh', st = (cfs, sh') /\ mild sh sh' /\ sh_caches sh' = sh_caches sh)).
  - exists sh. split_and!; [done|apply mild_refl|done].
  - intros st [id bs] Hin%elem_of_unordered_iter (sh1 & -> & Hm & Hc). cbn [fst snd].
    pose proof (restart_mild bs sh1 (all_live_mild _ _ _ Hm Hall id bs Hin)) as Hr.
    destruct (bs_MarkAllFilesForGC (bs, sh1)) as [bs' sh2]. cbn [fst snd] in Hr. destruct Hr as (-> & Hm' & Hc').
    exists sh2. rewrite insert_id by done. split_and!; [done|by eapply mild_trans|congruence].
Qed.

(** The scores are aside. *)
Lemma compute_scores_inv cfs h sh : set_inv cfs sh -> set_inv (compute_scores h cfs) sh.
Proof.
  intros [Hi Hc Hs Hd]. unfold compute_scores.
  assert (Hl : forall id bs, ((fun bs => (ComputeGCScore h bs).2) <$> cfs) !! id = Some bs ->
            exists bs0, cfs !! id = Some bs0 /\ bs = (ComputeGCScore h bs0).2).
  { intros id bs. rewrite lookup_fmap. intros (bs0 & -> & Hb)%fmap_Some. by exists bs0. }
  split.
  - intros id bs (bs0 & Hb & ->)%Hl. by apply (Hi id bs0).
  - intros id bs (bs0 & Hb & ->)%Hl. by apply (Hc id bs0).
  - intros id bs (bs0 & Hb & ->)%Hl. destruct (Hs id bs0 Hb). by split.
  - intros id1 bs1 n1 id2 bs2 n2 l (b1 & Hb1 & ->)%Hl Hn1 (b2 & Hb2 & ->)%Hl Hn2. by apply (Hd id1 b1 n1 id2 b2 n2 l).
Qed.

(** Nothing is obsolete, so nothing is dropped. *)
Lemma no_pending bs sh : storage_inv (obsolete_files bs) bs sh -> no_obsolete bs (sh_heap sh) -> obsolete_files bs = [].
Proof.
  intros Hinv Hno. destruct (obsolete_files bs) as [|[n seq] l] eqn:Ho; [done|]. exfalso.
  destruct (proj1 (inv_obsolete _ _ _ Hinv n)) as (loc & Hl & Hobs); [left|]. by rewrite (Hno n loc Hl) in Hobs.
Qed.

Lemma collect_all_id cfs sh : set_inv cfs sh -> all_live cfs sh -> collect_all cfs sh = (cfs, sh).
Proof.
  intros Hinv Hall. unfold collect_all.
  apply (foldl_invariant (fun st => st = (cfs, sh))); [done|].
  intros st [id bs] Hin%elem_of_unordered_iter ->. cbn [fst snd].
  assert (Ho : obsolete_files bs = []) by (eapply no_pending; [by apply (set_storage _ _ Hinv id)|by apply (Hall id)]).
  assert (Hg : bs_GetObsoleteFiles kMaxSequenceNumber (bs, sh) = ([], (bs, sh))).
  { unfold bs_GetObsoleteFiles. cbn [fst]. rewrite Ho. cbn [GetObsoleteFiles_loop]. f_equal. f_equal.
    unfold set_obsolete_files. destruct bs. cbn in *. by rewrite Ho. }
  rewrite Hg. by rewrite insert_id.
Qed.
(** The files of a history fit their fields. *)
Lemma edit_metas_wf h e : edit_wf h e -> map_Forall (fun _ m => meta_wf m) (edit_metas h e).
Proof.
  intros Hwf n m Hm. unfold edit_metas in Hm. apply lookup_fmap_Some in Hm as (l & <- & Hl).
  apply elem_of_list_to_map_2 in Hl. unfold numbered in Hl. apply list_elem_of_fmap in Hl as (l' & [= -> ->] & Hin).
  pose proof (edit_wf_added _ _ Hwf) as Hall. rewrite Forall_forall in Hall.
  exact (Hall l' Hin).
Qed.

Lemma history_wf st es st' :
  history st es st' -> (forall id, map_Forall (fun _ m => meta_wf m) (hs_live st id)) -> 0 <= hs_next st ->
  (forall id, map_Forall (fun _ m => meta_wf m) (hs_live st' id)) /\ 0 <= hs_next st'.
Proof.
  induction 1 as [st|st h e es st' Hv _ IH]; intros Hl Hn; [done|]. apply IH.
  - intros id n m. cbn [hs_step hs_live]. unfold upd. case_decide; [|apply Hl].
    rewrite lookup_spec_edit. case_decide; [done|]. destruct (edit_metas h e !! n) eqn:Hm; [|apply Hl].
    intros [= <-]. eapply edit_metas_wf; [apply Hv|exact Hm].
  - cbn [hs_step hs_next]. destruct (has_next_file_number e); [|done]. by destruct (edit_wf_next _ _ (ve_wf _ _ _ Hv)).
Qed.

Lemma replay_asides records cfs sh n st : replay records cfs sh = Ok (n, st) -> same_asides (cfs, sh) st.
Proof.
  unfold replay. destruct (collect_edits _ _ _) as [[c h]| |]; cbn [result_bind]; [|done..].
  destruct (EditCollector_Seal cfs h c) as [s1 c1]. destruct (negb (status_ok s1)); [done|].
  unfold EditCollector_Apply.
  destruct (negb (status_ok (ec_status c1))) eqn:Hs; [destruct (ec_status c1); done|].
  destruct (negb (sealed c1)); [done|].
  pose proof (apply_asides (unordered_iter (ec_column_families c1)) (cfs, set_heap h sh)) as Ha.
  destruct (for_each _ _ _) as [s2 st2]. destruct (negb (status_ok s2)); [done|].
  destruct (GetNextFileNumber _) as [k| |]; cbn [result_bind]; [|done..]. by intros [= _ <-].
Qed.

(** ** The purge of the directory *)

Definition purge_dir (dir : string) (alive : gset Z) (names : list string) (w : fs) : fs :=
  foldl (fun w f => if purged alive f then (env_DeleteFile (in_dir dir f) w).2 else w) w names.

Lemma purge_dir_ind dir alive names w (P : fs -> Prop) :
  (forall f w, purged alive f = true -> P w -> P (env_DeleteFile (in_dir dir f) w).2) -> P w -> P (purge_dir dir alive names w).
Proof.
  intros Hstep Hw. unfold purge_dir. apply foldl_invariant; [done|]. intros w' f _ Hw'.
  destruct (purged alive f) eqn:Hp; [by apply Hstep|done].
Qed.

Lemma purged_other alive f : purged alive f = true -> exists n t, ParseFileName f = Some (n, t) /\ n ∉ alive /\ t <> kOtherFile.
Proof.
  unfold purged. destruct (ParseFileName f) as [[n t]|]; [|done]. rewrite andb_true_iff. intros [Hn Ht].
  exists n, t. split_and!; [done| |].
  - apply negb_true_iff in Hn. by apply bool_decide_eq_false in Hn.
  - intros ->. done.
Qed.

Lemma purge_dir_log dir alive names w m es :
  is_u64 m -> m ∈ alive -> log_on_disk dir w (DescriptorFileName dir m) es ->
  log_on_disk dir (purge_dir dir alive names w) (DescriptorFileName dir m) es.
Proof.
  intros Hm Ha. apply (purge_dir_ind dir alive names w (fun w => log_on_disk dir w (DescriptorFileName dir m) es)).
  intros f w' Hp [Hlog (name & Hr & Hn)]. destruct (purged_other _ _ Hp) as (n & t & Hparse & Hna & Ht). split.
  - apply delete_log; [|done]. intros Heq. rewrite (parse_descriptor dir f m Hm Heq) in Hparse.
    by injection Hparse as -> _.
  - exists name. split; [|done]. apply delete_read; [|done]. intros Heq. by apply (parse_current dir f n t Heq) in Hparse.
Qed.

Lemma purge_dir_blobs dir alive names w :
  keeps_blobs dir (fun n => is_u64 n /\ n ∈ alive) w (purge_dir dir alive names w).
Proof.
  intros n c [Hn Ha]. apply (purge_dir_ind dir alive names w (fun w => holds_file w (BlobFileName dir n) c)).
  intros f w' Hp. destruct (purged_other _ _ Hp) as (m & t & Hparse & Hna & Ht). apply delete_touches.
  intros Heq. symmetry in Heq. rewrite (parse_blob dir f n Hn Heq) in Hparse. by injection Hparse as -> _.
Qed.

Lemma alive_spec m cfs h :
  m ∈ alive_numbers m cfs h /\
  forall id bs n l, cfs !! id = Some bs -> files bs !! n = Some l -> file_number (deref h l) ∈ alive_numbers m cfs h.
Proof.
  unfold alive_numbers.
  assert (Hin : forall (L : list (Z * loc)) (s : gset Z),
            let s' : gset Z := foldl (fun (s : gset Z) file => {[file_number (deref h file.2)]} ∪ s) s L in
            s ⊆ s' /\ forall n l, (n, l) ∈ L -> file_number (deref h l) ∈ s').
  { intros L. induction L as [|[k l] L IH]; intros s; cbn [foldl snd]; [split; [done|]; by intros ? ? ?%not_elem_of_nil|].
    destruct (IH ({[file_number (deref h l)]} ∪ s)) as [Hs Hl]. split; [etrans; [|exact Hs]; apply union_subseteq_r|].
    intros n l' [[= -> ->]|Hin]%elem_of_cons; [|by apply (Hl n)]. by apply Hs, elem_of_union_l, elem_of_singleton. }
  assert (Hout : forall (L : list (Z * BlobStorage)) (s : gset Z), let s' : gset Z := foldl (fun s cf => foldl (fun (s : gset Z) file => {[file_number (deref h file.2)]} ∪ s) s
                                   (unordered_iter (files cf.2))) s L in
            s ⊆ s' /\ forall id bs n l, (id, bs) ∈ L -> files bs !! n = Some l -> file_number (deref h l) ∈ s').
  { intros L. induction L as [|[id bs] L IH]; intros s; cbn [foldl snd]; [split; [done|]; by intros ? ? ? ? ?%not_elem_of_nil|].
    destruct (Hin (unordered_iter (files bs)) s) as [Hs1 Hl1]. cbv zeta in IH. destruct (IH (foldl (fun (s : gset Z) file => {[file_number (deref h file.2)]} ∪ s) s
      (unordered_iter (files bs)))) as [Hs2 Hl2]. split; [by etrans|].
    intros id' bs' n l [[= -> ->]|Hi]%elem_of_cons Hl; [apply Hs2, (Hl1 n); by apply elem_of_unordered_iter|by apply (Hl2 id' bs' n)]. }
  destruct (Hout (unordered_iter cfs) {[m]}) as [Hs Hl]. split; [by apply Hs, elem_of_singleton|].
  intros id bs n l Hbs Hf. apply (Hl id bs n); [by apply elem_of_unordered_iter|done].
Qed.
End steps.

(** ** Opening *)

Section recovery.
Context `{Coding} `{!CodingOk _} `{Compressors} `{E : Env} `{!EnvOk E} `{BC : Cache bytes}
        `{FC : !Cache BlobFileReader} `{UnorderedIter} `{!ManifestIO} `{!WritableFiles} `{!StoredFilesOk}
        `{!DirectoryLaws}.

(** The set a process starts with. *)
Definition start_sys (options : TitanDBOptions) (sh : Shared) (w : fs) : Sys := MkSys (BlobFileSet_new options) sh w.

(** A directory whose manifest has the records of a history, and the column
    families to open. *)
Record open_setup (options : TitanDBOptions) (cfs : gmap Z TitanCFOptions) (sh : Shared) (w : fs)
    (es : list (heap * VersionEdit)) (st : HState) : Prop := {
  os_disk : on_disk (dirname options) w es;
  os_history : history hs_init es st;
  os_has_next : hs_has_next st = true;
  os_next : hs_next st + 1 < two64;
  os_cfs : cfs_ok cfs sh;
  os_levels : Forall (fun he => forall l, l ∈ added_files he.2 ->
    levels_ok (column_families (AddColumnFamilies cfs (BlobFileSet_new options))) (column_family_id he.2) (deref he.1 l)) es
}.

(** The column families are open with these live files: the storages keep their
    books, the manifest that is now open describes them, the blob files of live
    files are untouched and no reader is cached that was not before. *)
Record opened (options : TitanDBOptions) (cfs : gmap Z TitanCFOptions) (sh : Shared) (w : fs)
    (live : Z -> gmap Z BlobFileMeta) (next : Z) (sys : Sys) : Prop := {
  op_inv : set_inv (column_families (sys_set sys)) (sys_shared sys);
  op_live : all_live (column_families (sys_set sys)) (sys_shared sys);
  op_options : set_db_options (sys_set sys) = options;
  op_storages : forall id, match cfs !! id with
    | None => column_families (sys_set sys) !! id = None
    | Some cf => exists bs, column_families (sys_set sys) !! id = Some bs /\ bs_db_options bs = options /\
        bs_cf_options bs = cf /\ building_files bs = ∅ /\ live_files bs (sys_shared sys) = live id
    end;
  op_next : set_next_file_number (sys_set sys) = next;
  op_disk : exists es st, disk_open (dirname options) sys es /\ consistent sys es st /\
    forall id, id ∈ dom cfs -> hs_known st id = dom (live id);
  op_caches : sh_caches (sys_shared sys) = sh_caches sh;
  op_blobs : keeps_blobs (dirname options) (fun n => exists id, id ∈ dom cfs /\ is_Some (live id !! n)) w (sys_fs sys)
}.

(** The storages after the replay. *)
Lemma replay_storages options cfs sh w es st :
  open_setup options cfs sh w es st ->
  let new := column_families (AddColumnFamilies cfs (BlobFileSet_new options)) in
  exists cfs1 sh1, replay (records_of es) new sh = Ok (hs_next st, (cfs1, sh1)) /\
    set_inv cfs1 sh1 /\ all_live cfs1 sh1 /\ sh_caches sh1 = sh_caches sh /\
    forall id, match cfs !! id with
      | None => cfs1 !! id = None
      | Some cf => exists bs, cfs1 !! id = Some bs /\ bs_db_options bs = options /\
          bs_cf_options bs = cf /\ building_files bs = ∅ /\ live_files bs sh1 = hs_live st id
      end.
Proof.
  intros [_ Hhist Hhas _ Hok Hlev] new. destruct (new_storages_inv cfs options sh Hok) as [Hinv Hempty].
  destruct (replay_spec _ sh es st Hinv Hempty Hhist Hhas Hlev) as (cfs1 & sh1 & Hrun & Hinv1 & [Hdom Hcfg] & Hall & Hl).
  exists cfs1, sh1. destruct (replay_asides _ _ _ _ _ Hrun) as [Hc Hb]. cbn [fst snd] in Hc, Hb. split_and!; try done.
  intros id. destruct (cfs !! id) as [cf|] eqn:Hcf.
  - assert (Hid : new !! id = Some (BlobStorage_new options cf id)) by (unfold new; by rewrite AddColumnFamilies_lookup, Hcf).
    assert (Hd : id ∈ dom cfs1) by (rewrite Hdom; by apply elem_of_dom_2 in Hid).
    apply elem_of_dom in Hd as [bs Hbs]. destruct (Hcfg id bs Hbs) as (bs0 & Hbs0 & (Hdb & Hco & _)).
    destruct (Hb id bs Hbs) as (bs0' & Hbs0' & Hsub). fold new in Hbs0, Hbs0'. rewrite Hid in Hbs0, Hbs0'.
    injection Hbs0 as <-. injection Hbs0' as <-. exists bs. split_and!; [done|done|done| |].
    + by apply (anti_symm (⊆)); [|apply map_empty_subseteq].
    + assert (Hlv : lives cfs1 sh1 !! id = Some (hs_live st id)) by (apply Hl; by apply elem_of_dom_2 in Hid).
      unfold lives in Hlv. rewrite lookup_fmap, Hbs in Hlv. by injection Hlv.
  - apply not_elem_of_dom. rewrite Hdom. apply not_elem_of_dom. fold new. unfold new. by rewrite AddColumnFamilies_lookup, Hcf.
Qed.

(** Storages with scores have the same files. *)
Lemma scored_storage cfs h id bs :
  cfs !! id = Some bs -> compute_scores h cfs !! id = Some (ComputeGCScore h bs).2.
Proof. intros Hbs. unfold compute_scores. by rewrite lookup_fmap, Hbs. Qed.

Lemma scored_all_live cfs h sh : all_live cfs sh -> all_live (compute_scores h cfs) sh.
Proof.
  intros Hall id bs. unfold compute_scores. rewrite lookup_fmap.
  intros (bs0 & Hbs0 & ->)%fmap_Some. exact (Hall id bs0 Hbs0).
Qed.

(** The set before the new manifest. *)
Definition recovered (options : TitanDBOptions) (cfs : gmap Z BlobStorage) (next : Z) : BlobFileSet :=
  with_next next (with_cfs cfs (BlobFileSet_new options)).

Lemma recovered_wf options cfs sh w es st cfs2 sh2 :
  open_setup options cfs sh w es st ->
  (forall id, match cfs !! id with
      | None => cfs2 !! id = None
      | Some cf => exists bs, cfs2 !! id = Some bs /\ bs_db_options bs = options /\
          bs_cf_options bs = cf /\ building_files bs = ∅ /\ live_files bs sh2 = hs_live st id
      end) -> metas_wf cfs2 sh2 /\ 0 <= hs_next st.
Proof.
  intros [_ Hhist _ _ Hok _] Hst.
  destruct (history_wf hs_init es st Hhist) as [Hwf Hn]; [intros id; apply map_Forall_empty|done|].
  split; [|done]. intros id bs Hbs. specialize (Hst id). destruct (cfs !! id) as [cf|] eqn:Hcf; [|congruence].
  destruct Hst as (bs' & Hbs' & _ & _ & _ & Hl). assert (bs' = bs) as -> by congruence.
  rewrite Hl. split; [by apply (co_ids _ _ Hok id cf)|apply Hwf].
Qed.

Lemma Open_recovers options cfs sh w es st :
  open_setup options cfs sh w es st ->
  exists cfs2 sh2 s sys2,
    OpenManifest (hs_next st) (MkSys (recovered options cfs2 (hs_next st + 1)) sh2 w) = (s, sys2) /\
    if status_ok s
    then exists sys', BlobFileSet_Open cfs (start_sys options sh w) = Ok sys' /\
           opened options cfs sh w (hs_live st) (hs_next st + 1) sys'
    else BlobFileSet_Open cfs (start_sys options sh w) = Err s.
Proof.
  intros Hset. pose proof Hset as [(log & Hlog & name & Hread & Hname) _ _ Hnext _ _].
  destruct (replay_storages options cfs sh w es st Hset) as (cfs1 & sh1 & Hreplay & Hinv1 & Hall1 & Hc1 & Hst1).
  destruct (MarkAllFilesForGC_mild cfs1 sh1 Hall1) as (sh2 & Hmark & Hmild & Hc2).
  set (cfs2 := compute_scores (sh_heap sh2) cfs1).
  assert (Hinv2 : set_inv cfs2 sh2) by (apply compute_scores_inv; by eapply mild_set_inv).
  assert (Hall2 : all_live cfs2 sh2) by (apply scored_all_live; by eapply all_live_mild).
  assert (Hst2 : forall id, match cfs !! id with
      | None => cfs2 !! id = None
      | Some cf => exists bs, cfs2 !! id = Some bs /\ bs_db_options bs = options /\
          bs_cf_options bs = cf /\ building_files bs = ∅ /\ live_files bs sh2 = hs_live st id
      end).
  { intros id. specialize (Hst1 id). destruct (cfs !! id) as [cf|].
    - destruct Hst1 as (bs & Hbs & Hd & Hco & Hb & Hl). exists (ComputeGCScore (sh_heap sh2) bs).2.
      split_and!; [by apply scored_storage|done..|]. rewrite <- Hl.
      pose proof (mild_lives cfs1 sh1 sh2 Hmild) as Hlv. apply (f_equal (.!! id)) in Hlv. unfold lives in Hlv.
      rewrite !lookup_fmap, Hbs in Hlv. by injection Hlv.
    - unfold cfs2, compute_scores. by rewrite lookup_fmap, Hst1. }
  destruct (recovered_wf _ _ _ _ _ _ cfs2 sh2 Hset Hst2) as [Hwf Hpos].
  exists cfs2, sh2. set (sys1 := MkSys (recovered options cfs2 (hs_next st + 1)) sh2 w).
  destruct (OpenManifest (hs_next st) sys1) as [s sys2] eqn:Hopen. exists s, sys2. split; [done|].
  assert (Hrun : BlobFileSet_Open cfs (start_sys options sh w) =
    if negb (status_ok s) then Err s else
      let '(cfs, sh) := collect_all (column_families (sys_set sys2)) (sys_shared sys2) in
      Ok (MkSys (with_cfs cfs (sys_set sys2)) sh
           (purge_dir (dirname options) (alive_numbers (hs_next st) cfs (sh_heap sh))
              (GetChildren (sys_fs sys2) (dirname options)) (sys_fs sys2)))).
  { unfold BlobFileSet_Open, start_sys. cbn [sys_set sys_shared sys_fs].
    change (set_dirname (AddColumnFamilies cfs (BlobFileSet_new options))) with (dirname options).
    rewrite (read_exists _ _ _ Hread). cbn [status_ok]. unfold Recover. cbn [sys_set sys_shared sys_fs].
    change (set_dirname (AddColumnFamilies cfs (BlobFileSet_new options))) with (dirname options).
    rewrite Hread. cbn [result_bind]. unfold current_manifest. rewrite last_snoc, length_app. cbn [length].
    replace (length name + 1 - 1)%nat with (length name) by lia. rewrite take_app_length. cbn [result_bind].
    unfold in_dir in Hname. rewrite Hname, (log_read _ _ _ Hlog). cbn [result_bind].
    assert (Hrec : (fun r => (r, OK)) <$> encoded es = records_of es) by (unfold encoded, records_of; by rewrite <- list_fmap_compose).
    rewrite Hrec, Hreplay. cbn [result_bind]. rewrite Hmark. cbn [NewFileNumber]. fold cfs2.
    unfold NewFileNumber. cbn [set_next_file_number with_cfs with_next].
    assert (Hw : hs_next st +u64 1 = hs_next st + 1) by (apply wrap64_small; unfold is_u64; lia). rewrite Hw.
    change (OpenManifest (hs_next st) _) with (OpenManifest (hs_next st) sys1). rewrite Hopen. done. }
  rewrite Hrun. clear Hrun. destruct (status_ok s) eqn:Hs; cbn [negb]; [|done]. apply status_ok_true in Hs as ->.
  assert (Hu : is_u64 (hs_next st)) by (unfold is_u64; lia).
  destruct (OpenManifest_disk _ _ _ Hu Hopen) as ((m & Hm & Hman & Hdisk) & Hset2 & Hsh2 & Hk).
  cbn [sys_set sys_shared sys_fs sys1] in Hset2, Hsh2, Hk, Hdisk, Hman.
  change (set_dirname (recovered options cfs2 (hs_next st + 1))) with (dirname options) in *.
  rewrite Hset2 in Hman. cbn [manifest with_manifest] in Hman. injection Hman as Hman.
  rewrite <- Hman in Hdisk. clear m Hm Hman.
  assert (Hcol : column_families (sys_set sys2) = cfs2) by (by rewrite Hset2).
  rewrite Hcol, Hsh2, (collect_all_id cfs2 sh2 Hinv2 Hall2).
  destruct (alive_spec (hs_next st) cfs2 (sh_heap sh2)) as [Halive Hfiles].
  eexists. split; [done|]. split; cbn [sys_set sys_shared sys_fs column_families with_cfs].
  - done.
  - done.
  - by rewrite Hset2.
  - exact Hst2.
  - by rewrite Hset2.
  - set (sys' := MkSys (with_cfs cfs2 (sys_set sys2)) sh2 _).
    destruct (snapshot_consistent (MkSys (recovered options cfs2 (hs_next st + 1)) sh2 w) Hinv2 Hwf) as (st' & Hcons & Hkn);
      [cbn; unfold is_u64; lia|].
    eexists _, st'. split; [|split].
    + exists (hs_next st). split; [done|]. split; [by unfold sys'; cbn; rewrite Hset2|].
      cbn [sys' sys_fs]. apply purge_dir_log; [done|done|exact Hdisk].
    + destruct Hcons as [? ? ? ? ?]. split; try done. cbn [sys' sys_set set_next_file_number with_cfs]. by rewrite Hset2.
    + intros id [cf Hcf]%elem_of_dom. specialize (Hst2 id). rewrite Hcf in Hst2.
      destruct Hst2 as (bs & Hbs & _ & _ & _ & <-). by apply Hkn.
  - congruence.
  - intros n c (id & Hid & Hl) Hc. apply purge_dir_blobs; [|by apply Hk].
    apply elem_of_dom in Hid as [cf Hcf]. specialize (Hst2 id). rewrite Hcf in Hst2.
    destruct Hst2 as (bs & Hbs & _ & _ & _ & Hlive). rewrite <- Hlive in Hl. destruct Hl as [meta Hmeta].
    pose proof (proj2 (Hwf id bs Hbs) n meta Hmeta) as Hmw. unfold live_files in Hmeta. rewrite lookup_live_of in Hmeta.
    destruct (files bs !! n) as [l|] eqn:Hl; [|done]. pose proof (Hfiles id bs n l Hbs Hl) as Hin.
    rewrite (inv_number _ _ _ _ _ (set_storage _ _ Hinv2 id bs Hbs) Hl) in Hin. split; [|done].
    destruct (is_obsolete _); [done|]. injection Hmeta as <-. destruct Hmw as (Hn & _).
    change (is_u64 (file_number (deref (sh_heap sh2) l))) in Hn.
    by rewrite (inv_number _ _ _ _ _ (set_storage _ _ Hinv2 id bs Hbs) Hl) in Hn.
Qed.

(** ** Creating *)

Lemma Open_creates options cfs sh w s sys2 :
  cfs_ok cfs sh ->
  IsNotFound (FileExists w (CurrentFileName (dirname options))) = true ->
  OpenManifest 1 (MkSys (with_next 2 (AddColumnFamilies cfs (BlobFileSet_new options))) sh w) = (s, sys2) ->
  if status_ok s
  then exists sys', BlobFileSet_Open cfs (start_sys options sh w) = Ok sys' /\ opened options cfs sh w (fun _ => ∅) 2 sys'
  else BlobFileSet_Open cfs (start_sys options sh w) = Err s.
Proof.
  intros Hok Hnf Hopen. destruct (new_storages_inv cfs options sh Hok) as [Hinv Hempty].
  assert (Hrun : BlobFileSet_Open cfs (start_sys options sh w) = if status_ok s then Ok sys2 else Err s).
  { unfold BlobFileSet_Open, start_sys. cbn [sys_set sys_shared sys_fs].
    change (set_dirname (AddColumnFamilies cfs (BlobFileSet_new options))) with (dirname options).
    assert (Hs : status_ok (FileExists w (CurrentFileName (dirname options))) = false) by by destruct (FileExists w _).
    rewrite Hs, Hnf. cbn [negb]. unfold NewFileNumber.
    change (set_next_file_number (AddColumnFamilies cfs (BlobFileSet_new options)) +u64 1) with 2.
    change (set_next_file_number (AddColumnFamilies cfs (BlobFileSet_new options))) with 1. by rewrite Hopen. }
  rewrite Hrun. destruct (status_ok s) eqn:Hs; [|done]. apply status_ok_true in Hs as ->.
  exists sys2. split; [done|].
  set (sys1 := MkSys (with_next 2 (AddColumnFamilies cfs (BlobFileSet_new options))) sh w) in *.
  assert (Hlive : forall id bs, column_families (sys_set sys1) !! id = Some bs -> live_files bs sh = ∅).
  { intros id bs Hbs. unfold live_files, live_of. rewrite (Hempty id bs Hbs). apply omap_empty. }
  destruct (OpenManifest_disk 1 sys1 sys2) as (Hdisk & Hset2 & Hsh2 & Hk); [by vm_compute|done|].
  change (set_dirname (sys_set sys1)) with (dirname options) in *.
  destruct (snapshot_consistent sys1) as (st & Hcons & Hkn); [done| |by vm_compute|].
  { intros id bs Hbs. cbn [sys1 sys_shared]. rewrite (Hlive id bs Hbs). split; [|apply map_Forall_empty]. cbn [sys1 sys_set column_families with_next] in Hbs.
    rewrite AddColumnFamilies_lookup in Hbs. apply fmap_Some in Hbs as (cf & Hcf & _). by apply (co_ids _ _ Hok id cf). }
  cbn [sys1 sys_set sys_shared sys_fs] in *. split.
  - by rewrite Hset2, Hsh2.
  - intros id bs Hbs n l. rewrite Hset2 in Hbs. by rewrite (Hempty id bs Hbs), lookup_empty.
  - by rewrite Hset2.
  - intros id. rewrite Hset2, Hsh2. cbn [column_families with_manifest with_next]. rewrite AddColumnFamilies_lookup.
    destruct (cfs !! id) as [cf|] eqn:Hcf; [|done]. eexists. split; [done|]. by split_and!.
  - by rewrite Hset2.
  - eexists _, st. split; [exact Hdisk|]. split; [destruct Hcons as [? ? ? ? ?]; by split; rewrite ?Hset2, ?Hsh2|].
    intros id [cf Hcf]%elem_of_dom. assert (Hbs : column_families (with_next 2 (AddColumnFamilies cfs (BlobFileSet_new options))) !! id =
      Some (BlobStorage_new options cf id)) by (cbn [column_families with_next]; by rewrite AddColumnFamilies_lookup, Hcf).
    by rewrite (Hkn id _ Hbs), (Hlive id _ Hbs).
  - by rewrite Hsh2.
  - intros n c _. by apply Hk.
Qed.

(** ** Edits *)

Lemma LogAndApply_disk dir edit sys sys' es :
  disk_open dir sys es -> LogAndApply edit sys = Ok (OK, sys') ->
  disk_open dir sys' (es ++ [(sh_heap (sys_shared sys), SetNextFileNumber (set_next_file_number (sys_set sys)) edit)]).
Proof.
  intros (n & Hn & Hman & Hlog & name & Hread & Hname) HL. exists n. split; [done|].
  unfold LogAndApply in HL. destruct (AddEdit _ _ _) as [s1 c1]. destruct (status_ok s1) eqn:Hs1; cbn [negb] in HL.
  2: { injection HL as -> _. done. }
  destruct (EditCollector_Seal _ _ c1) as [s2 c2]. destruct (status_ok s2) eqn:Hs2; cbn [negb] in HL.
  2: { injection HL as -> _. done. }
  rewrite Hman in HL. set (r := VersionEdit_EncodeTo _ _) in HL. set (log := DescriptorFileName dir n) in *.
  pose proof (append_read log r (sys_fs sys) dir n _ eq_refl Hread) as Hr1.
  destruct (log_AddRecord log r (sys_fs sys)) as [s3 w3] eqn:Ha. destruct (status_ok s3) eqn:Hs3; cbn [negb] in HL.
  2: { injection HL as -> _. done. }
  apply status_ok_true in Hs3 as ->. pose proof (sync_read log w3 dir n _ eq_refl Hr1) as Hr2.
  destruct (SyncTitanManifest log w3) as [s4 w4] eqn:Hsy. destruct (status_ok s4) eqn:Hs4; cbn [negb] in HL.
  2: { injection HL as -> _. done. }
  apply status_ok_true in Hs4 as ->. destruct (EditCollector_Apply c2 _) as [[s5 c5] [cfs5 sh5]]. injection HL as -> <-.
  split; [done|]. cbn [sys_fs]. split; [|by exists name]. unfold encoded. rewrite fmap_app.
  eapply log_synced; [exact Hsy|]. by apply (log_append _ _ _ _ _ Ha).
Qed.

(** C12: What is on disk follows the edits. While the manifest named by "CURRENT"
    has the records of a history that ends with the live files of the storages, an
    edit of an existing column family, whose added files are new objects with new
    numbers, for which [LogAndApply] returns OK, appends its record to that
    manifest, and the history with the edit ends with the new live files. *)
Theorem disk_follows_edits (dir : string) (edit : VersionEdit) (sys sys' : Sys)
    (es : list (heap * VersionEdit)) (st : HState) :
  let h := sh_heap (sys_shared sys) in
  let logged := SetNextFileNumber (set_next_file_number (sys_set sys)) edit in
  set_inv (column_families (sys_set sys)) (sys_shared sys) ->
  consistent sys es st -> disk_open dir sys es ->
  is_Some (column_families (sys_set sys) !! column_family_id edit) ->
  edit_fresh (column_families (sys_set sys)) h edit ->
  edit_wf h logged -> dom (edit_metas h edit) ## hs_known st (column_family_id edit) ->
  LogAndApply edit sys = Ok (OK, sys') ->
  disk_open dir sys' (es ++ [(h, logged)]) /\
  consistent sys' (es ++ [(h, logged)]) (hs_step st h logged) /\
  set_inv (column_families (sys_set sys')) (sys_shared sys').
Proof.
  intros h logged Hinv Hcons Hdisk Hcf Hfresh Hwf Hnew HL. split; [by eapply LogAndApply_disk|].
  by eapply LogAndApply_consistent.
Qed.

(** The same column families with the options they had. *)
Definition same_cfs (cfs : gmap Z TitanCFOptions) (sys : Sys) : Prop :=
  forall id, cfs !! id = bs_cf_options <$> column_families (sys_set sys) !! id.

Lemma setup_of_consistent options cfs sh w sys es st :
  set_inv (column_families (sys_set sys)) (sys_shared sys) -> consistent sys es st ->
  on_disk (dirname options) w es -> set_next_file_number (sys_set sys) + 1 < two64 ->
  same_cfs cfs sys -> map_Forall (fun id _ => is_u32 id) cfs ->
  (forall id t v, t ∈ counted -> stat (sh_stats sh) id t = Some v -> v = 0) ->
  open_setup options cfs sh w es st.
Proof.
  intros Hinv [Hh Hhas Hnx _ Hlev] Hdisk Hn Hsame Hids Hst.
  assert (Hold : forall id cf, cfs !! id = Some cf ->
            exists bs, column_families (sys_set sys) !! id = Some bs /\ bs_cf_options bs = cf).
  { intros id cf Hcf. rewrite Hsame in Hcf. apply fmap_Some in Hcf as (bs & Hbs & ->). by exists bs. }
  split; [done|done|done|lia| |].
  - split; [done| | |done].
    + intros id cf (bs & Hbs & <-)%Hold. by apply (set_cmp _ _ Hinv id bs).
    + intros id cf (bs & Hbs & <-)%Hold. by apply (inv_levels_pos _ _ _ (set_storage _ _ Hinv id bs Hbs)).
  - eapply Forall_impl; [exact Hlev|]. cbv beta. intros [h e] Hl l Hin bs' Hbs'. cbn [fst snd] in *.
    rewrite AddColumnFamilies_lookup in Hbs'. apply fmap_Some in Hbs' as (cf & (bs & Hbs & <-)%Hold & ->).
    exact (Hl l Hin bs Hbs).
Qed.

(** C6: A crash loses no blob file. Take a database at any time after its last
    edit, with the manifest on disk as [disk_follows_edits] keeps it, and a new
    process with nothing but the disk that opens the same column families. It
    fails only if the new manifest cannot be written; otherwise every column
    family has exactly the live files it had, the bookkeeping invariant and the
    agreement of the new manifest hold again, and the purge of the directory has
    left the contents of every live blob file alone. *)
Theorem reopen_keeps_live_files (options : TitanDBOptions) (cfs : gmap Z TitanCFOptions) (sh : Shared) (sys : Sys)
    (es : list (heap * VersionEdit)) (st : HState) :
  set_inv (column_families (sys_set sys)) (sys_shared sys) -> consistent sys es st ->
  disk_open (dirname options) sys es -> set_next_file_number (sys_set sys) + 1 < two64 ->
  same_cfs cfs sys -> map_Forall (fun id _ => is_u32 id) cfs ->
  (forall id t v, t ∈ counted -> stat (sh_stats sh) id t = Some v -> v = 0) ->
  exists n sys1 s sys2, OpenManifest n sys1 = (s, sys2) /\
    if status_ok s
    then exists sys', BlobFileSet_Open cfs (start_sys options sh (sys_fs sys)) = Ok sys' /\
      set_inv (column_families (sys_set sys')) (sys_shared sys') /\
      lives (column_families (sys_set sys')) (sys_shared sys') = lives (column_families (sys_set sys)) (sys_shared sys) /\
      (exists es' st', consistent sys' es' st' /\ disk_open (dirname options) sys' es') /\
      forall id live n c, lives (column_families (sys_set sys)) (sys_shared sys) !! id = Some live ->
        is_Some (live !! n) -> holds_file (sys_fs sys) (BlobFileName (dirname options) n) c ->
        holds_file (sys_fs sys') (BlobFileName (dirname options) n) c
    else BlobFileSet_Open cfs (start_sys options sh (sys_fs sys)) = Err s.
Proof.
  intros Hinv Hcons Hdisk Hn Hsame Hids Hst.
  assert (Hon : on_disk (dirname options) (sys_fs sys) es) by (destruct Hdisk as (k & _ & _ & ?); by eexists).
  pose proof (setup_of_consistent options cfs sh _ sys es st Hinv Hcons Hon Hn Hsame Hids Hst) as Hset.
  destruct (Open_recovers options cfs sh (sys_fs sys) es st Hset) as (cfs2 & sh2 & s & sys2 & Hopen & Hr).
  eexists _, _, s, sys2. split; [exact Hopen|]. destruct (status_ok s); [|exact Hr].
  destruct Hr as (sys' & Hrun & [Hinv' _ _ Hsto _ (es' & st' & Hd' & Hc' & _) _ Hblobs]).
  assert (Hlv : forall id bs, column_families (sys_set sys) !! id = Some bs -> hs_live st id = live_files bs (sys_shared sys))
    by apply Hcons.
  exists sys'. split_and!; [done|done| |by exists es', st'|].
  - apply map_eq. intros id. unfold lives. rewrite !lookup_fmap. specialize (Hsto id). rewrite Hsame in Hsto.
    destruct (column_families (sys_set sys) !! id) as [bs|] eqn:Hbs; cbn [fmap option_fmap option_map] in *.
    + destruct Hsto as (bs' & -> & _ & _ & _ & Hl). cbn. by rewrite Hl, (Hlv id bs Hbs).
    + by rewrite Hsto.
  - intros id live k c Hl Hk. apply Hblobs. exists id. unfold lives in Hl. rewrite lookup_fmap in Hl.
    apply fmap_Some in Hl as (bs & Hbs & ->). rewrite (Hlv id bs Hbs). split; [|done].
    apply elem_of_dom. rewrite Hsame, Hbs. by eexists.
Qed.
End recovery.

(** ** Applications *)

Section witnesses.
#[local] Existing Instances leb128_coding leb128_coding_ok rle_compressors mem_env mem_env_ok map_to_list_iter mem_manifest
  blobs_map readers_map mem_files mem_stored_ok mem_directory.

(** A new database with one column family; then file 1 of [GCJobInv], which lies
    in its directory, is added to it. *)
Definition example_open_options : TitanDBOptions :=
  MkTitanDBOptions (db_base example_db_options) "d" (disable_background_gc example_db_options)
    (max_background_gc example_db_options) (purge_obsolete_files_period_sec example_db_options)
    (titan_stats_dump_period_sec example_db_options) (sep_before_flush example_db_options)
    (num_foreground_builders example_db_options) (block_write_size example_db_options).

Definition example_dir : gmap string bytes := {[ "d/1" := mem_data (bfb_file example_finish.2) ]}.

Definition example_open_cfs : gmap Z TitanCFOptions := {[ 5 := example_cf_options ]}.

Definition example_open_shared : Shared :=
  MkShared example_gc_heap None (MkCaches ((0, ∅) : cache BlobFileReader) ((0, ∅) : cache bytes)).

Definition example_created : Sys :=
  match BlobFileSet_Open example_open_cfs (start_sys example_open_options example_open_shared example_dir) with
  | Ok sys => sys
  | _ => start_sys example_open_options example_open_shared example_dir
  end.

Lemma example_open_ok : cfs_ok example_open_cfs example_open_shared.
Proof.
  split.
  - apply map_Forall_singleton. vm_compute. intuition congruence.
  - apply map_Forall_singleton. exact bytewise_compare_ok.
  - apply map_Forall_singleton. vm_compute. intuition congruence.
  - intros id t v _ Hv. vm_compute in Hv. discriminate.
Qed.

Lemma example_created_ok :
  match BlobFileSet_Open example_open_cfs (start_sys example_open_options example_open_shared example_dir) with
  | Ok _ => True | _ => False end.
Proof. vm_compute. exact I. Qed.

Lemma example_created_opened :
  opened example_open_options example_open_cfs example_open_shared example_dir (fun _ => ∅) 2 example_created.
Proof.
  pose proof example_created_ok as Hok. unfold example_created.
  destruct (OpenManifest 1 (MkSys (with_next 2 (AddColumnFamilies example_open_cfs (BlobFileSet_new example_open_options)))
    example_open_shared example_dir)) as [s sys2] eqn:Hopen.
  pose proof (Open_creates example_open_options example_open_cfs example_open_shared example_dir s sys2
    example_open_ok eq_refl Hopen) as Hr.
  destruct (status_ok s); [|rewrite Hr in Hok; done]. destruct Hr as (sys' & Hrun & Hop). rewrite Hrun. exact Hop.
Qed.

Lemma example_created_heap : sh_heap (sys_shared example_created) = example_gc_heap.
Proof. vm_compute. reflexivity. Qed.

Lemma example_created_cfs id bs :
  column_families (sys_set example_created) !! id = Some bs -> id = 5 /\ files bs = ∅ /\ bs_cf_options bs = example_cf_options.
Proof.
  intros Hbs. assert (Hd : dom (column_families (sys_set example_created)) = {[5]}) by (vm_compute; reflexivity).
  assert (id = 5) as -> by (apply elem_of_dom_2 in Hbs; rewrite Hd in Hbs; by apply elem_of_singleton in Hbs).
  split; [done|]. vm_compute in Hbs. injection Hbs as <-. split; reflexivity.
Qed.

Lemma example_created_fresh : edit_fresh (column_families (sys_set example_created)) (sh_heap (sys_shared example_created)) example_add.
Proof.
  rewrite example_created_heap. intros l ->%list_elem_of_singleton. exists (deref example_gc_heap 1). split; [done|]. split; [done|]. split.
  - intros id bs n (_ & Hf & _)%example_created_cfs. rewrite Hf. by rewrite lookup_empty.
  - intros bs (_ & _ & Hc)%example_created_cfs. unfold level_index, bs_num_levels. rewrite Hc. vm_compute. intuition congruence.
Qed.

Lemma example_add_wf : edit_wf example_gc_heap (SetNextFileNumber 2 example_add).
Proof.
  split; try done. constructor; [|constructor].
  unfold meta_wf, is_u64, is_u32, slice_wf. vm_compute. intuition congruence.
Qed.

Definition example_extended : result (Status * Sys) := LogAndApply example_add example_created.

Lemma example_extended_ok : match example_extended with Ok (OK, _) => True | _ => False end.
Proof. vm_compute. exact I. Qed.

Lemma disk_follows_edits_witness :
  exists sys' es st, example_extended = Ok (OK, sys') /\ disk_open "d" sys' es /\ consistent sys' es st /\
    set_inv (column_families (sys_set sys')) (sys_shared sys').
Proof.
  pose proof example_extended_ok as Hok. unfold example_extended in *.
  destruct (LogAndApply example_add example_created) as [[s sys']| |] eqn:HL; [|exact (False_ind _ Hok)..].
  destruct s; try (exact (False_ind _ Hok)).
  destruct example_created_opened as [Hinv _ _ _ Hnext (es & st & Hdisk & Hcons & Hkn) _ _].
  destruct (disk_follows_edits "d" example_add example_created sys' es st Hinv Hcons Hdisk) as (Hd' & Hc' & Hi').
  - vm_compute. eexists. reflexivity.
  - exact example_created_fresh.
  - rewrite example_created_heap, Hnext. exact example_add_wf.
  - change (column_family_id example_add) with 5. rewrite (Hkn 5); [apply disjoint_empty_r|]. apply elem_of_dom. vm_compute. eexists. reflexivity.
  - exact HL.
  - eexists sys', _, _. exact (conj eq_refl (conj Hd' (conj Hc' Hi'))).
Defined.

(** The same database, in a new process. *)
Lemma example_extended_state :
  exists sys' es st, example_extended = Ok (OK, sys') /\ disk_open "d" sys' es /\ consistent sys' es st /\
    set_inv (column_families (sys_set sys')) (sys_shared sys').
Proof.
  pose proof example_extended_ok as Hok. unfold example_extended in *.
  destruct (LogAndApply example_add example_created) as [[s sys']| |] eqn:HL; [|done..]. destruct s; try done.
  destruct example_created_opened as [Hinv _ _ _ Hnext (es & st & Hdisk & Hcons & Hkn) _ _].
  destruct (LogAndApply_consistent example_add example_created sys' es st Hinv Hcons) as [Hc' Hi'].
  - vm_compute. eexists. reflexivity.
  - exact example_created_fresh.
  - rewrite example_created_heap, Hnext. exact example_add_wf.
  - change (column_family_id example_add) with 5. rewrite (Hkn 5); [apply disjoint_empty_r|]. apply elem_of_dom. vm_compute. by eexists.
  - exact HL.
  - eexists sys', _, _. split; [done|]. split; [by eapply LogAndApply_disk|done].
Qed.

Lemma example_extended_facts :
  match example_extended with
  | Ok (OK, sys) =>
      set_next_file_number (sys_set sys) = 2 /\
      bs_cf_options <$> column_families (sys_set sys) = example_open_cfs /\
      lives (column_families (sys_set sys)) (sys_shared sys) = {[ 5 := {[ 1 := persistent (deref example_gc_heap 1) ]} ]} /\
      match BlobFileSet_Open example_open_cfs (start_sys example_open_options example_open_shared (sys_fs sys)) with
      | Ok _ => True | _ => False end
  | _ => False
  end.
Proof. vm_compute. split_and!; first [reflexivity|exact I]. Qed.

Lemma reopen_keeps_live_files_witness :
  exists sys sys', example_extended = Ok (OK, sys) /\
    BlobFileSet_Open example_open_cfs (start_sys example_open_options example_open_shared (sys_fs sys)) = Ok sys' /\
    lives (column_families (sys_set sys')) (sys_shared sys') = {[ 5 := {[ 1 := persistent (deref example_gc_heap 1) ]} ]}.
Proof.
  destruct example_extended_state as (sys & es & st & Hrun & Hdisk & Hcons & Hinv).
  pose proof example_extended_facts as Hf. rewrite Hrun in Hf. destruct Hf as (Hn & Hcf & Hl & Hok).
  destruct (reopen_keeps_live_files example_open_options example_open_cfs example_open_shared sys es st Hinv Hcons Hdisk)
    as (n & sys1 & s & sys2 & _ & Hr).
  - rewrite Hn. vm_compute. reflexivity.
  - intros id. rewrite <- Hcf. apply lookup_fmap.
  - apply map_Forall_singleton. vm_compute. intuition congruence.
  - intros id t v _ Hv. vm_compute in Hv. discriminate.
  - destruct (status_ok s).
    + destruct Hr as (sys' & Hopen & _ & Hlives & _). exists sys, sys'. rewrite Hlives.
      exact (conj Hrun (conj Hopen Hl)).
    + rewrite Hr in Hok. destruct Hok.
Defined.
End witnesses.
