(* ===== verification/OpenDbInv.v ===== *)
(** * What survives closing and opening a database

    Values in complete blob files can be read again after a crash or a close;
    values in files still being written cannot. A database object can be deleted
    only while it is open. Options that are set are the ones that are used. *)

From Stdlib Require Import Ascii.
From S2P Require Import Prelude Rocks Options Stats Util BlobFormat Env BaseDb BlobFileBuilder BlobFileReader VersionEdit BlobStorage StorageInv EditCollector BlobFileSet ApplyInv ManifestReplay BlobGC Scheduler DbEvents DbEventsInv CompactionInv FileManager StoredFiles Directory ForegroundBuilder GCJob GCJobInv GCFinish TableBuilder TableBuilderInv TitanDb OpenDb DbIter TitanDbInv FinishedFiles Recovery.

(** Creating a directory and locking it leave the blob files and the manifest
    alone. *)
Class OpenIOOk `{E : Env} `{M : !ManifestIO} `{D : !DirectoryLaws} `{OI : !OpenIO} : Prop := {
  create_dir_disk : forall name w log rs, is_log w log rs -> is_log (CreateDirIfMissing name w).2 log rs;
  create_dir_current : forall name w dir c, ReadFileToString w (CurrentFileName dir) = Ok c ->
    ReadFileToString (CreateDirIfMissing name w).2 (CurrentFileName dir) = Ok c;
  create_dir_blobs : forall name w dir n c, holds_file w (BlobFileName dir n) c ->
    holds_file (CreateDirIfMissing name w).2 (BlobFileName dir n) c;
  lock_disk : forall dir w n es, is_log w (DescriptorFileName dir n) es ->
    is_log (LockFile (LockFileName dir) w).2 (DescriptorFileName dir n) es;
  lock_current : forall dir w c, ReadFileToString w (CurrentFileName dir) = Ok c ->
    ReadFileToString (LockFile (LockFileName dir) w).2 (CurrentFileName dir) = Ok c;
  lock_blobs : forall dir w n c, holds_file w (BlobFileName dir n) c ->
    holds_file (LockFile (LockFileName dir) w).2 (BlobFileName dir n) c
}.

Section reopen.
Context `{Coding} `{!CodingOk _} `{Compressors} `{!CompressorsOk _} `{E : Env} `{!EnvOk E}
        `{BC : Cache bytes} `{!CacheOk BC} `{FC : !Cache BlobFileReader} `{!CacheOk FC} `{UnorderedIter}
        `{!ManifestIO} `{!WritableFiles} `{!StoredFilesOk} `{!DirectoryLaws} `{B : BaseDB} `{BO : !BaseOpen}
        `{OI : !OpenIO} `{!OpenIOOk}.
Context {factory : Type}.

(** Preparing the directory keeps what is on disk. *)
Definition keeps_disk (dir : string) (w w' : fs) : Prop :=
  (forall n es, log_on_disk dir w (DescriptorFileName dir n) es -> log_on_disk dir w' (DescriptorFileName dir n) es) /\
  keeps_blobs dir (fun _ => True) w w'.

Lemma keeps_disk_trans dir w1 w2 w3 : keeps_disk dir w1 w2 -> keeps_disk dir w2 w3 -> keeps_disk dir w1 w3.
Proof. intros [H12 Hb12] [H23 Hb23]. split; [eauto|by eapply keeps_trans]. Qed.

Lemma create_dir_keeps dir name w : keeps_disk dir w (CreateDirIfMissing name w).2.
Proof.
  split.
  - intros n es [Hlog (f & Hr & Hn)]. split; [by apply create_dir_disk|]. exists f. split; [by apply create_dir_current|done].
  - intros n c _. apply create_dir_blobs.
Qed.

Lemma lock_keeps dir w : keeps_disk dir w (LockFile (LockFileName dir) w).2.
Proof.
  split.
  - intros n es [Hlog (f & Hr & Hn)]. split; [by apply lock_disk|]. exists f. split; [by apply lock_current|done].
  - intros n c _. apply lock_blobs.
Qed.

(** What the object shares when it is new. *)
Definition new_shared (statistics : bool) (caches : Caches) : Shared :=
  MkShared ∅ (if statistics then Some (∅ : TitanStats) else None) caches.

(** Statistics start at zero. *)
Lemma init_stats_zero cfs (statistics : bool) caches id t v :
  stat (sh_stats (init_stats cfs (new_shared statistics caches))) id t = Some v -> v = 0.
Proof.
  unfold init_stats, new_shared. cbn [sh_stats set_stats]. destruct statistics; [|done]. cbn [fmap option_fmap option_map].
  unfold TitanStats_Initialize.
  assert (Hz : forall (st : TitanStats) id' s, (foldl (fun st id => <[id := TitanInternalStats_Clear]> st) st (ordered_iter cfs).*1) !! id' = Some s ->
            (forall i s, st !! i = Some s -> s = TitanInternalStats_Clear) -> s = TitanInternalStats_Clear).
  { generalize (ordered_iter cfs).*1 as L. intros L. induction L as [|x L IH]; intros st id' s; cbn [foldl]; [eauto|].
    intros Hs Hst. eapply IH; [exact Hs|]. intros i s'. by intros [[_ <-]|[_ Hs']]%lookup_insert_Some; [|eapply Hst]. }
  unfold stat. intros (s & Hs & ->)%fmap_Some. rewrite (Hz _ _ _ Hs); [done|]. by intros i s'; rewrite lookup_empty.
Qed.

(** What [Open] has done when the database is open afterwards. *)
Lemma Open_OK logger (descs : list (TitanCFDescriptor (factory := factory))) options dbname statistics caches w st s td d :
  TitanDBImpl_Open logger descs (TitanDBImpl_new options dbname statistics caches w st) = Ok (s, td) -> td_db td = Some d ->
  let options := set_default_dirname dbname options in
  s = OK /\ t_options (td_impl td) = options /\
  exists ids d0 st1 ids1 w1,
    DB_Open (init_desc <$> descs) st = inl (ids, d0) /\ DB_Close d0 = (OK, st1) /\
    DB_Open (base_desc <$> descs) st1 = inl (ids1, d) /\
    keeps_disk (dirname options) w w1 /\
    BlobFileSet_Open (opened_cfs ids descs) (start_sys options
      (init_stats (opened_cfs ids descs) (new_shared statistics caches)) w1) = Ok (t_sys (td_impl td)).
Proof.
  cbv zeta. set (opts := set_default_dirname dbname options). unfold TitanDBImpl_Open, TitanDBImpl_new. fold opts.
  cbn [td_impl td_dbname t_options t_sys sys_fs]. intros Hopen Hd. revert Hopen.
  pose proof (create_dir_keeps (dirname opts) dbname w) as Hk1. destruct (CreateDirIfMissing dbname w) as [s1 w1].
  destruct (negb (status_ok s1)); [intros [= _ <-]; done|].
  destruct (negb (status_ok logger)); [intros [= _ <-]; done|].
  pose proof (create_dir_keeps (dirname opts) (dirname opts) w1) as Hk2. destruct (CreateDirIfMissing (dirname opts) w1) as [s2 w2].
  destruct (negb (status_ok s2)); [intros [= _ <-]; done|].
  pose proof (lock_keeps (dirname opts) w2) as Hk3. destruct (LockFile _ w2) as [s3 w3].
  destruct (negb (status_ok s3)); [intros [= _ <-]; done|]. cbn [snd] in *.
  unfold open_first. cbn [td_store td_impl td_with td_with_fs td_dbname td_cf_info td_builders td_lock with_sys t_sys t_options sys_shared sys_set].
  destruct (DB_Open (init_desc <$> descs) st) as [[ids d0]|[s4 st4]] eqn:Ho1.
  2: { intros [= _ <-]. done. }
  destruct (DB_Close d0) as [s5 st5] eqn:Hc. destruct (status_ok s5) eqn:Hs5; [|intros [= _ <-]; done].
  apply status_ok_true in Hs5 as ->. unfold open_second.
  cbn [td_store td_impl td_with td_with_fs td_dbname td_cf_info td_builders td_lock with_sys t_sys t_options sys_shared sys_set sys_fs].
  destruct (BlobFileSet_Open _ _) as [sys|s6|] eqn:Hb; [|intros [= _ <-]; done|done].
  destruct (DB_Open (base_desc <$> descs) st5) as [[ids1 d1]|[s7 st7]] eqn:Ho2; intros [= <- <-]; [|done].
  cbn [td_db] in Hd. injection Hd as ->. split; [done|]. split; [done|].
  exists ids, d0, st5, ids1, w3. split_and!; try done.
  by eapply keeps_disk_trans; [|eapply keeps_disk_trans].
Qed.

(** A database whose manifest on disk describes it, and a new process that opens
    the same column families in the same directory, with empty caches. *)
Record reopened (logger : Status) (descs : list (TitanCFDescriptor (factory := factory))) (options : TitanDBOptions)
    (dbname : string) (statistics : bool) (caches : Caches) (st : store) (db : TitanDBImpl) (td : TitanDB (factory := factory))
    (d : base) (es : list (heap * VersionEdit)) (hs : HState) : Prop := {
  re_inv : db_inv db;
  re_consistent : consistent (t_sys db) es hs;
  re_disk : disk_open (dirname (set_default_dirname dbname options)) (t_sys db) es;
  re_numbers : set_next_file_number (sys_set (t_sys db)) + 1 < two64;
  re_caches : forall k rd, ~ cache_has (file_cache caches) k rd;
  re_cfs : forall ids d0, DB_Open (init_desc <$> descs) st = inl (ids, d0) ->
    same_cfs (opened_cfs ids descs) (t_sys db) /\ map_Forall (fun id _ => is_u32 id) (opened_cfs ids descs);
  re_open : TitanDBImpl_Open logger descs (TitanDBImpl_new options dbname statistics caches (sys_fs (t_sys db)) st) = Ok (OK, td);
  re_db : td_db td = Some d
}.

Lemma reopened_opened logger descs options dbname statistics caches st db td d es hs :
  reopened logger descs options dbname statistics caches st db td d es hs ->
  let opts := set_default_dirname dbname options in
  exists cfs w1 next, same_cfs cfs (t_sys db) /\ keeps_blobs (dirname opts) (fun _ => True) (sys_fs (t_sys db)) w1 /\
    opened opts cfs (init_stats cfs (new_shared statistics caches)) w1 (hs_live hs) next (t_sys (td_impl td)).
Proof.
  intros [Hinv Hcons Hdisk Hn Hca Hcfs Hopen Hd] opts.
  destruct (Open_OK _ _ _ _ _ _ _ _ _ _ _ Hopen Hd) as (_ & _ & ids & d0 & st1 & ids1 & w1 & Ho & _ & _ & [Hk Hb] & Hrun).
  destruct (Hcfs ids d0 Ho) as [Hsame Hids]. fold opts in Hdisk, Hk, Hb, Hrun. exists (opened_cfs ids descs), w1.
  assert (Hon : on_disk (dirname opts) w1 es) by (destruct Hdisk as (k & _ & _ & Hlog); exists (DescriptorFileName (dirname opts) k); by apply Hk).
  pose proof (setup_of_consistent opts _ (init_stats (opened_cfs ids descs) (new_shared statistics caches)) w1 _ _ _
    Hinv Hcons Hon Hn Hsame Hids (fun id t v _ => init_stats_zero _ _ _ id t v)) as Hset.
  destruct (Open_recovers _ _ _ _ _ _ Hset) as (cfs2 & sh2 & s & sys2 & _ & Hr). destruct (status_ok s).
  - destruct Hr as (sys' & Hrun' & Hop). rewrite Hrun in Hrun'. injection Hrun' as ->.
    eexists. split; [done|]. split; [done|exact Hop].
  - rewrite Hrun in Hr. discriminate.
Qed.

(** C1: Values in live blob files survive a crash and a restart. Take a database
    whose manifest on disk describes it, and a record that an index reads from a
    live file of it, in a column family without a blob cache (the default); drop everything but the disk, and open the database again in
    a new process. If it opens, the base database gives the index for the key
    again, and the column families are opened with the options they had, then
    [Get] on the new database returns the value of the record. *)
Theorem reopen_then_get (logger : Status) (descs : list (TitanCFDescriptor (factory := factory))) (options : TitanDBOptions)
    (dbname : string) (statistics : bool) (caches : Caches) (st : store) (db : TitanDBImpl) (td : TitanDB (factory := factory))
    (d : base) (es : list (heap * VersionEdit)) (hs : HState)
    (cf_id : Z) (i : BlobIndex) (r : BlobRecord) (t : Z) (rs : list BlobRecord) (bs : BlobStorage) (m : BlobFileMeta) (key : bytes) :
  reopened logger descs options dbname statistics caches st db td d es hs ->
  index_held cf_id i r t rs bs m db -> dirname (bs_db_options bs) = dirname (set_default_dirname dbname options) ->
  base_GetImpl d cf_id key = Ok (BlobIndex_EncodeTo i, true) ->
  exists db', TitanDBImpl_GetImpl cf_id key d (td_impl td) = (Ok (record_value r), db').
Proof.
  intros Hre Hheld Hdir Hg. pose proof (re_caches _ _ _ _ _ _ _ _ _ _ _ _ Hre) as Hca.
  destruct (reopened_opened _ _ _ _ _ _ _ _ _ _ _ _ Hre) as (cfs & w1 & next & Hsame & Hk & Hop).
  set (opts := set_default_dirname dbname options) in *.
  destruct Hheld as [Hbs Hlive Hnum Hsz Hsmall Hrec Hwf Hi Ht Hov Hbc Hholds _].
  assert (Hcf : cfs !! cf_id = Some (bs_cf_options bs)) by (rewrite Hsame; unfold GetBlobStorage in Hbs; by rewrite Hbs).
  pose proof (op_storages _ _ _ _ _ _ _ Hop cf_id) as Hst. rewrite Hcf in Hst.
  destruct Hst as (bs' & Hbs' & Hdb' & Hco' & _ & Hl').
  assert (Hlv : hs_live hs cf_id = live_files bs (sys_shared (t_sys db)))
    by (by apply (cons_live _ _ _ (re_consistent _ _ _ _ _ _ _ _ _ _ _ _ Hre))).
  assert (Hheld' : index_held cf_id i r t rs bs' m (td_impl td)).
  { split; rewrite ?Hco'; try done.
    - by rewrite Hl', Hlv.
    - rewrite Hdb'. apply (op_blobs _ _ _ _ _ _ _ Hop).
      + exists cf_id. split; [by apply elem_of_dom; eexists|]. rewrite Hlv, Hlive. by eexists.
      + apply Hk; [done|]. by rewrite <- Hdir.
    - rewrite (op_caches _ _ _ _ _ _ _ Hop). apply Hca. }
  destruct (held_index _ _ _ _ _ _ _ _ Hheld') as (m2 & f & Hidx).
  destruct (GetImpl_index cf_id key d i r bs' m2 t rs f (td_impl td) Hidx Hg) as (db' & Hget & _). by exists db'.
Qed.

(** C35: Values in files that are still being written do not survive. In the same
    situation, an index whose file is not a live file of the manifest, such as a
    file a foreground builder had open, cannot be read from the new database:
    [Get] fails with a corruption, although the base database has the index. *)
Theorem unfinished_files_lost (logger : Status) (descs : list (TitanCFDescriptor (factory := factory))) (options : TitanDBOptions)
    (dbname : string) (statistics : bool) (caches : Caches) (st : store) (db : TitanDBImpl) (td : TitanDB (factory := factory))
    (d : base) (es : list (heap * VersionEdit)) (hs : HState) (cf_id : Z) (i : BlobIndex) (bs : BlobStorage) (key : bytes) :
  reopened logger descs options dbname statistics caches st db td d es hs ->
  column_families (sys_set (t_sys db)) !! cf_id = Some bs -> index_wf i ->
  live_files bs (sys_shared (t_sys db)) !! index_file_number i = None ->
  base_GetImpl d cf_id key = Ok (BlobIndex_EncodeTo i, true) ->
  exists msg db', TitanDBImpl_GetImpl cf_id key d (td_impl td) = (Err (Corruption msg), db').
Proof.
  intros Hre Hbs Hi Hnone Hg.
  destruct (reopened_opened _ _ _ _ _ _ _ _ _ _ _ _ Hre) as (cfs & w1 & next & Hsame & _ & Hop).
  assert (Hcf : cfs !! cf_id = Some (bs_cf_options bs)) by (rewrite Hsame; by rewrite Hbs).
  pose proof (op_storages _ _ _ _ _ _ _ Hop cf_id) as Hst. rewrite Hcf in Hst.
  destruct Hst as (bs' & Hbs' & _ & _ & Hbuild & Hl').
  assert (Hlv : hs_live hs cf_id = live_files bs (sys_shared (t_sys db)))
    by (by apply (cons_live _ _ _ (re_consistent _ _ _ _ _ _ _ _ _ _ _ _ Hre))).
  assert (Hf : files bs' !! index_file_number i = None).
  { destruct (files bs' !! index_file_number i) as [l|] eqn:Hl; [|done]. exfalso.
    apply (proj1 (no_obsolete_live bs' (sys_shared (t_sys (td_impl td)))) (op_live _ _ _ _ _ _ _ Hop cf_id bs' Hbs') _ _ Hl).
    by rewrite Hl', Hlv. }
  unfold TitanDBImpl_GetImpl. rewrite Hg, (DecodeFrom_index i Hi). unfold GetBlobStorage. rewrite Hbs'.
  unfold bs_Get, bs_FindFile. rewrite Hf. destruct (sep_before_flush (bs_db_options bs')).
  - unfold ReadBuildingFile, FindBuildingFile. rewrite Hbuild, lookup_empty. cbn [result_bind]. by eexists _, _.
  - by eexists _, _.
Qed.

(** ** Deleting the object *)

Lemma Open_failed logger (descs : list (TitanCFDescriptor (factory := factory))) td s td' :
  td_db td = None -> TitanDBImpl_Open logger descs td = Ok (s, td') -> status_ok s = false -> td_db td' = None.
Proof.
  intros Hnone. unfold TitanDBImpl_Open. destruct (CreateDirIfMissing _ _) as [s1 w1].
  destruct (negb (status_ok s1)); [by intros [= _ <-]|]. destruct (negb (status_ok logger)); [by intros [= _ <-]|].
  destruct (CreateDirIfMissing _ _) as [s2 w2]. destruct (negb (status_ok s2)); [by intros [= _ <-]|].
  destruct (LockFile _ _) as [s3 w3]. destruct (negb (status_ok s3)); [by intros [= _ <-]|].
  unfold open_first. destruct (DB_Open _ _) as [[ids d0]|[s4 st4]]; [|by intros [= _ <-]].
  destruct (DB_Close d0) as [s5 st5]. destruct (status_ok s5); [|by intros [= _ <-]].
  unfold open_second. destruct (BlobFileSet_Open _ _) as [sys|s6|]; [|by intros [= _ <-]|done].
  destruct (DB_Open _ _) as [[ids1 d1]|[s7 st7]]; intros [= <- <-]; [|done]. done.
Qed.

Lemma delete_closed n (td : TitanDB (factory := factory)) : td_db td = None -> TitanDBImpl_delete n td = Fault.
Proof.
  intros Hnone. unfold TitanDBImpl_delete, TitanDBImpl_Close, PurgeObsoleteFiles, DumpStats, td_with. cbn [td_db].
  by rewrite Hnone.
Qed.

(** C36: A database object can be deleted only while it is open. The destructor of
    an open database purges, stops the collections and the builders, closes the
    base database, removes the lock, and leaves the files its foreground builders
    have open as they are. After [Close], and after an [Open] that failed, it
    dereferences the base database that is not there: closing before deleting
    ends the process, and so does [TitanDB::Open] whenever it fails. *)
Theorem delete_needs_open (n k : nat) (td : TitanDB (factory := factory)) :
  (forall d, td_db td = Some d -> exists td', TitanDBImpl_delete n td = Ok td' /\ td_db td' = None /\
     td_lock td' = false /\ td_builders td' = td_builders td /\ shuting_down (t_sched (td_impl td')) = true) /\
  (forall s td', TitanDBImpl_Close n td = Ok (s, td') -> TitanDBImpl_delete k td' = Fault) /\
  (forall logger options dbname statistics caches (descs : list (TitanCFDescriptor (factory := factory))) w st s td',
     TitanDBImpl_Open logger descs (TitanDBImpl_new options dbname statistics caches w st) = Ok (s, td') ->
     status_ok s = false -> TitanDB_Open logger options dbname statistics caches descs w st = Fault).
Proof.
  split_and!.
  - intros d Hd. unfold TitanDBImpl_delete, TitanDBImpl_Close, PurgeObsoleteFiles, DumpStats, td_with. cbn [td_db].
    rewrite Hd. cbn [result_bind td_db]. destruct (DB_Close d) as [s st]. cbn [result_bind]. by eexists.
  - intros s td'. unfold TitanDBImpl_Close. destruct (PurgeObsoleteFiles td) as [td1| |]; cbn [result_bind]; [|done..].
    destruct (match td_db td1 with Some d => DB_Close d | None => _ end) as [s1 st1]. intros [= _ <-]. by apply delete_closed.
  - intros logger options dbname statistics caches descs w st s td' Hopen Hs. unfold TitanDB_Open. rewrite Hopen.
    cbn [result_bind]. rewrite Hs. apply Open_failed in Hopen; [|done..]. by rewrite (delete_closed 0 td' Hopen).
Qed.

(** ** Options *)

(** [SetOptions] sets the run mode for reading and for writing, or nothing.
    For a column family that is known it returns, whatever the options. When it
    returns OK and a run mode was given, the mode is one of the three, it is what
    [GetTitanOptions] reports and what the table factory uses for the next table,
    and all other options are as before; without a run mode nothing of Titan
    changes. When it fails, because the mode is unknown or the base database
    refuses the other options, nothing of Titan has changed. *)
Theorem set_options_run_mode (cf_id : Z) (opts : gmap string string) (d : base) (td : TitanDB (factory := factory))
    (ci : TitanColumnFamilyInfo (factory := factory)) :
  td_cf_info td !! cf_id = Some ci ->
  exists s d' td', SetOptions cf_id opts d td = Ok (s, d', td') /\
    match status_ok s, opts !! "blob_run_mode" with
    | true, Some name =>
        exists mode, blob_run_mode_string_map !! name = Some mode /\
        (forall tf, ci_titan_table_factory <$> td_cf_info td' !! cf_id = Some tf ->
           tf = MkTitanTableFactory (tf_cf_options (ci_titan_table_factory ci)) mode) /\
        (forall d'', GetTitanOptions cf_id d'' td' =
           Ok (GetTitanDBOptions d'' td,
               TitanCFOptions_assemble (DB_GetOptions d'' cf_id) (ci_immutable ci) (MkMutableTitanCFOptions mode))) /\
        (forall d'', GetOptions cf_id d'' td' = GetOptions cf_id d'' td) /\
        delete cf_id (td_cf_info td') = delete cf_id (td_cf_info td) /\ td_impl td' = td_impl td
    | _, _ => td' = td
    end.
Proof.
  intros Hci. unfold SetOptions. destruct (opts !! "blob_run_mode") as [name|]; cbn [fmap option_fmap option_map].
  - destruct (blob_run_mode_string_map !! name) as [mode|]; [|by eexists _, d, td].
    destruct (if bool_decide _ then (OK, d) else _) as [s d']. destruct (status_ok s) eqn:Hs; cbn [negb].
    2: { eexists s, d', td. split; [done|]. by rewrite Hs. }
    unfold set_run_mode. rewrite Hci. cbn [result_bind]. eexists OK, d', _. split; [done|]. cbn [status_ok].
    exists mode. unfold GetTitanOptions, GetOptions. cbn [td_cf_info td_impl]. rewrite lookup_insert_eq, Hci.
    split_and!; try done.
    + by intros tf [= <-].
    + by rewrite delete_insert_eq.
  - destruct (if bool_decide _ then (OK, d) else _) as [s d']. destruct (status_ok s) eqn:Hs; cbn [negb].
    + by eexists OK, d', td.
    + eexists s, d', td. split; [done|]. by rewrite Hs.
Qed.
End reopen.

(** ** Applications *)

Section witnesses.
#[local] Existing Instances leb128_coding leb128_coding_ok rle_compressors rle_compressors_ok mem_env mem_env_ok map_to_list_iter
  mem_manifest blobs_map readers_map mem_files mem_stored_ok mem_directory mem_basedb.

(** A base database in memory that numbers its column families from 5, and a lock
    that is a file. *)
#[local] Instance mem_open : @BaseOpen mem_basedb := {|
  store := mem_base;
  DB_Open := fun descs st => inl ((fun k => 5 + Z.of_nat k) <$> seq 0 (length descs), st : @base mem_basedb);
  DB_Close := fun d => (OK, d : mem_base);
  oldest_snapshot := fun _ => None;
  DB_SetOptions := fun _ _ d => (OK, d);
  DB_GetOptions := fun _ _ => cf_base example_cf_options;
  DB_GetDBOptions := fun _ => db_base example_open_options
|}.

#[local] Instance mem_open_io : @OpenIO mem_env := {|
  CreateDirIfMissing := fun _ (w : @fs mem_env) => (OK, w);
  LockFileName := fun dir => in_dir dir "LOCK";
  LockFile := fun name (w : @fs mem_env) => (OK, <[name := []]> (w : gmap string bytes) : @fs mem_env);
  UnlockFile := fun name (w : @fs mem_env) => (delete name (w : gmap string bytes) : @fs mem_env)
|}.

#[local] Instance mem_open_io_ok : OpenIOOk.
Proof.
  split; cbn; try done.
  - intros dir w n es Hw. rewrite lookup_insert_ne; [done|]. by intros ?%(in_dir_inj dir "LOCK" (mem_descriptor n)).
  - intros dir w c. rewrite lookup_insert_ne; [done|]. by intros ?%(in_dir_inj dir "LOCK" "CURRENT").
  - intros dir w n c. rewrite !mem_holds. intros (c' & Hc & Hr). exists c'. split; [|done].
    rewrite lookup_insert_ne; [done|]. intros Heq%(in_dir_inj dir "LOCK" (pretty n)).
    symmetry in Heq. by apply (mem_pretty_letter n "L"%char "OCK") in Heq.
Qed.

Definition example_descs : list (TitanCFDescriptor (factory := unit)) :=
  [MkTitanCFDescriptor "default" example_cf_options tt].

Definition example_caches : Caches := MkCaches ((0, ∅) : cache BlobFileReader) ((0, ∅) : cache bytes).

(** The base database has a key whose value is in file 1, and one whose value is
    in file 9, which was being written. *)
Definition example_lost_index : BlobIndex := MkBlobIndex 9 (MkBlobHandle 23 16).

Definition example_store : mem_base :=
  MkMemBase {[ (5, [Byte.x6b; Byte.x31]) := (BlobIndex_EncodeTo example_index, true);
               (5, [Byte.x6b; Byte.x39]) := (BlobIndex_EncodeTo example_lost_index, true) ]} 7.

Definition example_running (sys : Sys) : TitanDBImpl :=
  MkTitanDBImpl example_open_options sys Scheduler_new 0 false OK false ∅.

Definition example_start (w : @fs mem_env) : TitanDB (factory := unit) :=
  TitanDBImpl_new example_open_options "b" false example_caches w (example_store : @store _ mem_open).

Lemma example_reopen_ok :
  match example_extended with
  | Ok (OK, sys) => match TitanDBImpl_Open OK example_descs (example_start (sys_fs sys)) with
                    | Ok (OK, td) => td_db td = Some (example_store : @base mem_basedb)
                    | _ => False
                    end
  | _ => False
  end.
Proof. vm_compute. reflexivity. Qed.

Lemma example_reopened : exists sys td es hs, example_extended = Ok (OK, sys) /\
  reopened OK example_descs example_open_options "b" false example_caches example_store (example_running sys) td
    (example_store : @base mem_basedb) es hs.
Proof.
  destruct example_extended_state as (sys & es & st & Hrun & Hdisk & Hcons & Hinv).
  pose proof example_extended_facts as Hf. rewrite Hrun in Hf. destruct Hf as (Hn & Hcf & _ & _).
  pose proof example_reopen_ok as Hok. rewrite Hrun in Hok.
  destruct (TitanDBImpl_Open _ _ _) as [[s td]| |] eqn:Hopen; [|done..]. destruct s; try done.
  exists sys, td, es, st. split; [done|]. split; try done.
  - cbn [t_sys example_running]. by rewrite Hn.
  - intros ids d0 [= <- <-]. split.
    + intros id. cbn [t_sys example_running]. rewrite <- lookup_fmap, Hcf. done.
    + apply map_Forall_singleton. vm_compute. intuition congruence.
Qed.

Lemma example_running_facts :
  match example_extended with
  | Ok (OK, sys) =>
      match GetBlobStorage 5 (sys_set sys) with
      | Some bs =>
          dirname (bs_db_options bs) = "d" /\
          (sys_fs sys : gmap string bytes) !! "d/1" = Some (blob_file_bytes kNoCompression example_records) /\
          size (file_cache (sh_caches (sys_shared sys)) : Z * gmap bytes BlobFileReader).2 = 0%nat /\
          blob_cache (bs_cf_options bs) = false /\ level_merge (bs_cf_options bs) = false
      | None => False
      end
  | _ => False
  end.
Proof. vm_compute. split; [reflexivity|]. split; [reflexivity|]. split; [reflexivity|]. split; reflexivity. Qed.

Lemma example_running_live sys bs : example_extended = Ok (OK, sys) -> GetBlobStorage 5 (sys_set sys) = Some bs ->
  live_files bs (sys_shared sys) = {[ 1 := persistent (deref example_gc_heap 1) ]}.
Proof.
  intros Hrun Hbs. pose proof example_extended_facts as Hf. rewrite Hrun in Hf. destruct Hf as (_ & _ & Hl & _).
  apply (f_equal (lookup 5)) in Hl. unfold lives in Hl. unfold GetBlobStorage in Hbs.
  rewrite lookup_fmap, Hbs, lookup_singleton_eq in Hl. by injection Hl.
Qed.

Lemma example_read_held sys : example_extended = Ok (OK, sys) ->
  exists bs, index_held 5 example_index example_read_record kNoCompression example_records bs
    (deref example_gc_heap 1) (example_running sys) /\ dirname (bs_db_options bs) = "d".
Proof.
  intros Hrun. pose proof example_running_facts as Hf. rewrite Hrun in Hf.
  destruct (GetBlobStorage 5 (sys_set sys)) as [bs|] eqn:Hbs; [|done].
  destruct Hf as (Hd & Hfs & Hca & Hbc & Hlm). exists bs. split; [|done].
  pose proof (example_running_live sys bs Hrun Hbs) as Hl. apply map_size_empty_inv in Hca.
  split; cbn [t_sys example_running]; rewrite ?Hl, ?Hd, ?Hbc, ?Hlm; try done.
  - exists 1%nat. split; vm_compute; reflexivity.
  - apply mem_holds. eexists. split; [exact Hfs|done].
  - intros rd. cbn. by rewrite Hca, lookup_empty.
Qed.

Lemma reopen_then_get_witness :
  exists sys td db', example_extended = Ok (OK, sys) /\
    TitanDBImpl_Open OK example_descs (example_start (sys_fs sys)) = Ok (OK, td) /\
    TitanDBImpl_GetImpl 5 [Byte.x6b; Byte.x31] (example_store : @base mem_basedb) (td_impl td) =
      (Ok [Byte.x76; Byte.x62; Byte.x63], db').
Proof.
  destruct example_reopened as (sys & td & es & hs & Hrun & Hre).
  destruct (example_read_held sys Hrun) as (bs & Hheld & Hdir).
  destruct (reopen_then_get OK example_descs example_open_options "b" false example_caches
    (example_store : @store _ mem_open) (example_running sys) td (example_store : @base mem_basedb) es hs 5 example_index example_read_record kNoCompression example_records bs (deref example_gc_heap 1)
    [Byte.x6b; Byte.x31] Hre Hheld Hdir) as [db' Hget]; [vm_compute; reflexivity|].
  exists sys, td, db'. exact (conj Hrun (conj (re_open _ _ _ _ _ _ _ _ _ _ _ _ Hre) Hget)).
Defined.

Lemma unfinished_files_lost_witness :
  exists sys td msg db', example_extended = Ok (OK, sys) /\
    TitanDBImpl_Open OK example_descs (example_start (sys_fs sys)) = Ok (OK, td) /\
    TitanDBImpl_GetImpl 5 [Byte.x6b; Byte.x39] (example_store : @base mem_basedb) (td_impl td) = (Err (Corruption msg), db').
Proof.
  destruct example_reopened as (sys & td & es & hs & Hrun & Hre).
  destruct (example_read_held sys Hrun) as (bs & Hheld & _). pose proof (ih_storage _ _ _ _ _ _ _ _ Hheld) as Hbs.
  destruct (unfinished_files_lost OK example_descs example_open_options "b" false example_caches
    (example_store : @store _ mem_open) (example_running sys) td (example_store : @base mem_basedb) es hs 5 example_lost_index bs [Byte.x6b; Byte.x39] Hre Hbs) as (msg & db' & Hget).
  - unfold index_wf. vm_compute. intuition congruence.
  - cbn [t_sys example_running]. rewrite (example_running_live sys bs Hrun Hbs). reflexivity.
  - vm_compute. reflexivity.
  - exists sys, td, msg, db'. exact (conj Hrun (conj (re_open _ _ _ _ _ _ _ _ _ _ _ _ Hre) Hget)).
Defined.

(** The same object, opened, closed, and deleted while it is open. *)
Definition example_opened : TitanDB (factory := unit) :=
  match TitanDBImpl_Open OK example_descs (example_start example_dir) with
  | Ok (_, td) => td
  | _ => example_start example_dir
  end.

Lemma example_close_ok : match TitanDBImpl_Close 0 example_opened with Ok (OK, _) => True | _ => False end.
Proof. vm_compute. exact I. Qed.

Lemma delete_needs_open_witness :
  (exists td', TitanDBImpl_delete 0 example_opened = Ok td' /\ td_db td' = None) /\
  (exists td', TitanDBImpl_Close 0 example_opened = Ok (OK, td') /\ TitanDBImpl_delete 0 td' = Fault) /\
  TitanDB_Open (IOError "log" : Status) example_open_options "b" false example_caches example_descs
    (example_dir : @fs mem_env) (example_store : @store _ mem_open) = Fault.
Proof.
  destruct (delete_needs_open 0 0 example_opened) as (Hdel & Hclose & Hfail). split_and!.
  - destruct (Hdel example_store) as (td' & Hrun & Hnone & _); [vm_compute; reflexivity|]. exists td'. exact (conj Hrun Hnone).
  - pose proof example_close_ok as Hok. destruct (TitanDBImpl_Close 0 example_opened) as [[s td']| |] eqn:Hrun;
      [|exact (False_ind _ Hok)..]. destruct s; try exact (False_ind _ Hok).
    exists td'. exact (conj eq_refl (Hclose OK td' eq_refl)).
  - eapply Hfail; reflexivity.
Defined.

Lemma set_options_run_mode_witness :
  exists d' td', SetOptions 5 {[ "blob_run_mode" := "kReadOnly" ]} (example_store : @base mem_basedb) example_opened
                   = Ok (OK, d', td') /\
    ((fun ci => tf_blob_run_mode (ci_titan_table_factory ci)) <$> td_cf_info td' !! 5) = Some kReadOnly.
Proof.
  destruct (set_options_run_mode 5 {[ "blob_run_mode" := "kReadOnly" ]} (example_store : @base mem_basedb) example_opened
    (cf_info_of (MkTitanCFDescriptor "default" example_cf_options tt))) as (s & d' & td' & Hrun & Hs); [vm_compute; reflexivity|].
  assert (Hok : match SetOptions 5 {[ "blob_run_mode" := "kReadOnly" ]} (example_store : @base mem_basedb) example_opened with
                | Ok (OK, _, td) => is_Some (td_cf_info td !! 5) | _ => False end)
    by (vm_compute; eexists; reflexivity).
  rewrite Hrun in Hok. destruct s; try exact (False_ind _ Hok). destruct Hs as (mode & Hm & Htf & _).
  assert (mode = kReadOnly) as -> by (vm_compute in Hm; injection Hm as <-; reflexivity).
  exists d', td'. split; [exact Hrun|]. destruct Hok as [ci Hci]. rewrite Hci in Htf |- *.
  specialize (Htf _ eq_refl). cbn [fmap option_fmap option_map]. rewrite Htf. reflexivity.
Defined.
End witnesses.
