(* ===== verification/SnapshotReads.v ===== *)
(** * Reads under a snapshot

    A reader takes a snapshot of the base database, gets a blob index from it and
    reads the record later. In between, garbage collections and compactions
    delete blob files, and purges remove them from the directory. The sequence
    number noted with a deleted file, and the oldest snapshot, decide whether a
    purge may remove it. Here these calls run interleaved, as steps of a world of
    the database, the base database and the list of snapshots. *)

From S2P Require Import Prelude Rocks Options Stats Util BlobFormat Env BaseDb BlobFileBuilder BlobFileReader VersionEdit BlobStorage StorageInv EditCollector BlobFileSet ApplyInv ManifestReplay BlobGC Scheduler BlobFileSizeCollector RangeMerge DbEvents DbEventsInv CompactionInv FileManager StoredFiles Directory ForegroundBuilder GCJob GCJobInv GCFinish TableBuilder TitanDb PurgeInv DbIter TitanDbInv FinishedFiles.

(** ** Open files *)

(** The operation [w -> w'] on the file [name] leaves the readers of the other
    files as they are. *)
Definition steady `{Env} (name : string) (w w' : fs) : Prop :=
  forall name' f c, name' <> name -> NewRandomAccessFile w name' = Ok f -> readable w f c ->
    NewRandomAccessFile w' name' = Ok f /\ readable w' f c.

Class SteadyFilesOk `{E : Env} `{M : !ManifestIO} `{W : !WritableFiles} : Prop := {
  sync_steady : forall name f w, steady name w (w_Sync name f w).2;
  close_steady : forall name f w, steady name w (w_Close name f w).2;
  create_steady : forall name w, steady name w (env_NewWritableFile name w).2;
  delete_steady : forall name w, steady name w (env_DeleteFile name w).2;
  log_steady : forall log record w, steady log w (log_AddRecord log record w).2;
  log_sync_steady : forall log w, steady log w (SyncTitanManifest log w).2
}.

Section mem_steady.
#[local] Existing Instances mem_env mem_manifest mem_files.

Lemma mem_insert_steady (w : gmap string bytes) name x : steady (H := mem_env) name w (<[name := x]> w).
Proof.
  intros name' f c Hne. cbn. rewrite lookup_insert_ne by congruence. destruct (w !! name') as [c'|] eqn:Hw; [|done].
  intros [= <-] Hr. split; [done|]. intros off n Ho Hn. specialize (Hr off n Ho Hn). cbn in *.
  by rewrite lookup_insert_ne by congruence.
Qed.

#[export] Instance mem_steady_ok : @SteadyFilesOk mem_env mem_manifest mem_files.
Proof.
  split; cbn; try (intros; apply mem_insert_steady); [|done].
  intros name w name' f c Hne. cbn. rewrite lookup_delete_ne by congruence.
  destruct (w !! name') as [c'|] eqn:Hw; [|done]. intros [= <-] Hr. split; [done|].
  intros off n Ho Hn. specialize (Hr off n Ho Hn). cbn in *. by rewrite lookup_delete_ne by congruence.
Qed.
End mem_steady.

Section snapshots.
Context `{Coding} `{!CodingOk _} `{Compressors} `{!CompressorsOk _} `{E : Env} `{!EnvOk E}
        `{BC : Cache bytes} `{!CacheOk BC} `{FC : !Cache BlobFileReader} `{!CacheOk FC}
        `{UnorderedIter} `{!ManifestIO} `{!WritableFiles} `{!SteadyFilesOk} `{B : BaseDB} `{I : BaseIter}.

(** ** What an edit does to the tables of files *)

(** From [a] to [b] no file has left the table; a new one has a number in [A];
    the obsolete files have been joined by some with a sequence number in [Q]. *)
Record grown (A Q : Z -> Prop) (a b : BlobStorage * Shared) : Prop := {
  gr_files : files a.1 ⊆ files b.1;
  gr_new : forall n l, files b.1 !! n = Some l ->
    files a.1 !! n = Some l \/ (A n /\ file_number (deref (sh_heap a.2) l) = n);
  gr_meta : same_persistent (sh_heap a.2) (sh_heap b.2);
  gr_obsolete : forall n seq, (n, seq) ∈ obsolete_files b.1 -> (n, seq) ∈ obsolete_files a.1 \/
    (Q seq /\ exists n' l, files b.1 !! n' = Some l /\ file_number (deref (sh_heap a.2) l) = n);
  gr_config : same_config a.1 b.1
}.

Lemma deref_number h h' l : same_persistent h h' -> file_number (deref h' l) = file_number (deref h l).
Proof.
  intros Hs. specialize (Hs l). unfold deref. destruct (h !! l) as [m|], (h' !! l) as [m'|]; try done.
  apply (inj Some) in Hs. cbn. unfold persistent, BlobFileMeta_new in Hs. by injection Hs.
Qed.

Lemma grown_refl A Q a : grown A Q a a.
Proof. split; try done; by left. Qed.

Lemma grown_trans A Q a b c : grown A Q a b -> grown A Q b c -> grown A Q a c.
Proof.
  intros [Hf1 Hn1 Hm1 Ho1 Hc1] [Hf2 Hn2 Hm2 Ho2 Hc2]. split.
  - by etrans.
  - intros n l [Hl|[Ha Hl]]%Hn2; [by apply Hn1|]. right. split; [done|]. by rewrite <- (deref_number _ _ l Hm1).
  - by eapply same_persistent_trans.
  - intros n seq [[Hin|(Hq & n' & l & Hl & Hn)]%Ho1|(Hq & n' & l & Hl & Hn)]%Ho2; [by left|right..].
    + split; [done|]. exists n', l. split; [by eapply lookup_weaken|done].
    + split; [done|]. exists n', l. by rewrite <- (deref_number _ _ l Hm1).
  - destruct Hc1 as (?&?&?&?), Hc2 as (?&?&?&?). split_and!; congruence.
Qed.

Lemma apply_added_grown A Q c file st :
  A (file_number (deref (sh_heap st.2) file.2)) -> grown A Q st (apply_added c file st).
Proof.
  intros Ha. unfold apply_added. destruct (cfc_deleted_files c !! file.1); [apply grown_refl|].
  destruct st as [bs sh]. split; cbn; try done; [| |by left].
  - unfold emplace. destruct (files bs !! _) eqn:Hn; [done|]. by apply insert_subseteq.
  - intros n l. unfold emplace. destruct (files bs !! _) eqn:Hn; [by left|].
    intros [[<- <-]|[_ Hl]]%lookup_insert_Some; [by right|by left].
Qed.

Lemma apply_deleted_grown A (Q : Z -> Prop) c file st : Q file.2 -> grown A Q st (apply_deleted c file st).2.
Proof.
  intros Hq. unfold apply_deleted. destruct (cfc_added_files c !! file.1); [apply grown_refl|].
  unfold MarkFileObsolete. destruct st as [bs sh]. cbn [fst]. destruct (files bs !! file.1) as [l|] eqn:Hl; [|apply grown_refl].
  split; cbn; try done; [by left|by apply same_persistent_call|].
  intros n seq [Hin|Hin%list_elem_of_singleton]%elem_of_app; [by left|]. injection Hin as -> ->. right. eauto.
Qed.

Lemma apply_updated_grown A Q d st : grown A Q st (apply_updated d st).
Proof.
  unfold apply_updated. destruct (bs_FindFile d.1 st.1) as [l|]; [|apply grown_refl].
  split; cbn; try done; [by left|by apply same_persistent_call|by left].
Qed.

Lemma CF_Apply_grown A (Q : Z -> Prop) c st :
  map_Forall (fun _ l => A (file_number (deref (sh_heap st.2) l))) (cfc_added_files c) ->
  map_Forall (fun _ seq => Q seq) (cfc_deleted_files c) -> grown A Q st (CF_Apply c st).2.
Proof.
  intros Ha Hd. unfold CF_Apply.
  assert (Hadd : forall L st, Forall (fun f => A (file_number (deref (sh_heap st.2) f.2))) L ->
            grown A Q st (foldl (fun st file => apply_added c file st) st L)).
  { intros L. induction L as [|f L IH]; intros st0 HL; [apply grown_refl|]. cbn [foldl].
    apply Forall_cons in HL as [Hf HL]. pose proof (apply_added_grown A Q c f st0 Hf) as Hg.
    eapply grown_trans; [exact Hg|]. apply IH. eapply Forall_impl; [exact HL|]. intros [n l] Hl. cbn [snd] in *.
    by rewrite (deref_number _ _ l (gr_meta _ _ _ _ Hg)). }
  assert (Hdel : forall L st, Forall (fun f => Q f.2) L -> grown A Q st (for_each (apply_deleted c) L st).2).
  { intros L. induction L as [|f L IH]; intros st0 HL; cbn [for_each]; [apply grown_refl|].
    apply Forall_cons in HL as [Hf HL]. pose proof (apply_deleted_grown A Q c f st0 Hf) as Hg.
    destruct (apply_deleted c f st0) as [s st1]. destruct (status_ok s); [|exact Hg].
    eapply grown_trans; [exact Hg|by apply IH]. }
  assert (Hupd : forall L st, grown A Q st (foldl (fun st d => apply_updated d st) st L)).
  { intros L. induction L as [|f L IH]; intros st0; [apply grown_refl|]. cbn [foldl].
    eapply grown_trans; [apply apply_updated_grown|apply IH]. }
  eapply grown_trans; [apply Hadd|].
  { apply Forall_forall. intros [n l] Hin%elem_of_unordered_iter. by apply (Ha n). }
  set (st1 := foldl _ st _). pose proof (Hdel (unordered_iter (cfc_deleted_files c)) st1) as Hg.
  destruct (for_each _ _ st1) as [s st2]. cbn [snd] in Hg.
  assert (Hg2 : grown A Q st1 st2).
  { apply Hg, Forall_forall. intros [n seq] Hin%elem_of_unordered_iter. by apply (Hd n). }
  destruct (status_ok s); [|exact Hg2]. eapply grown_trans; [exact Hg2|].
  pose proof (Hupd (unordered_iter (cfc_updated_discardable_size c)) st2) as Hg3. destruct (foldl _ st2 _) as [bs sh].
  destruct Hg3. by split.
Qed.

(** All column families, which stay the same; [A] tells the new numbers of each. *)
Record grown_set (A Q : Z -> Z -> Prop) (a b : gmap Z BlobStorage * Shared) : Prop := {
  gs_dom : dom b.1 = dom a.1;
  gs_storage : forall id bs', b.1 !! id = Some bs' -> exists bs, a.1 !! id = Some bs /\ grown (A id) (Q id) (bs, a.2) (bs', b.2);
  gs_meta : same_persistent (sh_heap a.2) (sh_heap b.2);
  gs_caches : sh_caches b.2 = sh_caches a.2
}.

Lemma grown_set_refl A Q a : grown_set A Q a a.
Proof. split; try done. intros id bs Hbs. exists bs. split; [done|apply grown_refl]. Qed.

Lemma apply_cf_grown (A Q : Z -> Z -> Prop) cf st :
  map_Forall (fun _ l => A cf.1 (file_number (deref (sh_heap st.2) l))) (cfc_added_files cf.2) ->
  map_Forall (fun _ seq => Q cf.1 seq) (cfc_deleted_files cf.2) -> grown_set A Q st (apply_cf cf st).2.
Proof.
  intros Ha Hd. unfold apply_cf. destruct (st.1 !! cf.1) as [bs|] eqn:Hbs; [|apply grown_set_refl].
  pose proof (CF_Apply_grown (A cf.1) (Q cf.1) cf.2 (bs, st.2) Ha Hd) as Hg.
  pose proof (CF_Apply_aside cf.2 (bs, st.2)) as [Hca _].
  destruct (CF_Apply cf.2 (bs, st.2)) as [s [bs1 sh1]]. cbn [snd fst] in *.
  pose proof (gr_meta _ _ _ _ Hg) as Hm. split; cbn [fst snd]; try done.
  - rewrite dom_insert_L. apply elem_of_dom_2 in Hbs. set_solver.
  - intros id bs'. intros [[<- <-]|[Hne Hid]]%lookup_insert_Some; [by exists bs|].
    exists bs'. split; [done|]. split; cbn [fst snd]; try done; by left.
Qed.

(** The file system, when an edit is logged. *)
Lemma steady_refl name w : steady name w w.
Proof. by intros name' f c _. Qed.

Lemma steady_trans name w1 w2 w3 : steady name w1 w2 -> steady name w2 w3 -> steady name w1 w3.
Proof. intros H12 H23 name' f c Hne Hf Hr. destruct (H12 name' f c Hne Hf Hr). by apply H23. Qed.

(** What [LogAndApply] does, whatever its status. *)
Record logged (A Q : Z -> Z -> Prop) (sys sys' : Sys) : Prop := {
  lg_set : grown_set A Q (column_families (sys_set sys), sys_shared sys) (column_families (sys_set sys'), sys_shared sys');
  lg_next : set_next_file_number (sys_set sys') = set_next_file_number (sys_set sys);
  lg_manifest : manifest (sys_set sys') = manifest (sys_set sys);
  lg_manifests : obsolete_manifests (sys_set sys') = obsolete_manifests (sys_set sys);
  lg_files : forall name f c, (forall log, manifest (sys_set sys) = Some log -> name <> log) ->
    NewRandomAccessFile (sys_fs sys) name = Ok f -> readable (sys_fs sys) f c ->
    NewRandomAccessFile (sys_fs sys') name = Ok f /\ readable (sys_fs sys') f c
}.

Lemma logged_refl A Q sys : logged A Q sys sys.
Proof. split; try done. apply grown_set_refl. Qed.

Lemma logged_fs A Q sys log w :
  manifest (sys_set sys) = Some log -> steady log (sys_fs sys) w ->
  logged A Q sys (MkSys (sys_set sys) (sys_shared sys) w).
Proof. intros Hman Hw. split; try done; [apply grown_set_refl|]. intros name f c Hne. apply Hw. by apply Hne. Qed.

Lemma LogAndApply_logged (A Q : Z -> Z -> Prop) edit sys s sys' :
  Forall (fun l => A (column_family_id edit) (file_number (deref (sh_heap (sys_shared sys)) l))) (added_files edit) ->
  Forall (fun d => Q (column_family_id edit) d.2) (deleted_files edit) ->
  LogAndApply edit sys = Ok (s, sys') -> logged A Q sys sys'.
Proof.
  intros Hadd Hdel. unfold LogAndApply.
  set (edit' := SetNextFileNumber (set_next_file_number (sys_set sys)) edit).
  destruct (AddEdit _ edit' EditCollector_default) as [s1 c1] eqn:HA.
  destruct (status_ok s1) eqn:Hs1; cbn [negb]; [|intros [= <- <-]; apply logged_refl].
  apply status_ok_true in Hs1 as ->.
  destruct (EditCollector_Seal _ _ c1) as [s2 c2] eqn:HS.
  destruct (status_ok s2) eqn:Hs2; cbn [negb]; [|intros [= <- <-]; apply logged_refl].
  apply status_ok_true in Hs2 as ->.
  destruct (manifest (sys_set sys)) as [log|] eqn:Hman; [|done].
  match goal with |- context [log_AddRecord log ?r _] => pose proof (log_steady log r (sys_fs sys)) as Ht1 end.
  destruct (log_AddRecord log _ (sys_fs sys)) as [s3 w3].
  destruct (status_ok s3); cbn [negb]; [|intros [= <- <-]; by eapply logged_fs].
  pose proof (log_sync_steady log w3) as Ht2. destruct (SyncTitanManifest log w3) as [s4 w4].
  pose proof (steady_trans _ _ _ _ Ht1 Ht2) as Ht.
  destruct (status_ok s4); cbn [negb]; [|intros [= <- <-]; by eapply logged_fs].
  destruct (AddEdit_ok _ _ _ (AddEdit_accepts _ _ _ _ HA)) as (c1' & HA' & Hcol). rewrite HA in HA'. injection HA' as <-.
  destruct (col_cfs _ _ _ _ Hcol) as (cc & Hcfs & Hcadd & Hcdel). cbn [ec_column_families EditCollector_default] in *.
  rewrite lookup_empty in Hcadd, Hcdel. cbn [default cfc_added_files cfc_deleted_files CFEditCollector_default] in *.
  rewrite (right_id_L ∅ (∪)) in Hcadd. rewrite (right_id_L ∅ (∪)) in Hcdel.
  destruct (Seal_OK _ _ _ _ HS) as [-> _]. unfold EditCollector_Apply. cbn [ec_status sealed status_ok negb ec_column_families].
  rewrite Hcfs, unordered_iter_singleton.
  pose proof (apply_cf_grown A Q (column_family_id edit', cc) (column_families (sys_set sys), sys_shared sys)) as Hg.
  assert (Hrun : forall f (x : Z * CFEditCollector) (st : gmap Z BlobStorage * Shared),
            (for_each f [x] st).2 = (f x st).2).
  { intros f x st. cbn [for_each]. destruct (f x st) as [s0 st0]. by destruct (status_ok s0). }
  specialize (Hrun apply_cf (column_family_id edit', cc) (column_families (sys_set sys), sys_shared sys)).
  destruct (for_each _ _ _) as [s5 [cfs5 sh5]]. cbn [snd] in Hrun. rewrite <- Hrun in Hg. intros [= <- <-].
  split; cbn; try done.
  - apply Hg; cbn [snd].
    + rewrite Hcadd. intros n l Hl. apply elem_of_list_to_map_2, list_elem_of_fmap in Hl as (l' & [= -> ->] & Hin).
      rewrite Forall_forall in Hadd. by apply Hadd.
    + rewrite Hcdel. intros n seq Hl. apply elem_of_list_to_map_2 in Hl. rewrite Forall_forall in Hdel. by apply (Hdel (n, seq)).
  - intros name f c Hne. rewrite Hman in Hne. apply Ht. by apply Hne.
Qed.

(** ** The tables of a database *)

(** A number the storage knows. *)
Definition mentioned (bs : BlobStorage) (n : Z) : Prop :=
  is_Some (files bs !! n) \/ exists seq, (n, seq) ∈ obsolete_files bs.

Record tables_ok (db : TitanDBImpl) : Prop := {
  ta_files : forall id bs n l, column_families (sys_set (t_sys db)) !! id = Some bs -> files bs !! n = Some l ->
    file_number (deref (sh_heap (sys_shared (t_sys db))) l) = n;
  ta_range : forall id bs n, column_families (sys_set (t_sys db)) !! id = Some bs -> mentioned bs n ->
    0 <= n < set_next_file_number (sys_set (t_sys db));
  ta_unique : forall id1 bs1 id2 bs2 n, column_families (sys_set (t_sys db)) !! id1 = Some bs1 -> mentioned bs1 n ->
    column_families (sys_set (t_sys db)) !! id2 = Some bs2 -> mentioned bs2 n -> id1 = id2;
  ta_dirs : map_Forall (fun _ bs => dirname (bs_db_options bs) = dirname (t_options db)) (column_families (sys_set (t_sys db)));
  ta_next : set_next_file_number (sys_set (t_sys db)) < two64;
  ta_manifests : forall log n, manifest (sys_set (t_sys db)) = Some log \/ log ∈ obsolete_manifests (sys_set (t_sys db)) ->
    log <> BlobFileName (dirname (t_options db)) n
}.

(** The record at the index can be read, and no purge for a snapshot up to [S]
    removes its file; the column family has no blob cache. *)
Record kept (S cf_id : Z) (i : BlobIndex) (r : BlobRecord) (t : Z) (rs : list BlobRecord) (f : rafile)
    (bs : BlobStorage) (db : TitanDBImpl) : Prop := {
  kp_storage : column_families (sys_set (t_sys db)) !! cf_id = Some bs;
  kp_alive : destroyed bs = false;
  kp_pending : forall seq, (index_file_number i, seq) ∈ obsolete_files bs -> S <= seq;
  kp_file : exists l m, files bs !! index_file_number i = Some l /\ sh_heap (sys_shared (t_sys db)) !! l = Some m /\
    file_size m = Z.of_nat (length (blob_file_bytes t rs)) /\
    only_value r = level_merge (bs_cf_options bs) && (file_type m =? kSorted);
  kp_small : Z.of_nat (length (blob_file_bytes t rs)) < two64;
  kp_record : exists j, rs !! j = Some r /\ layout t kBlobHeaderSize rs !! j = Some (blob_handle i);
  kp_wf : record_wf r;
  kp_compression : 0 <= t < 256;
  kp_cache : blob_cache (bs_cf_options bs) = false;
  kp_open : NewRandomAccessFile (sys_fs (t_sys db)) (BlobFileName (dirname (t_options db)) (index_file_number i)) = Ok f;
  kp_readable : readable (sys_fs (t_sys db)) f (blob_file_bytes t rs);
  kp_readers : forall rd, cache_has (file_cache (sh_caches (sys_shared (t_sys db)))) (EncodeFileNumber (index_file_number i)) rd ->
    reader_file rd = f /\ reader_options rd = bs_cf_options bs
}.

Section index.
Context (S cf_id : Z) (i : BlobIndex) (r : BlobRecord) (t : Z) (rs : list BlobRecord) (f : rafile).

Lemma kept_index bs db : tables_ok db -> kept S cf_id i r t rs f bs db -> exists m, index_of cf_id i r bs m t rs f db.
Proof.
  intros Hta [Hbs _ _ (l & m & Hl & Hm & Hsz & Hov) Hsmall (j & Hr & Hh) Hwf Ht Hbc Hopen Hread Hrd].
  pose proof (ta_files _ Hta _ _ _ _ Hbs Hl) as Hn. rewrite (deref_Some _ _ _ Hm) in Hn.
  pose proof (ta_range _ Hta cf_id bs (index_file_number i) Hbs (or_introl (mk_is_Some _ _ Hl))) as Hrange.
  pose proof (ta_next _ Hta) as Hnext.
  exists m. split; try done.
  - exists l. split; [done|]. by apply deref_Some.
  - by rewrite Hsz.
  - by exists j.
  - split; [unfold is_u64; lia|]. by eapply layout_handle_wf.
  - rewrite <- (ta_dirs _ Hta cf_id bs Hbs) in Hopen. split; try done; [by rewrite Hbc| |by rewrite Hbc].
    intros rd Hhas. destruct (Hrd rd Hhas) as [Hf Ho]. split; [by rewrite Hf|done|by rewrite Hbc].
Qed.

(** ** The steps, one by one *)

(** What only changes the file system and the options of the set aside. *)
Lemma kept_fs bs db db' :
  kept S cf_id i r t rs f bs db -> t_options db' = t_options db ->
  column_families (sys_set (t_sys db')) = column_families (sys_set (t_sys db)) ->
  sys_shared (t_sys db') = sys_shared (t_sys db) ->
  (forall c, NewRandomAccessFile (sys_fs (t_sys db)) (BlobFileName (dirname (t_options db)) (index_file_number i)) = Ok f ->
     readable (sys_fs (t_sys db)) f c ->
     NewRandomAccessFile (sys_fs (t_sys db')) (BlobFileName (dirname (t_options db)) (index_file_number i)) = Ok f /\
     readable (sys_fs (t_sys db')) f c) ->
  kept S cf_id i r t rs f bs db'.
Proof.
  intros [Hbs Ha Hp Hfile Hsmall Hrec Hwf Ht Hbc Hopen Hread Hrd] Ho Hc Hs Hfs. destruct (Hfs _ Hopen Hread) as [Hopen' Hread'].
  split; rewrite ?Ho, ?Hc, ?Hs; try done.
Qed.

Lemma kept_logged (A Q : Z -> Z -> Prop) bs db sys' :
  (forall seq, Q cf_id seq -> S <= seq) -> tables_ok db -> kept S cf_id i r t rs f bs db -> logged A Q (t_sys db) sys' ->
  exists bs', kept S cf_id i r t rs f bs' (with_sys sys' db).
Proof.
  intros HQ Hta Hk [[Hdom Hst Hm Hca] _ _ _ Hfs]. cbn [fst snd] in *.
  pose proof Hk as [Hbs Ha Hp (l & m & Hl & Hhm & Hsz & Hov) Hsmall Hrec Hwf Ht Hbc Hopen Hread Hrd].
  destruct (column_families (sys_set sys') !! cf_id) as [bs'|] eqn:Hbs'.
  2: { apply not_elem_of_dom in Hbs'. rewrite Hdom in Hbs'. by apply elem_of_dom_2 in Hbs. }
  destruct (Hst cf_id bs' Hbs') as (bs0 & Hbs0 & [Hf Hn _ Hob (Hdb & Hco & _ & Hde)]).
  rewrite Hbs in Hbs0. injection Hbs0 as <-. cbn [fst snd] in *. exists bs'.
  destruct (Hfs _ _ _ ltac:(intros log Hlog Heq; eapply (ta_manifests _ Hta); [left; exact Hlog|symmetry; exact Heq]) Hopen Hread)
    as [Hopen' Hread'].
  split; cbn [t_sys t_options with_sys]; rewrite ?Hde, ?Hco, ?Hca; try done.
  - intros seq [Hin|[Hq _]]%Hob; [by apply Hp|by apply HQ].
  - pose proof (Hm l) as Hp'. rewrite Hhm in Hp'. cbn in Hp'. destruct (sh_heap (sys_shared sys') !! l) as [m'|] eqn:Hm'; [|done].
    exists l, m'. split; [by eapply lookup_weaken|]. split; [done|].
    apply (inj Some) in Hp'. unfold persistent, BlobFileMeta_new in Hp'.
    assert (file_size m' = file_size m /\ file_type m' = file_type m) as [-> ->] by by injection Hp'. done.
Qed.

(** [NewFile] creates a file that no storage knows. *)
Lemma kept_new_file bs db res db' :
  tables_ok db -> kept S cf_id i r t rs f bs db -> NewFile db = (res, db') -> kept S cf_id i r t rs f bs db'.
Proof.
  intros Hta Hk. unfold NewFile, NewFileNumber.
  pose proof (create_steady (BlobFileName (dirname (t_options db)) (set_next_file_number (sys_set (t_sys db)))) (sys_fs (t_sys db))) as Hst.
  destruct (env_NewWritableFile _ _) as [res1 w1]. cbn [snd] in Hst.
  destruct (kp_file _ _ _ _ _ _ _ _ _ Hk) as (l & m & Hl & _).
  pose proof (ta_range _ Hta cf_id bs _ (kp_storage _ _ _ _ _ _ _ _ _ Hk) (or_introl (mk_is_Some _ _ Hl))) as Hrange.
  assert (Hgo : forall p, kept S cf_id i r t rs f bs (with_pending p (with_sys (MkSys
            (with_next (set_next_file_number (sys_set (t_sys db)) +u64 1) (sys_set (t_sys db))) (sys_shared (t_sys db)) w1) db))).
  { intros p. apply (kept_fs bs db); try done. intros c Hopen Hread. apply Hst; [|done..].
    intros Heq%BlobFileName_inj. lia. }
  destruct res1 as [wr|s|]; intros [= <- <-]; [apply Hgo|..]; exact (Hgo (pending_outputs db)).
Qed.

(** A read of another record, or of a record that is not there. *)
Lemma FindFile_readers w o cf n size c k rd :
  cache_has (file_cache (BlobFileCache_FindFile w o cf n size c).2) k rd ->
  cache_has (file_cache c) k rd \/
  (k = EncodeFileNumber n /\ exists fl, NewRandomAccessFile w (BlobFileName (dirname o) n) = Ok fl /\
     reader_file rd = fl /\ reader_options rd = cf).
Proof.
  unfold BlobFileCache_FindFile. destruct (cache_Lookup _ (file_cache c)) as [found fc] eqn:HL.
  assert (Hfc : cache_has fc k rd -> cache_has (file_cache c) k rd) by (intros Hk; eapply has_lookup; by rewrite HL).
  destruct found as [rd0|]; [by left; apply Hfc|].
  destruct (NewRandomAccessFile w _) as [fl|s|] eqn:Hfl; [|by left; apply Hfc..].
  destruct (BlobFileReader_Open w cf fl size (blobs c)) as [[rd1|s|] bc] eqn:Ho; cbn [snd file_cache]; [|by left; apply Hfc..].
  intros [[-> ->]|[_ Hk]]%has_insert; [|by left; apply Hfc]. right. split; [done|]. exists fl. split; [done|].
  unfold BlobFileReader_Open in Ho. destruct (_ <? _); [done|].
  destruct (raf_Read _ _ _ _) as [b|s|]; cbn [result_bind] in Ho; [|done..].
  destruct (DecodeInto _ _ _) as [ft|s|]; cbn [result_bind] in Ho; [|done..].
  unfold BlobFileReader_new in Ho. destruct (blob_cache cf); [destruct (GenerateCachePrefix fl (blobs c))|]; by injection Ho as <- _.
Qed.

Lemma EncodeFileNumber_inj n m : is_u64 n -> is_u64 m -> EncodeFileNumber n = EncodeFileNumber m -> n = m.
Proof.
  intros Hn Hm Heq. unfold EncodeFileNumber in Heq. pose proof (fixed64_roundtrip n [] Hn) as Hr.
  rewrite Heq, fixed64_roundtrip in Hr by done. by injection Hr.
Qed.

(** A lookup of a listed file in the cache of readers. *)
Lemma kept_lookup bs db id bs1 n l1 bc :
  tables_ok db -> kept S cf_id i r t rs f bs db ->
  column_families (sys_set (t_sys db)) !! id = Some bs1 -> files bs1 !! n = Some l1 ->
  let m := deref (sh_heap (sys_shared (t_sys db))) l1 in
  let c1 := (BlobFileCache_FindFile (sys_fs (t_sys db)) (bs_db_options bs1) (bs_cf_options bs1) (file_number m) (file_size m)
               (sh_caches (sys_shared (t_sys db)))).2 in
  kept S cf_id i r t rs f bs (with_sh (set_caches (MkCaches (file_cache c1) bc) (sys_shared (t_sys db))) db).
Proof.
  intros Hta Hk Hbs1 Hl1 m c1.
  pose proof (FindFile_readers (sys_fs (t_sys db)) (bs_db_options bs1) (bs_cf_options bs1) (file_number m) (file_size m)
    (sh_caches (sys_shared (t_sys db))) (EncodeFileNumber (index_file_number i))) as Hrd.
  assert (Hn : file_number m = n) by exact (ta_files _ Hta _ _ _ _ Hbs1 Hl1). rewrite Hn in Hrd. unfold c1. rewrite Hn.
  destruct Hk as [Hbs Ha Hp Hfile Hsmall Hrec Hwf Ht Hbc Hopen Hread Hrds].
  split; try done. cbn. intros rd [Hold|(Hkey & fl & Hfl & Hrf & Hro)]%Hrd; [by apply Hrds|].
  destruct Hfile as (l & m' & Hl & _). pose proof (ta_next _ Hta) as Hnext.
  pose proof (ta_range _ Hta _ _ _ Hbs (or_introl (mk_is_Some _ _ Hl))) as Hr1.
  pose proof (ta_range _ Hta _ _ _ Hbs1 (or_introl (mk_is_Some _ _ Hl1))) as Hr2.
  apply EncodeFileNumber_inj in Hkey as Heq; [|split; lia..]. rewrite <- Heq in *.
  assert (id = cf_id) as -> by (eapply (ta_unique _ Hta); [exact Hbs1|by left|exact Hbs|by left]).
  rewrite Hbs in Hbs1. injection Hbs1 as <-. rewrite (ta_dirs _ Hta _ _ Hbs), Hopen in Hfl.
  injection Hfl as <-. done.
Qed.

Lemma kept_read bs db id key view res db' :
  tables_ok db -> kept S cf_id i r t rs f bs db -> TitanDBImpl_GetImpl id key view db = (res, db') ->
  kept S cf_id i r t rs f bs db'.
Proof.
  intros Hta Hk. unfold TitanDBImpl_GetImpl. destruct (base_GetImpl view id key) as [[v []]|s|]; [|by intros [= _ <-]..].
  destruct (BlobIndex_DecodeFrom BlobIndex_default v) as [[i' rest]|s|]; [|by intros [= _ <-]..].
  destruct (GetBlobStorage id _) as [bs1|] eqn:Hbs1; [|by intros [= _ <-]]. unfold GetBlobStorage in Hbs1.
  unfold bs_Get, bs_FindFile. destruct (files bs1 !! index_file_number i') as [l1|] eqn:Hl1.
  2: { destruct (sep_before_flush _); intros [= _ <-]; by apply (kept_fs bs db). }
  unfold BlobFileCache_Get. pose proof (fun bc => kept_lookup bs db id bs1 _ l1 bc Hta Hk Hbs1 Hl1) as Hgo. cbv zeta in Hgo.
  destruct (BlobFileCache_FindFile _ _ _ _ _ _) as [rd1 c1].
  destruct rd1 as [rd|s|]; [destruct (BlobFileReader_Get _ _ _ _ _) as [s bc]|destruct c1..];
    intros [= _ <-]; apply Hgo.
Qed.

(** A move of an iterator. *)
Lemma kept_prefetcher bs db n it res db' :
  tables_ok db -> kept S cf_id i r t rs f bs db -> it_prefetcher n it db = (res, db') -> kept S cf_id i r t rs f bs db'.
Proof.
  intros Hta Hk. unfold it_prefetcher. destruct (it_files it !! n); [by intros [= _ <-]|].
  destruct (GetBlobStorage _ _) as [bs1|] eqn:Hbs1; [|by intros [= _ <-]]. unfold GetBlobStorage in Hbs1.
  unfold bs_NewPrefetcher, bs_FindFile. destruct (files bs1 !! n) as [l1|] eqn:Hl1.
  2: { intros [= _ <-]. by apply (kept_fs bs db). }
  unfold BlobFileCache_NewPrefetcher. pose proof (fun bc => kept_lookup bs db _ bs1 _ l1 bc Hta Hk Hbs1 Hl1) as Hgo. cbv zeta in Hgo.
  destruct (BlobFileCache_FindFile _ _ _ _ _ _) as [rd1 [fc1 bc1]]. intros [= _ <-]. apply Hgo.
Qed.

Lemma kept_iterate bs db move it it' db' :
  tables_ok db -> kept S cf_id i r t rs f bs db -> it_after move it db = Ok (it', db') -> kept S cf_id i r t rs f bs db'.
Proof.
  intros Hta Hk. unfold it_after. destruct (ShouldGetBlobValue _) as [[] it1]; [|by intros [= _ <-]].
  unfold GetBlobValue. destruct (DecodeInto _ _ _) as [index|s|]; [|by intros [= _ <-]|done].
  destruct (it_prefetcher _ it1 db) as [[[p it2]|s|] db1] eqn:Hp; [|intros [= _ <-]|done];
    pose proof (kept_prefetcher bs db _ it1 _ db1 Hta Hk Hp) as Hk1; [|done].
  destruct (BlobFilePrefetcher_Get _ _ _ _ _) as [[[res bc] p'] rest].
  assert (Hk2 : kept S cf_id i r t rs f bs (with_blobs bc db1)) by (destruct Hk1; by split).
  by destruct res as [[]|s|]; [intros [= _ <-]..|].
Qed.
End index.

(** ** Purging *)

(** What collecting the obsolete files leaves of a storage. *)
Record shrunk (oldest : Z) (a b : BlobStorage * Shared) : Prop := {
  sr_files : forall n l, files b.1 !! n = Some l -> files a.1 !! n = Some l;
  sr_keep : forall n l, files a.1 !! n = Some l -> ~ gone oldest a.1 n -> files b.1 !! n = Some l;
  sr_obsolete : forall e, e ∈ obsolete_files b.1 -> e ∈ obsolete_files a.1;
  sr_heap : sh_heap b.2 = sh_heap a.2;
  sr_config : same_config a.1 b.1;
  sr_readers : forall k rd, cache_has (file_cache (sh_caches b.2)) k rd -> cache_has (file_cache (sh_caches a.2)) k rd
}.

Lemma loop_readers oldest l st k rd :
  cache_has (file_cache (sh_caches (GetObsoleteFiles_loop oldest l st).2.2)) k rd -> cache_has (file_cache (sh_caches st.2)) k rd.
Proof.
  revert st. induction l as [|[n seq] l IH]; intros st; cbn [GetObsoleteFiles_loop]; [done|].
  destruct (oldest >? seq).
  - destruct st as [bs sh]. pose proof (RemoveFile_evicts n bs sh k rd) as Hev.
    destruct (RemoveFile n (bs, sh)) as [b st1]. cbn [snd] in Hev. specialize (IH st1).
    destruct (GetObsoleteFiles_loop oldest l st1) as [[names kept0] st2]. cbn [snd] in *. intros Hk. by apply Hev, IH.
  - specialize (IH st). by destruct (GetObsoleteFiles_loop oldest l st) as [[names kept0] st2].
Qed.

Lemma release_readers bs sh k rd :
  cache_has (file_cache (sh_caches (release_storage bs sh))) k rd -> cache_has (file_cache (sh_caches sh)) k rd.
Proof.
  unfold release_storage, BlobStorage_destroy. destruct (MaybeRemove bs); [|done]. cbn [fst snd].
  generalize (unordered_iter (files bs)) as l. intros l. revert sh.
  induction l as [|x l IH]; intros sh; [done|]. cbn [foldl]. intros Hk%IH. cbn in Hk.
  by apply has_erase in Hk as [_ ?].
Qed.

Lemma collect_shrunk oldest bs sh :
  let out := bs_GetObsoleteFiles oldest (bs, sh) in
  shrunk oldest (bs, sh) out.2 /\
  forall name, name ∈ out.1 -> exists n, gone oldest bs n /\ name = BlobFileName (dirname (bs_db_options bs)) n.
Proof.
  unfold bs_GetObsoleteFiles. cbn [fst]. pose proof (loop_readers oldest (obsolete_files bs) (bs, sh)) as Hrd.
  destruct (GetObsoleteFiles_loop oldest (obsolete_files bs) (bs, sh)) as [[names kept0] [bs1 sh1]] eqn:Hloop.
  destruct (GetObsoleteFiles_loop_spec _ _ _ _ _ _ _ _ Hloop) as (-> & -> & Hf & Hh & _ & Hdb & Hco & Hid & Hde).
  cbn [fst snd] in *. split.
  - split; cbn [fst snd files obsolete_files set_obsolete_files]; try done.
    + intros n l. rewrite Hf, foldr_delete_lookup. by case_decide.
    + intros n l Hl Hng. rewrite Hf, foldr_delete_lookup, decide_False; [done|]. by rewrite elem_of_expired.
    + intros e. by intros [_ ?]%list_elem_of_filter.
  - intros name. intros ([n seq] & -> & Hin)%list_elem_of_fmap. exists n. split; [|done].
    apply elem_of_expired, list_elem_of_fmap. by exists (n, seq).
Qed.

(** All column families: none that is not destroyed disappears. *)
Record shrunk_set (oldest : Z) (cfs : gmap Z BlobStorage) (sh : Shared) (names : list string) 
    (cfs' : gmap Z BlobStorage) (sh' : Shared) : Prop := {
  ss_names : forall name, name ∈ names -> exists id bs n, cfs !! id = Some bs /\ gone oldest bs n /\
    name = BlobFileName (dirname (bs_db_options bs)) n;
  ss_storage : forall id bs', cfs' !! id = Some bs' -> exists bs, cfs !! id = Some bs /\ shrunk oldest (bs, sh) (bs', sh');
  ss_there : forall id bs, cfs !! id = Some bs -> destroyed bs = false -> is_Some (cfs' !! id);
  ss_heap : sh_heap sh' = sh_heap sh;
  ss_readers : forall k rd, cache_has (file_cache (sh_caches sh')) k rd -> cache_has (file_cache (sh_caches sh)) k rd
}.

Lemma collect_shrunk_set oldest vs cfs sh L :
  NoDup L.*1 -> (forall id bs, (id, bs) ∈ L -> cfs !! id = Some bs) ->
  let out := foldl (fun acc cf => if IsColumnFamilyObsolete cf.1 vs then acc else collect_cf oldest acc cf) ([], (cfs, sh)) L in
  shrunk_set oldest cfs sh out.1 out.2.1 out.2.2.
Proof.
  induction L as [|[id bs] L IH] using rev_ind; intros Hnd HL.
  { cbn. split; try done; [by intros name ?%not_elem_of_nil|]. intros id bs Hbs. exists bs. split; [done|]. by split. }
  rewrite fmap_app in Hnd. apply NoDup_app in Hnd as (Hnd & Hdis & _).
  rewrite foldl_snoc. destruct IH as [Hn Hst Hth Hh Hrd]; [done|intros; apply HL, elem_of_app; by left|].
  destruct (foldl _ _ L) as [names1 [cfs1 sh1]]. cbn [fst snd] in *.
  assert (Hbs : cfs !! id = Some bs) by (apply HL, elem_of_app; right; by apply list_elem_of_singleton).
  destruct (IsColumnFamilyObsolete id vs); [by split|].
  unfold collect_cf. cbn [snd fst]. pose proof (collect_shrunk oldest bs sh1) as [[Hf Hk Ho Hh2 Hc Hr2] Hn2].
  destruct (bs_GetObsoleteFiles oldest (bs, sh1)) as [names2 [bs2 sh2']]. cbn [fst snd] in *.
  pose proof (proj1 (release_shared bs2 sh2')) as Hh3. pose proof (release_readers bs2 sh2') as Hr3.
  set (sh2 := release_storage bs2 sh2') in *. rewrite <- Hh3 in Hh2.
  assert (Hr2' : forall k rd, cache_has (file_cache (sh_caches sh2)) k rd -> cache_has (file_cache (sh_caches sh1)) k rd) by eauto.
  assert (Hsr : shrunk oldest (bs, sh) (bs2, sh2)) by (split; cbn [fst snd]; try done; [congruence|eauto]).
  assert (Hother : forall id' bs', cfs1 !! id' = Some bs' -> exists bs0, cfs !! id' = Some bs0 /\ shrunk oldest (bs0, sh) (bs', sh2)).
  { intros id' bs' Hb. destruct (Hst id' bs' Hb) as (bs0 & Hb0 & [Hf0 Hk0 Ho0 Hh0 Hc0 Hr0]). exists bs0. split; [done|].
    split; cbn [fst snd] in *; try done; [congruence|eauto]. }
  split.
  - intros name [Hin|Hin]%elem_of_app; [by apply Hn|]. destruct (Hn2 name Hin) as (n & Hg & ->). by exists id, bs, n.
  - intros id' bs'. destruct (MaybeRemove bs2).
    + intros [_ Hb]%lookup_delete_Some. by apply Hother.
    + intros [[<- <-]|[_ Hb]]%lookup_insert_Some; [by exists bs|by apply Hother].
  - intros id' bs' Hb Hd. destruct (decide (id' = id)) as [->|Hne].
    + rewrite Hbs in Hb. injection Hb as <-. unfold MaybeRemove.
      assert (destroyed bs2 = false) as -> by (by rewrite (proj2 (proj2 (proj2 Hc)))). cbn [andb]. rewrite lookup_insert_eq. by eexists.
    + destruct (MaybeRemove bs2); [rewrite lookup_delete_ne by done|rewrite lookup_insert_ne by done]; by eapply Hth.
  - congruence.
  - eauto.
Qed.

Lemma purge_files_steady names st name fl c :
  name ∉ names -> NewRandomAccessFile st.2 name = Ok fl -> readable st.2 fl c ->
  NewRandomAccessFile (foldl purge_file st names).2 name = Ok fl /\ readable (foldl purge_file st names).2 fl c.
Proof.
  revert st. induction names as [|n names IH]; intros st Hni Ho Hr; [done|]. cbn [foldl].
  apply not_elem_of_cons in Hni as [Hne Hni]. unfold purge_file at 2 4. pose proof (delete_steady n st.2) as Ht.
  destruct (env_DeleteFile n st.2) as [s w]. destruct (Ht name fl c Hne Ho Hr). by apply IH.
Qed.

(** ** The tables stay in order *)

Lemma tables_logged (A Q : Z -> Z -> Prop) db sys' :
  tables_ok db ->
  (forall id n, A id n -> 0 <= n < set_next_file_number (sys_set (t_sys db)) /\
     forall id bs, column_families (sys_set (t_sys db)) !! id = Some bs -> ~ mentioned bs n) ->
  (forall id1 id2 n, A id1 n -> A id2 n -> id1 = id2) ->
  logged A Q (t_sys db) sys' -> tables_ok (with_sys sys' db).
Proof.
  intros [Hfi Hra Hun Hdi Hne Hma] HA HA1 [[Hdom Hst Hm _] Hnext Hman Hmans _]. cbn [fst snd] in *.
  assert (Hfi' : forall id bs n l, column_families (sys_set sys') !! id = Some bs -> files bs !! n = Some l ->
            file_number (deref (sh_heap (sys_shared sys')) l) = n).
  { intros id bs' n l Hb Hl. destruct (Hst id bs' Hb) as (bs & Hbs & [_ Hn _ _ _]). cbn [fst snd] in *.
    rewrite (deref_number _ _ l Hm). destruct (Hn n l Hl) as [Hold|[_ Hnum]]; [by eapply Hfi|done]. }
  assert (Hmen : forall id bs' n, column_families (sys_set sys') !! id = Some bs' -> mentioned bs' n ->
            exists bs, column_families (sys_set (t_sys db)) !! id = Some bs /\ (mentioned bs n \/ A id n)).
  { intros id bs' n Hb Hmn. destruct (Hst id bs' Hb) as (bs & Hbs & [_ Hn _ Ho _]). cbn [fst snd] in *. exists bs. split; [done|].
    assert (Hf : forall n l, files bs' !! n = Some l -> mentioned bs n \/ A id n).
    { intros n0 l0 Hl0. destruct (Hn n0 l0 Hl0) as [Hold|[Ha _]]; [left; left; by eexists|by right]. }
    destruct Hmn as [[l Hl]|[seq Hin]]; [by eapply Hf|]. destruct (Ho n seq Hin) as [Hold|(_ & n' & l & Hl & Hnum)].
    - left. right. by exists seq.
    - rewrite <- (deref_number _ _ l Hm), (Hfi' id bs' n' l Hb Hl) in Hnum. rewrite <- Hnum. by eapply Hf. }
  split; cbn [t_sys t_options with_sys]; rewrite ?Hnext, ?Hman, ?Hmans; try done.
  - intros id bs' n Hb Hmn. destruct (Hmen id bs' n Hb Hmn) as (bs & Hbs & [Hold|Ha]); [by eapply Hra|by apply (HA id)].
  - intros id1 bs1 id2 bs2 n Hb1 Hm1 Hb2 Hm2.
    destruct (Hmen _ _ _ Hb1 Hm1) as (b1 & Hbs1 & [Ho1|Ha1]), (Hmen _ _ _ Hb2 Hm2) as (b2 & Hbs2 & [Ho2|Ha2]).
    + by eapply Hun.
    + by destruct (proj2 (HA _ _ Ha2) _ _ Hbs1).
    + by destruct (proj2 (HA _ _ Ha1) _ _ Hbs2).
    + by eapply HA1.
  - intros id bs' Hb. destruct (Hst id bs' Hb) as (bs & Hbs & [_ _ _ _ (Hdb & _)]). cbn [fst] in Hdb. rewrite Hdb. by eapply Hdi.
Qed.

Lemma tables_new_file db res db' :
  tables_ok db -> set_next_file_number (sys_set (t_sys db)) + 1 < two64 -> NewFile db = (res, db') -> tables_ok db'.
Proof.
  intros [Hfi Hra Hun Hdi Hne Hma] Hlt. unfold NewFile, NewFileNumber. destruct (env_NewWritableFile _ _) as [res1 w1].
  assert (Hgo : forall p, tables_ok (with_pending p (with_sys (MkSys
            (with_next (set_next_file_number (sys_set (t_sys db)) +u64 1) (sys_set (t_sys db))) (sys_shared (t_sys db)) w1) db))).
  { intros p. split; cbn; try done.
    - intros id bs n Hb Hm. specialize (Hra id bs n Hb Hm). unfold wrap64. rewrite Z.mod_small by lia. lia.
    - unfold wrap64. by apply Z.mod_pos_bound. }
  destruct res1 as [wr|s|]; intros [= <- <-]; [apply Hgo|..]; exact (Hgo (pending_outputs db)).
Qed.

Lemma mentioned_shrunk oldest a b n : shrunk oldest a b -> mentioned b.1 n -> mentioned a.1 n.
Proof. intros [Hf _ Ho _ _ _] [[l Hl]|[seq Hin]]; [left; exists l; by apply Hf|right; exists seq; by apply Ho]. Qed.

Lemma purge_world oldest db s db' :
  tables_ok db -> PurgeObsoleteFilesImpl oldest db = (s, db') ->
  tables_ok db' /\
  forall S cf_id i r t rs f bs, oldest <= S -> kept S cf_id i r t rs f bs db -> exists bs', kept S cf_id i r t rs f bs' db'.
Proof.
  intros Hta. unfold PurgeObsoleteFilesImpl, GetObsoleteFiles.
  pose proof (collect_shrunk_set oldest (sys_set (t_sys db)) (column_families (sys_set (t_sys db))) (sys_shared (t_sys db))
    (unordered_iter (column_families (sys_set (t_sys db)))) (NoDup_unordered_iter _)
    (fun id bs => proj1 (elem_of_unordered_iter _ id bs))) as Hss.
  destruct (foldl _ ([], _) _) as [names [cfs' sh']]. destruct Hss as [Hn Hst Hth Hh Hrd]. cbn [fst snd] in *.
  destruct (sort_names (names ++ obsolete_manifests (sys_set (t_sys db)))) as [_ Hmem].
  set (sorted := foldr insert_name [] _) in *.
  pose proof (purge_files_steady sorted (OK, sys_fs (t_sys db))) as Hkeep.
  destruct (foldl purge_file (OK, sys_fs (t_sys db)) sorted) as [s1 w1]. cbn [snd] in Hkeep. intros [= <- <-]. split.
  - destruct Hta as [Hfi Hra Hun Hdi Hne Hma].
    assert (Hmen : forall id bs' n, cfs' !! id = Some bs' -> mentioned bs' n ->
              exists bs, column_families (sys_set (t_sys db)) !! id = Some bs /\ mentioned bs n).
    { intros id bs' n Hb Hm. destruct (Hst id bs' Hb) as (bs & Hbs & Hsr). exists bs. split; [done|].
      exact (mentioned_shrunk _ _ _ n Hsr Hm). }
    split; cbn; try done.
    + intros id bs' n l Hb Hl. destruct (Hst id bs' Hb) as (bs & Hbs & [Hf _ _ _ _ _]). rewrite Hh. by eapply Hfi, Hf.
    + intros id bs' n Hb Hm. destruct (Hmen _ _ _ Hb Hm) as (bs & Hbs & Hm'). by eapply Hra.
    + intros id1 bs1 id2 bs2 n Hb1 Hm1 Hb2 Hm2. destruct (Hmen _ _ _ Hb1 Hm1) as (b1 & Hbs1 & Hm1').
      destruct (Hmen _ _ _ Hb2 Hm2) as (b2 & Hbs2 & Hm2'). by eapply Hun.
    + intros id bs' Hb. destruct (Hst id bs' Hb) as (bs & Hbs & [_ _ _ _ (Hdb & _) _]). cbn [fst] in Hdb. rewrite Hdb. by eapply Hdi.
    + intros log n [Hl|Hin]; [by apply Hma; left|by apply not_elem_of_nil in Hin].
  - intros S cf_id i r t rs f bs Hold [Hbs Ha Hp (l & m & Hl & Hm & Hfile) Hsmall Hrec Hwf Ht Hbc Hopen Hread Hrds].
    destruct (Hth cf_id bs Hbs Ha) as [bs' Hbs']. destruct (Hst cf_id bs' Hbs') as (bs0 & Hbs0 & [_ Hk Ho _ (Hdb & Hco & _ & Hde) _]).
    rewrite Hbs in Hbs0. injection Hbs0 as <-. cbn [fst snd] in *. exists bs'.
    destruct (Hkeep (BlobFileName (dirname (t_options db)) (index_file_number i)) f (blob_file_bytes t rs)) as [Hopen' Hread']; [|done..|].
    { rewrite Hmem, elem_of_app. intros [Hin|Hin].
      - destruct (Hn _ Hin) as (id & bs2 & n & Hb2 & (seq & Hpend & Hlt) & Heq).
        rewrite (ta_dirs _ Hta id bs2 Hb2) in Heq. apply BlobFileName_inj in Heq as <-.
        assert (id = cf_id) as -> by (eapply (ta_unique _ Hta); [exact Hb2|right; by exists seq|exact Hbs|left; by exists l]).
        rewrite Hbs in Hb2. injection Hb2 as <-. specialize (Hp seq Hpend). lia.
      - eapply (ta_manifests _ Hta); [right; exact Hin|done]. }
    split; cbn; rewrite ?Hh, ?Hco, ?Hde; try done.
    + intros seq Hin. by apply Hp, Ho.
    + exists l, m. split; [|done]. apply Hk; [done|]. intros (seq & Hin & Hlt). specialize (Hp seq Hin). lia.
    + intros rd Hhas. by apply Hrds, Hrd.
Qed.

(** A batch of new files. *)
Definition batch_new (batch : list finished) (db : TitanDBImpl) : Prop :=
  Forall (fun fl => file_number (deref (sh_heap (sys_shared (t_sys db))) fl.1) = GetNumber fl.2.1 /\
    GetName fl.2.1 = BlobFileName (dirname (t_options db)) (GetNumber fl.2.1) /\
    0 <= GetNumber fl.2.1 < set_next_file_number (sys_set (t_sys db)) /\
    forall id bs, column_families (sys_set (t_sys db)) !! id = Some bs -> ~ mentioned bs (GetNumber fl.2.1)) batch.

Lemma close_files_steady batch w name fl c :
  name ∉ names_of batch -> NewRandomAccessFile w name = Ok fl -> readable w fl c ->
  NewRandomAccessFile (close_files batch w).2 name = Ok fl /\ readable (close_files batch w).2 fl c.
Proof.
  revert w. induction batch as [|[l [h wr]] batch IH]; intros w Hni Ho Hr; [done|]. cbn [close_files].
  apply not_elem_of_cons in Hni as [Hne Hni]. cbn [fst snd] in Hne.
  pose proof (sync_steady (GetName h) wr w) as Ht1. destruct (w_Sync _ wr w) as [s1 w1].
  destruct (Ht1 name fl c Hne Ho Hr) as [Ho1 Hr1]. destruct (status_ok s1) eqn:Hs1; [|by rewrite Hs1].
  pose proof (close_steady (GetName h) wr w1) as Ht2. destruct (w_Close _ wr w1) as [s2 w2].
  destruct (Ht2 name fl c Hne Ho1 Hr1) as [Ho2 Hr2]. destruct (status_ok s2); [by apply IH|done].
Qed.
(** ** The events *)

Lemma logged_trans A Q sys1 sys2 sys3 : logged A Q sys1 sys2 -> logged A Q sys2 sys3 -> logged A Q sys1 sys3.
Proof.
  intros [[Hd1 Hs1 Hm1 Hc1] Hn1 Hma1 Hms1 Hf1] [[Hd2 Hs2 Hm2 Hc2] Hn2 Hma2 Hms2 Hf2]. cbn [fst snd] in *.
  split; [split; cbn [fst snd]|..]; try congruence.
  - intros id bs3 Hb3. destruct (Hs2 id bs3 Hb3) as (bs2 & Hb2 & Hg2), (Hs1 id bs2 Hb2) as (bs1 & Hb1 & Hg1).
    exists bs1. split; [done|]. by eapply grown_trans.
  - intros name f c Hne Ho Hr. destruct (Hf1 name f c Hne Ho Hr). apply Hf2; [|done..]. by rewrite Hma1.
Qed.

(** What changes neither the tables, nor the caches, nor persistent metadata. *)
Lemma logged_shared A Q sys sh' :
  same_persistent (sh_heap (sys_shared sys)) (sh_heap sh') -> sh_caches sh' = sh_caches (sys_shared sys) ->
  logged A Q sys (with_shared sh' sys).
Proof.
  intros Hm Hc. split; [split|..]; cbn [fst snd with_shared sys_set sys_shared sys_fs]; try done.
  intros id bs Hbs. exists bs. split; [done|]. split; cbn [fst snd]; try done; by left.
Qed.

Lemma logged_score A Q sys id bs h :
  column_families (sys_set sys) !! id = Some bs ->
  logged A Q sys (MkSys (with_cfs (<[id := (ComputeGCScore h bs).2]> (column_families (sys_set sys))) (sys_set sys))
                    (sys_shared sys) (sys_fs sys)).
Proof.
  intros Hbs. split; [split|..]; cbn; try done.
  - rewrite dom_insert_L. apply elem_of_dom_2 in Hbs. set_solver.
  - intros id' bs'. intros [[<- <-]|[_ Hb]]%lookup_insert_Some; [exists bs|exists bs']; (split; [done|]);
      split; cbn; try done; by left.
Qed.

Lemma evolve_persistent h h' : evolve h h' -> same_persistent h h'.
Proof. intros He l. specialize (He l). destruct (h !! l) as [m|]; [|by rewrite He]. destruct He as (m' & -> & Hp & _). cbn. by rewrite Hp. Qed.

Lemma flush_loop_caches cf_id bs L st : sh_caches (foldl (flush_file cf_id bs) st L).1 = sh_caches st.1.
Proof.
  apply (foldl_invariant (fun st' => sh_caches st'.1 = sh_caches st.1)); [done|].
  intros [sh delta] f _ Hc. unfold flush_file. by destruct (bs_FindFile f.1 bs).
Qed.

Lemma flush_logged A Q info db : logged A Q (t_sys db) (t_sys (OnFlushCompleted info db)).
Proof.
  unfold OnFlushCompleted. destruct (fji_properties info !! _) as [property|]; [|apply logged_refl].
  destruct (decode_sizes property ∅) as [ok sizes]. destruct (GetBlobStorage _ _) as [bs|]; [|apply logged_refl].
  pose proof (flush_loop_mild (fji_cf_id info) bs (ordered_iter sizes) (sys_shared (t_sys db), 0)) as [He _].
  pose proof (flush_loop_caches (fji_cf_id info) bs (ordered_iter sizes) (sys_shared (t_sys db), 0)) as Hc.
  destruct (foldl _ _ _) as [sh delta]. apply logged_shared; [by apply evolve_persistent|done].
Qed.

Lemma complete_outputs_persistent bs outs h : same_persistent h (complete_outputs bs outs h).2.
Proof.
  revert h. induction outs as [|n outs IH]; intros h; cbn [complete_outputs]; [done|].
  destruct (bs_FindFile n bs) as [l|]; [|done]. eapply same_persistent_trans; [|apply IH]. by apply same_persistent_call.
Qed.

(** The loop over the differences: the caches stay, and the edit only deletes. *)
Lemma compact_loop_steady cf_id cf seq b bs c L :
  let c' := foldl (compact_file cf_id cf seq b bs) c L in
  sh_caches (co_shared c') = sh_caches (co_shared c) /\ added_files (co_edit c') = added_files (co_edit c) /\
  (Forall (fun d => d.2 = seq) (deleted_files (co_edit c)) -> Forall (fun d => d.2 = seq) (deleted_files (co_edit c'))).
Proof.
  cbv zeta. apply (foldl_invariant (fun c' => sh_caches (co_shared c') = sh_caches (co_shared c) /\
    added_files (co_edit c') = added_files (co_edit c) /\
    (Forall (fun d => d.2 = seq) (deleted_files (co_edit c)) -> Forall (fun d => d.2 = seq) (deleted_files (co_edit c')))));
    [done|].
  intros c' f _ (Hc & Ha & Hd). unfold compact_file. destruct (bs_FindFile f.1 bs) as [l|]; [|done].
  destruct (0 <=? f.2); [by destruct (b && _)|]. destruct (level_merge cf); [|done].
  destruct (NoLiveData _ && _); [|done]. split; [done|]. split; [done|]. intros Hold.
  cbn [co_edit]. rewrite deleted_files_DeleteBlobFile. apply Forall_app. split; [by apply Hd|]. by apply Forall_singleton.
Qed.

Lemma maybe_request_gc_logged A Q props cf_id cf db db' :
  maybe_request_gc props cf_id cf db = Ok db' -> logged A Q (t_sys db) (t_sys db') /\ t_options db' = t_options db.
Proof.
  unfold maybe_request_gc. cbv zeta. destruct (negb _); [intros [= <-]; split; [apply logged_refl|done]|]. cbn [t_sys].
  destruct (GetBlobStorage cf_id _) as [bs|] eqn:Hbs; [|intros [= <-]; split; [apply logged_refl|done]].
  pose proof (logged_score A Q (t_sys db) cf_id bs (sh_heap (sys_shared (t_sys db))) Hbs) as Hs.
  destruct (ComputeGCScore _ bs) as [n bs']. destruct (_ =? 0); [done|].
  destruct (_ || _); intros [= <-]; rewrite ?request_gc_sys; (split; [exact Hs|]); [|done].
  unfold request_gc. by destruct (MaybeScheduleGC _ _).
Qed.

Lemma compaction_logged (A Q : Z -> Z -> Prop) props seq info db db' :
  (forall id, Q id seq) -> OnCompactionCompleted props seq info db = Ok db' -> logged A Q (t_sys db) (t_sys db') /\ t_options db' = t_options db.
Proof.
  intros Hq. unfold OnCompactionCompleted. destruct (negb _); [intros [= <-]; split; [apply logged_refl|done]|].
  destruct (GetBlobStorage _ _) as [bs|]; [|intros [= <-]; split; [apply logged_refl|done]].
  pose proof (complete_outputs_persistent bs (ordered_elements (bz_outputs (calc_sizes info))) (sh_heap (sys_shared (t_sys db)))) as Hp.
  destruct (complete_outputs bs _ _) as [found h]. cbn [snd] in Hp. destruct (negb found).
  { intros [= <-]. split; [|done]. by apply logged_shared. }
  match goal with |- context [foldl ?f ?c ?L] => set (c1 := foldl f c L);
    pose proof (compact_loop_mild (cji_cf_id info) (bs_cf_options bs) seq
      (level_merge (bs_cf_options bs) && range_merge (bs_cf_options bs) && (num_levels (cf_base (bs_cf_options bs)) - 2 <=? cji_output_level info))
      bs c L) as [He _];
    pose proof (compact_loop_steady (cji_cf_id info) (bs_cf_options bs) seq
      (level_merge (bs_cf_options bs) && range_merge (bs_cf_options bs) && (num_levels (cf_base (bs_cf_options bs)) - 2 <=? cji_output_level info))
      bs c L) as (Hca & Ha & Hd) end.
  fold c1 in He, Hca, Ha, Hd. cbn [co_shared co_edit set_heap sh_heap sh_caches] in *.
  set (sh1 := set_stats _ _).
  assert (Hl : logged A Q (t_sys db) (with_shared sh1 (t_sys db))).
  { apply logged_shared; [|done]. eapply same_persistent_trans; [exact Hp|by apply evolve_persistent]. }
  destruct (level_merge _).
  - destruct (LogAndApply _ _) as [[s sys1]| |] eqn:Hlog; cbn [result_bind]; [|done..].
    assert (Hl2 : logged A Q (with_shared sh1 (t_sys db)) sys1).
    { eapply LogAndApply_logged; [..|exact Hlog]; [by rewrite Ha|].
      eapply Forall_impl; [apply Hd; constructor|]. by intros d ->. }
    pose proof (MarkFileIfNeedMerge_evolve (co_files c1) (max_sorted_runs (bs_cf_options bs)) (sh_heap (sys_shared sys1))) as He2.
    destruct (MarkFileIfNeedMerge _ _ _) as [h2 n]. cbn [fst] in He2.
    intros [Hl3 Ho]%(maybe_request_gc_logged A Q). split; [|done].
    eapply logged_trans; [exact Hl|]. eapply logged_trans; [exact Hl2|].
    eapply logged_trans; [|exact Hl3]. apply logged_shared; [by apply evolve_persistent|done].
  - intros [Hl3 Ho]%(maybe_request_gc_logged A Q). split; [|done]. by eapply logged_trans.
Qed.

Lemma delete_inputs_logged (A Q : Z -> Z -> Prop) job d db s job' db' :
  (forall id, Q id (GetLatestSequenceNumber d)) -> DeleteInputBlobFiles job d db = Ok (s, job', db') ->
  logged A Q (t_sys db) (t_sys db') /\ t_options db' = t_options db.
Proof.
  intros Hq. unfold DeleteInputBlobFiles.
  set (edit := delete_inputs_edit _ _ _ _).
  destruct (LogAndApply edit (t_sys db)) as [[s1 sys1]| |] eqn:Hlog; cbn [result_bind]; [|done..]. intros [= _ _ <-].
  split; [|done]. assert (Hgo : added_files edit = [] /\ Forall (fun d => forall id, Q id d.2) (deleted_files edit)).
  { unfold edit, delete_inputs_edit. apply (foldl_invariant (fun e => added_files e = [] /\ Forall (fun d => forall id, Q id d.2) (deleted_files e))); [done|].
    intros e l _ [Ha Hd]. split; [done|]. rewrite deleted_files_DeleteBlobFile. apply Forall_app. split; [done|]. by apply Forall_singleton. }
  destruct Hgo as [Ha Hd]. eapply LogAndApply_logged; [..|exact Hlog]; [by rewrite Ha|].
  eapply Forall_impl; [exact Hd|]. auto.
Qed.
(** ** Adding files *)

Lemma tables_ext db db' :
  t_options db' = t_options db -> sys_set (t_sys db') = sys_set (t_sys db) -> sys_shared (t_sys db') = sys_shared (t_sys db) ->
  tables_ok db -> tables_ok db'.
Proof. intros Ho Hs Hsh [Hfi Hra Hun Hdi Hne Hma]. split; rewrite ?Hs, ?Hsh, ?Ho; done. Qed.

Lemma kept_ext S cf_id i r t rs f bs db db' :
  t_options db' = t_options db -> t_sys db' = t_sys db -> kept S cf_id i r t rs f bs db -> kept S cf_id i r t rs f bs db'.
Proof. intros Ho Hs Hk. apply (kept_fs S cf_id i r t rs f bs db); rewrite ?Hs; done. Qed.

(** A file a storage knows is none of a new batch. *)
Lemma batch_names batch db id bs n :
  batch_new batch db -> column_families (sys_set (t_sys db)) !! id = Some bs -> mentioned bs n ->
  BlobFileName (dirname (t_options db)) n ∉ names_of batch.
Proof.
  intros Hnew Hbs Hm Hin. unfold names_of in Hin. apply list_elem_of_fmap in Hin as (fl & Heq & Hin).
  unfold batch_new in Hnew. rewrite Forall_forall in Hnew. destruct (Hnew fl Hin) as (_ & Hname & _ & Hno).
  rewrite Hname in Heq. apply BlobFileName_inj in Heq as ->. by eapply Hno.
Qed.

Lemma finish_world listeners cf_id batch db s db' :
  tables_ok db -> batch_new batch db -> BatchFinishFiles listeners cf_id batch db = Ok (s, db') ->
  tables_ok db' /\
  forall S cf i r t rs f bs, kept S cf i r t rs f bs db -> exists bs', kept S cf i r t rs f bs' db'.
Proof.
  intros Hta Hnew. unfold BatchFinishFiles.
  pose proof (close_files_steady batch (sys_fs (t_sys db))) as Hst. destruct (close_files batch _) as [s1 w1]. cbn [snd] in Hst.
  set (db1 := with_sys (MkSys (sys_set (t_sys db)) (sys_shared (t_sys db)) w1) db).
  assert (Hta1 : tables_ok db1) by by apply (tables_ext db).
  assert (Hk1 : forall S cf i r t rs f bs, kept S cf i r t rs f bs db -> kept S cf i r t rs f bs db1).
  { intros S cf i r t rs f bs Hk. apply (kept_fs S cf i r t rs f bs db); try done. intros c Hopen Hread. apply Hst; [|done..].
    destruct (kp_file _ _ _ _ _ _ _ _ _ Hk) as (l & m & Hl & _). eapply batch_names; [done|apply Hk|left; by exists l]. }
  destruct (negb (status_ok s1)); [intros [= _ <-]; eauto|].
  destruct (LogAndApply _ _) as [[s2 sys2]| |] eqn:Hlog; cbn [result_bind]; [|done..].
  destruct (add_files_edit_added cf_id batch) as (Hadd & Hdel & Hcf).
  apply (LogAndApply_logged (fun id n => id = cf_id /\ exists fl, fl ∈ batch /\ n = GetNumber fl.2.1) (fun _ _ => False)) in Hlog.
  2: { rewrite Hadd, Hcf. apply Forall_fmap, Forall_forall. intros fl Hin. split; [done|]. exists fl. split; [done|].
       unfold batch_new in Hnew. rewrite Forall_forall in Hnew. by apply Hnew. }
  2: { by rewrite Hdel. }
  assert (Hta2 : tables_ok (with_sys sys2 db1)).
  { refine (tables_logged _ _ db1 sys2 Hta1 _ _ Hlog); [|by intros id1 id2 n [-> _] [-> _]].
    intros id n (-> & fl & Hin & ->). unfold batch_new in Hnew. rewrite Forall_forall in Hnew. by destruct (Hnew fl Hin) as (_ & _ & ? & ?). }
  assert (Hk2 : forall S cf i r t rs f bs, kept S cf i r t rs f bs db -> exists bs', kept S cf i r t rs f bs' (with_sys sys2 db1)).
  { intros S cf i r t rs f bs Hk. eapply kept_logged; [|exact Hta1|by apply Hk1|exact Hlog]. done. }
  intros [= _ <-].
  assert (Hbg : forall st, t_sys (if status_ok st then with_sys sys2 db else (SetBGError listeners st (with_sys sys2 db)).2) = sys2 /\
            t_options (if status_ok st then with_sys sys2 db else (SetBGError listeners st (with_sys sys2 db)).2) = t_options db).
  { intros st. destruct (status_ok st) eqn:Hs; [done|]. unfold SetBGError. rewrite Hs. cbn [snd]. by destruct (status_ok (listeners st)). }
  destruct (Hbg s2) as [Hsys Hopt]. split.
  - apply (tables_ext (with_sys sys2 db1)); cbn [with_pending t_options t_sys]; rewrite ?Hsys; done.
  - intros S cf i r t rs f bs Hk. destruct (Hk2 _ _ _ _ _ _ _ _ Hk) as [bs' Hk']. exists bs'.
    revert Hk'. apply kept_ext; done.
Qed.

(** Outputs that are not wanted are deleted. *)
Definition handles_new (handles : list FileHandle) (db : TitanDBImpl) : Prop :=
  Forall (fun h => GetName h = BlobFileName (dirname (t_options db)) (GetNumber h) /\
    forall id bs, column_families (sys_set (t_sys db)) !! id = Some bs -> ~ mentioned bs (GetNumber h)) handles.

Lemma delete_handles_steady handles st name fl c :
  name ∉ GetName <$> handles -> NewRandomAccessFile st.2 name = Ok fl -> readable st.2 fl c ->
  let w' := (foldl (fun st handle => env_DeleteFile (GetName handle) st.2) st handles).2 in
  NewRandomAccessFile w' name = Ok fl /\ readable w' fl c.
Proof.
  revert st. induction handles as [|h handles IH]; intros st Hni Ho Hr; [done|]. cbn [foldl].
  apply not_elem_of_cons in Hni as [Hne Hni]. pose proof (delete_steady (GetName h) st.2) as Ht.
  destruct (Ht name fl c Hne Ho Hr). by apply IH.
Qed.

Lemma delete_world handles db s db' :
  tables_ok db -> handles_new handles db -> BatchDeleteFiles handles db = (s, db') ->
  tables_ok db' /\
  forall S cf i r t rs f bs, kept S cf i r t rs f bs db -> kept S cf i r t rs f bs db'.
Proof.
  intros Hta Hnew. unfold BatchDeleteFiles.
  pose proof (delete_handles_steady handles (OK, sys_fs (t_sys db))) as Hst. destruct (foldl _ _ handles) as [s1 w1].
  cbn [snd] in Hst. intros [= _ <-]. split; [by apply (tables_ext db)|].
  intros S cf i r t rs f bs Hk. apply (kept_fs S cf i r t rs f bs db); try done. intros c Hopen Hread. apply Hst; [|done..].
  destruct (kp_file _ _ _ _ _ _ _ _ _ Hk) as (l & m & Hl & _). intros (h & Heq & Hin)%list_elem_of_fmap.
  unfold handles_new in Hnew. rewrite Forall_forall in Hnew. destruct (Hnew h Hin) as [Hname Hno].
  rewrite Hname in Heq. apply BlobFileName_inj in Heq. rewrite Heq in Hl. eapply Hno; [apply Hk|left; by exists l].
Qed.

(** An object of metadata is allocated. *)
Definition loc_new (l : loc) (db : TitanDBImpl) : Prop :=
  sh_heap (sys_shared (t_sys db)) !! l = None /\
  forall id bs n, column_families (sys_set (t_sys db)) !! id = Some bs -> files bs !! n <> Some l.

Definition allocate (l : loc) (m : BlobFileMeta) (db : TitanDBImpl) : TitanDBImpl :=
  with_sh (set_heap (<[l := m]> (sh_heap (sys_shared (t_sys db)))) (sys_shared (t_sys db))) db.

Lemma allocate_world l m db :
  tables_ok db -> loc_new l db ->
  tables_ok (allocate l m db) /\
  forall S cf i r t rs f bs, kept S cf i r t rs f bs db -> kept S cf i r t rs f bs (allocate l m db).
Proof.
  intros [Hfi Hra Hun Hdi Hne Hma] [Hl Hno]. split.
  - split; cbn; try done. intros id bs n l' Hbs Hl'. unfold deref. rewrite lookup_insert_ne; [by eapply Hfi|].
    intros ->. by eapply Hno.
  - intros S cf i r t rs f bs [Hbs Ha Hp (l' & m' & Hl' & Hm' & Hfile) Hsmall Hrec Hwf Ht Hbc Hopen Hread Hrds].
    split; cbn; try done. exists l', m'. split; [done|]. split; [|done]. rewrite lookup_insert_ne; [done|]. intros ->. by eapply Hno.
Qed.

Lemma tables_caches c db : tables_ok db -> tables_ok (with_sh (set_caches c (sys_shared (t_sys db))) db).
Proof. by intros []. Qed.

Lemma tables_read db id key view res db' :
  tables_ok db -> TitanDBImpl_GetImpl id key view db = (res, db') -> tables_ok db'.
Proof.
  intros Hta. unfold TitanDBImpl_GetImpl. destruct (base_GetImpl view id key) as [[v []]|s|]; [|by intros [= _ <-]..].
  destruct (BlobIndex_DecodeFrom BlobIndex_default v) as [[i' rest]|s|]; [|by intros [= _ <-]..].
  destruct (GetBlobStorage id _) as [bs1|]; [|by intros [= _ <-]].
  unfold bs_Get. destruct (bs_FindFile _ bs1) as [l1|].
  2: { destruct (sep_before_flush _); intros [= _ <-]; by apply (tables_ext db). }
  destruct (BlobFileCache_Get _ _ _ _ _ _ _ _) as [res1 c1]. intros [= _ <-]. by apply tables_caches.
Qed.

Lemma tables_iterate db move it it' db' : tables_ok db -> it_after move it db = Ok (it', db') -> tables_ok db'.
Proof.
  intros Hta. unfold it_after. destruct (ShouldGetBlobValue _) as [[] it1]; [|by intros [= _ <-]].
  unfold GetBlobValue. destruct (DecodeInto _ _ _) as [index|s|]; [|by intros [= _ <-]|done].
  assert (Hp : forall res db1, it_prefetcher (index_file_number index) it1 db = (res, db1) -> tables_ok db1).
  { intros res db1. unfold it_prefetcher. destruct (it_files it1 !! _); [by intros [= _ <-]|].
    destruct (GetBlobStorage _ _) as [bs1|]; [|by intros [= _ <-]].
    unfold bs_NewPrefetcher. destruct (bs_FindFile _ _) as [l1|]; [|intros [= _ <-]; by apply (tables_ext db)].
    destruct (BlobFileCache_NewPrefetcher _ _ _ _ _ _ _) as [rd1 c1]. intros [= _ <-]. by apply tables_caches. }
  destruct (it_prefetcher _ it1 db) as [[[p it2]|s|] db1]; [|intros [= _ <-]; by eapply Hp|done].
  destruct (BlobFilePrefetcher_Get _ _ _ _ _) as [[[res bc] p'] rest].
  assert (Hk2 : tables_ok (with_blobs bc db1)) by (apply tables_caches; by eapply Hp).
  by destruct res as [[]|s|]; [intros [= _ <-]..|].
Qed.
(** ** Column families *)

Lemma logged_columns A Q sys sys' cols :
  logged A Q sys sys' -> logged A Q sys (MkSys (with_columns cols (sys_set sys')) (sys_shared sys') (sys_fs sys')).
Proof. by intros [Hs Hn Hm Hms Hf]. Qed.

Lemma drop_logged (A Q : Z -> Z -> Prop) cfs seq sys s sys' :
  (forall id, Q id seq) -> DropColumnFamilies cfs seq sys = Ok (s, sys') -> logged A Q sys sys'.
Proof.
  intros Hq. revert sys. induction cfs as [|id cfs IH]; intros sys; cbn [DropColumnFamilies]; [intros [= _ <-]; apply logged_refl|].
  destruct (column_families (sys_set sys) !! id) as [bs|]; [|intros [= _ <-]; apply logged_refl].
  set (edit := drop_edit _ _ _).
  assert (Hedit : added_files edit = [] /\ Forall (fun d => forall id, Q id d.2) (deleted_files edit)).
  { unfold edit, drop_edit.
    apply (foldl_invariant (fun e => added_files e = [] /\ Forall (fun d => forall id, Q id d.2) (deleted_files e))); [done|].
    intros e l _ [Ha Hd]. destruct (is_obsolete _); [done|]. split; [done|].
    rewrite deleted_files_DeleteBlobFile. apply Forall_app. split; [done|]. by apply Forall_singleton. }
  destruct (LogAndApply edit sys) as [[s1 sys1]| |] eqn:Hlog; cbn [result_bind]; [|done..].
  assert (Hl : logged A Q sys sys1).
  { eapply LogAndApply_logged; [..|exact Hlog]; [by rewrite (proj1 Hedit)|]. eapply Forall_impl; [apply Hedit|]. auto. }
  destruct (negb (status_ok s1)); [by intros [= _ <-]|]. intros Hrest%IH.
  eapply logged_trans; [by apply logged_columns|exact Hrest].
Qed.

Lemma drop_finish_logged (A Q : Z -> Z -> Prop) dropped seq cfs db s db' :
  (forall id, Q id seq) -> drop_finish dropped seq cfs db = Ok (s, db') ->
  logged A Q (t_sys db) (t_sys db') /\ t_options db' = t_options db.
Proof.
  intros Hq. unfold drop_finish. destruct (status_ok dropped); [|intros [= _ <-]; split; [apply logged_refl|done]].
  destruct (DropColumnFamilies cfs seq (t_sys db)) as [[s1 sys1]| |] eqn:Hd; cbn [result_bind]; [|done..].
  intros [= _ <-]. split; [|done]. by eapply drop_logged.
Qed.

(** The handle of another column family is destroyed. *)
Lemma destroy_world destroyed id db s db' :
  tables_ok db -> DestroyColumnFamilyHandle destroyed id db = (s, db') ->
  tables_ok db' /\ forall S cf i r t rs f bs, cf <> id -> kept S cf i r t rs f bs db -> kept S cf i r t rs f bs db'.
Proof.
  intros Hta. unfold DestroyColumnFamilyHandle. destruct (status_ok destroyed); [|by intros [= _ <-]].
  unfold MaybeDestroyColumnFamily. cbn [with_columns column_families].
  destruct (column_families (sys_set (t_sys db)) !! id) as [bs0|] eqn:Hbs0.
  2: { intros [= _ <-]. split; [by destruct Hta|]. intros. by apply (kept_fs _ _ _ _ _ _ _ _ db). }
  pose proof (proj1 (release_shared (MarkDestroyed bs0) (sys_shared (t_sys db)))) as Hh.
  pose proof (release_readers (MarkDestroyed bs0) (sys_shared (t_sys db))) as Hrd.
  set (sh1 := release_storage (MarkDestroyed bs0) (sys_shared (t_sys db))) in *.
  set (vs1 := if MaybeRemove _ then _ else _). intros [= _ <-].
  assert (Hcf : forall id' bs', column_families vs1 !! id' = Some bs' ->
            exists bs, column_families (sys_set (t_sys db)) !! id' = Some bs /\ files bs' = files bs /\
              obsolete_files bs' = obsolete_files bs /\ bs_db_options bs' = bs_db_options bs).
  { intros id' bs'. unfold vs1. destruct (MaybeRemove (MarkDestroyed bs0)); cbn.
    - intros [_ Hb]%lookup_delete_Some. by exists bs'.
    - intros [[<- <-]|[_ Hb]]%lookup_insert_Some; [by exists bs0|by exists bs']. }
  assert (Hmen : forall id' bs' n, column_families vs1 !! id' = Some bs' -> mentioned bs' n ->
            exists bs, column_families (sys_set (t_sys db)) !! id' = Some bs /\ mentioned bs n).
  { intros id' bs' n Hb Hm. destruct (Hcf id' bs' Hb) as (bs & Hbs & Hf & Ho & _). exists bs. split; [done|].
    unfold mentioned in *. by rewrite <- Hf, <- Ho. }
  assert (Hother : forall cf, cf <> id -> column_families vs1 !! cf = column_families (sys_set (t_sys db)) !! cf).
  { intros cf Hne. unfold vs1. destruct (MaybeRemove (MarkDestroyed bs0)); cbn;
      [by rewrite lookup_delete_ne|by rewrite lookup_insert_ne]. }
  assert (Hrest : set_next_file_number vs1 = set_next_file_number (sys_set (t_sys db)) /\
            manifest vs1 = manifest (sys_set (t_sys db)) /\ obsolete_manifests vs1 = obsolete_manifests (sys_set (t_sys db)))
    by (unfold vs1; by destruct (MaybeRemove (MarkDestroyed bs0))).
  destruct Hrest as (Hn1 & Hm1 & Hom1). split.
  - destruct Hta as [Hfi Hra Hun Hdi Hne Hma]. split; cbn; rewrite ?Hh, ?Hn1, ?Hm1, ?Hom1; try done.
    + intros id' bs' n l Hb Hl. destruct (Hcf _ _ Hb) as (bs & Hbs & Hf & _). rewrite Hf in Hl. by eapply Hfi.
    + intros id' bs' n Hb Hm. destruct (Hmen _ _ _ Hb Hm) as (bs & Hbs & Hm'). by eapply Hra.
    + intros id1 bs1 id2 bs2 n Hb1 Hme1 Hb2 Hme2. destruct (Hmen _ _ _ Hb1 Hme1) as (b1 & Hbs1 & Hm1').
      destruct (Hmen _ _ _ Hb2 Hme2) as (b2 & Hbs2 & Hm2'). by eapply Hun.
    + intros id' bs' Hb. destruct (Hcf _ _ Hb) as (bs & Hbs & _ & _ & Hd). rewrite Hd. by eapply Hdi.
  - intros S cf i r t rs f bs Hne [Hbs Ha Hp Hfile Hsmall Hrec Hwf Ht Hbc Hopen Hread Hrds].
    split; cbn; rewrite ?Hh; try done; [by rewrite Hother|]. intros rd Hk. by apply Hrds, Hrd.
Qed.

(** New column families, in the directory of the database. *)
Lemma create_world created descs db s db' :
  dirname (set_db_options (sys_set (t_sys db))) = dirname (t_options db) ->
  tables_ok db -> CreateColumnFamilies created descs db = (s, db') ->
  tables_ok db' /\ forall S cf i r t rs f bs, kept S cf i r t rs f bs db -> kept S cf i r t rs f bs db'.
Proof.
  intros Hdir Hta. unfold CreateColumnFamilies. destruct created as [ids|s1]; [|by intros [= _ <-]]. cbv zeta.
  set (cfs := foldl _ ∅ (zip ids descs)). intros [= _ <-].
  set (cfs1 := foldl (fun m cf => emplace cf.1 (BlobStorage_new (set_db_options (sys_set (t_sys db))) cf.2 cf.1) m)
                 (column_families (sys_set (t_sys db))) (ordered_iter cfs)).
  assert (Hcf : (forall id bs, column_families (sys_set (t_sys db)) !! id = Some bs -> cfs1 !! id = Some bs) /\
            (forall id bs, cfs1 !! id = Some bs -> column_families (sys_set (t_sys db)) !! id = Some bs \/
               (files bs = ∅ /\ obsolete_files bs = [] /\ bs_db_options bs = set_db_options (sys_set (t_sys db))))).
  { unfold cfs1. apply (foldl_invariant (fun m => (forall id bs, column_families (sys_set (t_sys db)) !! id = Some bs -> m !! id = Some bs) /\
      (forall id bs, m !! id = Some bs -> column_families (sys_set (t_sys db)) !! id = Some bs \/
         (files bs = ∅ /\ obsolete_files bs = [] /\ bs_db_options bs = set_db_options (sys_set (t_sys db)))))); [by split; [|left]|].
    intros m x _ [H1' H2']. unfold emplace. destruct (m !! x.1) eqn:Hx; [done|]. split.
    - intros id bs Hb. rewrite lookup_insert_ne; [by apply H1'|]. intros Heq. apply H1' in Hb. congruence.
    - intros id bs. intros [[<- <-]|[_ Hb]]%lookup_insert_Some; [by right|by apply H2']. }
  destruct Hcf as [Hkeep Hnew].
  assert (Hmen : forall id bs n, cfs1 !! id = Some bs -> mentioned bs n -> column_families (sys_set (t_sys db)) !! id = Some bs).
  { intros id bs n Hb Hm. destruct (Hnew id bs Hb) as [|(Hf & Ho & _)]; [done|]. destruct Hm as [[l Hl]|[seq Hin]].
    - by rewrite Hf in Hl.
    - rewrite Ho in Hin. by apply not_elem_of_nil in Hin. }
  split.
  - destruct Hta as [Hfi Hra Hun Hdi Hne Hma]. split; cbn; fold cfs1; try done.
    + intros id bs n l Hb Hl. eapply Hfi; [|exact Hl]. eapply Hmen; [exact Hb|]. left. by exists l.
    + intros id bs n Hb Hm. eapply Hra; [by eapply Hmen|done].
    + intros id1 bs1 id2 bs2 n Hb1 Hm1 Hb2 Hm2. eapply Hun; [by eapply Hmen|exact Hm1|by eapply Hmen|exact Hm2].
    + intros id bs Hb. destruct (Hnew id bs Hb) as [Hold|(_ & _ & ->)]; [by eapply Hdi|exact Hdir].
  - intros S cf i r t rs f bs [Hbs Ha Hp Hfile Hsmall Hrec Hwf Ht Hbc Hopen Hread Hrds].
    split; cbn; fold cfs1; try done. by apply Hkeep.
Qed.

(** A file the foreground builder writes is listed for reading. *)
Lemma building_logged A Q sys id bs w n bs' :
  column_families (sys_set sys) !! id = Some bs -> AddBuildingFile w n bs = Ok bs' ->
  logged A Q sys (MkSys (with_cfs (<[id := bs']> (column_families (sys_set sys))) (sys_set sys)) (sys_shared sys) (sys_fs sys)).
Proof.
  intros Hbs. unfold AddBuildingFile. destruct (NewRandomAccessFile _ _); cbn [result_bind]; [|done..]. intros [= <-].
  split; [split|..]; cbn; try done.
  - rewrite dom_insert_L. apply elem_of_dom_2 in Hbs. set_solver.
  - intros id' bs1. intros [[<- <-]|[_ Hb]]%lookup_insert_Some; [exists bs|exists bs1]; (split; [done|]);
      split; cbn; try done; by left.
Qed.

(** *** Deleting the files of ranges *)

(** The loop over the sizes: persistent metadata and caches stay, and the edit
    only deletes, at the sequence number [seq]. *)
Lemma ranges_loop_steady cf_id cf seq bs L st :
  let st' := foldl (ranges_file cf_id cf seq bs) st L in
  same_persistent (sh_heap st.1.1) (sh_heap st'.1.1) /\ sh_caches st'.1.1 = sh_caches st.1.1 /\
  added_files st'.2 = added_files st.2 /\
  (Forall (fun d => d.2 = seq) (deleted_files st.2) -> Forall (fun d => d.2 = seq) (deleted_files st'.2)).
Proof.
  cbv zeta. apply (foldl_invariant (fun st' => same_persistent (sh_heap st.1.1) (sh_heap st'.1.1) /\
    sh_caches st'.1.1 = sh_caches st.1.1 /\ added_files st'.2 = added_files st.2 /\
    (Forall (fun d => d.2 = seq) (deleted_files st.2) -> Forall (fun d => d.2 = seq) (deleted_files st'.2)))); [done|].
  intros [[sh delta] edit] f _ (Hp & Hc & Ha & Hd). cbn [fst snd] in *. unfold ranges_file.
  destruct (bs_FindFile f.1 bs) as [l|]; [|done].
  assert (Hp2 : same_persistent (sh_heap st.1.1) (heap_call (AddDiscardableSize f.2) l (sh_heap sh))).
  { eapply same_persistent_trans; [exact Hp|]. by apply same_persistent_call. }
  destruct (level_merge cf); [|by split_and!]. destruct (NoLiveData _).
  - split_and!; try done. intros Hs. cbn [snd]. rewrite deleted_files_DeleteBlobFile. apply Forall_app.
    split; [by apply Hd|]. by apply Forall_singleton.
  - destruct (double_ltb _ _); [|by destruct (f.2 >? 0)]. split_and!; try done. cbn [fst sh_heap set_heap].
    eapply same_persistent_trans; [exact Hp2|]. by apply same_persistent_call.
Qed.

Lemma put_blocked_logged A Q id db db' :
  put_blocked id db = Ok db' -> logged A Q (t_sys db) (t_sys db') /\ t_options db' = t_options db.
Proof.
  unfold put_blocked. destruct (GetBlobStorage id _) as [bs|] eqn:Hbs; [|done].
  pose proof (logged_score A Q (t_sys db) id bs (sh_heap (sys_shared (t_sys db))) Hbs) as Hs.
  destruct (ComputeGCScore _ bs) as [n bs']. intros [= <-]. rewrite request_gc_sys. split; [exact Hs|].
  unfold request_gc. by destruct (MaybeScheduleGC _ _).
Qed.

Lemma ranges_account_logged (A Q : Z -> Z -> Prop) id sizes seq db s db' :
  (forall id, Q id seq) -> ranges_account id sizes seq db = Ok (s, db') ->
  logged A Q (t_sys db) (t_sys db') /\ t_options db' = t_options db.
Proof.
  intros Hq. unfold ranges_account. destruct (GetBlobStorage id _) as [bs|]; [|intros [= _ <-]; split; [apply logged_refl|done]].
  pose proof (ranges_loop_steady id (bs_cf_options bs) seq bs (ordered_iter sizes) (sys_shared (t_sys db), 0, VersionEdit_default))
    as (Hp & Hc & Ha & Hd). cbv zeta in Hp, Hc, Ha, Hd.
  destruct (foldl _ _ _) as [[sh delta] edit]. cbn [fst snd] in *. set (sh1 := set_stats _ sh).
  assert (Hl : logged A Q (t_sys db) (t_sys (with_sh sh1 db))) by by apply (logged_shared A Q (t_sys db) sh1).
  destruct (level_merge _).
  - destruct (LogAndApply edit _) as [[s1 sys1]| |] eqn:Hlog; cbn [result_bind]; [|done..]. intros [= _ <-]. split; [|done].
    eapply logged_trans; [exact Hl|]. eapply LogAndApply_logged; [..|exact Hlog]; [by rewrite Ha|].
    eapply Forall_impl; [apply Hd; constructor|]. by intros d ->.
  - destruct (put_blocked id _) as [db1| |] eqn:Hb; cbn [result_bind]; [|done..]. intros [= _ <-].
    apply (put_blocked_logged A Q) in Hb as [Hl2 Ho]. split; [by eapply logged_trans|exact Ho].
Qed.

(** The files of the ranges are deleted at sequence number 0, those of the other
    column families at the latest one. *)
Lemma ranges_logged A v cmp delete_ssts id ranges include_end d db s d' db' :
  DeleteFilesInRanges v cmp delete_ssts id ranges include_end d db = Ok (s, d', db') ->
  logged A (fun id' seq => id' = id \/ seq = GetLatestSequenceNumber d') (t_sys db) (t_sys db') /\ t_options db' = t_options db.
Proof.
  set (Q := fun id' seq => id' = id \/ seq = GetLatestSequenceNumber d').
  unfold DeleteFilesInRanges. destruct (ranges_props _ _ _ _ _ _) as [props| |]; [|intros [= _ _ <-]; split; [apply logged_refl|done]|done].
  destruct (delete_ssts d) as [s1 d1]. destruct (negb (status_ok s1)); [intros [= _ _ <-]; split; [apply logged_refl|done]|].
  assert (Hrange : forall s sys, DeleteBlobFilesInRanges id ranges include_end (GetLatestSequenceNumber d1) (t_sys db) = Ok (s, sys) ->
            logged A Q (t_sys db) sys).
  { intros s2 sys2. unfold DeleteBlobFilesInRanges. destruct (column_families _ !! id); [|intros [= _ <-]; apply logged_refl].
    destruct (GetBlobFilesInRanges _ _ _ _) as [numbers| |]; cbn [result_bind]; [|done..].
    set (edit := foldl _ _ numbers).
    assert (Hedit : added_files edit = [] /\ column_family_id edit = id).
    { unfold edit. apply (foldl_invariant (fun e => added_files e = [] /\ column_family_id e = id)); [done|]. by intros e n _ [? ?]. }
    destruct Hedit as [Ha Hid]. apply LogAndApply_logged; [by rewrite Ha|]. apply Forall_forall. intros x _. by left. }
  destruct (DeleteBlobFilesInRanges _ _ _ _ _) as [[s2 sys2]| |]; cbn [result_bind]; [|done..].
  specialize (Hrange s2 sys2 eq_refl). destruct (negb (status_ok s2)); [intros [= _ _ <-]; by split|].
  destruct (ranges_account _ _ _ _) as [[s3 db3]| |] eqn:Hacc; cbn [result_bind]; [|done..]. intros [= <- <- <-].
  apply (ranges_account_logged A Q) in Hacc as [Hl Ho]; [|by right]. split; [|exact Ho]. by eapply logged_trans.
Qed.

(** ** The world *)

(** A storage is replaced; a file changes its state. *)
Definition with_storage (cf_id : Z) (bs : BlobStorage) (db : TitanDBImpl) : TitanDBImpl :=
  let sys := t_sys db in
  with_sys (MkSys (with_cfs (<[cf_id := bs]> (column_families (sys_set sys))) (sys_set sys)) (sys_shared sys) (sys_fs sys)) db.

Definition transit (event : FileEvent.t) (l : loc) (db : TitanDBImpl) : TitanDBImpl :=
  let sh := sys_shared (t_sys db) in
  with_sh (set_heap (heap_call (FileStateTransit event) l (sh_heap sh)) sh) db.

(** [GetOldestSnapshotSequence]; the snapshots are listed from the oldest. *)
Definition GetOldestSnapshotSequence (snapshots : list Z) : Z :=
  default kMaxSequenceNumber (head snapshots).

(** The database, the base database, the snapshots its readers hold and the
    purges under way, each with the sequence number it has asked for. *)
Record World := MkWorld {
  w_db : TitanDBImpl;
  w_base : base;
  w_snapshots : list Z;
  w_purges : list Z
}.

(** What can happen between two reads. A purge asks for the oldest snapshot under
    the base database's mutex and collects the files under the database's, so it
    is two steps; any number of them can be under way. The handle of a column
    family is destroyed, and the files of its ranges are deleted, for the column
    families of [touch] only: the first can remove the storage whatever snapshot is
    held, and the second notes the sequence number 0 with the files. *)
Inductive world_step (listeners : Status -> Status) (touch : Z -> Prop) : World -> World -> Prop :=
| ws_write db d d' sn pu : GetLatestSequenceNumber d <= GetLatestSequenceNumber d' ->
    world_step listeners touch (MkWorld db d sn pu) (MkWorld db d' sn pu)
| ws_snapshot db d sn pu :
    world_step listeners touch (MkWorld db d sn pu) (MkWorld db d (sn ++ [GetLatestSequenceNumber d]) pu)
| ws_release db d sn1 s sn2 pu :
    world_step listeners touch (MkWorld db d (sn1 ++ s :: sn2) pu) (MkWorld db d (sn1 ++ sn2) pu)
| ws_read db d sn pu cf_id key view res db' : TitanDBImpl_GetImpl cf_id key view db = (res, db') ->
    world_step listeners touch (MkWorld db d sn pu) (MkWorld db' d sn pu)
| ws_iterate db d sn pu move it it' db' : it_after move it db = Ok (it', db') ->
    world_step listeners touch (MkWorld db d sn pu) (MkWorld db' d sn pu)
| ws_new_file db d sn pu res db' :
    set_next_file_number (sys_set (t_sys db)) + 1 < two64 -> NewFile db = (res, db') ->
    world_step listeners touch (MkWorld db d sn pu) (MkWorld db' d sn pu)
| ws_building db d sn pu cf_id bs n bs' :
    column_families (sys_set (t_sys db)) !! cf_id = Some bs -> AddBuildingFile (sys_fs (t_sys db)) n bs = Ok bs' ->
    world_step listeners touch (MkWorld db d sn pu) (MkWorld (with_storage cf_id bs' db) d sn pu)
| ws_allocate db d sn pu l m : loc_new l db ->
    world_step listeners touch (MkWorld db d sn pu) (MkWorld (allocate l m db) d sn pu)
| ws_add db d sn pu cf_id batch s db' :
    batch_new batch db -> BatchFinishFiles listeners cf_id batch db = Ok (s, db') ->
    world_step listeners touch (MkWorld db d sn pu) (MkWorld db' d sn pu)
| ws_discard db d sn pu handles s db' : handles_new handles db -> BatchDeleteFiles handles db = (s, db') ->
    world_step listeners touch (MkWorld db d sn pu) (MkWorld db' d sn pu)
| ws_flush db d sn pu info :
    world_step listeners touch (MkWorld db d sn pu) (MkWorld (OnFlushCompleted info db) d sn pu)
| ws_compaction db d sn pu props info db' :
    OnCompactionCompleted props (GetLatestSequenceNumber d) info db = Ok db' ->
    world_step listeners touch (MkWorld db d sn pu) (MkWorld db' d sn pu)
| ws_transit db d sn pu event l :
    world_step listeners touch (MkWorld db d sn pu) (MkWorld (transit event l db) d sn pu)
| ws_collection db d sn pu job s job' db' : DeleteInputBlobFiles job d db = Ok (s, job', db') ->
    world_step listeners touch (MkWorld db d sn pu) (MkWorld db' d sn pu)
| ws_bookkeeping db d sn pu db' : t_options db' = t_options db -> t_sys db' = t_sys db ->
    world_step listeners touch (MkWorld db d sn pu) (MkWorld db' d sn pu)
| ws_put_blocked db d sn pu cf_id db' : put_blocked cf_id db = Ok db' ->
    world_step listeners touch (MkWorld db d sn pu) (MkWorld db' d sn pu)
| ws_create db d sn pu created descs s db' :
    dirname (set_db_options (sys_set (t_sys db))) = dirname (t_options db) -> CreateColumnFamilies created descs db = (s, db') ->
    world_step listeners touch (MkWorld db d sn pu) (MkWorld db' d sn pu)
| ws_drop db d sn pu dropped cfs s db' : drop_finish dropped (GetLatestSequenceNumber d) cfs db = Ok (s, db') ->
    world_step listeners touch (MkWorld db d sn pu) (MkWorld db' d sn pu)
| ws_destroy db d sn pu destroyed cf_id s db' :
    touch cf_id -> DestroyColumnFamilyHandle destroyed cf_id db = (s, db') ->
    world_step listeners touch (MkWorld db d sn pu) (MkWorld db' d sn pu)
| ws_ranges db d sn pu v cmp delete_ssts cf_id ranges include_end s d' db' :
    touch cf_id -> DeleteFilesInRanges v cmp delete_ssts cf_id ranges include_end d db = Ok (s, d', db') ->
    GetLatestSequenceNumber d <= GetLatestSequenceNumber d' ->
    world_step listeners touch (MkWorld db d sn pu) (MkWorld db' d' sn pu)
| ws_purge_asks db d sn pu :
    world_step listeners touch (MkWorld db d sn pu) (MkWorld db d sn (GetOldestSnapshotSequence sn :: pu))
| ws_purge_collects db d sn pu1 oldest pu2 s db' : PurgeObsoleteFilesImpl oldest db = (s, db') ->
    world_step listeners touch (MkWorld db d sn (pu1 ++ oldest :: pu2)) (MkWorld db' d sn (pu1 ++ pu2)).

(** The steps while the snapshot [S] is held. *)
Definition held_step (listeners : Status -> Status) (touch : Z -> Prop) (S : Z) (w w' : World) : Prop :=
  world_step listeners touch w w' /\ S ∈ w_snapshots w'.

(** The base database lists its snapshots in order. *)
Record world_ok (w : World) : Prop := {
  wo_tables : tables_ok (w_db w);
  wo_sorted : StronglySorted Z.le (w_snapshots w);
  wo_latest : Forall (fun s => s <= GetLatestSequenceNumber (w_base w)) (w_snapshots w)
}.

(** Steps that log an edit. *)
Lemma logged_world (Q : Z -> Z -> Prop) db db' :
  tables_ok db -> logged (fun _ _ => False) Q (t_sys db) (t_sys db') -> t_options db' = t_options db ->
  tables_ok db' /\
  forall S cf i r t rs f bs, (forall seq, Q cf seq -> S <= seq) -> kept S cf i r t rs f bs db -> exists bs', kept S cf i r t rs f bs' db'.
Proof.
  intros Hta Hl Ho. split.
  - apply (tables_ext (with_sys (t_sys db') db)); try done. by refine (tables_logged _ _ db (t_sys db') Hta _ _ Hl).
  - intros S cf i r t rs f bs HS Hk.
    destruct (kept_logged S cf i r t rs f (fun _ _ => False) Q bs db (t_sys db') HS Hta Hk Hl) as [bs' Hk'].
    exists bs'. revert Hk'. by apply kept_ext.
Qed.

Lemma sorted_snoc (l : list Z) x : StronglySorted Z.le l -> Forall (fun y => y <= x) l -> StronglySorted Z.le (l ++ [x]).
Proof.
  induction l as [|y l IH]; intros Hs Hf; cbn; [by repeat constructor|].
  apply StronglySorted_inv in Hs as [Hs Hy]. apply Forall_cons in Hf as [Hyx Hf].
  constructor; [by apply IH|]. apply Forall_app. split; [done|by apply Forall_singleton].
Qed.

Lemma sorted_remove (l1 l2 : list Z) x : StronglySorted Z.le (l1 ++ x :: l2) -> StronglySorted Z.le (l1 ++ l2).
Proof.
  induction l1 as [|y l1 IH]; cbn; intros [Hs Hy]%StronglySorted_inv; [done|]. constructor; [by apply IH|].
  apply Forall_app in Hy as [Hy1 [_ Hy2]%Forall_cons]. by apply Forall_app.
Qed.

Lemma oldest_le S sn : StronglySorted Z.le sn -> S ∈ sn -> GetOldestSnapshotSequence sn <= S.
Proof.
  destruct sn as [|x sn]; [by intros _ ?%not_elem_of_nil|]. intros [_ Hx]%StronglySorted_inv [->|Hin]%elem_of_cons; [done|].
  rewrite Forall_forall in Hx. by apply Hx.
Qed.

(** What a held snapshot keeps readable. *)
Record watched (S cf_id : Z) (i : BlobIndex) (r : BlobRecord) (t : Z) (rs : list BlobRecord) (f : rafile) (w : World) : Prop := {
  gd_world : world_ok w;
  gd_held : S ∈ w_snapshots w;
  gd_purges : Forall (fun oldest => oldest <= S) (w_purges w);
  gd_kept : exists bs, kept S cf_id i r t rs f bs (w_db w)
}.

(** The database of a watched world can change in any way that keeps the file. *)
Lemma watched_db S cf_id i r t rs f db d d' sn pu pu' db' :
  watched S cf_id i r t rs f (MkWorld db d sn pu) -> (forall x, x ∈ pu' -> x ∈ pu) ->
  GetLatestSequenceNumber d <= GetLatestSequenceNumber d' ->
  tables_ok db' /\ (forall bs, kept S cf_id i r t rs f bs db -> exists bs', kept S cf_id i r t rs f bs' db') ->
  watched S cf_id i r t rs f (MkWorld db' d' sn pu').
Proof.
  intros [[Hta Hso Hla] Hin Hpu (bs & Hk)] Hsub Hle [Hta' Hk']. cbn in *. split; [split|done| |by eapply Hk']; try done.
  - cbn. eapply Forall_impl; [exact Hla|]. intros s Hs. cbn in Hs. lia.
  - cbn. rewrite Forall_forall in *. intros x Hx. by apply Hpu, Hsub.
Qed.

Lemma watched_logged (Q : Z -> Z -> Prop) S cf_id i r t rs f db d d' sn pu db' :
  watched S cf_id i r t rs f (MkWorld db d sn pu) -> GetLatestSequenceNumber d <= GetLatestSequenceNumber d' ->
  (forall seq, Q cf_id seq -> S <= seq) ->
  logged (fun _ _ => False) Q (t_sys db) (t_sys db') /\ t_options db' = t_options db ->
  watched S cf_id i r t rs f (MkWorld db' d' sn pu).
Proof.
  intros Hg Hle HQ [Hl Ho]. eapply watched_db; [exact Hg|done|done|].
  destruct (logged_world Q db db' (wo_tables _ (gd_world _ _ _ _ _ _ _ _ Hg)) Hl Ho) as [Ht' Hk']. split; [exact Ht'|]. eauto.
Qed.

Lemma watched_step listeners (touch : Z -> Prop) S cf_id i r t rs f w w' :
  ~ touch cf_id -> held_step listeners touch S w w' -> watched S cf_id i r t rs f w -> watched S cf_id i r t rs f w'.
Proof.
  intros Hun [Hstep Hin'] Hg. pose proof Hg as [[Hta Hso Hla] Hin Hpu Hk].
  assert (HS : S <= GetLatestSequenceNumber (w_base w)) by (rewrite Forall_forall in Hla; by apply Hla).
  set (seq := fun _ : Z => eq (GetLatestSequenceNumber (w_base w))).
  assert (Hseq : forall q, seq cf_id q -> S <= q) by (intros q Hq; unfold seq in Hq; by subst q).
  destruct Hstep; cbn in *.
  - split; [split|..]; try done. cbn. eapply Forall_impl; [exact Hla|]. intros s Hs. cbn in Hs. lia.
  - split; [split|..]; try done; [by apply sorted_snoc|]. cbn. apply Forall_app. split; [done|]. by apply Forall_singleton.
  - split; [split|..]; try done; [by eapply sorted_remove|]. cbn. apply Forall_app in Hla as [Hl1 [_ Hl2]%Forall_cons]. by apply Forall_app.
  - eapply watched_db; [exact Hg|done|done|]. split; [by eapply tables_read|]. intros bs Hb. exists bs. by eapply kept_read.
  - eapply watched_db; [exact Hg|done|done|]. split; [by eapply tables_iterate|]. intros bs Hb. exists bs. by eapply kept_iterate.
  - eapply watched_db; [exact Hg|done|done|]. split; [by eapply tables_new_file|]. intros bs Hb. exists bs. by eapply kept_new_file.
  - eapply (watched_logged seq); [exact Hg|done|done|]. split; [by eapply building_logged|done].
  - eapply watched_db; [exact Hg|done|done|]. edestruct allocate_world as [Ht' Hk']; [done..|]. split; [exact Ht'|]. eauto.
  - eapply watched_db; [exact Hg|done|done|]. edestruct finish_world as [Ht' Hk']; [done..|]. split; [exact Ht'|]. eauto.
  - eapply watched_db; [exact Hg|done|done|]. edestruct delete_world as [Ht' Hk']; [done..|]. split; [exact Ht'|]. eauto.
  - eapply (watched_logged seq); [exact Hg|done|done|].
    split; [apply flush_logged|by unfold OnFlushCompleted; repeat case_match].
  - eapply (watched_logged seq); [exact Hg|done|done|]. by eapply compaction_logged.
  - eapply (watched_logged seq); [exact Hg|done|done|]. split; [|done].
    apply (logged_shared _ _ (t_sys db)); [by apply same_persistent_call|done].
  - eapply (watched_logged seq); [exact Hg|done|done|]. by eapply delete_inputs_logged.
  - eapply watched_db; [exact Hg|done|done|]. split; [apply (tables_ext db); congruence|]. intros bs Hb. exists bs. by eapply kept_ext.
  - eapply (watched_logged seq); [exact Hg|done|done|]. by eapply put_blocked_logged.
  - eapply watched_db; [exact Hg|done|done|]. edestruct create_world as [Ht' Hk']; [done..|]. split; [exact Ht'|]. eauto.
  - eapply (watched_logged seq); [exact Hg|done|done|]. by eapply drop_finish_logged.
  - eapply watched_db; [exact Hg|done|done|]. edestruct destroy_world as [Ht' Hk']; [done..|]. split; [exact Ht'|].
    intros bs Hb. exists bs. apply Hk'; [|done]. by intros ->.
  - eapply (watched_logged (fun id' q => id' = cf_id0 \/ q = GetLatestSequenceNumber d')); [exact Hg|done| |by eapply ranges_logged].
    intros q [->| ->]; [done|lia].
  - split; [by split|done| |done]. cbn. constructor; [by apply oldest_le|done].
  - eapply watched_db; [exact Hg|set_solver|done|]. edestruct purge_world as [Ht' Hk']; [done..|]. split; [exact Ht'|].
    intros bs Hb. eapply Hk'; [|exact Hb]. apply Forall_app in Hpu as [_ [? _]%Forall_cons]. done.
Qed.

Lemma watched_steps listeners (touch : Z -> Prop) S cf_id i r t rs f w w' :
  ~ touch cf_id -> rtc (held_step listeners touch S) w w' -> watched S cf_id i r t rs f w -> watched S cf_id i r t rs f w'.
Proof. intros Hun. induction 1 as [|w1 w2 w3 Hstep _ IH]; intros Hg; [done|]. apply IH. by eapply watched_step. Qed.

(** The record of a watched world is read. *)
Definition record_read (cf_id : Z) (key : bytes) (i : BlobIndex) (r : BlobRecord) (view : base) (db : TitanDBImpl) : Prop :=
  (exists db', TitanDBImpl_GetImpl cf_id key view db = (Ok (record_value r), db')) /\
  (forall it move,
     it_cf_id it = cf_id -> it_key_only it = false -> it_files it !! index_file_number i = None ->
     bi_Valid (move (it_iter it)) = true -> bi_IsBlob (move (it_iter it)) = true ->
     bi_value (move (it_iter it)) = BlobIndex_EncodeTo i ->
     exists it' db', it_after move it db = Ok (it', db') /\
       it_Valid it' = true /\ it_status_ it' = OK /\ it_value it' = record_value r).

Lemma watched_reads S cf_id key i r t rs f view w :
  watched S cf_id i r t rs f w -> base_GetImpl view cf_id key = Ok (BlobIndex_EncodeTo i, true) ->
  record_read cf_id key i r view (w_db w).
Proof.
  intros [[Hta _ _] _ _ (bs & Hk)] Hview. destruct (kept_index _ _ _ _ _ _ _ _ _ Hta Hk) as (m & Hi). split.
  - destruct (GetImpl_index cf_id key view i r bs m t rs f (w_db w) Hi Hview) as (db' & Hget & _). by exists db'.
  - intros it move Hcf Hko Hf Hv Hb Hval.
    destruct (it_after_index cf_id i r bs m t rs f (w_db w) it move Hi Hcf Hko Hf Hv Hb Hval) as (it' & db' & ? & ? & ? & ? & _).
    by exists it', db'.
Qed.

(** C4: A snapshot keeps the values it shows. A reader holds the snapshot [S],
    and the entry of its key is the index of a record in a file that is listed,
    or deleted at [S] or later, of a column family without a blob cache (the
    default); every purge under way has asked for the oldest snapshot after it was
    taken. Then whatever of the following happens while the snapshot is held, a
    read of the key at the snapshot returns the record's value, and so does an
    iterator that moves to the entry: writes, also blocked ones; other snapshots
    taken and released; reads of any key; new files created, written, added to a
    column family or thrown away; flushes, compactions and garbage collections
    that delete files (the file read too), with their changes of state and
    bookkeeping; column families created; any column families dropped, the one
    read too; the handle of another column family destroyed and files of ranges of
    another column family deleted; purges beginning and ending in any order. The
    steps [ws_destroy] and [ws_ranges] of the column family read are left out:
    they do take files a snapshot shows
    ([ranges_and_destroy_ignore_snapshots]). *)
Theorem snapshot_keeps_values (listeners : Status -> Status) (S cf_id : Z) (key : bytes) (i : BlobIndex) (r : BlobRecord)
    (t : Z) (rs : list BlobRecord) (f : rafile) (view : base) (w w' : World) :
  watched S cf_id i r t rs f w -> base_GetImpl view cf_id key = Ok (BlobIndex_EncodeTo i, true) ->
  rtc (held_step listeners (fun id => id <> cf_id) S) w w' ->
  record_read cf_id key i r view (w_db w').
Proof. intros Hg Hview Hsteps. eapply watched_reads; [|exact Hview]. eapply watched_steps; [|exact Hsteps|exact Hg]. by intros []. Qed.
End snapshots.

(** ** An application *)

Section witnesses.
#[local] Existing Instances leb128_coding leb128_coding_ok rle_compressors rle_compressors_ok mem_env mem_env_ok
  map_to_list_iter mem_manifest blobs_map readers_map mem_files mem_basedb mem_iterator mem_steady_ok.

(** The column family of [TitanDbInv]'s example, in a database with a manifest. *)
Definition example_world_db : TitanDBImpl :=
  with_sys (MkSys (MkBlobFileSet example_db_options 100 [] ∅ {[ 5 := example_read_storage ]} (Some (DescriptorFileName "" 3)) 15)
              (sys_shared (t_sys example_gc_db))
              (<[DescriptorFileName "" 3 := []]> (example_gc_fs : gmap string bytes))) example_gc_db.

(** A collection of file 1, whose values have been rewritten. *)
Definition example_collection : BlobGCJob :=
  BlobGCJob_new (MkBlobGC [1%positive] [1%positive] [] example_cf_options (Some 5) false).

Lemma example_collects :
  exists s job' db', DeleteInputBlobFiles example_collection example_base example_world_db = Ok (s, job', db').
Proof.
  assert (Hok : match DeleteInputBlobFiles example_collection example_base example_world_db with Ok _ => True | _ => False end)
    by (vm_compute; exact I).
  destruct (DeleteInputBlobFiles _ _ _) as [[[s job'] db']|s|]; [by exists s, job', db'|done..].
Qed.

Lemma example_tables : tables_ok example_world_db.
Proof.
  assert (Hone : forall id bs, column_families (sys_set (t_sys example_world_db)) !! id = Some bs -> id = 5 /\ bs = example_read_storage).
  { intros id bs Hb. change (({[ 5 := example_read_storage ]} : gmap Z BlobStorage) !! id = Some bs) in Hb.
    apply lookup_singleton_Some in Hb as [<- <-]. done. }
  assert (Hfiles : forall n l, files example_read_storage !! n = Some l -> n = 1 /\ l = 1%positive).
  { intros n l Hl. change (({[ 1 := 1%positive ]} : gmap Z loc) !! n = Some l) in Hl. apply lookup_singleton_Some in Hl as [<- <-]. done. }
  assert (Hmen : forall n, mentioned example_read_storage n -> n = 1).
  { intros n [[l Hl]|[seq Hin]]; [by apply Hfiles in Hl as [-> _]|]. vm_compute in Hin. by apply not_elem_of_nil in Hin. }
  split.
  - intros id bs n l Hb Hl. apply Hone in Hb as [-> ->]. apply Hfiles in Hl as [-> ->]. reflexivity.
  - intros id bs n Hb Hm. apply Hone in Hb as [-> ->]. apply Hmen in Hm as ->. vm_compute. intuition congruence.
  - intros id1 bs1 id2 bs2 n Hb1 _ Hb2 _. apply Hone in Hb1 as [-> _]. apply Hone in Hb2 as [-> _]. done.
  - intros id bs Hb. apply Hone in Hb as [-> ->]. reflexivity.
  - vm_compute. reflexivity.
  - intros log n [Hlog|Hin] Heq; [|by apply not_elem_of_nil in Hin]. injection Hlog as <-.
    symmetry in Heq. by apply (blob_not_descriptor (DirectoryLaws := mem_directory)) in Heq.
Qed.

Lemma example_kept :
  kept 7 5 example_index example_read_record kNoCompression example_records ("/1"%string : @rafile mem_env) example_read_storage example_world_db.
Proof.
  split.
  - reflexivity.
  - reflexivity.
  - intros seq Hin. vm_compute in Hin. by apply not_elem_of_nil in Hin.
  - exists 1%positive, (deref example_gc_heap 1). split_and!; [reflexivity|reflexivity|vm_compute; reflexivity|reflexivity].
  - vm_compute. reflexivity.
  - exists 1%nat. split; vm_compute; reflexivity.
  - unfold record_wf, slice_wf, two32. vm_compute. intuition congruence.
  - vm_compute. intuition congruence.
  - reflexivity.
  - reflexivity.
  - intros off n _ _. reflexivity.
  - intros rd Hrd. vm_compute in Hrd. discriminate.
Qed.

Lemma example_watched :
  watched 7 5 example_index example_read_record kNoCompression example_records ("/1"%string : @rafile mem_env)
    (MkWorld example_world_db example_base [7] []).
Proof.
  split; [split|..].
  - exact example_tables.
  - repeat constructor.
  - repeat constructor. vm_compute. discriminate.
  - by apply list_elem_of_singleton.
  - constructor.
  - exists example_read_storage. exact example_kept.
Qed.
Lemma snapshot_keeps_values_witness :
  exists s job' db1 db2 db',
    DeleteInputBlobFiles example_collection example_base example_world_db = Ok (s, job', db1) /\
    PurgeObsoleteFilesImpl 7 db1 = (OK, db2) /\
    TitanDBImpl_GetImpl 5 [Byte.x6b; Byte.x31] example_base db2 = (Ok [Byte.x76; Byte.x62; Byte.x63], db').
Proof.
  destruct example_collects as (s & job' & db1 & Hdel).
  assert (Hst : (PurgeObsoleteFilesImpl 7 db1).1 = OK).
  { assert (Hok : match DeleteInputBlobFiles example_collection example_base example_world_db with
                  | Ok (_, _, db1) => (PurgeObsoleteFilesImpl 7 db1).1 = OK | _ => False end) by (vm_compute; reflexivity).
    by rewrite Hdel in Hok. }
  destruct (PurgeObsoleteFilesImpl 7 db1) as [s2 db2] eqn:Hpurge. cbn [fst] in Hst. subst s2.
  destruct (snapshot_keeps_values (fun s => s) 7 5 [Byte.x6b; Byte.x31] example_index example_read_record kNoCompression example_records
    ("/1"%string : @rafile mem_env) example_base (MkWorld example_world_db example_base [7] []) (MkWorld db2 example_base [7] [])
    example_watched eq_refl) as [[db' Hget] _].
  - apply (rtc_l _ _ (MkWorld db1 example_base [7] [])); [split; [by eapply ws_collection|by left]|].
    apply (rtc_l _ _ (MkWorld db1 example_base [7] [7])); [split; [exact (ws_purge_asks _ _ db1 example_base [7] [])|by left]|].
    apply rtc_once. split; [by apply (ws_purge_collects _ _ db1 example_base [7] [] 7 [] OK)|by left].
  - exists s, job', db1, db2, db'. split; [done|]. split; [done|exact Hget].
Defined.

(** A purge that has asked before the snapshot is taken does not spare it: the
    snapshot of a reader whose key has the value, taken between the two halves of
    a purge, does not keep a file that a collection then deletes. *)
Theorem purge_may_miss_snapshot :
  let w := MkWorld example_world_db example_base [] [GetOldestSnapshotSequence []] in
  let S := GetLatestSequenceNumber example_base in
  (exists db', TitanDBImpl_GetImpl 5 [Byte.x6b; Byte.x31] (w_base w) (w_db w) = (Ok [Byte.x76; Byte.x62; Byte.x63], db')) /\
  exists w1 w2, world_step (fun s => s) (fun _ => False) w w1 /\ w_snapshots w1 = [S] /\ rtc (held_step (fun s => s) (fun _ => False) S) w1 w2 /\
    match TitanDBImpl_GetImpl 5 [Byte.x6b; Byte.x31] (w_base w) (w_db w2) with (Err (Corruption _), _) => True | _ => False end.
Proof.
  cbv zeta. split.
  { destruct (kept_index _ _ _ _ _ _ _ _ _ example_tables example_kept) as (m & Hi).
    destruct (GetImpl_index 5 [Byte.x6b; Byte.x31] example_base _ _ _ _ _ _ _ _ Hi eq_refl) as (db' & Hget & _). by exists db'. }
  destruct example_collects as (s & job' & db1 & Hdel).
  destruct (PurgeObsoleteFilesImpl (GetOldestSnapshotSequence []) db1) as [s2 db2] eqn:Hpurge.
  exists (MkWorld example_world_db example_base [7] [GetOldestSnapshotSequence []]), (MkWorld db2 example_base [7] []). split_and!.
  - exact (ws_snapshot _ _ example_world_db example_base [] [_]).
  - reflexivity.
  - apply (rtc_l _ _ (MkWorld db1 example_base [7] [GetOldestSnapshotSequence []])); [split; [by eapply ws_collection|by left]|].
    apply rtc_once. split; [by apply (ws_purge_collects _ _ db1 example_base [7] [] _ [] s2)|by left].
  - cbn [w_db w_base].
    assert (Hok : match DeleteInputBlobFiles example_collection example_base example_world_db with
                  | Ok (_, _, db1) =>
                      match TitanDBImpl_GetImpl 5 [Byte.x6b; Byte.x31] example_base (PurgeObsoleteFilesImpl (GetOldestSnapshotSequence []) db1).2 with
                      | (Err (Corruption _), _) => True | _ => False end
                  | _ => False end) by (vm_compute; exact I).
    by rewrite Hdel, Hpurge in Hok.
Qed.

(** The two calls that [snapshot_keeps_values] leaves out do take values from a
    held snapshot: after [DeleteFilesInRanges] and a purge that asks while the
    snapshot is held, the reader's file is gone; after the handle of a column
    family without obsolete files is destroyed, so is its storage. *)
Definition example_no_tables : Version := MkVersion [[]] 0 (fun _ _ _ => false) (fun _ _ _ => []).

Definition example_delete_ranges : result (Status * base * TitanDBImpl) :=
  DeleteFilesInRanges example_no_tables bytewise_compare (fun d => (OK, d)) 5 [(None, None)] true example_base example_world_db.

(** The read of the example's key fails. *)
Definition example_read_fails (db : TitanDBImpl) : bool :=
  match TitanDBImpl_GetImpl 5 [Byte.x6b; Byte.x31] example_base db with (Err _, _) => true | _ => false end.

Theorem ranges_and_destroy_ignore_snapshots :
  exists w1 w2,
    rtc (held_step (fun s => s) (eq 5) 7) (MkWorld example_world_db example_base [7] []) w1 /\ example_read_fails (w_db w1) = true /\
    rtc (held_step (fun s => s) (eq 5) 7) (MkWorld example_world_db example_base [7] []) w2 /\ example_read_fails (w_db w2) = true.
Proof.
  assert (H1 : match example_delete_ranges with
               | Ok (_, d, db1) => d = example_base /\ example_read_fails (PurgeObsoleteFilesImpl 7 db1).2 = true
               | _ => False end) by (vm_compute; done).
  destruct example_delete_ranges as [[[s1 d1] db1]| |] eqn:He1; [|done..]. destruct H1 as [-> H1].
  exists (MkWorld (PurgeObsoleteFilesImpl 7 db1).2 example_base [7] []),
    (MkWorld (DestroyColumnFamilyHandle OK 5 example_world_db).2 example_base [7] []). split_and!; [|exact H1| |vm_compute; reflexivity].
  - apply (rtc_l _ _ (MkWorld db1 example_base [7] [])); [split; [by eapply ws_ranges|by left]|].
    apply (rtc_l _ _ (MkWorld db1 example_base [7] [7])); [split; [exact (ws_purge_asks _ _ db1 example_base [7] [])|by left]|].
    apply rtc_once. split; [|by left]. eapply (ws_purge_collects _ _ db1 example_base [7] [] 7 []), surjective_pairing.
  - apply rtc_once. split; [by eapply ws_destroy, surjective_pairing|by left].
Qed.
End witnesses.
