(* ===== verification/ReadCalls.v ===== *)
(** * Read calls and their snapshots ([Get], [MultiGet], [NewIterator],
    [NewIterators], [GetSnapshot], [ReleaseSnapshot] of src/db_impl.cc)

    A read without a snapshot takes one for the time of the call. An iterator
    without one owns a [ManagedSnapshot]; the iterators of one call of
    [NewIterators] share it, and the last of them to be deleted releases it. The
    control blocks of these [shared_ptr]s are part of the state. *)

From S2P Require Import Prelude Rocks Options Stats Util BlobFormat Env BaseDb BlobFileBuilder BlobFileReader VersionEdit BlobStorage StorageInv EditCollector BlobFileSet ApplyInv ManifestReplay BlobGC Scheduler BlobFileSizeCollector RangeMerge DbEvents DbEventsInv CompactionInv FileManager StoredFiles Directory ForegroundBuilder GCJob GCJobInv GCFinish TableBuilder TitanDb PurgeInv DbIter TitanDbInv FinishedFiles SnapshotReads.

(** What the calls ask of the base database. *)
Class SnapshotBase `{B : BaseDB} `{I : BaseIter} := {
  (** The base database as a read with a snapshot of that sequence number sees it. *)
  at_snapshot : Z -> base -> base;
  (** [DBImpl::NewIteratorImpl] of a column family at a sequence number. *)
  base_NewIterator : Z -> Z -> base -> biter
}.

(** A read at the latest sequence number sees what a read sees now. *)
Class SnapshotBaseOk `{SnapshotBase} : Prop := {
  at_latest : forall d cf key, base_GetImpl (at_snapshot (GetLatestSequenceNumber d) d) cf key = base_GetImpl d cf key
}.

(** The list without one occurrence of the snapshot. *)
Fixpoint remove_snapshot (s : Z) (l : list Z) : list Z :=
  match l with
  | [] => []
  | x :: l => if x =? s then l else x :: remove_snapshot s l
  end.

(** The control blocks of the managed snapshots: the sequence number and the
    number of owners. *)
Abbreviation Managed := (gmap positive (Z * nat)).

Section calls.
Context `{Coding} `{!CodingOk _} `{Compressors} `{!CompressorsOk _} `{E : Env} `{!EnvOk E}
        `{BC : Cache bytes} `{!CacheOk BC} `{FC : !Cache BlobFileReader} `{!CacheOk FC}
        `{UnorderedIter} `{!ManifestIO} `{!WritableFiles} `{!SteadyFilesOk} `{B : BaseDB} `{I : BaseIter} `{!SnapshotBase}.

Definition GetSnapshot (w : World) : Z * World :=
  let s := GetLatestSequenceNumber (w_base w) in
  (s, MkWorld (w_db w) (w_base w) (w_snapshots w ++ [s]) (w_purges w)).

Definition ReleaseSnapshot (s : Z) (w : World) : World :=
  MkWorld (w_db w) (w_base w) (remove_snapshot s (w_snapshots w)) (w_purges w).

Definition world_db (db : TitanDBImpl) (w : World) : World := MkWorld db (w_base w) (w_snapshots w) (w_purges w).

(** ** Point reads *)

(** [Get]; the [ManagedSnapshot] is released when the call returns. *)
Definition TitanDBImpl_Get (snapshot : option Z) (cf_id : Z) (key : bytes) (w : World) : result bytes * World :=
  match snapshot with
  | Some s =>
      let '(r, db) := TitanDBImpl_GetImpl cf_id key (at_snapshot s (w_base w)) (w_db w) in (r, world_db db w)
  | None =>
      let '(s, w) := GetSnapshot w in
      let '(r, db) := TitanDBImpl_GetImpl cf_id key (at_snapshot s (w_base w)) (w_db w) in
      (r, ReleaseSnapshot s (world_db db w))
  end.

Definition MultiGet (snapshot : option Z) (handles : list Z) (keys : list bytes) (w : World)
    : list (result bytes) * World :=
  match snapshot with
  | Some s =>
      let '(rs, db) := MultiGetImpl handles keys (at_snapshot s (w_base w)) (w_db w) in (rs, world_db db w)
  | None =>
      let '(s, w) := GetSnapshot w in
      let '(rs, db) := MultiGetImpl handles keys (at_snapshot s (w_base w)) (w_db w) in
      (rs, ReleaseSnapshot s (world_db db w))
  end.

(** ** Iterators *)

(** An iterator with its [snap_]. *)
Record SnapIterator := MkSnapIterator { si_iter : TitanDBIterator; si_snap : option positive }.

(** [snapshot.reset(new ManagedSnapshot(this))]. *)
Definition new_managed (st : World * Managed) : positive * Z * (World * Managed) :=
  let '(s, w) := GetSnapshot st.1 in
  let id := fresh (dom st.2) in
  (id, s, (w, <[id := (s, 1%nat)]> st.2)).

(** A copy of the pointer. *)
Definition share (snap : option positive) (st : World * Managed) : World * Managed :=
  match snap with
  | None => st
  | Some id => (st.1, alter (fun m => (m.1, S m.2)) id st.2)
  end.

(** An owner goes; the last one deletes the [ManagedSnapshot]. *)
Definition unshare (snap : option positive) (st : World * Managed) : World * Managed :=
  match snap with
  | None => st
  | Some id =>
      match st.2 !! id with
      | Some (s, S (S n)) => (st.1, <[id := (s, S n)]> st.2)
      | Some (s, _) => (ReleaseSnapshot s st.1, delete id st.2)
      | None => st
      end
  end.

(** [NewIteratorImpl] with the snapshot's sequence number. *)
Definition new_iterator (key_only : bool) (seq : Z) (snap : option positive) (cf_id : Z) (st : World * Managed)
    : option SnapIterator * (World * Managed) :=
  match NewIteratorImpl key_only cf_id (base_NewIterator cf_id seq (w_base st.1)) (w_db st.1) with
  | None => (None, st)
  | Some it => (Some (MkSnapIterator it snap), share snap st)
  end.

Definition NewIterator (key_only : bool) (snapshot : option Z) (cf_id : Z) (st : World * Managed)
    : option SnapIterator * (World * Managed) :=
  match snapshot with
  | Some s => new_iterator key_only s None cf_id st
  | None =>
      let '(id, s, st) := new_managed st in
      let '(it, st) := new_iterator key_only s (Some id) cf_id st in
      (it, unshare (Some id) st)
  end.

(** The loop of [NewIterators]. *)
Definition new_iterators (key_only : bool) (seq : Z) (snap : option positive) (handles : list Z) (st : World * Managed)
    : list (option SnapIterator) * (World * Managed) :=
  foldl (fun acc cf_id => let '(it, st) := new_iterator key_only seq snap cf_id acc.2 in (acc.1 ++ [it], st)) ([], st) handles.

Definition NewIterators (key_only : bool) (snapshot : option Z) (handles : list Z) (st : World * Managed)
    : list (option SnapIterator) * (World * Managed) :=
  match snapshot with
  | Some s => new_iterators key_only s None handles st
  | None =>
      let '(id, s, st) := new_managed st in
      let '(its, st) := new_iterators key_only s (Some id) handles st in
      (its, unshare (Some id) st)
  end.

(** The destructor of an iterator. *)
Definition delete_iterator (it : SnapIterator) (st : World * Managed) : World * Managed := unshare (si_snap it) st.

(** ** Who owns which snapshot *)

Definition owners_of (id : positive) (owners : list positive) : nat := length (filter (fun x => x = id) owners).

Lemma owners_of_none id owners : id ∉ owners -> owners_of id owners = 0%nat.
Proof.
  unfold owners_of. induction owners as [|x owners IH]; [done|]. intros [Hne Hni]%not_elem_of_cons.
  rewrite filter_cons_False by congruence. by apply IH.
Qed.

(** The snapshots of the base database are the application's and the managed
    ones; a managed snapshot has as many owners as its count says, and one at
    least. *)
Record owned (owners : list positive) (user : list Z) (st : World * Managed) : Prop := {
  ow_snapshots : w_snapshots st.1 ≡ₚ user ++ (map_to_list (fst <$> st.2)).*2;
  ow_counts : forall id s n, st.2 !! id = Some (s, n) -> n = owners_of id owners /\ (0 < n)%nat;
  ow_alive : forall id, id ∈ owners -> is_Some (st.2 !! id)
}.

Lemma remove_snapshot_in s l : s ∈ l -> exists l1 l2, l = l1 ++ s :: l2 /\ remove_snapshot s l = l1 ++ l2.
Proof.
  induction l as [|x l IH]; [by intros ?%not_elem_of_nil|]. cbn [remove_snapshot]. destruct (Z.eqb_spec x s) as [->|Hne].
  - intros _. by exists [], l.
  - intros [->|Hin]%elem_of_cons; [done|]. destruct (IH Hin) as (l1 & l2 & -> & ->). by exists (x :: l1), l2.
Qed.

Lemma remove_snapshot_perm s l l' : l ≡ₚ s :: l' -> remove_snapshot s l ≡ₚ l'.
Proof.
  intros Hp. destruct (remove_snapshot_in s l) as (l1 & l2 & -> & ->); [rewrite Hp; by left|].
  rewrite <- Permutation_middle in Hp. by apply (inj _) in Hp.
Qed.

Lemma remove_snapshot_last s l : remove_snapshot s (l ++ [s]) ≡ₚ l.
Proof. apply remove_snapshot_perm. by rewrite Permutation_app_comm. Qed.

Lemma managed_perm id s (m : Managed) n : m !! id = Some (s, n) ->
  (map_to_list (fst <$> m)).*2 ≡ₚ s :: (map_to_list (fst <$> delete id m)).*2.
Proof.
  intros Hm. rewrite fmap_delete. rewrite <- (map_to_list_delete (fst <$> m) id s); [done|].
  by rewrite lookup_fmap, Hm.
Qed.

Lemma owned_perm owners owners' user st : owners ≡ₚ owners' -> owned owners user st -> owned owners' user st.
Proof.
  intros Hp [Hs Hc Ha]. split; [done|..].
  - intros id s n Hm. destruct (Hc id s n Hm) as [-> Hn]. split; [|done]. unfold owners_of. by rewrite Hp.
  - intros id Hin. apply Ha. by rewrite Hp.
Qed.

(** Only the list of snapshots of a world matters. *)
Lemma owned_world owners user w w' m : w_snapshots w' ≡ₚ w_snapshots w -> owned owners user (w, m) -> owned owners user (w', m).
Proof. intros Hw [Hs Hc Ha]. split; try done. cbn in *. by rewrite Hw. Qed.

Lemma new_managed_owned owners user st : owned owners user st ->
  let '(id, s, st') := new_managed st in owned (id :: owners) user st' /\ st.2 !! id = None /\ st'.2 = <[id := (s, 1%nat)]> st.2 /\
    w_snapshots st'.1 = w_snapshots st.1 ++ [s] /\ st'.1 = (GetSnapshot st.1).2.
Proof.
  intros [Hs Hc Ha]. destruct st as [w m]. unfold new_managed, GetSnapshot. cbn [fst snd] in *.
  set (id := fresh (dom m)). assert (Hid : m !! id = None) by (apply not_elem_of_dom, is_fresh).
  split; [|done]. split; cbn [fst snd w_snapshots].
  - rewrite fmap_insert, map_to_list_insert by (by rewrite lookup_fmap, Hid). cbn. rewrite Hs. solve_Permutation.
  - intros id' s n. unfold owners_of. intros [[<- Heq]|[Hne Hm]]%lookup_insert_Some.
    + injection Heq as <- <-. rewrite filter_cons_True by done. cbn.
      assert (Hno : id ∉ owners) by (intros Hin; destruct (Ha id Hin); congruence).
      fold (owners_of id owners). rewrite owners_of_none by done. lia.
    + rewrite filter_cons_False by congruence. by apply Hc in Hm.
  - intros id' [->|Hin]%elem_of_cons; [by rewrite lookup_insert_eq|]. rewrite lookup_insert_is_Some'. right. by apply Ha.
Qed.

Lemma owners_of_cons id id' owners :
  owners_of id (id' :: owners) = if decide (id' = id) then S (owners_of id owners) else owners_of id owners.
Proof.
  unfold owners_of. destruct (decide (id' = id)); [by rewrite filter_cons_True|by rewrite filter_cons_False].
Qed.

Lemma owners_of_pos id owners : (0 < owners_of id owners)%nat <-> id ∈ owners.
Proof.
  split.
  - intros Hp. destruct (decide (id ∈ owners)) as [|Hni]; [done|]. apply owners_of_none in Hni. lia.
  - induction owners as [|x owners IH]; [by intros ?%not_elem_of_nil|]. rewrite owners_of_cons.
    intros [->|Hin]%elem_of_cons; case_decide; [lia|done|lia|by apply IH].
Qed.

Lemma share_owned owners user st id : owned owners user st -> id ∈ owners -> owned (id :: owners) user (share (Some id) st).
Proof.
  intros [Hs Hc Ha] Hin. destruct st as [w m]. cbn [fst snd share] in *. split; cbn [fst snd].
  - rewrite Hs. f_equiv. f_equiv. f_equiv. apply map_eq. intros id'. rewrite !lookup_fmap, lookup_alter.
    case_decide; [subst|done]. by destruct (m !! id').
  - intros id' s n. rewrite lookup_alter, owners_of_cons. destruct (decide (id = id')) as [->|Hne].
    + destruct (m !! id') as [[s1 n1]|] eqn:Hm; [|done]. intros [= <- <-]. destruct (Hc id' s1 n1 Hm). cbn [fst snd]. lia.
    + intros Hm. by apply Hc in Hm.
  - intros id' Hin'. rewrite lookup_alter. assert (id' ∈ owners) as [x Hx]%Ha by (apply elem_of_cons in Hin' as [->|]; done).
    case_decide; [subst|]; rewrite Hx; by eexists.
Qed.

Lemma unshare_owned owners user st id : owned (id :: owners) user st -> owned owners user (unshare (Some id) st).
Proof.
  intros [Hs Hc Ha]. destruct st as [w m]. cbn [fst snd unshare] in *.
  destruct (Ha id) as [[s n] Hm]; [by left|]. rewrite Hm. destruct (Hc id s n Hm) as [Hn _]. rewrite owners_of_cons, decide_True in Hn by done.
  destruct n as [|[|n]]; [done| |]; split; cbn [fst snd w_snapshots ReleaseSnapshot].
  - apply remove_snapshot_perm. rewrite Hs, (managed_perm id s m 1 Hm). solve_Permutation.
  - intros id' s' n' [Hne Hm']%lookup_delete_Some. destruct (Hc id' s' n' Hm') as [-> Hp].
    rewrite owners_of_cons, decide_False in * by done. done.
  - intros id' Hin. rewrite lookup_delete_ne; [apply Ha; by right|]. intros <-. apply owners_of_pos in Hin. lia.
  - rewrite Hs, fmap_insert, insert_id; [done|]. by rewrite lookup_fmap, Hm.
  - intros id' s' n'. intros [[<- Heq]|[Hne Hm']]%lookup_insert_Some; [injection Heq as <- <-; lia|].
    destruct (Hc id' s' n' Hm') as [-> Hp]. rewrite owners_of_cons, decide_False in * by done. done.
  - intros id' Hin. rewrite lookup_insert_is_Some'. right. apply Ha. by right.
Qed.

(** The other managed snapshots stay. *)
Lemma share_other id id' st : id' <> id -> (share (Some id) st).2 !! id' = st.2 !! id'.
Proof. intros Hne. cbn. by rewrite lookup_alter_ne. Qed.

Lemma unshare_other id id' st : id' <> id -> (unshare (Some id) st).2 !! id' = st.2 !! id'.
Proof.
  intros Hne. cbn. destruct (st.2 !! id) as [[s [|[|n]]]|]; cbn [snd]; [by rewrite lookup_delete_ne..|by rewrite lookup_insert_ne|done].
Qed.

Lemma unshare_seq snap st id s n : (unshare snap st).2 !! id = Some (s, n) -> exists n', st.2 !! id = Some (s, n').
Proof.
  destruct snap as [id0|]; [|by eexists]. cbn. destruct (st.2 !! id0) as [[s0 [|[|n0]]]|] eqn:Hm; cbn [snd].
  - intros [_ ?]%lookup_delete_Some. by eexists.
  - intros [_ ?]%lookup_delete_Some. by eexists.
  - intros [[<- Heq]|[_ ?]]%lookup_insert_Some; [injection Heq as <- _|]; by eexists.
  - by eexists.
Qed.

(** What the pointers [its] of a call own. *)
Definition snaps_of (its : list (option SnapIterator)) : list positive := omap (fun it => it ≫= si_snap) its.

Lemma new_iterator_owned owners user st key_only seq snap cf_id it st' :
  owned owners user st -> (forall id, snap = Some id -> id ∈ owners) ->
  new_iterator key_only seq snap cf_id st = (it, st') ->
  owned (snaps_of [it] ++ owners) user st' /\ st'.1 = st.1 /\ (forall id, snap <> Some id -> st'.2 !! id = st.2 !! id).
Proof.
  intros Ho Hsnap. unfold new_iterator. destruct (NewIteratorImpl _ _ _ _) as [it1|]; intros [= <- <-]; [|done].
  unfold snaps_of. cbn. destruct snap as [id|]; [|done]. split_and!; [by apply share_owned, Hsnap|done|].
  intros id' Hne. apply share_other. congruence.
Qed.

Lemma new_iterators_owned owners user st key_only seq snap handles :
  owned owners user st -> (forall id, snap = Some id -> id ∈ owners) ->
  let out := new_iterators key_only seq snap handles st in
  owned (snaps_of out.1 ++ owners) user out.2 /\ out.2.1 = st.1 /\ (forall id, snap <> Some id -> out.2.2 !! id = st.2 !! id).
Proof.
  intros Ho Hsnap. unfold new_iterators. induction handles as [|cf handles IH] using rev_ind; [done|].
  rewrite foldl_snoc. destruct (foldl _ _ handles) as [its st1]. cbn [fst snd] in *. destruct IH as (Ho1 & Hw1 & Hm1).
  destruct (new_iterator key_only seq snap cf st1) as [it st2] eqn:Hit.
  destruct (new_iterator_owned _ user st1 key_only seq snap cf it st2 Ho1) as (Ho2 & Hw2 & Hm2); [|done|].
  { intros id Hid. apply elem_of_app. right. by apply Hsnap. }
  cbn [fst snd]. split_and!; [|congruence|intros id Hne; rewrite Hm2, Hm1; done].
  unfold snaps_of in *. rewrite omap_app. eapply owned_perm; [|exact Ho2]. solve_Permutation.
Qed.

(** ** Sequences of calls *)

(** The world with the managed snapshots, the iterators that live and the
    snapshots the application holds. *)
Record Calls := MkCalls {
  c_world : World;
  c_managed : Managed;
  c_iters : list SnapIterator;
  c_user : list Z
}.

(** The calls, and what goes on between them. *)
Inductive call_step (listeners : Status -> Status) (touch : Z -> Prop) : Calls -> Calls -> Prop :=
| cs_world w w' m its user : world_step listeners touch w w' -> w_snapshots w' = w_snapshots w ->
    call_step listeners touch (MkCalls w m its user) (MkCalls w' m its user)
| cs_snapshot w m its user :
    call_step listeners touch (MkCalls w m its user) (MkCalls (GetSnapshot w).2 m its (user ++ [(GetSnapshot w).1]))
| cs_release w m its user1 s user2 :
    call_step listeners touch (MkCalls w m its (user1 ++ s :: user2)) (MkCalls (ReleaseSnapshot s w) m its (user1 ++ user2))
| cs_get w m its user snapshot cf_id key :
    call_step listeners touch (MkCalls w m its user) (MkCalls (TitanDBImpl_Get snapshot cf_id key w).2 m its user)
| cs_multiget w m its user snapshot handles keys :
    call_step listeners touch (MkCalls w m its user) (MkCalls (MultiGet snapshot handles keys w).2 m its user)
| cs_iterator w m its user key_only snapshot cf_id it w' m' :
    NewIterator key_only snapshot cf_id (w, m) = (it, (w', m')) ->
    call_step listeners touch (MkCalls w m its user) (MkCalls w' m' (its ++ option_list it) user)
| cs_iterators w m its user key_only snapshot handles new w' m' :
    NewIterators key_only snapshot handles (w, m) = (new, (w', m')) ->
    call_step listeners touch (MkCalls w m its user) (MkCalls w' m' (its ++ omap (fun it => it) new) user)
| cs_delete w m its1 it its2 user w' m' : delete_iterator it (w, m) = (w', m') ->
    call_step listeners touch (MkCalls w m (its1 ++ it :: its2) user) (MkCalls w' m' (its1 ++ its2) user).

Definition calls_ok (c : Calls) : Prop := owned (omap si_snap (c_iters c)) (c_user c) (c_world c, c_managed c).

(** A managed snapshot is held in the base database. *)
Lemma owned_held owners user w m id s n : owned owners user (w, m) -> m !! id = Some (s, n) -> s ∈ w_snapshots w.
Proof.
  intros [Hs _ _] Hm. cbn in Hs. rewrite Hs. apply elem_of_app. right. rewrite (managed_perm id s m n Hm). by left.
Qed.

Section path.
Context (listeners : Status -> Status) (touch : Z -> Prop) (S : Z).

Lemma snapshot_path w : S ∈ w_snapshots w -> held_step listeners touch S w (GetSnapshot w).2.
Proof. intros Hin. split; [destruct w; apply ws_snapshot|]. cbn. apply elem_of_app. by left. Qed.

Lemma release_path s w : s ∈ w_snapshots w -> S ∈ w_snapshots (ReleaseSnapshot s w) -> held_step listeners touch S w (ReleaseSnapshot s w).
Proof.
  intros Hin HS. split; [|done]. destruct w as [db d sn pu]. unfold ReleaseSnapshot. cbn in *.
  destruct (remove_snapshot_in s sn Hin) as (sn1 & sn2 & -> & ->). apply ws_release.
Qed.

Lemma unshare_path owners user st id :
  owned (id :: owners) user st -> S ∈ w_snapshots (unshare (Some id) st).1 -> rtc (held_step listeners touch S) st.1 (unshare (Some id) st).1.
Proof.
  intros Ho. destruct st as [w m]. destruct (ow_alive _ _ _ Ho id) as [[s n] Hm]; [by left|]. cbn [fst snd] in *. cbn [unshare snd].
  rewrite Hm. pose proof (owned_held _ _ _ _ _ _ _ Ho Hm) as Hin.
  destruct n as [|[|n]]; cbn [fst]; intros HS; [by apply rtc_once, release_path..|apply rtc_refl].
Qed.

Lemma read_path cf_id key view w : S ∈ w_snapshots w -> held_step listeners touch S w (world_db (TitanDBImpl_GetImpl cf_id key view (w_db w)).2 w).
Proof. intros Hin. split; [|done]. destruct w as [db d sn pu]. by eapply ws_read, surjective_pairing. Qed.

Lemma reads_path handles keys view w :
  S ∈ w_snapshots w -> rtc (held_step listeners touch S) w (world_db (MultiGetImpl handles keys view (w_db w)).2 w).
Proof.
  revert handles w. induction keys as [|key keys IH]; intros handles w Hin; [destruct w, handles; apply rtc_refl|].
  destruct handles as [|cf handles]; [destruct w; apply rtc_refl|]. cbn [MultiGetImpl].
  pose proof (read_path cf key view w Hin) as Hr. destruct (TitanDBImpl_GetImpl cf key view (w_db w)) as [res db1].
  pose proof (IH handles (world_db db1 w) Hin) as Hrest. cbn [w_db world_db snd] in *.
  destruct (MultiGetImpl handles keys view db1) as [rs db2]. eapply rtc_l; [exact Hr|exact Hrest].
Qed.
End path.

(** A read call leaves the snapshots as they were. *)
Lemma Get_snapshots snapshot cf_id key w : w_snapshots (TitanDBImpl_Get snapshot cf_id key w).2 ≡ₚ w_snapshots w.
Proof.
  unfold TitanDBImpl_Get. destruct snapshot as [s|]; [by destruct (TitanDBImpl_GetImpl _ _ _ _)|]. cbn.
  destruct (TitanDBImpl_GetImpl _ _ _ _). cbn. apply remove_snapshot_last.
Qed.

Lemma MultiGet_snapshots snapshot handles keys w : w_snapshots (MultiGet snapshot handles keys w).2 ≡ₚ w_snapshots w.
Proof.
  unfold MultiGet. destruct snapshot as [s|]; [by destruct (MultiGetImpl _ _ _ _)|]. cbn.
  destruct (MultiGetImpl _ _ _ _). cbn. apply remove_snapshot_last.
Qed.

Lemma Get_path listeners touch S snapshot cf_id key w : S ∈ w_snapshots w ->
  rtc (held_step listeners touch S) w (TitanDBImpl_Get snapshot cf_id key w).2.
Proof.
  intros Hin. pose proof (Get_snapshots snapshot cf_id key w) as Hp. revert Hp. unfold TitanDBImpl_Get. destruct snapshot as [s|].
  - pose proof (read_path listeners touch S cf_id key (at_snapshot s (w_base w)) w Hin) as Hr.
    destruct (TitanDBImpl_GetImpl _ _ _ _). intros _. by apply rtc_once.
  - pose proof (snapshot_path listeners touch S w Hin) as Hs. destruct (GetSnapshot w) as [s w1] eqn:Hw1. cbn [snd] in Hs.
    pose proof (read_path listeners touch S cf_id key (at_snapshot s (w_base w1)) w1 (proj2 Hs)) as Hr.
    destruct (TitanDBImpl_GetImpl _ _ _ _) as [res db]. cbn [snd] in *. intros Hp.
    eapply rtc_l; [exact Hs|]. eapply rtc_l; [exact Hr|]. apply rtc_once, release_path; [|by rewrite Hp].
    injection Hw1 as <- <-. cbn. apply elem_of_app. right. by left.
Qed.

Lemma MultiGet_path listeners touch S snapshot handles keys w : S ∈ w_snapshots w ->
  rtc (held_step listeners touch S) w (MultiGet snapshot handles keys w).2.
Proof.
  intros Hin. pose proof (MultiGet_snapshots snapshot handles keys w) as Hp. revert Hp. unfold MultiGet. destruct snapshot as [s|].
  - pose proof (reads_path listeners touch S handles keys (at_snapshot s (w_base w)) w Hin) as Hr.
    by destruct (MultiGetImpl _ _ _ _).
  - pose proof (snapshot_path listeners touch S w Hin) as Hs. destruct (GetSnapshot w) as [s w1] eqn:Hw1. cbn [snd] in Hs.
    pose proof (reads_path listeners touch S handles keys (at_snapshot s (w_base w1)) w1 (proj2 Hs)) as Hr.
    destruct (MultiGetImpl _ _ _ _) as [res db]. cbn [snd] in *. intros Hp.
    eapply rtc_l; [exact Hs|]. etrans; [exact Hr|]. apply rtc_once, release_path; [|by rewrite Hp].
    injection Hw1 as <- <-. cbn. apply elem_of_app. right. by left.
Qed.

(** Without a snapshot of the caller, [Get] and [MultiGet] read what the base
    database holds now. *)
Lemma GetImpl_view cf_id key d d' db :
  (forall cf k, base_GetImpl d' cf k = base_GetImpl d cf k) -> TitanDBImpl_GetImpl cf_id key d' db = TitanDBImpl_GetImpl cf_id key d db.
Proof. intros Hd. unfold TitanDBImpl_GetImpl. by rewrite Hd. Qed.

Lemma MultiGetImpl_view handles keys d d' db :
  (forall cf k, base_GetImpl d' cf k = base_GetImpl d cf k) -> MultiGetImpl handles keys d' db = MultiGetImpl handles keys d db.
Proof.
  intros Hd. revert handles db. induction keys as [|key keys IH]; intros [|cf handles] db; cbn [MultiGetImpl]; try done.
  rewrite (GetImpl_view cf key d d') by done. destruct (TitanDBImpl_GetImpl cf key d db). by rewrite IH.
Qed.

Theorem reads_see_latest `{!SnapshotBaseOk} (w : World) :
  (forall cf_id key, (TitanDBImpl_Get None cf_id key w).1 = (TitanDBImpl_GetImpl cf_id key (w_base w) (w_db w)).1) /\
  (forall handles keys, (MultiGet None handles keys w).1 = (MultiGetImpl handles keys (w_base w) (w_db w)).1).
Proof.
  split.
  - intros cf_id key. unfold TitanDBImpl_Get, GetSnapshot. cbn [w_base w_db].
    rewrite (GetImpl_view cf_id key (w_base w)) by apply at_latest. by destruct (TitanDBImpl_GetImpl _ _ _ _).
  - intros handles keys. unfold MultiGet, GetSnapshot. cbn [w_base w_db].
    rewrite (MultiGetImpl_view handles keys (w_base w)) by apply at_latest. by destruct (MultiGetImpl _ _ _ _).
Qed.

(** What a call that makes iterators does: they own [snaps], and the other managed
    snapshots stay. *)
Record makes (listeners : Status -> Status) (touch : Z -> Prop) (owners : list positive) (user : list Z) (st : World * Managed)
    (snaps : list positive) (st' : World * Managed) : Prop := {
  mk_owned : owned (snaps ++ owners) user st';
  mk_other : forall id, is_Some (st.2 !! id) -> st'.2 !! id = st.2 !! id;
  mk_path : forall S, S ∈ w_snapshots st.1 -> S ∈ w_snapshots st'.1 -> rtc (held_step listeners touch S) st.1 st'.1
}.

(** A call with a managed snapshot of its own. *)
Lemma managed_makes listeners touch owners user st id s st1 snaps st2 :
  owned owners user st -> new_managed st = (id, s, st1) -> owned (snaps ++ id :: owners) user st2 ->
  st2.1 = st1.1 -> (forall id', Some id <> Some id' -> st2.2 !! id' = st1.2 !! id') ->
  makes listeners touch owners user st snaps (unshare (Some id) st2).
Proof.
  intros Ho Hnew Ho2 Hw Hm. pose proof (new_managed_owned owners user st Ho) as Hs. rewrite Hnew in Hs.
  destruct Hs as (_ & Hid & Hst1 & Hsn & Hw1).
  assert (Ho3 : owned (id :: snaps ++ owners) user st2) by (eapply owned_perm; [|exact Ho2]; solve_Permutation).
  split.
  - by apply unshare_owned.
  - intros id' [x Hx]. assert (id' <> id) by (intros ->; congruence).
    rewrite unshare_other, Hm, Hst1, lookup_insert_ne by congruence. done.
  - intros S Hin Hin'. eapply rtc_l; [apply (snapshot_path listeners touch S st.1 Hin)|]. rewrite <- Hw1, <- Hw.
    by eapply unshare_path.
Qed.

Lemma NewIterator_makes listeners touch owners user st key_only snapshot cf_id it st' :
  owned owners user st -> NewIterator key_only snapshot cf_id st = (it, st') ->
  makes listeners touch owners user st (snaps_of [it]) st'.
Proof.
  intros Ho. unfold NewIterator. destruct snapshot as [s|].
  - intros Hit. destruct (new_iterator_owned owners user st key_only s None cf_id it st' Ho ltac:(done) Hit) as (Ho' & Hw & Hm).
    split; [done|intros id _; by apply Hm|]. intros S _ _. rewrite Hw. apply rtc_refl.
  - pose proof (new_managed_owned owners user st Ho) as Hs. destruct (new_managed st) as [[id s] st1] eqn:Hnew.
    destruct Hs as (Ho1 & _). destruct (new_iterator _ _ _ _ st1) as [it1 st2] eqn:Hit. intros [= <- <-].
    destruct (new_iterator_owned _ user st1 key_only s (Some id) cf_id it1 st2 Ho1 ltac:(intros ? [= ->]; by left) Hit) as (Ho2 & Hw & Hm).
    by eapply managed_makes.
Qed.

Lemma NewIterators_makes listeners touch owners user st key_only snapshot handles its st' :
  owned owners user st -> NewIterators key_only snapshot handles st = (its, st') ->
  makes listeners touch owners user st (snaps_of its) st'.
Proof.
  intros Ho. unfold NewIterators. destruct snapshot as [s|].
  - pose proof (new_iterators_owned owners user st key_only s None handles Ho ltac:(done)) as (Ho' & Hw & Hm).
    destruct (new_iterators _ _ _ _ st) as [its1 st1]. cbn [fst snd] in *. intros [= <- <-].
    split; [done|intros id _; by apply Hm|]. intros S _ _. rewrite Hw. apply rtc_refl.
  - pose proof (new_managed_owned owners user st Ho) as Hs. destruct (new_managed st) as [[id s] st1] eqn:Hnew.
    destruct Hs as (Ho1 & _).
    pose proof (new_iterators_owned _ user st1 key_only s (Some id) handles Ho1 ltac:(intros ? [= ->]; by left)) as (Ho2 & Hw & Hm).
    destruct (new_iterators _ _ _ _ st1) as [its1 st2]. cbn [fst snd] in *. intros [= <- <-].
    by eapply managed_makes.
Qed.

Lemma snaps_of_new new : omap si_snap (omap (fun it => it) new) = snaps_of new.
Proof. unfold snaps_of. induction new as [|[it|] new IH]; cbn; [done| |done]. destruct (si_snap it); cbn; [by f_equal|done]. Qed.

Lemma call_ok listeners touch c c' : call_step listeners touch c c' -> calls_ok c -> calls_ok c'.
Proof.
  intros Hstep Hok. unfold calls_ok in *. destruct Hstep; cbn in *.
  - eapply owned_world; [|exact Hok]. match goal with He : w_snapshots _ = _ |- _ => by rewrite He end.
  - destruct Hok as [Hs Hc Ha]. split; try done. cbn in *. rewrite Hs. solve_Permutation.
  - destruct Hok as [Hs Hc Ha]. split; try done. cbn in *. apply remove_snapshot_perm. rewrite Hs. solve_Permutation.
  - eapply owned_world; [|exact Hok]. apply Get_snapshots.
  - eapply owned_world; [|exact Hok]. apply MultiGet_snapshots.
  - eapply (NewIterator_makes listeners touch) in Hok as [Ho _ _]; [|done]. eapply owned_perm; [|exact Ho].
    rewrite omap_app. destruct it as [it|]; unfold snaps_of; cbn; solve_Permutation.
  - eapply (NewIterators_makes listeners touch) in Hok as [Ho _ _]; [|done]. eapply owned_perm; [|exact Ho].
    rewrite omap_app, snaps_of_new. solve_Permutation.
  - rewrite omap_app in *. cbn in Hok. unfold delete_iterator in *. destruct (si_snap it) as [id|].
    + match goal with Hd : unshare _ _ = _ |- _ => rewrite <- Hd end. apply unshare_owned. eapply owned_perm; [|exact Hok]. solve_Permutation.
    + match goal with Hd : unshare _ _ = _ |- _ => cbn in Hd; injection Hd as <- <- end. done.
Qed.

(** While a managed snapshot has an owner, a call is a run of steps that hold it. *)
Lemma call_path listeners touch c c' id S n :
  call_step listeners touch c c' -> calls_ok c -> c_managed c !! id = Some (S, n) -> id ∈ omap si_snap (c_iters c') ->
  (exists n', c_managed c' !! id = Some (S, n')) /\ rtc (held_step listeners touch S) (c_world c) (c_world c').
Proof.
  intros Hstep Hok Hm Hin. pose proof (call_ok _ _ _ _ Hstep Hok) as Hok'. unfold calls_ok in Hok, Hok'.
  pose proof (owned_held _ _ _ _ _ _ _ Hok Hm) as HS.
  assert (Hgo : (exists n', c_managed c' !! id = Some (S, n')) ->
            (S ∈ w_snapshots (c_world c') -> rtc (held_step listeners touch S) (c_world c) (c_world c')) ->
            (exists n', c_managed c' !! id = Some (S, n')) /\ rtc (held_step listeners touch S) (c_world c) (c_world c')).
  { intros [n' Hn'] Hpath. split; [by exists n'|]. apply Hpath. by eapply owned_held. }
  destruct Hstep; cbn [c_world c_managed c_iters c_user] in *; apply Hgo; eauto.
  - intros HS'. by apply rtc_once.
  - intros _. by apply rtc_once, snapshot_path.
  - intros HS'. apply rtc_once, release_path; [|done]. rewrite (ow_snapshots _ _ _ Hok). apply elem_of_app. left.
    apply elem_of_app. right. by left.
  - intros _. by apply Get_path.
  - intros _. by apply MultiGet_path.
  - eapply (NewIterator_makes listeners touch) in Hok as [_ Ho _]; [|done]. exists n. cbn in Ho. by rewrite Ho.
  - eapply (NewIterator_makes listeners touch) in Hok as [_ _ Hp]; [|done]. intros HS'. by apply Hp.
  - eapply (NewIterators_makes listeners touch) in Hok as [_ Ho _]; [|done]. exists n. cbn in Ho. by rewrite Ho.
  - eapply (NewIterators_makes listeners touch) in Hok as [_ _ Hp]; [|done]. intros HS'. by apply Hp.
  - match goal with Hd : delete_iterator _ _ = _ |- _ => rename Hd into Hdel end.
    destruct (ow_alive _ _ _ Hok' id Hin) as [[s' n'] Hn']. cbn [snd] in Hn'. exists n'.
    pose proof (unshare_seq (si_snap it) (w, m) id s' n') as Hseq. unfold delete_iterator in Hdel. rewrite Hdel in Hseq.
    destruct (Hseq Hn') as [n0 Hn0]. cbn [snd] in Hn0. congruence.
  - match goal with Hd : delete_iterator _ _ = _ |- _ => rename Hd into Hdel end. unfold delete_iterator in Hdel.
    intros HS'. rewrite omap_app in Hok. cbn in Hok. destruct (si_snap it) as [id0|].
    + assert (Ho3 : owned (id0 :: omap si_snap its1 ++ omap si_snap its2) user (w, m))
        by (eapply owned_perm; [|exact Hok]; solve_Permutation).
      pose proof (unshare_path listeners touch S _ _ _ _ Ho3) as Hp. rewrite Hdel in Hp. by apply Hp.
    + cbn in Hdel. injection Hdel as <- <-. apply rtc_refl.
Qed.

Lemma owners_iters id its : owners_of id (omap si_snap its) = length (filter (fun it => si_snap it = Some id) its).
Proof.
  induction its as [|it its IH]; [done|]. rewrite filter_cons. cbn [omap list_omap]. fold (omap si_snap its).
  destruct (si_snap it) as [id'|] eqn:Hit.
  - rewrite owners_of_cons. destruct (decide (id' = id)) as [->|Hne].
    + rewrite decide_True by done. cbn [length]. by rewrite <- IH.
    + rewrite decide_False by congruence. exact IH.
  - rewrite decide_False by congruence. exact IH.
Qed.

(** C18: Read calls keep no snapshot, and an iterator owns one while it lives. From
    a state without snapshots, after any sequence of calls - [Get], [MultiGet],
    [NewIterator] and [NewIterators] with or without a snapshot of the caller,
    [GetSnapshot], [ReleaseSnapshot], deletions of iterators, and whatever else
    goes on - the base database's snapshots are those the application holds and
    one for each managed snapshot; the managed snapshots are exactly those some
    live iterator points to, each counted once per such iterator; so when no
    iterator lives, only the application's are left. *)
Theorem read_calls_own_snapshots (listeners : Status -> Status) (touch : Z -> Prop) (w : World) (c : Calls) :
  w_snapshots w = [] -> rtc (call_step listeners touch) (MkCalls w ∅ [] []) c ->
  w_snapshots (c_world c) ≡ₚ c_user c ++ (map_to_list (fst <$> c_managed c)).*2 /\
  (forall id, is_Some (c_managed c !! id) <-> exists it, it ∈ c_iters c /\ si_snap it = Some id) /\
  (forall id s n, c_managed c !! id = Some (s, n) ->
     n = length (filter (fun it => si_snap it = Some id) (c_iters c)) /\ s ∈ w_snapshots (c_world c)) /\
  (c_iters c = [] -> w_snapshots (c_world c) ≡ₚ c_user c).
Proof.
  intros Hw Hsteps.
  assert (Hok : calls_ok c).
  { assert (Hok0 : calls_ok (MkCalls w ∅ [] [])).
    { split; cbn; [by rewrite Hw, fmap_empty, map_to_list_empty|by intros id s n ?%lookup_empty_Some|by intros id ?%not_elem_of_nil]. }
    revert Hok0. induction Hsteps as [|c1 c2 c3 Hstep _ IH]; [done|]. intros Hok. by eapply IH, call_ok. }
  pose proof Hok as [Hs Hc Ha]. cbn [fst snd] in *.
  assert (Hiff : forall id, is_Some (c_managed c !! id) <-> exists it, it ∈ c_iters c /\ si_snap it = Some id).
  { intros id. rewrite <- list_elem_of_omap. split; [|by apply Ha]. intros [[s n] Hm]. destruct (Hc id s n Hm) as [Hn Hp].
    apply owners_of_pos. lia. }
  split_and!; [done|done| |].
  - intros id s n Hm. destruct (Hc id s n Hm) as [-> _]. split; [|by eapply owned_held].
    apply owners_iters.
  - intros Hnone. rewrite Hs. replace (c_managed c) with (∅ : Managed); [by rewrite fmap_empty, map_to_list_empty, app_nil_r|].
    symmetry. apply map_empty. intros id. destruct (c_managed c !! id) eqn:Hm; [|done].
    destruct (proj1 (Hiff id)) as (it & Hin & _); [by eexists|]. rewrite Hnone in Hin. by apply not_elem_of_nil in Hin.
Qed.

(** C5: The values an iterator's snapshot shows stay readable while it lives. Its
    snapshot is a managed one, taken at [S]; the entry of a key is the index of a
    record that the snapshot guards, in a column family without a blob cache (the
    default). Then after any sequence of the calls and of the background work of
    [call_step] during which some iterator on the snapshot lives, the record is
    read, by [Get] at the snapshot and by an iterator moving to the entry. They
    are: [Get], [MultiGet], [NewIterator], [NewIterators], deletions of iterators,
    [GetSnapshot], [ReleaseSnapshot]; writes; blob files made, added or thrown
    away; flushes, and compactions and collections that delete files, the file
    read too; [CreateColumnFamilies]; [DropColumnFamilies] of any column family,
    the one read too; [DestroyColumnFamilyHandle] and [DeleteFilesInRanges] of
    another column family; purges. [DestroyColumnFamilyHandle] and
    [DeleteFilesInRanges] of the column family read are left out, because they
    take no account of snapshots. *)
Theorem iterator_keeps_values (listeners : Status -> Status) (id : positive) (S cf_id : Z) (n : nat) (key : bytes)
    (i : BlobIndex) (r : BlobRecord) (t : Z) (rs : list BlobRecord) (f : rafile) (view : base) (c c' : Calls) :
  calls_ok c -> c_managed c !! id = Some (S, n) -> watched S cf_id i r t rs f (c_world c) ->
  base_GetImpl view cf_id key = Ok (BlobIndex_EncodeTo i, true) ->
  rtc (fun c1 c2 => call_step listeners (fun other => other <> cf_id) c1 c2 /\ id ∈ omap si_snap (c_iters c2)) c c' ->
  record_read cf_id key i r view (w_db (c_world c')).
Proof.
  intros Hok Hm Hg Hview Hsteps. eapply watched_reads; [|exact Hview].
  revert n Hok Hm Hg. induction Hsteps as [|c1 c2 c3 [Hstep Hin] _ IH]; intros n Hok Hm Hg; [exact Hg|].
  destruct (call_path listeners (fun id => id <> cf_id) c1 c2 id S n Hstep Hok Hm Hin) as [[n' Hm'] Hpath].
  eapply IH; [by eapply call_ok|exact Hm'|]. eapply watched_steps; [|exact Hpath|exact Hg]. by intros [].
Qed.
End calls.

(** ** An application *)

Section witnesses.
#[local] Existing Instances leb128_coding leb128_coding_ok rle_compressors rle_compressors_ok mem_env mem_env_ok
  map_to_list_iter mem_manifest blobs_map readers_map mem_files mem_basedb mem_iterator mem_steady_ok.

(** A base database that nobody writes to: every snapshot shows what it holds. *)
Definition mem_snapshots : @SnapshotBase mem_basedb mem_iterator :=
  @Build_SnapshotBase mem_basedb mem_iterator (fun _ d => d)
    (fun cf_id _ (d : mem_base) =>
       MkMemIter (omap (fun e => if e.1.1 =? cf_id then Some (e.1.2, e.2) else None) (map_to_list (mem_keys d))) None).

#[local] Existing Instance mem_snapshots.

#[export] Instance mem_snapshots_ok : @SnapshotBaseOk mem_basedb mem_iterator mem_snapshots.
Proof. by split. Qed.

Definition example_calls_world : World := MkWorld example_world_db example_base [] [].

(** Two iterators share a snapshot. *)
Lemma read_calls_own_snapshots_witness :
  exists new w' m', NewIterators false None [5; 5] (example_calls_world, ∅) = (new, (w', m')) /\
    length (omap (fun it => it) new) = 2%nat /\ w_snapshots w' ≡ₚ (map_to_list (fst <$> m')).*2.
Proof.
  assert (Hlen : length (omap (fun it => it) (NewIterators false None [5; 5] (example_calls_world, ∅)).1) = 2%nat) by (vm_compute; reflexivity).
  destruct (NewIterators false None [5; 5] (example_calls_world, ∅)) as [new [w' m']] eqn:Hnew. exists new, w', m'.
  split; [done|]. split; [exact Hlen|].
  exact (proj1 (read_calls_own_snapshots (fun s => s) (fun _ => True) example_calls_world (MkCalls w' m' ([] ++ omap (fun it => it) new) [])
    eq_refl (rtc_once _ _ (cs_iterators _ _ _ _ _ _ _ _ _ _ _ _ Hnew)))).
Defined.

(** An iterator lives on while the file it reads is collected. *)
Definition example_calls (db : TitanDBImpl) (purges : list Z) : Calls :=
  MkCalls (MkWorld db example_base [7] purges) {[ 1%positive := (7, 1%nat) ]}
    [MkSnapIterator (example_iterator (BlobIndex_EncodeTo example_index, true)) (Some 1%positive)] [].

Lemma iterator_keeps_values_witness :
  exists s job' db1 db2,
    DeleteInputBlobFiles example_collection example_base example_world_db = Ok (s, job', db1) /\
    (PurgeObsoleteFilesImpl 7 db1).2 = db2 /\
    record_read 5 [Byte.x6b; Byte.x31] example_index example_read_record example_base db2.
Proof.
  destruct example_collects as (s & job' & db1 & Hdel).
  destruct (PurgeObsoleteFilesImpl 7 db1) as [s2 db2] eqn:Hpurge. exists s, job', db1, db2. split; [done|]. split; [by rewrite Hpurge|].
  refine (iterator_keeps_values (fun s => s) 1%positive 7 5 1 [Byte.x6b; Byte.x31] example_index example_read_record kNoCompression
    example_records ("/1"%string : @rafile mem_env) example_base (example_calls example_world_db []) (example_calls db2 [])
    _ _ example_watched eq_refl _).
  - split; cbn.
    + by rewrite map_fmap_singleton, map_to_list_singleton.
    + intros id s0 n [<- Heq]%lookup_singleton_Some. injection Heq as <- <-. split; [reflexivity|lia].
    + intros id ->%list_elem_of_singleton. rewrite lookup_singleton_eq. by eexists.
  - reflexivity.
  - assert (Hown : forall db pu, 1%positive ∈ omap si_snap (c_iters (example_calls db pu))) by (intros; apply list_elem_of_omap; eexists; split; [by apply list_elem_of_singleton|reflexivity]).
    apply (rtc_l _ _ (example_calls db1 [])); [split; [by eapply cs_world; [by eapply ws_collection|]|apply Hown]|].
    apply (rtc_l _ _ (example_calls db1 [7])); [split; [eapply cs_world; [exact (ws_purge_asks _ _ db1 example_base [7] [])|done]|apply Hown]|].
    apply rtc_once. split; [|apply Hown]. apply cs_world; [|done]. by apply (ws_purge_collects _ _ db1 example_base [7] [] 7 [] s2).
Defined.
End witnesses.
